(* ===== verification/_CoqProject ===== *)
-Q . S2P
Prelude.v
Bytes.v
Io.v
Serde.v
Common.v
Fs.v
Model.v
Store.v
Crypto.v
Config.v
Fl.v
Failure.v
Telemetry.v
Policy.v
Engine.v
RateLimiter.v
Http.v
Rendezvous.v
Render.v
Server.v
Subscription.v
Deployment.v
Service.v
Anyhow.v
Selftest.v
Admin.v
Rotate.v
Backup.v
Keytool.v
Native.v
Session.v
Socks.v
TestService.v
Interop.v
Relay.v
Tunnel.v
Listener.v
Daemon.v
Redact.v
Status.v
Perf.v
Summaries.v
Doctor.v
Report.v
Cli.v
Blind.v
Lock.v
Startup.v
Lifecycle.v
