(* ===== verification/Prelude.v ===== *)
(** * A verification of vpn1

    vpn1 is a VPN in two halves that share a workspace.

    - The _native_ half: clients pin a root key, fetch a signed bundle of relays
      from a rendezvous service, and connect through the transport that a
      scoring policy selects, under a guard against retry storms and a kill
      switch.
    - The _compatibility_ half: one server runs sing-box for off-the-shelf
      clients.  An operator tool (vpn-admin) keeps the users in [users.json],
      renders the server's configuration from them, swaps it in and reloads the
      server; a subscription service hands each user the matching client
      configuration.

    ** Files, parts and correspondence

    Foundations:
    - [Prelude]: results ([Result<A, E>]), machine-integer bounds, tactics
      ([inv_result], [split_tests]).
    - [Bytes]: bytes, big-endian integers, UTF-8, and the [str] methods the
      sources call.  A Rust [String] is its sequence of bytes.
    - [Io]: I/O errors and asynchronous streams, as classes with laws.
    - [Serde]: [serde_json] and [hex] as classes with laws, and concrete
      instances of both.
    - [Fs]: the file system.  A path is its list of components; the disk maps
      paths to files and directories with mode, owner and group.  Every system
      call meets the fault that the world's oracle prescribes, a failing write
      leaves a prefix, and the world records every state of the disk (so a crash
      at any point is one of them) and every external command with the disk it
      saw.  [keeps p m] (a computation never touches [p]), [runs P m] (which
      commands it runs) and [rename_commits] (write beside, then rename) carry
      the proofs about files.
    - [Fl]: IEEE single and double precision as the sources compute with it:
      exact values scaled to integers, with rounding to nearest even.
    - [Http]: responses and their headers.

    The native half:
    - [Common]: crates/common (lib.rs, framing.rs): the destination header that
      precedes each relayed stream, decoded from a buffer and from a stream.
    - [Crypto]: crates/crypto: key files, certificates; ed25519 is a class.
    - [Config]: crates/config: signed bundles ([bundle_sign], [verify_bundle])
      and revocation lists.
    - [Failure]: crates/network-state, crates/transport-api and
      crates/failure-classifier: failure categories, the connection state
      machine, the shutdown guard.
    - [Policy]: crates/policy: scores, quarantine, selection, kill switch.
    - [Engine]: apps/client-daemon/src/engine.rs: the retry loop over guard,
      policy and dialling.
    - [RateLimiter]: the token buckets of both services (services/rendezvous
      and services/subscription, lib.rs).
    - [Rendezvous]: services/rendezvous/src/lib.rs and
      crates/rendezvous-client: issuing bundles, fetching, verifying, caching.
    - [Keytool]: apps/keytool, apps/cli and services/rendezvous/src/main.rs: the
      key ceremony, the files it leaves, and the service started from them.
    - [Native]: crates/transport-native: dialling over TLS and QUIC with the
      certificate pin, the relay's identity files and what its listeners present.
    - [Session]: the [Session] trait and [Capabilities] of crates/transport-api,
      and the two implementations, as a class with its laws; the halves into
      which they are split, and the streams of QUIC.
    - [Telemetry]: crates/telemetry: the schema of events.
    - [Socks]: apps/client-daemon/src/socks.rs: the SOCKS5 session, over
      scripted sockets, and the listener.
    - [TestService]: services/test-service: its one answer.
    - [Interop]: the SOCKS probe of [Selftest] run against the server of [Socks].
    - [Relay]: services/relay-agent: one relayed session (header, dial,
      forwarding in both directions, idle timeout), chained over hops, and what
      a relay starts with (main.rs).
    - [Tunnel]: client daemon, chain of relays and service as one run, in both
      directions.
    - [Listener]: the relay's accept loop, as a step relation over slots, phases
      and deadlines.
    - [Daemon]: apps/client-daemon/src/main.rs: start-up, the engine it builds
      and the SOCKS sessions over it.

    The compatibility half:
    - [Model]: crates/compat-config model.rs, secret.rs and the errors.
    - [Store]: store.rs, migrate.rs, ownership.rs: [users.json].
    - [Render]: credentials.rs and render.rs: credentials, share links, client
      configurations.
    - [Server]: server.rs: the server's configuration and its safe swap.
    - [Subscription]: services/subscription/src/lib.rs: the handlers and routes.
    - [Deployment]: deployment.rs: the deployment's settings and their migration.
    - [Service]: apps/admin/src/service.rs: the systemctl calls.
    - [Startup]: services/subscription/src/main.rs: what the service caches when
      it starts.
    - [Lifecycle]: the user commands, [users.json] and the subscription service
      together: the table of accounts that they implement.

    The operator tool, apps/admin/src/main.rs:
    - [Anyhow]: its errors, with their contexts and causes.
    - [Selftest]: the handshake self-tests: the throwaway client, the SOCKS probe
      through it and the server's journal.
    - [Admin]: initialisation, publishing a change of the users with its
      rollbacks, the user commands.
    - [Rotate]: rotation of the REALITY keys and of the obfuscation password, a
      transaction with backups.
    - [Backup]: backup and restore, with the checks on the archive.
    - [Redact]: the redaction of diagnostic reports.
    - [Status]: what status, version and doctor read from the machine.
    - [Perf]: the measurements of doctor --performance.
    - [Summaries]: what doctor says in the end, with --telegram and --client.
    - [Doctor]: every check of doctor, its report and its exit status.
    - [Report]: the diagnostic bundle of doctor --report.
    - [Cli]: main: commands, the state lock (lock.rs), the config commands.
    - [Blind]: no command looks at the ghost history that the model of the file
      system keeps, so the run of a command depends on the disk alone.
    - [Lock]: any number of invocations at once, as a step relation: each process
      runs the program of main ([main_prog], proved to be [main]), the system has
      one disk and the kernel's table of flock, and a process waits for the lock
      file only where its program calls flock.

    Each definition has the name of the function it translates; a function over
    files is an [IO] computation (world in, result and world out) with the same
    calls in the same order, early returns included; a handler or method on
    [&mut self] takes and returns its state.  A long function is cut into
    definitions at the seams of its code.

    ** What the theorems show

    - Revocation works end to end: a disable that reports success and live
      leaves a running configuration that admits the user's client over neither
      transport, a failed change leaves [users.json] alone, and each result of a
      publication says truthfully what the server runs ([Admin]); the server
      admits exactly the active users whose client has the public key of its
      private key ([Server]), and the servers of a served subscription are
      exactly the endpoints, all of them admitted ([Subscription]).  The user commands implement a
      table of accounts with distinct identifiers; a token that was rotated or
      whose account was removed is refused from then on, and a request that
      falls into a change is answered as before it or as after it
      ([Lifecycle]).
    - Files survive crashes and faults: users, configuration and settings are
      replaced in one step by complete contents, keep their owner, and are backed
      up before migration ([Store], [Server], [Deployment]).  A failed rotation
      or restore gives the contents of every file back (but a rotation may leave
      an older backup where there was no configuration), a successful one leaves
      a coherent key pair ([Rotate], [Backup]).
    - Concurrent commands have the effect of running one after the other: those
      that take the lock because their programs call flock before they change
      anything and hold the lock until they exit ([Lock]), the others because
      they change nothing, but for the report that one of them is asked to write
      ([Cli]).  A command that cannot get the lock fails without a change.
      So operators who work at once see one table of accounts ([Lifecycle]).
    - Diagnosis: the doctor's exit status tells what it printed, two of its lines
      exclude that server, users, keys and subscription service disagree, and an
      acceptance run cannot pass unless a client fetched a page through each of
      the listeners ([Doctor], [Selftest]); a restarted service agrees with the
      files ([Startup]); hosts that differ in file contents only, keys and
      passwords included, yield the same diagnostic bundle, and no run of
      letters, digits, [-] and [_] in its log tail looks like a secret ([Report],
      [Redact]); the printed CPU figures
      are the true ones, rounded once ([Perf]); the summaries tell every outcome
      apart ([Summaries]).
    - Trust: an accepted bundle is authentic, in its window and unrevoked; what
      the service issues is accepted, also from the files of a key ceremony; the
      client returns nothing unverified; a daemon hands an application's bytes
      only to relays the root vouches for ([Config], [Rendezvous], [Crypto], [Keytool], [Daemon]).
    - Connecting: selection never returns a quarantined candidate and fails only
      if all are; scores stay in range in floating point and their counters count
      exactly until they saturate; the guard probes a dead network at a fixed
      rate; connecting is bounded, reports what happened and
      recovers; being offline is blamed on no TLS relay ([Policy], [Failure],
      [Engine], [Native]).
    - Tunnels: whatever a SOCKS client sends, what a chain of relays dials is the
      address it asked for, what arrives there is its payload, and what it is
      sent back is what was sent there; on a network that delivers everything
      both arrive whole ([Socks], [Interop], [Relay], [Tunnel]); sessions end; a
      relay never has more connections than slots, and silent ones leave
      unless they are being forwarded ([Relay], [Listener]); a restarted relay is still accepted by clients that
      pinned it ([Native]).
    - Limits: the rate limiter grants exactly its burst and stays bounded
      ([RateLimiter]); the wait for a reloaded service is bounded ([Service]).
    - Codecs: the destination header, labels, key files, bundles and stores
      round-trip ([Common], [Render], [Crypto], [Config], [Store]).

    Theorems with hypotheses have a witness beside them that applies them at a
    concrete input; code outside the repository (serde_json, toml, hex, sha256,
    base64, ed25519, X25519, the HTTP exchange, dialling) is a class or an
    argument whose laws are the documented ones, each with a concrete instance.

    The hypotheses of more than one theorem:
    - no call fails ([w_fault w n = None] for all [n]), where a theorem says what
      two commands read from the same disk; the theorems on safety hold under
      every pattern of failures;
    - [honest_faults]: a fault is never reported as a missing file, by which the
      rollbacks tell what is already gone; [apart] and [aside]: the
      paths of the deployment do not overlap;
    - [tls_verifies], [quic_verifies]: a handshake succeeds only with a certificate
      that the verifier passed to the library accepted;
    - [pump_copies], [copies_in_order], [copies_both_ways], [dials_fresh]: copying between sockets
      delivers a prefix of what was there to read, in order, and a new connection
      has carried nothing;
    - [key_shared]: the public key that a client is given is the one of the
      server's private key, by which [vless_admits] (the whole of what REALITY
      asks) differs from [vless_recognizes] (all of it but the key); that a
      client is locked out is stated with the second, that it is admitted with
      the first.  The key files that load are of this kind ([loaded_key_shared]);
    - [lock_ready], [deployment_ok] of [Lock], [operators_ok] of [Lifecycle]: the
      lock file exists, every command that changes state uses it, no unlocked
      command is asked for a report file, and the commands leave the lock file
      and the settings files alone.  The last is proved of the user commands
      ([user_spares]); `config migrate`, which may rewrite the settings file, is
      not among those that the theorem on concurrent commands covers then.

    ** Bounds and fuel

    Loops that are not structural take fuel that suffices: [strip] and
    [lossy_go] consume a byte a round and start with the length; [attempts] of
    the engine is bounded by [max_attempts], which is the loop's own bound;
    [verify_loop] gets eleven rounds, which [verify_rounds_bounded] shows to be
    all the code can make.  [fresh_user_id] reads a list of drawn identifiers
    and yields nothing when the list is used up.  [redact_loop], [token_end] and
    [split_ws] consume a byte a round and start with the length of the text;
    [copy_loop] of a session takes its fuel as an argument, and
    [idle_session_ends] shows that one round more than there are bytes to move
    is enough.  [client_binds] polls the client of a self-test for 22 rounds:
    [client_binds_fuel] shows that a clock which advances by the sleep between
    two rounds ends the loop by then.

    ** Not modelled

    The sockets, TLS and QUIC libraries themselves (their use is modelled, their
    behaviour is a parameter; the checks of handshake signatures are handed to
    rustls unchanged), the parsing of argument vectors, logging, printed text
    where it is not stated here (commands return the data their messages are made
    of), the HTTP servers and the matching of paths around the handlers, and the
    variants of functions for systems other than Unix.  The temporary file
    through which a self-test hands its client a configuration is outside the
    disk of the other components, an event of the run; the client process,
    [/proc], the network and the random bytes are parameters.

    Three simplifications: [Path::exists] tells the truth in this model, where in
    Rust it is false on every error of stat; in [Lock] the user commands are cut
    into actions where the store is read, the configuration published and the
    store written, while each other command is one action after its lock; and
    [fresh_user_id] ends when its list of draws does, where the code would draw
    again.

    What is left of the sources beyond this is their tests and benchmarks. *)

From stdpp Require Export prelude gmap strings list.
From Stdlib Require Export ZArith Lia.
From Stdlib Require Import Strings.Byte.

Declare Scope vpn_scope.
Delimit Scope vpn_scope with vpn.
Open Scope Z_scope.

(** ** Results

    Rust's [Result<A, E>], with the error type first so that it is a monad. *)
Inductive result (E A : Type) : Type :=
  | Ok (a : A)
  | Err (e : E).
Arguments Ok {E A} a.
Arguments Err {E A} e.

#[export] Instance result_ret E : MRet (result E) := fun A a => Ok a.
#[export] Instance result_bind E : MBind (result E) := fun A B f m =>
  match m with Ok a => f a | Err e => Err e end.
#[export] Instance result_fmap E : FMap (result E) := fun A B f m =>
  match m with Ok a => Ok (f a) | Err e => Err e end.

Definition map_err {E F A} (f : E -> F) (m : result E A) : result F A :=
  match m with Ok a => Ok a | Err e => Err (f e) end.
Definition ok_or {E A} (o : option A) (e : E) : result E A :=
  match o with Some a => Ok a | None => Err e end.
Definition ok {E A} (m : result E A) : option A :=
  match m with Ok a => Some a | Err _ => None end.
Definition is_ok {E A} (m : result E A) : bool :=
  match m with Ok _ => true | Err _ => false end.
Definition guard_err {E} (b : bool) (e : E) : result E unit :=
  if b then Ok tt else Err e.

#[export] Instance result_eq_dec {E A} `{EqDecision E, EqDecision A} :
  EqDecision (result E A).
Proof. solve_decision. Defined.

Lemma bind_Ok_inv {E A B} (m : result E A) (f : A -> result E B) b :
  (m ≫= f) = Ok b <-> exists a, m = Ok a /\ f a = Ok b.
Proof. destruct m; cbn; naive_solver. Qed.

Lemma bind_Err_inv {E A B} (m : result E A) (f : A -> result E B) e :
  (m ≫= f) = Err e <-> m = Err e \/ exists a, m = Ok a /\ f a = Err e.
Proof. destruct m; cbn; naive_solver. Qed.

Lemma map_err_Ok_inv {E F A} (f : E -> F) (m : result E A) a :
  map_err f m = Ok a <-> m = Ok a.
Proof. destruct m; cbn; naive_solver. Qed.

Lemma map_err_Err_inv {E F A} (f : E -> F) (m : result E A) x :
  map_err f m = Err x <-> exists e, m = Err e /\ x = f e.
Proof. destruct m; cbn; naive_solver. Qed.

Lemma guard_err_Ok_inv {E} b (e : E) u : guard_err b e = Ok u <-> b = true.
Proof. destruct b, u; cbn; naive_solver. Qed.

Lemma guard_err_Err_inv {E} b (e e' : E) :
  guard_err b e = Err e' <-> b = false /\ e' = e.
Proof. destruct b; cbn; naive_solver. Qed.

Lemma ok_or_Ok_inv {E A} (o : option A) (e : E) a : ok_or o e = Ok a <-> o = Some a.
Proof. destruct o; cbn; naive_solver. Qed.

(** Peels the binds of a computation whose outcome is known. *)
Ltac inv_result :=
  repeat match goal with
  | H : (_ ≫= _) = Ok _ |- _ => apply bind_Ok_inv in H; destruct H as (? & ? & H)
  | H : map_err _ _ = Ok _ |- _ => apply map_err_Ok_inv in H
  | H : guard_err _ _ = Ok _ |- _ => apply guard_err_Ok_inv in H
  | H : ok_or _ _ = Ok _ |- _ => apply ok_or_Ok_inv in H
  | H : Ok _ = Ok _ |- _ => injection H as H
  | H : Err _ = Err _ |- _ => injection H as H
  | H : Ok _ = Err _ |- _ => discriminate H
  | H : Err _ = Ok _ |- _ => discriminate H
  | H : mret _ = Ok _ |- _ => injection H as H
  end.

(** Splits every boolean test and match a goal still contains. *)
Ltac split_tests :=
  repeat (case_match || case_decide); simplify_eq/=; try done.

(** ** Machine integers *)

Definition u8_max : Z := 255.
Definition u16_max : Z := 65535.
Definition u32_max : Z := 4294967295.
Definition u64_max : Z := 18446744073709551615.

(** [uN::saturating_add] *)
Definition saturating_add (max a b : Z) : Z := Z.min max (a + b).
(** [uN::checked_add] *)
Definition checked_add (max a b : Z) : option Z :=
  if a + b <=? max then Some (a + b) else None.

Lemma saturating_add_bounds max a b :
  0 <= a <= max -> 0 <= b -> a <= saturating_add max a b <= max.
Proof. unfold saturating_add. lia. Qed.

(** ** Lists *)
Lemma filter_all {A} (P : A -> Prop) `{forall x, Decision (P x)} l : Forall P l -> filter P l = l.
Proof. induction 1; [done|]. rewrite filter_cons_True by done. congruence. Qed.
Lemma filter_none {A} (P : A -> Prop) `{forall x, Decision (P x)} l :
  Forall (fun x => ~ P x) l -> filter P l = [].
Proof. induction 1; [done|]. by rewrite filter_cons_False. Qed.

(** ** Tuples *)
Lemma tuple4_eta {A B C D : Type} (x : A * B * C * D) : x = (x.1.1.1, x.1.1.2, x.1.2, x.2).
Proof. by destruct x as [[[]]]. Qed.
