(* ===== verification/Bytes.v ===== *)
(** * Bytes and strings

    The standard-library data the rest of the development computes with:
    bytes ([u8]) and their big-endian encodings, UTF-8 validity as
    [std::str::from_utf8] decides it, and the [str] methods the sources call
    ([trim], [lines], [starts_with], [strip_prefix]).  A Rust [String] is a
    Rocq [string], i.e. its sequence of bytes. *)

From S2P Require Import Prelude.
From Stdlib Require Import Strings.Byte Strings.Ascii.

Notation byte := Byte.byte.
Notation bytes := (list Byte.byte).

#[export] Instance byte_eq_dec : EqDecision byte := Byte.byte_eq_dec.
#[export] Instance byte_countable : Countable byte :=
  inj_countable Byte.to_N Byte.of_N Byte.of_to_N.
#[export] Instance byte_inhabited : Inhabited byte := populate x00.

Definition byte_val (b : byte) : Z := Z.of_N (Byte.to_N b).
Definition byte_of (z : Z) : byte :=
  default x00 (Byte.of_N (Z.to_N (z mod 256))).

Lemma byte_val_range b : 0 <= byte_val b < 256.
Proof. unfold byte_val. pose proof (Byte.to_N_bounded b). lia. Qed.

Lemma byte_of_val b : byte_of (byte_val b) = b.
Proof.
  unfold byte_of. rewrite Z.mod_small by apply byte_val_range.
  unfold byte_val. by rewrite N2Z.id, Byte.of_to_N.
Qed.

Lemma byte_val_of z : byte_val (byte_of z) = z mod 256.
Proof.
  unfold byte_of, byte_val.
  pose proof (Z.mod_pos_bound z 256 ltac:(lia)).
  destruct (Byte.of_N _) as [b|] eqn:E; cbn.
  - apply Byte.to_of_N in E. rewrite E. lia.
  - apply Byte.of_N_None_iff in E. lia.
Qed.

Lemma byte_val_inj a b : byte_val a = byte_val b -> a = b.
Proof. intros H. by rewrite <-(byte_of_val a), H, byte_of_val. Qed.

(** ** Big-endian integers: [uN::to_be_bytes] and [uN::from_be_bytes] *)

Fixpoint to_be_bytes (n : nat) (z : Z) : bytes :=
  match n with
  | O => []
  | S k => byte_of (z / 256 ^ Z.of_nat k) :: to_be_bytes k z
  end.

Fixpoint from_be_bytes (l : bytes) : Z :=
  match l with
  | [] => 0
  | b :: t => byte_val b * 256 ^ Z.of_nat (length t) + from_be_bytes t
  end.

Lemma length_to_be_bytes n z : length (to_be_bytes n z) = n.
Proof. induction n; cbn; congruence. Qed.

Lemma from_be_bytes_range l : 0 <= from_be_bytes l < 256 ^ Z.of_nat (length l).
Proof.
  induction l as [|b t IH]; cbn -[Z.pow Z.of_nat]; [lia|].
  rewrite Nat2Z.inj_succ, Z.pow_succ_r by lia.
  pose proof (byte_val_range b). nia.
Qed.

Lemma from_to_be_bytes_mod n z :
  from_be_bytes (to_be_bytes n z) = z mod 256 ^ Z.of_nat n.
Proof.
  induction n as [|k IH]; cbn -[Z.pow Z.of_nat].
  { by rewrite Z.mod_1_r. }
  rewrite IH, byte_val_of, length_to_be_bytes.
  rewrite Nat2Z.inj_succ, Z.pow_succ_r, (Z.mul_comm 256) by lia.
  rewrite Z.rem_mul_r by lia. lia.
Qed.

Lemma from_to_be_bytes n z :
  0 <= z < 256 ^ Z.of_nat n -> from_be_bytes (to_be_bytes n z) = z.
Proof. intros. rewrite from_to_be_bytes_mod. by apply Z.mod_small. Qed.

Lemma to_be_bytes_add_high n z q :
  to_be_bytes n (q * 256 ^ Z.of_nat n + z) = to_be_bytes n z.
Proof.
  revert q. induction n as [|k IH]; intros q; cbn -[Z.pow Z.of_nat]; [done|].
  rewrite Nat2Z.inj_succ, Z.pow_succ_r by lia. f_equal.
  - apply byte_val_inj. rewrite !byte_val_of.
    replace (q * (256 * 256 ^ Z.of_nat k) + z)
      with (z + (q * 256) * 256 ^ Z.of_nat k) by ring.
    rewrite Z.div_add by lia.
    replace (z / 256 ^ Z.of_nat k + q * 256)
      with (z / 256 ^ Z.of_nat k + q * 256) by ring.
    by rewrite Z.mod_add by lia.
  - replace (q * (256 * 256 ^ Z.of_nat k)) with ((q * 256) * 256 ^ Z.of_nat k) by ring.
    apply IH.
Qed.

Lemma to_from_be_bytes l : to_be_bytes (length l) (from_be_bytes l) = l.
Proof.
  induction l as [|b t IH]; cbn -[Z.pow Z.of_nat]; [done|]. f_equal.
  - rewrite Z.div_add_l by lia.
    rewrite Z.div_small by apply from_be_bytes_range.
    by rewrite Z.add_0_r, byte_of_val.
  - by rewrite to_be_bytes_add_high.
Qed.

Lemma to_be_bytes_inj n a b :
  0 <= a < 256 ^ Z.of_nat n -> 0 <= b < 256 ^ Z.of_nat n ->
  to_be_bytes n a = to_be_bytes n b -> a = b.
Proof.
  intros Ha Hb H. apply (f_equal from_be_bytes) in H.
  by rewrite !from_to_be_bytes in H.
Qed.

(** ** Strings as byte sequences *)

(** [str::as_bytes] *)
Definition as_bytes (s : string) : bytes := String.list_byte_of_string s.
Definition str_of_bytes (l : bytes) : string := String.string_of_list_byte l.
(** [str::len]: the length in bytes. *)
Definition str_len (s : string) : Z := Z.of_nat (String.length s).

Lemma str_of_as_bytes s : str_of_bytes (as_bytes s) = s.
Proof. apply String.string_of_list_byte_of_string. Qed.
Lemma as_bytes_str_of l : as_bytes (str_of_bytes l) = l.
Proof. apply String.list_byte_of_string_of_list_byte. Qed.

Lemma length_as_bytes s : length (as_bytes s) = String.length s.
Proof.
  unfold as_bytes, String.list_byte_of_string. rewrite length_map.
  induction s; cbn; congruence.
Qed.

Lemma as_bytes_app s t : as_bytes (s +:+ t) = as_bytes s ++ as_bytes t.
Proof.
  unfold as_bytes, String.list_byte_of_string.
  rewrite <-map_app. f_equal.
  induction s as [|a s IH]; [done|].
  change (a :: String.list_ascii_of_string (s +:+ t)
          = a :: String.list_ascii_of_string s ++ String.list_ascii_of_string t).
  by rewrite IH.
Qed.

Lemma str_length_app s t :
  String.length (s +:+ t) = (String.length s + String.length t)%nat.
Proof.
  induction s as [|a s IH]; [done|].
  change (S (String.length (s +:+ t)) = S (String.length s + String.length t)).
  by rewrite IH.
Qed.

Lemma str_app_ne_suffix s t : t <> "" -> s +:+ t <> s.
Proof.
  intros Ht H. apply (f_equal String.length) in H.
  rewrite str_length_app in H. destruct t; cbn in H; [done|lia].
Qed.

(** ** UTF-8 validity ([std::str::from_utf8])

    The well-formed byte sequences of the Unicode standard (table 3-7): no
    overlong forms, no surrogates, nothing above U+10FFFF. *)
Definition cont (b : byte) : bool := (128 <=? byte_val b) && (byte_val b <=? 191).
Definition in_range (lo hi : Z) (b : byte) : bool :=
  (lo <=? byte_val b) && (byte_val b <=? hi).

Fixpoint utf8_valid (l : bytes) : bool :=
  match l with
  | [] => true
  | b :: t =>
    if in_range 0 127 b then utf8_valid t
    else if in_range 194 223 b then
      match t with
      | c1 :: t' => cont c1 && utf8_valid t'
      | _ => false
      end
    else if in_range 224 239 b then
      match t with
      | c1 :: c2 :: t' =>
        (if byte_val b =? 224 then in_range 160 191 c1
         else if byte_val b =? 237 then in_range 128 159 c1
         else cont c1) && cont c2 && utf8_valid t'
      | _ => false
      end
    else if in_range 240 244 b then
      match t with
      | c1 :: c2 :: c3 :: t' =>
        (if byte_val b =? 240 then in_range 144 191 c1
         else if byte_val b =? 244 then in_range 128 143 c1
         else cont c1) && cont c2 && cont c3 && utf8_valid t'
      | _ => false
      end
    else false
  end.

(** [String::from_utf8] and [std::str::from_utf8(..).to_string()] *)
Definition from_utf8 (l : bytes) : option string :=
  if utf8_valid l then Some (str_of_bytes l) else None.

Lemma from_utf8_Some l s : from_utf8 l = Some s <-> utf8_valid l = true /\ as_bytes s = l.
Proof.
  unfold from_utf8. destruct (utf8_valid l); split.
  - intros [= <-]. by rewrite as_bytes_str_of.
  - intros [_ <-]. by rewrite str_of_as_bytes.
  - done.
  - by intros [? _].
Qed.

(** A Rust [str] holds valid UTF-8. *)
Definition is_str (s : string) : Prop := utf8_valid (as_bytes s) = true.

Example utf8_accepts_cyrillic : utf8_valid (as_bytes "чёрт.com") = true.
Proof. vm_compute. reflexivity. Qed.
Example utf8_rejects_overlong : utf8_valid [xc0; x80] = false.
Proof. vm_compute. reflexivity. Qed.
Example utf8_rejects_surrogate : utf8_valid [xed; xa0; x80] = false.
Proof. vm_compute. reflexivity. Qed.

(** ** [str::trim]

    [char::is_whitespace] is Unicode's White_Space; [ws_len l] is the length of
    the encoded white-space character that [l] starts with, or 0, and
    [ws_len_rev] the same for the reversed bytes. *)
Definition vals (l : bytes) : list Z := byte_val <$> l.

Definition ws_code (v : list Z) : bool :=
  match v with
  | [a] => ((9 <=? a) && (a <=? 13)) || (a =? 32)
  | [a; b] => (a =? 194) && ((b =? 133) || (b =? 160))
  | [a; b; c] =>
      ((a =? 225) && (b =? 154) && (c =? 128)) ||
      ((a =? 226) && (b =? 128) &&
        (((128 <=? c) && (c <=? 138)) || (c =? 168) || (c =? 169) || (c =? 175))) ||
      ((a =? 226) && (b =? 129) && (c =? 159)) ||
      ((a =? 227) && (b =? 128) && (c =? 128))
  | _ => false
  end.

Definition ws_len (l : bytes) : nat :=
  if ws_code (vals (take 1 l)) then 1
  else if ws_code (vals (take 2 l)) then 2
  else if ws_code (vals (take 3 l)) then 3 else 0.
Definition ws_len_rev (l : bytes) : nat :=
  if ws_code (vals (rev (take 1 l))) then 1
  else if ws_code (vals (rev (take 2 l))) then 2
  else if ws_code (vals (rev (take 3 l))) then 3 else 0.

Fixpoint strip (f : bytes -> nat) (fuel : nat) (l : bytes) : bytes :=
  match fuel with
  | O => l
  | S k => match f l with O => l | n => strip f k (drop n l) end
  end.
(** Each round removes at least one byte, so the length is enough fuel. *)
Definition trim_bytes (l : bytes) : bytes :=
  let l := strip ws_len (length l) l in
  rev (strip ws_len_rev (length l) (rev l)).
Definition trim (s : string) : string := str_of_bytes (trim_bytes (as_bytes s)).

(** The visible ASCII characters. *)
Definition graphic (b : byte) : Prop := 33 <= byte_val b <= 126.

(** [str::trim_start] *)
Definition trim_start_bytes (l : bytes) : bytes := strip ws_len (length l) l.

(** ** [str::lines], [str::starts_with], [str::strip_prefix] *)
Definition nl : byte := x0a.
(** [split_inclusive('\n')]: each piece but the last ends in a newline. *)
Fixpoint split_inclusive_nl (l : bytes) : list bytes :=
  match l with
  | [] => []
  | b :: t =>
    if Byte.eqb b nl then [b] :: split_inclusive_nl t
    else match split_inclusive_nl t with
         | [] => [[b]]
         | x :: r => (b :: x) :: r
         end
  end.
(** A line without its ["\n"] or ["\r\n"]. *)
Definition strip_eol (l : bytes) : bytes :=
  match rev l with
  | x0a :: x0d :: r => rev r
  | x0a :: r => rev r
  | _ => l
  end.
Definition lines_bytes (l : bytes) : list bytes := strip_eol <$> split_inclusive_nl l.
Fixpoint strip_prefix_bytes (p l : bytes) : option bytes :=
  match p, l with
  | [], _ => Some l
  | a :: p, b :: l => if Byte.eqb a b then strip_prefix_bytes p l else None
  | _ :: _, [] => None
  end.
Definition starts_with_bytes (p l : bytes) : bool := bool_decide (is_Some (strip_prefix_bytes p l)).
(** [str::contains] *)
Fixpoint contains_bytes (p l : bytes) : bool :=
  starts_with_bytes p l || match l with [] => false | _ :: t => contains_bytes p t end.
Definition str_contains (p s : string) : bool := contains_bytes (as_bytes p) (as_bytes s).
Definition crlf : string := str_of_bytes [x0d; x0a].

Lemma strip_prefix_app p l : strip_prefix_bytes p (p ++ l) = Some l.
Proof. induction p as [|a p IH]; [done|]. cbn. by rewrite (Byte.byte_dec_lb eq_refl). Qed.

(** A first line with no newline in it is split off whole. *)
Lemma split_inclusive_line x l :
  Forall (fun b => b <> nl) x -> split_inclusive_nl (x ++ nl :: l) = (x ++ [nl]) :: split_inclusive_nl l.
Proof.
  induction 1 as [|b x Hb Hx IH]; [done|]. cbn. destruct (Byte.eqb b nl) eqn:E.
  { by apply Byte.byte_dec_bl in E. }
  by rewrite IH.
Qed.

Lemma ws_len_graphic_head b l : graphic b -> ws_len (b :: l) = 0%nat.
Proof.
  unfold graphic. intros H. unfold ws_len.
  assert (forall n, ws_code (vals (take (S n) (b :: l))) = false) as Hc; [|by rewrite !Hc].
  intros n. change (vals (take (S n) (b :: l))) with (byte_val b :: vals (take n l)).
  destruct (vals (take n l)) as [|c [|d [|? ?]]]; cbn [ws_code]; [lia..|done].
Qed.

Lemma graphic_utf8 l : Forall graphic l -> utf8_valid l = true.
Proof.
  induction 1 as [|b l Hb Hl IH]; [done|]. unfold graphic in Hb. cbn [utf8_valid].
  replace (in_range 0 127 b) with true by (unfold in_range; lia). done.
Qed.

Lemma ws_code_graphic v : Forall (fun x => 33 <= x <= 126) v -> ws_code v = false.
Proof.
  intros H. destruct v as [|a [|b [|c [|? ?]]]]; try done; cbn [ws_code]; inversion_clear H;
    repeat match goal with H : Forall _ (_ :: _) |- _ => inversion_clear H end; lia.
Qed.

Lemma graphic_vals l : Forall graphic l -> Forall (fun x => 33 <= x <= 126) (vals l).
Proof. intros H. apply Forall_fmap. exact H. Qed.

Lemma ws_len_graphic l : Forall graphic l -> ws_len l = 0%nat /\ ws_len_rev l = 0%nat.
Proof.
  intros H. unfold ws_len, ws_len_rev.
  split; rewrite !ws_code_graphic;
    auto using graphic_vals, Forall_take, Forall_rev.
Qed.

(** Text of graphic ASCII characters has nothing to trim. *)
Lemma trim_graphic s : Forall graphic (as_bytes s) -> trim s = s.
Proof.
  intros H. unfold trim, trim_bytes.
  assert (forall f l, f l = 0%nat -> strip f (length l) l = l) as Hs.
  { intros f l E. destruct (length l); cbn; [done|]. by rewrite E. }
  rewrite (Hs _ _ (proj1 (ws_len_graphic _ H))), <-length_rev.
  rewrite (Hs _ _ (proj2 (ws_len_graphic _ (Forall_rev H)))).
  by rewrite rev_involutive, str_of_as_bytes.
Qed.

(** Trimming twice is trimming once. *)
Lemma strip_end f fuel l : f [] = 0%nat -> (length l <= fuel)%nat -> f (strip f fuel l) = 0%nat.
Proof.
  intros H0. revert l. induction fuel as [|fuel IH]; intros l Hl; cbn.
  - destruct l; [done|]. cbn in Hl. lia.
  - destruct (f l) as [|n] eqn:E; [done|]. apply IH. rewrite length_drop. lia.
Qed.
Lemma strip_none f fuel l : f l = 0%nat -> strip f fuel l = l.
Proof. intros E. destruct fuel; cbn; [done|]. by rewrite E. Qed.
Lemma strip_drop f fuel l : exists n, strip f fuel l = drop n l.
Proof.
  revert l. induction fuel as [|fuel IH]; intros l; cbn; [by exists 0%nat|].
  destruct (f l) as [|n]; [by exists 0%nat|]. destruct (IH (drop (S n) l)) as [m ->]. exists (S n + m)%nat. by rewrite drop_drop.
Qed.
(** What does not start with white space does not after losing its end. *)
Lemma ws_len_prefix a b : ws_len (a ++ b) = 0%nat -> ws_len a = 0%nat.
Proof.
  unfold ws_len, vals. destruct a as [|x [|y [|z a]]]; [done|..]; rewrite ?fmap_cons; cbn -[ws_code].
  - rewrite take_0. cbn -[ws_code]. by destruct (ws_code [byte_val x]).
  - rewrite take_0. cbn -[ws_code]. by destruct (ws_code [byte_val x]), (ws_code [byte_val x; byte_val y]).
  - rewrite take_0. done.
Qed.
Lemma trim_bytes_idem l : trim_bytes (trim_bytes l) = trim_bytes l.
Proof.
  unfold trim_bytes at 2 3. cbv zeta. set (l1 := strip ws_len (length l) l).
  assert (ws_len l1 = 0%nat) as H1 by (by apply strip_end).
  set (r := strip ws_len_rev (length l1) (rev l1)).
  assert (ws_len_rev r = 0%nat) as H2 by (apply strip_end; [done|]; by rewrite length_rev).
  assert (ws_len (rev r) = 0%nat) as H3.
  { destruct (strip_drop ws_len_rev (length l1) (rev l1)) as [n Hn]. fold r in Hn.
    apply (ws_len_prefix _ (rev (take n (rev l1)))). rewrite Hn, <-rev_app_distr, take_drop, rev_involutive. done. }
  unfold trim_bytes. cbv zeta. rewrite (strip_none ws_len _ _ H3). rewrite strip_none; [by rewrite rev_involutive|]. by rewrite rev_involutive.
Qed.
Lemma trim_idem s : trim (trim s) = trim s.
Proof. unfold trim. by rewrite as_bytes_str_of, trim_bytes_idem. Qed.

(** ** [String::from_utf8_lossy]

    [utf8_chunk l]: whether [l] starts with a complete character, and how many
    bytes that character, or the maximal ill-formed piece, takes. *)
Definition utf8_chunk (l : bytes) : bool * nat :=
  match l with
  | [] => (true, 0%nat)
  | b :: t =>
    let at_ n (p : byte -> bool) := match t !! n with Some c => p c | None => false end in
    if in_range 0 127 b then (true, 1%nat)
    else if in_range 194 223 b then if at_ 0%nat cont then (true, 2%nat) else (false, 1%nat)
    else if in_range 224 239 b then
      if negb (at_ 0%nat (if byte_val b =? 224 then in_range 160 191
                          else if byte_val b =? 237 then in_range 128 159 else cont))
      then (false, 1%nat)
      else if at_ 1%nat cont then (true, 3%nat) else (false, 2%nat)
    else if in_range 240 244 b then
      if negb (at_ 0%nat (if byte_val b =? 240 then in_range 144 191
                          else if byte_val b =? 244 then in_range 128 143 else cont))
      then (false, 1%nat)
      else if negb (at_ 1%nat cont) then (false, 2%nat)
      else if at_ 2%nat cont then (true, 4%nat) else (false, 3%nat)
    else (false, 1%nat)
  end.
Fixpoint lossy_go (fuel : nat) (l : bytes) : bytes :=
  match fuel, l with
  | S k, _ :: _ =>
    let '(ok, n) := utf8_chunk l in
    (if ok then take n l else [xef; xbf; xbd]) ++ lossy_go k (drop n l)
  | _, _ => []
  end.
(** Every step consumes a byte, so the length is enough fuel. *)
Definition from_utf8_lossy (l : bytes) : string := str_of_bytes (lossy_go (length l) l).

Example lossy_replaces_stray_byte :
  as_bytes (from_utf8_lossy (as_bytes "ok" ++ [xff] ++ as_bytes "!")) =
  as_bytes "ok" ++ [xef; xbf; xbd] ++ as_bytes "!".
Proof. vm_compute. reflexivity. Qed.

(** The result is always well-formed. *)
Lemma utf8_chunk_valid l n rest :
  l <> [] -> utf8_chunk l = (true, n) -> utf8_valid (take n l ++ rest) = utf8_valid rest.
Proof.
  destruct l as [|b t]; [done|]. intros _. unfold utf8_chunk.
  destruct (in_range 0 127 b) eqn:E0; [intros [= <-]; cbn; by rewrite E0|].
  destruct (in_range 194 223 b) eqn:E1.
  { destruct t as [|c1 t]; cbn; [done|]. destruct (cont c1) eqn:Ec; [|done].
    intros [= <-]. cbn. by rewrite E0, E1, Ec. }
  destruct (in_range 224 239 b) eqn:E2.
  { destruct t as [|c1 t]; cbn; [done|]. set (p := (if byte_val b =? 224 then _ else _) c1).
    destruct p eqn:Ep; cbn; [|done]. destruct t as [|c2 t]; cbn; [done|]. destruct (cont c2) eqn:Ec; [|done].
    intros [= <-]. cbn. rewrite E0, E1, E2, Ec.
    subst p. destruct (byte_val b =? 224); [by rewrite Ep|]. destruct (byte_val b =? 237); by rewrite Ep. }
  destruct (in_range 240 244 b) eqn:E3; [|done].
  destruct t as [|c1 t]; cbn; [done|]. set (p := (if byte_val b =? 240 then _ else _) c1).
  destruct p eqn:Ep; cbn; [|done]. destruct t as [|c2 t]; cbn; [done|]. destruct (cont c2) eqn:Ec; [|done].
  destruct t as [|c3 t]; cbn; [done|]. destruct (cont c3) eqn:Ec3; [|done].
  intros [= <-]. cbn. rewrite E0, E1, E2, E3, Ec, Ec3.
  subst p. destruct (byte_val b =? 240); [by rewrite Ep|]. destruct (byte_val b =? 244); by rewrite Ep.
Qed.
Lemma lossy_valid l : is_str (from_utf8_lossy l).
Proof.
  unfold is_str, from_utf8_lossy. rewrite as_bytes_str_of. generalize (length l) as fuel.
  intros fuel. revert l. induction fuel as [|fuel IH]; intros l; [done|]. cbn [lossy_go].
  destruct l as [|b t] eqn:El; [done|]. rewrite <-El. destruct (utf8_chunk l) as [[] n] eqn:Ec.
  - rewrite (utf8_chunk_valid l n) by (subst; done). apply IH.
  - change (utf8_valid ([xef; xbf; xbd] ++ lossy_go fuel (drop n l))) with (utf8_valid (lossy_go fuel (drop n l))). apply IH.
Qed.
