(* ===== verification/Io.v ===== *)
(** * I/O errors and byte streams

    [std::io::Error] as its kind and message, and the two stream interfaces the
    protocol code is generic over: [AsyncRead] and [AsyncWrite] (tokio).  The
    streams themselves are code this repository does not contain, so each
    interface is a class of operations with the documented behaviour as laws;
    in-memory instances ([tokio::io::duplex] in the sources' tests) show the
    laws can hold. *)

From S2P Require Import Prelude Bytes.

(** The kinds the sources construct or match on; [OtherKind] is any other. *)
Inductive ErrorKind :=
  | NotFound | PermissionDenied | ConnectionRefused | ConnectionReset
  | ConnectionAborted | HostUnreachable | NetworkUnreachable | NetworkDown
  | AddrNotAvailable | AlreadyExists | WouldBlock | InvalidInput | InvalidData
  | TimedOut | Interrupted | UnexpectedEof | OtherKind.
#[export] Instance ErrorKind_eq_dec : EqDecision ErrorKind.
Proof. solve_decision. Defined.

Record io_error := IoError { kind : ErrorKind; raw_os_error : option Z; message : string }.
#[export] Instance io_error_eq_dec : EqDecision io_error.
Proof. solve_decision. Defined.

(** [io::Error::new(kind, message)] *)
Definition io_error_new (k : ErrorKind) (m : string) : io_error := IoError k None m.

(** ** [AsyncReadExt]: a stream and the bytes it will still deliver *)
Class AsyncRead (R : Type) := {
  remaining : R -> bytes;
  read_u8 : R -> result io_error (byte * R);
  read_u16 : R -> result io_error (Z * R);
  read_exact : nat -> R -> result io_error (bytes * R)
}.

(** Each read takes the next bytes in order, or fails when the stream ends
    before it has them ([read_u16] is big-endian). *)
Class AsyncReadLaws (R : Type) `{AsyncRead R} := {
  read_exact_ok n r : (n <= length (remaining r))%nat ->
    exists r', read_exact n r = Ok (take n (remaining r), r') /\
               remaining r' = drop n (remaining r);
  read_exact_short n r : (length (remaining r) < n)%nat ->
    exists e, read_exact n r = Err e;
  read_u8_exact r : read_u8 r =
    (p ← read_exact 1 r; Ok (hd Byte.x00 p.1, p.2));
  read_u16_exact r : read_u16 r =
    (p ← read_exact 2 r; Ok (from_be_bytes p.1, p.2))
}.

(** ** [AsyncWriteExt]: a stream and the bytes written to it so far *)
Class AsyncWrite (W : Type) := {
  written : W -> bytes;
  write_all : bytes -> W -> result io_error W
}.
Class AsyncWriteLaws (W : Type) `{AsyncWrite W} := {
  write_all_ok buf w w' : write_all buf w = Ok w' -> written w' = written w ++ buf
}.

(** ** A socket is both streams, and neither direction disturbs the other. *)
Class Duplex (S : Type) `{AsyncRead S, AsyncWrite S} := {
  duplex_read_laws :: AsyncReadLaws S;
  duplex_write_laws :: AsyncWriteLaws S;
  read_keeps_written n s x s' : read_exact n s = Ok (x, s') -> written s' = written s;
  write_keeps_remaining b s s' : write_all b s = Ok s' -> remaining s' = remaining s
}.

(** A stream reached through a field of another: delegation leaves the laws. *)
Section Delegation.
Context {A R W : Type} `{AsyncRead R, AsyncWrite W}.
Context (get_r : A -> R) (put_r : R -> A -> A) (get_w : A -> W) (put_w : W -> A -> A).

Definition read_via : AsyncRead A := {|
  remaining a := remaining (get_r a);
  read_u8 a := p ← read_u8 (get_r a); Ok (p.1, put_r p.2 a);
  read_u16 a := p ← read_u16 (get_r a); Ok (p.1, put_r p.2 a);
  read_exact n a := p ← read_exact n (get_r a); Ok (p.1, put_r p.2 a)
|}.
Definition write_via : AsyncWrite A := {|
  written a := written (get_w a);
  write_all b a := w ← write_all b (get_w a); Ok (put_w w a)
|}.

Lemma read_via_laws :
  AsyncReadLaws R -> (forall r a, get_r (put_r r a) = r) -> @AsyncReadLaws A read_via.
Proof.
  intros HR Hget. split; cbn.
  - intros n a Hn. destruct (read_exact_ok n (get_r a) Hn) as (r' & E & Hr). rewrite E. cbn.
    exists (put_r r' a). by rewrite Hget.
  - intros n a Hn. destruct (read_exact_short n (get_r a) Hn) as (e & E). rewrite E. by exists e.
  - intros a. rewrite read_u8_exact. by destruct (read_exact 1 (get_r a)).
  - intros a. rewrite read_u16_exact. by destruct (read_exact 2 (get_r a)).
Qed.
Lemma write_via_laws :
  AsyncWriteLaws W -> (forall w a, get_w (put_w w a) = w) -> @AsyncWriteLaws A write_via.
Proof.
  intros HW Hget. split. cbn. intros b a a'. destruct (write_all b (get_w a)) as [w|] eqn:E; [|done]. cbn.
  intros [= <-]. rewrite Hget. by apply write_all_ok.
Qed.
End Delegation.

(** ** In-memory streams *)
Definition mem_read_exact (n : nat) (r : bytes) : result io_error (bytes * bytes) :=
  if (n <=? length r)%nat then Ok (take n r, drop n r)
  else Err (io_error_new UnexpectedEof "early eof").

#[export] Instance mem_read : AsyncRead bytes := {|
  remaining r := r;
  read_exact := mem_read_exact;
  read_u8 r := p ← mem_read_exact 1 r; Ok (hd Byte.x00 p.1, p.2);
  read_u16 r := p ← mem_read_exact 2 r; Ok (from_be_bytes p.1, p.2)
|}.
#[export] Instance mem_read_laws : AsyncReadLaws bytes.
Proof.
  split; try done.
  - intros n r Hn. exists (drop n r). cbn in *. unfold mem_read_exact.
    by rewrite (proj2 (Nat.leb_le _ _) Hn).
  - intros n r Hn. cbn in *. unfold mem_read_exact.
    rewrite (proj2 (Nat.leb_gt _ _) Hn). by eexists.
Qed.

#[export] Instance mem_write : AsyncWrite bytes := {|
  written w := w;
  write_all buf w := Ok (w ++ buf)
|}.
#[export] Instance mem_write_laws : AsyncWriteLaws bytes.
Proof. split. by intros buf w w' [= <-]. Qed.

Section Streams.
Context {R : Type} `{AsyncReadLaws R}.

Lemma read_u8_cons r b t : remaining r = b :: t ->
  exists r', read_u8 r = Ok (b, r') /\ remaining r' = t.
Proof.
  intros E. destruct (read_exact_ok 1 r) as (r' & Hr & Hrem).
  { rewrite E. cbn. lia. }
  exists r'. rewrite read_u8_exact, Hr, Hrem, E. by destruct t.
Qed.

Lemma read_u16_cons r a b t : remaining r = a :: b :: t ->
  exists r', read_u16 r = Ok (from_be_bytes [a; b], r') /\ remaining r' = t.
Proof.
  intros E. destruct (read_exact_ok 2 r) as (r' & Hr & Hrem).
  { rewrite E. cbn. lia. }
  exists r'. rewrite read_u16_exact, Hr, Hrem, E. by destruct t.
Qed.

Lemma read_u8_nil r : remaining r = [] -> exists e, read_u8 r = Err e.
Proof.
  intros E. destruct (read_exact_short 1 r) as (e & He).
  { rewrite E. cbn. lia. }
  exists e. by rewrite read_u8_exact, He.
Qed.

Lemma read_u16_short r : (length (remaining r) < 2)%nat -> exists e, read_u16 r = Err e.
Proof.
  intros E. destruct (read_exact_short 2 r E) as (e & He).
  exists e. by rewrite read_u16_exact, He.
Qed.
End Streams.

(** ** Accept loops

    A listener by the results of its calls of [accept], in order: the sockets a
    loop of [listener.accept().await?] hands to tasks of their own, and the error
    it stops with ([None]: it waits for the next connection). *)
Fixpoint accept_loop {Sock : Type} (accepts : list (result io_error Sock)) : list Sock * option io_error :=
  match accepts with
  | [] => ([], None)
  | Err e :: _ => ([], Some e)
  | Ok socket :: accepts => let '(spawned, stop) := accept_loop accepts in (socket :: spawned, stop)
  end.

(** Every connection before the first error is served, in order, and none after
    it: a single failed [accept], of whatever kind, ends the loop. *)
Lemma accept_loop_spec {Sock : Type} (accepts : list (result io_error Sock)) :
  let '(spawned, stop) := accept_loop accepts in
  match stop with
  | None => accepts = Ok <$> spawned
  | Some e => exists later, accepts = (Ok <$> spawned) ++ Err e :: later
  end.
Proof.
  induction accepts as [|[socket|e] accepts IH]; cbn [accept_loop].
  - done.
  - destruct (accept_loop accepts) as [spawned [e|]].
    + destruct IH as [later ->]. by exists later.
    + by rewrite IH.
  - by exists accepts.
Qed.
