(* ===== verification/Serde.v ===== *)
(** * Serialization interfaces

    [serde_json], [toml] and [hex] are crates outside the repository.  The
    models take them as classes of functions; what the sources rely on is the
    documented law that parsing inverts printing. *)

From Stdlib Require Import Strings.Byte.
From S2P Require Import Prelude Bytes.

(** [serde_json::to_vec], [to_vec_pretty] and [from_slice] at one type. *)
Class Json (A : Type) := {
  to_vec : A -> result string bytes;
  to_vec_pretty : A -> result string bytes;
  from_slice : bytes -> result string A
}.
Class JsonLaws (A : Type) `{Json A} := {
  from_to_vec a b : to_vec a = Ok b -> from_slice b = Ok a;
  from_to_vec_pretty a b : to_vec_pretty a = Ok b -> from_slice b = Ok a
}.

(** [hex::encode] and [hex::decode]. *)
Class Hex := {
  hex_encode : bytes -> string;
  hex_decode : string -> result string bytes
}.
(** *** Hexadecimal digits, spelt out *)
Definition hex_digit (n : Z) : byte := byte_of (if n <? 10 then 48 + n else 87 + n).
Definition hex_value (b : byte) : option Z :=
  let v := byte_val b in
  if (48 <=? v) && (v <=? 57) then Some (v - 48)
  else if (97 <=? v) && (v <=? 102) then Some (v - 87)
  else if (65 <=? v) && (v <=? 70) then Some (v - 55)
  else None.
(** Decoding inverts encoding, and an encoding is two digits a byte. *)
Class HexLaws `{Hex} := {
  hex_decode_encode b : hex_decode (hex_encode b) = Ok b;
  hex_encode_length b : String.length (hex_encode b) = (2 * length b)%nat;
  hex_encode_digits b : Forall (fun c => is_Some (hex_value c)) (as_bytes (hex_encode b))
}.

Lemma hex_value_graphic c : is_Some (hex_value c) -> graphic c.
Proof.
  unfold hex_value, graphic. intros [v Hv].
  destruct ((48 <=? _) && _) eqn:E1; [lia|]. destruct ((97 <=? _) && _) eqn:E2; [lia|].
  destruct ((65 <=? _) && _) eqn:E3; [lia|done].
Qed.

Lemma hex_encode_graphic `{HexLaws} b : Forall graphic (as_bytes (hex_encode b)).
Proof. eapply Forall_impl; [apply hex_encode_digits|]. apply hex_value_graphic. Qed.

Fixpoint hex_bytes (b : bytes) : bytes :=
  match b with
  | [] => []
  | x :: t => hex_digit (byte_val x / 16) :: hex_digit (byte_val x mod 16) :: hex_bytes t
  end.
Fixpoint unhex_bytes (b : bytes) : result string bytes :=
  match b with
  | [] => Ok []
  | [_] => Err "Odd number of digits"
  | x :: y :: t =>
    match hex_value x, hex_value y with
    | Some h, Some l => r ← unhex_bytes t; Ok (byte_of (16 * h + l) :: r)
    | _, _ => Err "Invalid character"
    end
  end.
Definition plain_hex : Hex := Build_Hex
  (fun b => str_of_bytes (hex_bytes b)) (fun s => unhex_bytes (as_bytes s)).

Lemma byte_val_hex_digit n : 0 <= n < 16 ->
  byte_val (hex_digit n) = if n <? 10 then 48 + n else 87 + n.
Proof.
  intros H. unfold hex_digit. rewrite byte_val_of, Z.mod_small; [done|].
  destruct (n <? 10); lia.
Qed.

Lemma hex_value_digit n : 0 <= n < 16 -> hex_value (hex_digit n) = Some n.
Proof.
  intros H. unfold hex_value. rewrite byte_val_hex_digit by done.
  destruct (n <? 10) eqn:E; [apply Z.ltb_lt in E|apply Z.ltb_ge in E].
  - replace ((48 <=? 48 + n) && (48 + n <=? 57)) with true by lia. f_equal. lia.
  - replace ((48 <=? 87 + n) && (87 + n <=? 57)) with false by lia.
    replace ((97 <=? 87 + n) && (87 + n <=? 102)) with true by lia. f_equal. lia.
Qed.

Lemma nibble_ranges x : 0 <= byte_val x / 16 < 16 /\ 0 <= byte_val x mod 16 < 16.
Proof.
  pose proof (byte_val_range x). split; [|apply Z.mod_pos_bound; lia].
  split; [apply Z.div_pos|apply Z.div_lt_upper_bound]; lia.
Qed.

Lemma plain_hex_laws : HexLaws (H := plain_hex).
Proof.
  split; intros b; cbn [hex_decode hex_encode plain_hex].
  - rewrite as_bytes_str_of. induction b as [|x t IH]; [done|]. destruct (nibble_ranges x) as [H1 H2].
    cbn. rewrite !hex_value_digit, IH by done. cbn. repeat f_equal.
    rewrite <-Z.div_mod by done. apply byte_of_val.
  - rewrite <-length_as_bytes, as_bytes_str_of. induction b as [|x t IH]; [done|]. cbn. lia.
  - rewrite as_bytes_str_of. induction b as [|x t IH]; [constructor|].
    destruct (nibble_ranges x) as [H1 H2].
    cbn. repeat constructor; try exact IH; rewrite hex_value_digit by done; eauto.
Qed.

(** ** A concrete format

    A toy format for any countable type, tagged so that two shapes cannot be
    confused; the laws above hold of it, so no hypothesis on a format is empty. *)
Section Tagged.
Context (tag : byte) {A : Type} `{Countable A}.

Fixpoint bits_of (n : positive) : bytes :=
  match n with
  | xH => []
  | xO m => "0"%byte :: bits_of m
  | xI m => "1"%byte :: bits_of m
  end.
Fixpoint bits_to (b : bytes) : positive :=
  match b with
  | [] => xH
  | c :: t => if Byte.eqb c "0" then xO (bits_to t) else xI (bits_to t)
  end.

Definition tagged_write (a : A) : result string bytes := Ok (tag :: bits_of (encode a)).
Definition tagged_read (b : bytes) : result string A :=
  match b with
  | t :: rest => if Byte.eqb t tag then ok_or (decode (bits_to rest)) "malformed value"
                 else Err "unexpected shape"
  | [] => Err "unexpected end of input"
  end.
Definition tagged_json : Json A := Build_Json A tagged_write tagged_write tagged_read.

Lemma bits_to_of n : bits_to (bits_of n) = n.
Proof. induction n; cbn; congruence. Qed.

Lemma tagged_read_write a b : tagged_write a = Ok b -> tagged_read b = Ok a.
Proof.
  intros [= <-]. cbn. rewrite bits_to_of, decode_encode.
  by rewrite (Byte.byte_dec_lb eq_refl).
Qed.

Lemma tagged_json_laws : JsonLaws A (H := tagged_json).
Proof. split; apply tagged_read_write. Qed.
End Tagged.
