(* ===== verification/Common.v ===== *)
(** * crates/common: identifiers, time, duration buckets, destination framing

    [Framing] models crates/common/src/framing.rs: the header
    [version=1 | host_len: u16 BE | host | port: u16 BE] that names the
    destination of a relayed connection, as a buffer codec
    ([encode_destination], [decode_destination]) and over a stream
    ([write_destination], [read_destination]). *)

From stdpp Require Import pretty.
From S2P Require Import Prelude Bytes Io.

(** ** crates/common/src/lib.rs *)

(** [TransportId(&'static str)] and [EndpointId(String)]. *)
Record TransportId := MkTransportId { transport_str : string }.
Record EndpointId := MkEndpointId { endpoint_str : string }.
#[export] Instance TransportId_eq_dec : EqDecision TransportId.
Proof. solve_decision. Defined.
#[export] Instance EndpointId_eq_dec : EqDecision EndpointId.
Proof. solve_decision. Defined.
#[export] Instance TransportId_countable : Countable TransportId.
Proof. by refine (inj_countable' transport_str MkTransportId _); intros []. Defined.
#[export] Instance EndpointId_countable : Countable EndpointId.
Proof. by refine (inj_countable' endpoint_str MkEndpointId _); intros []. Defined.

(** [UnixSeconds(u64)] *)
Definition UnixSeconds := Z.
Definition saturating_add_secs (t : UnixSeconds) (secs : Z) : UnixSeconds :=
  saturating_add u64_max t secs.

Inductive DurationBucket := Under100Ms | Under500Ms | Under2s | Under10s | Over10s.

Definition from_millis (ms : Z) : DurationBucket :=
  if ms <=? 99 then Under100Ms
  else if ms <=? 499 then Under500Ms
  else if ms <=? 1999 then Under2s
  else if ms <=? 9999 then Under10s
  else Over10s.

(** ** crates/common/src/framing.rs *)
Module Framing.

Definition VERSION : Z := 1.
Definition MAX_HOST_LEN : Z := 255.

Inductive FramingError :=
  | UnsupportedVersion (v : Z)
  | HostTooLong (n : Z)
  | InvalidUtf8.

(** [impl Display for FramingError] *)
Definition display (e : FramingError) : string :=
  match e with
  | UnsupportedVersion v => "unsupported framing version " +:+ pretty v
  | HostTooLong n => "host length " +:+ pretty n +:+ " exceeds max " +:+ pretty MAX_HOST_LEN
  | InvalidUtf8 => "host is not valid utf-8"
  end.

Definition encode_destination (host : string) (port : Z) : result FramingError bytes :=
  let host_bytes := as_bytes host in
  let len := Z.of_nat (length host_bytes) in
  if MAX_HOST_LEN <? len then Err (HostTooLong len)
  else Ok ([byte_of VERSION] ++ to_be_bytes 2 len ++ host_bytes ++ to_be_bytes 2 port).

(** A panicking operation is [None]: [buf[i]] out of range, [&buf[a..b]] with
    [b] beyond the end. *)
Definition slice (buf : bytes) (a b : nat) : option bytes :=
  if (a <=? b)%nat && (b <=? length buf)%nat then Some (take (b - a) (drop a buf)) else None.

Definition decode_destination (buf : bytes)
    : option (result FramingError (option (string * Z * nat))) :=
  match buf with
  | [] => Some (Ok None)
  | _ =>
    version ← buf !! 0%nat;
    if negb (byte_val version =? VERSION) then Some (Err (UnsupportedVersion (byte_val version)))
    else if (length buf <? 3)%nat then Some (Ok None)
    else
      b1 ← buf !! 1%nat;
      b2 ← buf !! 2%nat;
      let host_len := from_be_bytes [b1; b2] in
      if MAX_HOST_LEN <? host_len then Some (Err (HostTooLong host_len))
      else
        let hl := Z.to_nat host_len in
        let needed := (3 + hl + 2)%nat in
        if (length buf <? needed)%nat then Some (Ok None)
        else
          host_bytes ← slice buf 3 (3 + hl);
          match from_utf8 host_bytes with
          | None => Some (Err InvalidUtf8)
          | Some host =>
            p1 ← buf !! (3 + hl)%nat;
            p2 ← buf !! (3 + hl + 1)%nat;
            Some (Ok (Some (host, from_be_bytes [p1; p2], needed)))
          end
  end.

Definition write_destination {W} `{AsyncWrite W} (w : W) (host : string) (port : Z)
    : result io_error W :=
  buf ← map_err (fun e => io_error_new InvalidInput (display e)) (encode_destination host port);
  write_all buf w.

Definition read_destination {R} `{AsyncRead R} (r : R) : result io_error (string * Z * R) :=
  '(version, r) ← read_u8 r;
  if negb (byte_val version =? VERSION) then
    Err (io_error_new InvalidData (display (UnsupportedVersion (byte_val version))))
  else
    '(host_len, r) ← read_u16 r;
    if MAX_HOST_LEN <? host_len then
      Err (io_error_new InvalidData (display (HostTooLong host_len)))
    else
      '(host_buf, r) ← read_exact (Z.to_nat host_len) r;
      host ← ok_or (from_utf8 host_buf) (io_error_new InvalidData (display InvalidUtf8));
      '(port, r) ← read_u16 r;
      Ok (host, port, r).

(** *** The wire format

    [header host port] is the byte string the format prescribes; the codec
    lemmas below are stated against it. *)
Definition header (host : string) (port : Z) : bytes :=
  byte_of VERSION :: to_be_bytes 2 (str_len host) ++ as_bytes host ++ to_be_bytes 2 port.

Definition valid_destination (host : string) (port : Z) : Prop :=
  is_str host /\ str_len host <= MAX_HOST_LEN /\ 0 <= port <= u16_max.

Lemma to_be_bytes_2 z : to_be_bytes 2 z = [byte_of (z / 256); byte_of z].
Proof. cbn. by rewrite Z.div_1_r. Qed.

Lemma from_be_bytes_2_range a b : 0 <= from_be_bytes [a; b] <= u16_max.
Proof. 
  pose proof (from_be_bytes_range [a; b]) as H.
  change (256 ^ Z.of_nat (length [a; b])) with 65536 in H. unfold u16_max. lia.
 Qed.

Lemma length_header host port : length (header host port) = (5 + String.length host)%nat.
Proof.
  unfold header. rewrite length_cons, !length_app, !length_to_be_bytes, length_as_bytes. lia.
Qed.

Lemma encode_header host port :
  encode_destination host port =
    if MAX_HOST_LEN <? str_len host then Err (HostTooLong (str_len host))
    else Ok (header host port).
Proof. unfold encode_destination, header, str_len. by rewrite length_as_bytes. Qed.

(** The decoder once the fixed part of the header is present. *)
Lemma decode_fixed_part v a b t :
  byte_val v = VERSION ->
  decode_destination (v :: a :: b :: t) =
    Some (let hl := Z.to_nat (from_be_bytes [a; b]) in
      if MAX_HOST_LEN <? from_be_bytes [a; b] then Err (HostTooLong (from_be_bytes [a; b]))
      else if (length t <? hl + 2)%nat then Ok None
      else match from_utf8 (take hl t) with
        | None => Err InvalidUtf8
        | Some h => Ok (Some (h, from_be_bytes (take 2 (drop hl t)), (3 + hl + 2)%nat))
        end).
Proof.
  intros Hv. unfold decode_destination. cbv zeta.
  cbn [lookup list_lookup mbind option_bind].
  rewrite Hv, Z.eqb_refl. cbn [negb].
  change (length (v :: a :: b :: t) <? 3)%nat with false. cbv iota.
  set (hl := Z.to_nat _). destruct (MAX_HOST_LEN <? _); [done|].
  change (length (v :: a :: b :: t) <? 3 + hl + 2)%nat with (length t <? hl + 2)%nat.
  destruct (Nat.ltb_spec (length t) (hl + 2)); [done|].
  unfold slice. cbn [length Nat.add drop].
  replace ((3 <=? S (S (S hl)))%nat && (S (S (S hl)) <=? S (S (S (length t))))%nat) with true.
  2:{ symmetry. apply andb_true_intro. split; apply Nat.leb_le; lia. }
  replace (S (S (S hl)) - 3)%nat with hl by lia. cbn [mbind option_bind]. rewrite drop_0.
  destruct (from_utf8 (take hl t)); [|done].
  assert (exists p1 p2 t', drop hl t = p1 :: p2 :: t') as (p1 & p2 & t' & E).
  { destruct (drop hl t) as [|p1 [|p2 t']] eqn:E;
      apply (f_equal length) in E; rewrite length_drop in E; cbn in E; try lia. eauto. }
  rewrite E. change (take 2 (p1 :: p2 :: t')) with [p1; p2].
  assert (t !! hl = Some p1 /\ t !! (hl + 1)%nat = Some p2) as [E1 E2].
  { rewrite <-(Nat.add_0_r hl) at 1. rewrite <-!lookup_drop, E. done. }
  change ((v :: a :: b :: t) !! S (S (S hl))) with (t !! hl).
  change ((v :: a :: b :: t) !! S (S (S (hl + 1)%nat))) with (t !! (hl + 1)%nat).
  by rewrite E1, E2.
Qed.

Lemma decode_short_or_foreign buf :
  (exists v a b t, buf = v :: a :: b :: t /\ byte_val v = VERSION) \/
  (exists v t, buf = v :: t /\ byte_val v <> VERSION /\
     decode_destination buf = Some (Err (UnsupportedVersion (byte_val v)))) \/
  ((length buf < 3)%nat /\ (forall v t, buf = v :: t -> byte_val v = VERSION) /\
     decode_destination buf = Some (Ok None)).
Proof.
  destruct buf as [|v t].
  { right; right. split; [cbn; lia|]. by split. }
  destruct (decide (byte_val v = VERSION)) as [Hv|Hv].
  - destruct t as [|a [|b t]].
    1,2: right; right; split; [cbn; lia|]; split; [by intros ?? [= <- <-]|];
      unfold decode_destination; cbn [lookup list_lookup mbind option_bind];
      by rewrite Hv.
    left. eauto 10.
  - right; left. exists v, t. split; [done|]. split; [done|].
    unfold decode_destination. cbn [lookup list_lookup mbind option_bind].
    apply Z.eqb_neq in Hv. by rewrite Hv.
Qed.

(** The decoder reads a header back, whatever follows it. *)
Lemma decode_header host port rest :
  valid_destination host port ->
  decode_destination (header host port ++ rest) =
    Some (Ok (Some (host, port, length (header host port)))).
Proof.
  intros (Hu & Hl & Hp). rewrite length_header.
  unfold header. rewrite !to_be_bytes_2. cbn [app]. rewrite decode_fixed_part; [|done].
  rewrite <-to_be_bytes_2, from_to_be_bytes by (unfold str_len, MAX_HOST_LEN in *; cbn; lia).
  rewrite (proj2 (Z.ltb_ge _ _) Hl). unfold str_len. rewrite Nat2Z.id. cbv zeta.
  rewrite <-!app_assoc, <-length_as_bytes, take_app_length, drop_app_length. cbn [app].
  rewrite (proj2 (Nat.ltb_ge _ _)) by (rewrite !length_app; cbn; lia).
  assert (from_utf8 (as_bytes host) = Some host) as -> by (by apply from_utf8_Some).
  change (take 2 (byte_of (port / 256) :: byte_of port :: rest)) with
    [byte_of (port / 256); byte_of port].
  rewrite <-to_be_bytes_2, from_to_be_bytes by (unfold u16_max in *; cbn; lia).
  do 4 f_equal. lia.
Qed.

(** The destination codec round-trips.  For a UTF-8 host of at most 255
    bytes and any 16-bit port, the header [encode_destination] produces,
    followed by arbitrary payload bytes, decodes to exactly that host and port,
    consuming exactly the header. *)
Theorem encode_decode_roundtrip host port rest :
  valid_destination host port ->
  exists buf, encode_destination host port = Ok buf /\
    decode_destination (buf ++ rest) = Some (Ok (Some (host, port, length buf))).
Proof.
  intros Hv. exists (header host port). rewrite encode_header.
  rewrite (proj2 (Z.ltb_ge _ _) (proj1 (proj2 Hv))).
  split; [done|]. by apply decode_header.
Qed.

Lemma encode_decode_roundtrip_witness :
  valid_destination "example.com" 443 /\
  exists buf, encode_destination "example.com" 443 = Ok buf /\
    decode_destination (buf ++ [Byte.x16; Byte.x03]) =
      Some (Ok (Some ("example.com", 443, length buf))).
Proof.
  assert (valid_destination "example.com" 443) as H.
  { repeat split; vm_compute; congruence. }
  split; [exact H|]. exact (encode_decode_roundtrip "example.com" 443 _ H).
Defined.

(** The decoder never panics.  On any byte string at all, every index and
    slice [decode_destination] takes is in range, so it returns (a result, an
    error, or a request for more bytes). *)
Theorem decode_never_panics buf : exists r, decode_destination buf = Some r.
Proof.
  destruct (decode_short_or_foreign buf) as [(v & a & b & t & -> & Hv)|[(v & t & -> & _ & ->)|(_ & _ & ->)]];
    [|by eexists..].
  rewrite decode_fixed_part by done. by eexists.
Qed.

(** Whatever the decoder accepts is the canonical header of what it returns. *)
Lemma decode_sound buf host port n :
  decode_destination buf = Some (Ok (Some (host, port, n))) ->
  valid_destination host port /\ n = length (header host port) /\
  exists rest, buf = header host port ++ rest.
Proof.
  intros H.
  destruct (decode_short_or_foreign buf) as [(v & a & b & t & -> & Hv)|[(v & t & -> & _ & E)|(_ & _ & E)]];
    [|congruence..].
  rewrite decode_fixed_part in H by done. cbv zeta in H. apply (inj Some) in H.
  set (hl := Z.to_nat _) in *.
  destruct (Z.ltb_spec MAX_HOST_LEN (from_be_bytes [a; b])) as [|Hl]; [done|].
  destruct (Nat.ltb_spec (length t) (hl + 2)) as [|Ht]; [done|].
  destruct (from_utf8 (take hl t)) as [h|] eqn:Eu; [|done].
  apply from_utf8_Some in Eu as [Hu Eh]. injection H as <- <- <-.
  pose proof (from_be_bytes_2_range a b) as Hr.
  assert (String.length h = hl) as Hlen.
  { rewrite <-length_as_bytes, Eh, length_take. lia. }
  assert (length (take 2 (drop hl t)) = 2%nat) as H2.
  { rewrite length_take, length_drop. lia. }
  split; [|split].
  - split; [by unfold is_str; rewrite Eh|]. split.
    + unfold str_len. rewrite Hlen. unfold hl. lia.
    + pose proof (from_be_bytes_range (take 2 (drop hl t))) as H.
      rewrite H2 in H. change (256 ^ Z.of_nat 2) with 65536 in H. unfold u16_max. lia.
  - rewrite length_header, Hlen. lia.
  - exists (drop 2 (drop hl t)). unfold header, str_len. rewrite Hlen, Eh.
    replace (Z.of_nat hl) with (from_be_bytes [a; b]) by (unfold hl; lia).
    change 2%nat with (length [a; b]) at 1. rewrite to_from_be_bytes.
    rewrite <-H2 at 1. rewrite to_from_be_bytes.
    cbn [app]. f_equal. { apply byte_val_inj. by rewrite Hv. }
    do 2 f_equal. by rewrite <-app_assoc, !take_drop.
Qed.

(** Decoding is the inverse of encoding.  If [decode_destination] accepts a
    buffer, the host it returns is valid UTF-8 of at most 255 bytes, the port is
    a [u16], and the bytes consumed are exactly what [encode_destination] would
    produce for them: no two byte strings decode to the same destination. *)
Theorem decode_accepts_only_canonical buf host port n :
  decode_destination buf = Some (Ok (Some (host, port, n))) ->
  valid_destination host port /\ encode_destination host port = Ok (take n buf).
Proof.
  intros H. destruct (decode_sound _ _ _ _ H) as (Hv & -> & rest & ->).
  split; [done|]. rewrite encode_header, take_app_length.
  destruct Hv as (_ & Hl & _). by rewrite (proj2 (Z.ltb_ge _ _) Hl).
Qed.

Lemma decode_accepts_only_canonical_witness :
  valid_destination "a.b" 80 /\
  encode_destination "a.b" 80 =
    Ok (take 8 [Byte.x01; Byte.x00; Byte.x03; Byte.x61; Byte.x2e; Byte.x62; Byte.x00; Byte.x50; Byte.xff]).
Proof.
  apply (decode_accepts_only_canonical
    [Byte.x01; Byte.x00; Byte.x03; Byte.x61; Byte.x2e; Byte.x62; Byte.x00; Byte.x50; Byte.xff]).
  vm_compute. reflexivity.
Defined.

(** *** The streaming reader agrees with the buffer decoder *)

Section Stream.
Context {R : Type} `{AsyncReadLaws R}.

Lemma read_fixed_part r v a b t :
  remaining r = v :: a :: b :: t -> byte_val v = VERSION ->
  exists r', remaining r' = t /\ read_destination r =
    if MAX_HOST_LEN <? from_be_bytes [a; b] then
      Err (io_error_new InvalidData (display (HostTooLong (from_be_bytes [a; b]))))
    else
      '(host_buf, r) ← read_exact (Z.to_nat (from_be_bytes [a; b])) r';
      host ← ok_or (from_utf8 host_buf) (io_error_new InvalidData (display InvalidUtf8));
      '(port, r) ← read_u16 r;
      Ok (host, port, r).
Proof.
  intros E Hv. destruct (read_u8_cons _ _ _ E) as (r1 & Hr1 & E1).
  destruct (read_u16_cons _ _ _ _ E1) as (r2 & Hr2 & E2).
  exists r2. split; [done|]. unfold read_destination. rewrite Hr1. cbn [mbind result_bind].
  rewrite Hv, Z.eqb_refl. cbn [negb]. by rewrite Hr2.
Qed.

(** [read_destination] over a stream decides exactly what
    [decode_destination] decides over the bytes the stream will deliver: it
    returns the same destination and leaves the stream just after the header;
    it rejects with the same framing error; and where the buffer decoder asks
    for more bytes, the reader fails instead of inventing a destination. *)
Theorem read_destination_agrees_with_decode r :
  match decode_destination (remaining r) with
  | Some (Ok (Some (host, port, n))) =>
      exists r', read_destination r = Ok (host, port, r') /\
                 remaining r' = drop n (remaining r)
  | Some (Err e) => read_destination r = Err (io_error_new InvalidData (display e))
  | Some (Ok None) => exists e, read_destination r = Err e
  | None => False
  end.
Proof.
  destruct (decode_short_or_foreign (remaining r))
    as [(v & a & b & t & E & Hv)|[(v & t & E & Hv & ->)|(Hlen & Hv & ->)]].
  - rewrite E, decode_fixed_part by done. cbv zeta.
    destruct (read_fixed_part _ _ _ _ _ E Hv) as (r2 & E2 & ->).
    set (hl := Z.to_nat _). destruct (MAX_HOST_LEN <? _); [done|].
    destruct (Nat.ltb_spec (length t) (hl + 2)) as [Ht|Ht].
    + destruct (decide (hl <= length t)%nat) as [Hl|Hl].
      * destruct (read_exact_ok hl r2) as (r3 & -> & E3); [by rewrite E2|].
        cbn [mbind result_bind]. destruct (from_utf8 _); cbn [ok_or mbind result_bind]; [|by eexists].
        destruct (read_u16_short r3) as (e & ->); [|by eexists].
        rewrite E3, E2, length_drop. lia.
      * destruct (read_exact_short hl r2) as (e & ->); [rewrite E2; lia|by eexists].
    + destruct (read_exact_ok hl r2) as (r3 & -> & E3); [rewrite E2; lia|].
      cbn [mbind result_bind]. rewrite E2.
      destruct (from_utf8 (take hl t)); cbn [ok_or mbind result_bind]; [|done].
      destruct (drop hl t) as [|p1 [|p2 t']] eqn:Ed;
        apply (f_equal length) in Ed as Ed'; rewrite length_drop in Ed'; cbn in Ed'; try lia.
      destruct (read_u16_cons r3 p1 p2 t') as (r4 & -> & E4); [by rewrite E3, E2|].
      exists r4. split; [done|]. rewrite E4.
      change (t' = drop (hl + 2) t). by rewrite <-drop_drop, Ed.
  - destruct (read_u8_cons _ _ _ E) as (r1 & Hr1 & _). unfold read_destination.
    rewrite Hr1. cbn [mbind result_bind]. apply Z.eqb_neq in Hv. by rewrite Hv.
  - destruct (remaining r) as [|v t] eqn:E.
    { destruct (read_u8_nil _ E) as (e & He). exists e. unfold read_destination. by rewrite He. }
    destruct (read_u8_cons _ _ _ E) as (r1 & Hr1 & E1).
    destruct (read_u16_short r1) as (e & He). { rewrite E1. cbn in Hlen. lia. }
    exists e. unfold read_destination. rewrite Hr1. cbn [mbind result_bind].
    by rewrite (Hv _ _ eq_refl), Z.eqb_refl, He.
Qed.
End Stream.

Lemma read_destination_agrees_with_decode_witness :
  exists buf, encode_destination "127.0.0.1" 8081 = Ok buf /\
    exists r', read_destination (buf ++ [Byte.x2a]) = Ok ("127.0.0.1", 8081, r') /\
               remaining r' = drop 14 (buf ++ [Byte.x2a]).
Proof.
  eexists. split; [vm_compute; reflexivity|].
  pose proof (read_destination_agrees_with_decode (R := bytes)
    [Byte.x01; Byte.x00; Byte.x09; Byte.x31; Byte.x32; Byte.x37; Byte.x2e; Byte.x30; Byte.x2e;
     Byte.x30; Byte.x2e; Byte.x31; Byte.x1f; Byte.x91; Byte.x2a]) as H.
  exact H.
Defined.

(** A stream that starts with a header yields its destination and stands after it. *)
Lemma read_header {R} `{AsyncReadLaws R} (r : R) host port rest :
  valid_destination host port -> remaining r = header host port ++ rest ->
  exists r', read_destination r = Ok (host, port, r') /\ remaining r' = rest.
Proof.
  intros Hv E. pose proof (read_destination_agrees_with_decode r) as Ha.
  rewrite E, decode_header in Ha by done. by rewrite drop_app_length in Ha.
Qed.

(** A header written to a stream is what the peer reads back. *)
Lemma write_destination_written {W} `{AsyncWriteLaws W} (w w' : W) host port :
  write_destination w host port = Ok w' ->
  written w' = written w ++ header host port.
Proof.
  unfold write_destination. rewrite encode_header.
  destruct (MAX_HOST_LEN <? str_len host); [done|]. apply write_all_ok.
Qed.
End Framing.
