(* ===== verification/Fs.v ===== *)
(** * The file system and the process that drives it

    [std::fs] as the sources use it.  A path is its list of components; the
    disk maps paths to files (contents, mode, owner, group) and directories.
    Every system call may fail: [w_fault n] is what the n-th call of the run
    meets, and a failing write leaves a prefix behind.  [w_hist] keeps every
    state the disk went through, latest first, so that a crash between two
    calls is one of its elements.  One query is taken to be truthful:
    [Path::exists], which answers [false] when its [stat] fails, never fails
    here. *)

From stdpp Require Import pretty.
From Stdlib Require Import Ascii.
From S2P Require Import Prelude Bytes Io.

Notation path := (list string).

(** ** Paths ([std::path::Path]) *)

(** [Path::parent] *)
Definition parent (p : path) : option path :=
  match p with [] => None | _ => Some (removelast p) end.
(** [Path::file_name] *)
Definition file_name (p : path) : option string := List.last (Some <$> p) None.
(** [PathBuf::set_file_name], and appending to the file name. *)
Definition with_file_name (p : path) (name : string) : path := removelast p ++ [name].

(** [Path::file_stem]: the name up to its last dot, unless that dot is the
    first character. *)
Fixpoint before_last_dot (s : string) : option string :=
  match s with
  | EmptyString => None
  | String c t =>
    match before_last_dot t with
    | Some u => Some (String c u)
    | None => if Ascii.eqb c "."%char then Some EmptyString else None
    end
  end.
Definition file_stem (name : string) : string :=
  match before_last_dot name with
  | Some (String c u) => String c u
  | _ => name
  end.
(** [Path::with_extension] *)
Definition with_extension (p : path) (ext : string) : path :=
  match file_name p with
  | None => p
  | Some n => with_file_name p (file_stem n +:+ "." +:+ ext)
  end.

(** An absolute path as text, and its [{:?}] form: in double quotes, which is
    all the escaping a name without control characters needs. *)
Definition path_str (p : path) : string := foldr (fun c acc => "/" +:+ c +:+ acc) "" p.
Definition quoted (s : string) : string :=
  let q := String (ascii_of_nat 34) EmptyString in q +:+ s +:+ q.
Definition path_debug (p : path) : string := quoted (path_str p).

(** ** Disk state *)

Record meta := Meta { mode : Z; uid : Z; gid : Z }.
Inductive node :=
  | File (m : meta) (data : bytes)
  | Dir (m : meta).
Definition node_meta (n : node) : meta := match n with File m _ => m | Dir m => m end.
Definition set_meta (n : node) (m : meta) : node :=
  match n with File _ d => File m d | Dir _ => Dir m end.

Notation fs := (@gmap (list string) (@list_eq_dec string String.eq_dec)
  (@list_countable string String.eq_dec String.countable) node).

Record fault := Fault { fault_error : io_error; fault_written : nat }.
Record proc := Proc { pid : Z; umask : Z; euid : Z; egid : Z }.

(** What running an external command yields ([std::process::Output]). *)
Record output := Output { success : bool; stdout : bytes; stderr : bytes }.

(** [w_run n] is what the n-th external command does: it fails to start, or it
    prints and exits.  [w_log] keeps the commands that ran, latest first, each
    with the disk it saw. *)
Record world := World {
  w_fs : fs;
  w_hist : list fs;
  w_ops : nat;
  w_fault : nat -> option fault;
  w_proc : proc;
  w_run : nat -> list string -> fs -> result io_error output;
  w_log : list (list string * fs * result io_error output)
}.

(** A computation over the world that returns a value or an error. *)
Definition IO (E A : Type) : Type := world -> result E A * world.

Definition io_ret {E A : Type} (a : A) : IO E A := fun w => (Ok a, w).
Definition io_err {E A : Type} (e : E) : IO E A := fun w => (Err e, w).
Definition io_bind {E A B : Type} (m : IO E A) (f : A -> IO E B) : IO E B := fun w =>
  match m w with
  | (Ok a, w') => f a w'
  | (Err e, w') => (Err e, w')
  end.
Definition io_map_err {E F A : Type} (g : E -> F) (m : IO E A) : IO F A := fun w =>
  match m w with (r, w') => (map_err g r, w') end.
(** [match m { Ok.. Err.. }]: the continuation sees the outcome and cannot be skipped. *)
Definition io_try {E F A B : Type} (m : IO E A) (f : result E A -> IO F B) : IO F B := fun w =>
  match m w with (r, w') => f r w' end.
Definition io_lift {E A : Type} (r : result E A) : IO E A := fun w => (r, w).
(** Reading the current disk without a system call that can fail ([Path::exists]). *)
Definition io_gets {E A : Type} (f : fs -> A) : IO E A := fun w => (Ok (f (w_fs w)), w).
Definition io_proc {E : Type} : IO E proc := fun w => (Ok (w_proc w), w).

Declare Scope io_scope.
Delimit Scope io_scope with io.
Bind Scope io_scope with IO.
Notation "'do' x <- m ; k" := (io_bind m (fun x => k))
  (at level 100, x name, m at next level, right associativity) : io_scope.
Notation "'do' ' p <- m ; k" := (io_bind m (fun x => match x with p => k end))
  (at level 100, p pattern, m at next level, right associativity) : io_scope.
Notation "m ;; k" := (io_bind m (fun _ => k))
  (at level 100, k at level 200, right associativity) : io_scope.
Open Scope io_scope.

(** ** System calls *)

Definition push_fs (f : fs) (w : world) : world :=
  World f (f :: w_hist w) (S (w_ops w)) (w_fault w) (w_proc w) (w_run w) (w_log w).

(** One call: it meets its fault (leaving [torn] behind), or takes its effect,
    or is refused by the state of the disk. *)
Definition syscall {A : Type} (torn : nat -> fs -> fs)
    (f : fs -> result io_error (A * fs)) : IO io_error A := fun w =>
  match w_fault w (w_ops w) with
  | Some ft => (Err (fault_error ft), push_fs (torn (fault_written ft) (w_fs w)) w)
  | None =>
    match f (w_fs w) with
    | Ok (a, f') => (Ok a, push_fs f' w)
    | Err e => (Err e, push_fs (w_fs w) w)
    end
  end.

Definition enoent : io_error := IoError NotFound (Some 2) "No such file or directory".
Definition eexist : io_error := IoError AlreadyExists (Some 17) "File exists".
Definition eisdir : io_error := IoError OtherKind (Some 21) "Is a directory".
Definition enotdir : io_error := IoError OtherKind (Some 20) "Not a directory".

(** [Command::new(argv[0]).args(argv[1..]).output()] *)
Definition run_command (argv : list string) : IO io_error output := fun w =>
  let r := w_run w (length (w_log w)) argv (w_fs w) in
  (r, World (w_fs w) (w_hist w) (w_ops w) (w_fault w) (w_proc w) (w_run w)
        ((argv, w_fs w, r) :: w_log w)).

Definition no_tear (_ : nat) (f : fs) : fs := f.

Definition exists_at (f : fs) (p : path) : bool := bool_decide (is_Some (f !! p)).
(** [Path::exists], of a [stat] that does not fail *)
Definition path_exists {E : Type} (p : path) : IO E bool := io_gets (fun f => exists_at f p).

(** [fs::read] *)
Definition fs_read (p : path) : IO io_error bytes :=
  syscall no_tear (fun f =>
    match f !! p with
    | Some (File _ d) => Ok (d, f)
    | Some (Dir _) => Err eisdir
    | None => Err enoent
    end).
(** [fs::read_to_string] *)
Definition fs_read_to_string (p : path) : IO io_error string :=
  do d <- fs_read p;
  io_lift (ok_or (from_utf8 d)
    (io_error_new InvalidData "stream did not contain valid UTF-8")).
(** [File::open] for reading *)
Definition file_open (p : path) : IO io_error unit :=
  syscall no_tear (fun f => match f !! p with Some _ => Ok (tt, f) | None => Err enoent end).
(** [fs::metadata] *)
Definition fs_metadata (p : path) : IO io_error meta :=
  syscall no_tear (fun f =>
    match f !! p with Some n => Ok (node_meta n, f) | None => Err enoent end).

(** A new file belongs to the process, except that a set-group-id directory
    passes on its group; its mode is the requested one less the umask. *)
Definition new_meta (pr : proc) (f : fs) (p : path) (m : Z) : meta :=
  let g := match parent p ≫= fun d => f !! d with
           | Some (Dir dm) => if Z.testbit (mode dm) 10 then gid dm else egid pr
           | _ => egid pr
           end in
  Meta (Z.land m (Z.lnot (umask pr))) (euid pr) g.
Definition has_parent (f : fs) (p : path) : bool :=
  match parent p with
  | Some [] => true
  | Some d => match f !! d with Some (Dir _) => true | _ => false end
  | None => false
  end.

(** [OpenOptions::new().write(true).create(true).truncate(true).mode(m).open(p)] *)
Definition open_truncate (m : Z) (p : path) : IO io_error unit := fun w =>
  syscall no_tear (fun f =>
    match f !! p with
    | Some (File mt _) => Ok (tt, <[p := File mt []]> f)
    | Some (Dir _) => Err eisdir
    | None => if has_parent f p then Ok (tt, <[p := File (new_meta (w_proc w) f p m) []]> f)
              else Err enoent
    end) w.
(** [OpenOptions::new().write(true).create_new(true).mode(m).open(p)] *)
Definition open_create_new (m : Z) (p : path) : IO io_error unit := fun w =>
  syscall no_tear (fun f =>
    match f !! p with
    | Some _ => Err eexist
    | None => if has_parent f p then Ok (tt, <[p := File (new_meta (w_proc w) f p m) []]> f)
              else Err enoent
    end) w.
Definition put_data (p : path) (d : bytes) (f : fs) : fs :=
  match f !! p with
  | Some (File mt old) => <[p := File mt (old ++ d)]> f
  | _ => f
  end.
(** [Write::write_all] on the handle opened on [p], positioned at its end. *)
Definition file_write_all (p : path) (d : bytes) : IO io_error unit :=
  syscall (fun k f => put_data p (take k d) f) (fun f => Ok (tt, put_data p d f)).
(** [File::sync_all] *)
Definition file_sync_all (p : path) : IO io_error unit :=
  syscall no_tear (fun f => Ok (tt, f)).
(** [io::copy] from a handle on [a] to the end of a handle on [b] *)
Definition io_copy (a b : path) : IO io_error unit :=
  do d <- fs_read a; file_write_all b d.
(** [fs::write] *)
Definition fs_write (p : path) (d : bytes) : IO io_error unit :=
  open_truncate 438 p ;; file_write_all p d.
(** [fs::rename] onto a file or a free name *)
Definition fs_rename (a b : path) : IO io_error unit :=
  syscall no_tear (fun f =>
    match f !! a, f !! b with
    | None, _ => Err enoent
    | Some _, Some (Dir _) => Err eisdir
    | Some n, _ => if has_parent f b then Ok (tt, <[b := n]> (delete a f)) else Err enoent
    end).
(** [fs::remove_file] *)
Definition fs_remove_file (p : path) : IO io_error unit :=
  syscall no_tear (fun f =>
    match f !! p with
    | Some (File _ _) => Ok (tt, delete p f)
    | Some (Dir _) => Err eisdir
    | None => Err enoent
    end).
Definition update_meta (g : meta -> meta) (p : path) : IO io_error unit :=
  syscall no_tear (fun f =>
    match f !! p with
    | Some n => Ok (tt, <[p := set_meta n (g (node_meta n))]> f)
    | None => Err enoent
    end).
(** [fs::set_permissions] *)
Definition fs_set_mode (m : Z) : path -> IO io_error unit :=
  update_meta (fun mt => Meta m (uid mt) (gid mt)).
(** [os::unix::fs::chown] *)
Definition fs_chown (u g : Z) : path -> IO io_error unit :=
  update_meta (fun mt => Meta (mode mt) u g).

(** [fs::copy]: truncates the destination, then copies contents and permission
    bits; a failure part-way leaves a prefix in place. *)
Definition fs_copy (a b : path) : IO io_error unit := fun w =>
  syscall
    (fun k f => match f !! a with
                | Some (File ma d) => <[b := File (default ma (node_meta <$> f !! b)) (take k d)]> f
                | _ => f
                end)
    (fun f => match f !! a, f !! b with
              | Some (File ma d), Some (File mb _) =>
                  Ok (tt, <[b := File (Meta (mode ma) (uid mb) (gid mb)) d]> f)
              | Some (File ma d), None =>
                  if has_parent f b then
                    let nm := new_meta (w_proc w) f b 438 in
                    Ok (tt, <[b := File (Meta (mode ma) (uid nm) (gid nm)) d]> f)
                  else Err enoent
              | Some (File _ _), Some (Dir _) => Err eisdir
              | Some (Dir _), _ => Err eisdir
              | None, _ => Err enoent
              end) w.

(** [fs::create_dir_all]: every missing ancestor, outermost first. *)
Fixpoint missing_dirs (f : fs) (pr : proc) (done rest : path) : result io_error fs :=
  match rest with
  | [] => Ok f
  | c :: rest' =>
    let d := done ++ [c] in
    match f !! d with
    | Some (Dir _) => missing_dirs f pr d rest'
    | Some (File _ _) => Err enotdir
    | None => missing_dirs (<[d := Dir (new_meta pr f d 511)]> f) pr d rest'
    end
  end.
Definition create_dir_all (p : path) : IO io_error unit := fun w =>
  syscall no_tear (fun f => f' ← missing_dirs f (w_proc w) [] p; Ok (tt, f')) w.

(** ** Framing: what a computation leaves alone

    [keeps p m]: whatever faults [m] meets, neither its final state nor any
    state in between changes the node at [p]. *)
Definition extends (w w' : world) (new : list fs) : Prop :=
  w_hist w' = new ++ w_hist w /\ w_fault w' = w_fault w /\ w_proc w' = w_proc w /\
  w_run w' = w_run w /\ w_log w `suffix_of` w_log w'.

Lemma extends_refl w : extends w w [].
Proof. by split_and!. Qed.
Lemma extends_push s w : extends w (push_fs s w) [s].
Proof. by split_and!. Qed.
Lemma extends_trans w w1 w2 new1 new2 :
  extends w w1 new1 -> extends w1 w2 new2 -> extends w w2 (new2 ++ new1).
Proof.
  intros (Hh1 & Hf1 & Hp1 & Hr1 & Hl1) (Hh2 & Hf2 & Hp2 & Hr2 & Hl2). split_and!; try congruence.
  - by rewrite Hh2, Hh1, app_assoc.
  - by etrans.
Qed.

Definition keeps {E A : Type} (p : path) (m : IO E A) : Prop :=
  forall w r w', m w = (r, w') ->
    w_fs w' !! p = w_fs w !! p /\
    exists new, extends w w' new /\ Forall (fun f => f !! p = w_fs w !! p) new.

Create HintDb fs discriminated.

Lemma keeps_ret {E A : Type} p (a : A) : keeps p (io_ret (E := E) a).
Proof. intros w r w' [= <- <-]. split; [done|]. exists []. split; [apply extends_refl|done]. Qed.

Lemma keeps_err {E A : Type} p (e : E) : keeps p (io_err (A := A) e).
Proof. intros w r w' [= <- <-]. split; [done|]. exists []. split; [apply extends_refl|done]. Qed.

Lemma keeps_lift {E A : Type} p (r0 : result E A) : keeps p (io_lift r0).
Proof. intros w r w' [= <- <-]. split; [done|]. exists []. split; [apply extends_refl|done]. Qed.

Lemma keeps_gets {E A : Type} p (g : fs -> A) : keeps p (io_gets (E := E) g).
Proof. intros w r w' [= <- <-]. split; [done|]. exists []. split; [apply extends_refl|done]. Qed.

Lemma keeps_proc {E : Type} p : keeps p (@io_proc E).
Proof. intros w r w' [= <- <-]. split; [done|]. exists []. split; [apply extends_refl|done]. Qed.

Lemma keeps_trans p w w1 w2 new1 new2 :
  w_fs w1 !! p = w_fs w !! p -> extends w w1 new1 ->
  Forall (fun f => f !! p = w_fs w !! p) new1 ->
  w_fs w2 !! p = w_fs w1 !! p -> extends w1 w2 new2 ->
  Forall (fun f => f !! p = w_fs w1 !! p) new2 ->
  w_fs w2 !! p = w_fs w !! p /\
  exists new, extends w w2 new /\ Forall (fun f => f !! p = w_fs w !! p) new.
Proof.
  intros E1 X1 F1 E2 X2 F2. split; [congruence|].
  exists (new2 ++ new1). split; [by eapply extends_trans|].
  apply Forall_app. split; [|done]. by rewrite <-E1.
Qed.

Lemma keeps_try {E F A B : Type} p (m : IO E A) (k : result E A -> IO F B) :
  keeps p m -> (forall r, keeps p (k r)) -> keeps p (io_try m k).
Proof.
  intros Hm Hk w r w'. unfold io_try. destruct (m w) as [r1 w1] eqn:Em. intros Ek.
  destruct (Hm _ _ _ Em) as (E1 & new1 & X1 & F1).
  destruct (Hk _ _ _ _ Ek) as (E2 & new2 & X2 & F2).
  by eapply keeps_trans.
Qed.

Lemma keeps_bind {E A B : Type} p (m : IO E A) (k : A -> IO E B) :
  keeps p m -> (forall a, keeps p (k a)) -> keeps p (io_bind m k).
Proof.
  intros Hm Hk.
  assert (keeps p (io_try m (fun r => match r with Ok a => k a | Err e => io_err e end))) as Ht.
  { apply keeps_try; [done|]. intros []; [apply Hk|apply keeps_err]. }
  intros w r w' H. apply (Ht w r w'). unfold io_try, io_bind in *.
  by destruct (m w) as [[] ?].
Qed.

Lemma keeps_map_err {E F A : Type} p (g : E -> F) (m : IO E A) : keeps p m -> keeps p (io_map_err g m).
Proof.
  intros Hm w r w'. unfold io_map_err. destruct (m w) as [r1 w1] eqn:Em.
  intros [= <- <-]. by destruct (Hm _ _ _ Em).
Qed.

Lemma keeps_if {E A : Type} p (b : bool) (m n : IO E A) :
  keeps p m -> keeps p n -> keeps p (if b then m else n).
Proof. by destruct b. Qed.

(** A call keeps [p] when neither its effect nor its torn state touches it. *)
Lemma keeps_syscall {A : Type} p torn (f : proc -> fs -> result io_error (A * fs)) :
  (forall k s, torn k s !! p = s !! p) ->
  (forall pr s a s', f pr s = Ok (a, s') -> s' !! p = s !! p) ->
  keeps p (fun w => syscall torn (f (w_proc w)) w).
Proof.
  intros Ht Hf w r w' H. unfold syscall in H.
  assert (exists s, w' = push_fs s w /\ s !! p = w_fs w !! p) as (s & -> & Hs).
  { destruct (w_fault w (w_ops w)) as [ft|].
    - injection H as <- <-. eauto.
    - destruct (f (w_proc w) (w_fs w)) as [[a s]|e] eqn:E;
        injection H as <- <-; eauto. }
  split; [done|]. exists [s]. split; [apply extends_push|]. by repeat constructor.
Qed.

Lemma keeps_run_command p argv : keeps p (run_command argv).
Proof.
  intros w r w' [= <- <-]. cbn. split; [done|]. exists []. split; [|done].
  split_and!; try done. by apply suffix_cons_r.
Qed.

Ltac keeps_call :=
  intros; simplify_eq/=; repeat (case_match; simplify_eq/=);
  rewrite ?lookup_insert_ne, ?lookup_delete_ne by congruence; done.

Lemma keeps_fs_read p q : keeps p (fs_read q).
Proof. apply (keeps_syscall p no_tear (fun _ => _)); keeps_call. Qed.
Lemma keeps_fs_read_to_string p q : keeps p (fs_read_to_string q).
Proof. apply keeps_bind; [apply keeps_fs_read|]. intros. apply keeps_lift. Qed.
Lemma keeps_file_open p q : keeps p (file_open q).
Proof. apply (keeps_syscall p no_tear (fun _ => _)); keeps_call. Qed.
Lemma keeps_fs_metadata p q : keeps p (fs_metadata q).
Proof. apply (keeps_syscall p no_tear (fun _ => _)); keeps_call. Qed.
Lemma keeps_file_sync_all p q : keeps p (file_sync_all q).
Proof. apply (keeps_syscall p no_tear (fun _ => _)); keeps_call. Qed.
Lemma keeps_open_truncate p m q : q <> p -> keeps p (open_truncate m q).
Proof.
  intros. apply (keeps_syscall p no_tear (fun pr f =>
    match f !! q with
    | Some (File mt _) => Ok (tt, <[q := File mt []]> f)
    | Some (Dir _) => Err eisdir
    | None => if has_parent f q then Ok (tt, <[q := File (new_meta pr f q m) []]> f)
              else Err enoent
    end)); keeps_call.
Qed.
Lemma keeps_open_create_new p m q : q <> p -> keeps p (open_create_new m q).
Proof.
  intros. apply (keeps_syscall p no_tear (fun pr f =>
    match f !! q with
    | Some _ => Err eexist
    | None => if has_parent f q then Ok (tt, <[q := File (new_meta pr f q m) []]> f)
              else Err enoent
    end)); keeps_call.
Qed.
Lemma put_data_ne p q d f : q <> p -> put_data q d f !! p = f !! p.
Proof. intros. unfold put_data. keeps_call. Qed.
Lemma keeps_file_write_all p q d : q <> p -> keeps p (file_write_all q d).
Proof.
  intros. apply (keeps_syscall p _ (fun _ => _)); intros; simplify_eq/=; by apply put_data_ne.
Qed.
Lemma keeps_fs_write p q d : q <> p -> keeps p (fs_write q d).
Proof.
  intros. apply keeps_bind; [by apply keeps_open_truncate|].
  intros. by apply keeps_file_write_all.
Qed.
Lemma keeps_io_copy p a b : b <> p -> keeps p (io_copy a b).
Proof.
  intros. apply keeps_bind; [apply keeps_fs_read|]. intros. by apply keeps_file_write_all.
Qed.
Lemma keeps_fs_rename p a b : a <> p -> b <> p -> keeps p (fs_rename a b).
Proof. intros. apply (keeps_syscall p no_tear (fun _ => _)); keeps_call. Qed.
Lemma keeps_fs_remove_file p q : q <> p -> keeps p (fs_remove_file q).
Proof. intros. apply (keeps_syscall p no_tear (fun _ => _)); keeps_call. Qed.
Lemma keeps_update_meta p g q : q <> p -> keeps p (update_meta g q).
Proof. intros. apply (keeps_syscall p no_tear (fun _ => _)); keeps_call. Qed.
Lemma keeps_fs_copy p a b : b <> p -> keeps p (fs_copy a b).
Proof.
  intros. apply (keeps_syscall p _ (fun pr f =>
    match f !! a, f !! b with
    | Some (File ma d), Some (File mb _) =>
        Ok (tt, <[b := File (Meta (mode ma) (uid mb) (gid mb)) d]> f)
    | Some (File ma d), None =>
        if has_parent f b then
          let nm := new_meta pr f b 438 in
          Ok (tt, <[b := File (Meta (mode ma) (uid nm) (gid nm)) d]> f)
        else Err enoent
    | Some (File _ _), Some (Dir _) => Err eisdir
    | Some (Dir _), _ => Err eisdir
    | None, _ => Err enoent
    end)); keeps_call.
Qed.

Lemma missing_dirs_keeps f pr pre rest f' p :
  missing_dirs f pr pre rest = Ok f' ->
  (forall l, l `prefix_of` rest -> pre ++ l <> p) -> f' !! p = f !! p.
Proof.
  revert f pre. induction rest as [|c rest IH]; intros f pre H Hp; cbn in H.
  { by injection H as <-. }
  assert (forall l, l `prefix_of` rest -> (pre ++ [c]) ++ l <> p) as Hp'.
  { intros l Hl. rewrite <-app_assoc. apply Hp. by apply prefix_cons. }
  assert (pre ++ [c] <> p). { apply Hp. apply prefix_cons, prefix_nil. }
  destruct (f !! (pre ++ [c])) as [[]|]; [done|by eapply IH|].
  rewrite (IH _ _ H Hp'). by rewrite lookup_insert_ne.
Qed.

Lemma keeps_create_dir_all p q : ~ p `prefix_of` q -> keeps p (create_dir_all q).
Proof.
  intros Hp. apply (keeps_syscall p no_tear (fun pr f =>
    f' ← missing_dirs f pr [] q; Ok (tt, f'))); [done|].
  intros pr s a s' H. inv_result. simplify_eq.
  eapply missing_dirs_keeps; [done|]. intros l Hl <-. done.
Qed.

#[export] Hint Resolve keeps_ret keeps_err keeps_lift keeps_gets keeps_proc keeps_fs_read
  keeps_fs_read_to_string keeps_file_open keeps_io_copy keeps_fs_metadata keeps_file_sync_all keeps_open_truncate keeps_open_create_new
  keeps_file_write_all keeps_fs_write keeps_fs_rename keeps_fs_remove_file
  keeps_update_meta keeps_fs_copy keeps_create_dir_all keeps_bind keeps_try
  keeps_map_err keeps_if keeps_run_command : fs.

(** Discharges [keeps] goals by walking the computation. *)
Ltac solve_keeps :=
  repeat match goal with
  | |- keeps _ (io_bind _ _) => apply keeps_bind; [|intros]
  | |- keeps _ (io_try _ _) => apply keeps_try; [|intros]
  | |- keeps _ (io_map_err _ _) => apply keeps_map_err
  | |- keeps _ (if ?b then _ else _) => apply keeps_if
  | |- keeps _ (match ?x with _ => _ end) => destruct x
  | |- keeps _ _ => solve [eauto with fs]
  | |- _ <> _ => done
  end.

(** ** Inversion of runs *)

Lemma io_bind_inv {E A B : Type} (m : IO E A) (k : A -> IO E B) w r w' :
  io_bind m k w = (r, w') ->
  (exists a w1, m w = (Ok a, w1) /\ k a w1 = (r, w')) \/
  (exists e, m w = (Err e, w') /\ r = Err e).
Proof.
  unfold io_bind. destruct (m w) as [[a|e] w1]; intros H; [left; eauto|right].
  injection H as <- <-. eauto.
Qed.

Lemma io_bind_Ok_inv {E A B : Type} (m : IO E A) (k : A -> IO E B) w b w' :
  io_bind m k w = (Ok b, w') ->
  exists a w1, m w = (Ok a, w1) /\ k a w1 = (Ok b, w').
Proof. intros [?|(e & _ & ?)]%io_bind_inv; [done|done]. Qed.

Lemma io_bind_assoc {E A B C : Type} (m : IO E A) (k : A -> IO E B) (h : B -> IO E C) w :
  io_bind (io_bind m k) h w = io_bind m (fun a => io_bind (k a) h) w.
Proof. unfold io_bind. by destruct (m w) as [[]]. Qed.

Lemma io_bind_ext {E A B : Type} (m m' : IO E A) (k k' : A -> IO E B) w :
  m w = m' w -> (forall a w1, k a w1 = k' a w1) -> io_bind m k w = io_bind m' k' w.
Proof. unfold io_bind. intros -> Hk. by destruct (m' w) as [[] ?]. Qed.

Lemma io_map_err_inv {E F A : Type} (g : E -> F) (m : IO E A) w r w' :
  io_map_err g m w = (r, w') -> exists r0, m w = (r0, w') /\ r = map_err g r0.
Proof. unfold io_map_err. destruct (m w) as [r0 w1]. intros [= <- <-]. eauto. Qed.

Lemma io_map_err_Ok_inv {E F A : Type} (g : E -> F) (m : IO E A) w a w' :
  io_map_err g m w = (Ok a, w') -> m w = (Ok a, w').
Proof.
  intros (r0 & H & E')%io_map_err_inv. symmetry in E'.
  apply map_err_Ok_inv in E'. by subst.
Qed.

Lemma syscall_Ok_inv {A : Type} torn (f : fs -> result io_error (A * fs)) w a w' :
  syscall torn f w = (Ok a, w') ->
  exists s', f (w_fs w) = Ok (a, s') /\ w' = push_fs s' w.
Proof.
  unfold syscall. destruct (w_fault w (w_ops w)); [done|].
  destruct (f (w_fs w)) as [[]|] eqn:E; [|done]. intros [= <- <-]. eauto.
Qed.

Lemma syscall_Err_inv {A : Type} torn (f : fs -> result io_error (A * fs)) w e w' :
  syscall torn f w = (Err e, w') ->
  exists s', w' = push_fs s' w /\ (s' = w_fs w \/ exists k, s' = torn k (w_fs w)).
Proof.
  unfold syscall. destruct (w_fault w (w_ops w)); [intros [= <- <-]; eauto|].
  destruct (f (w_fs w)) as [[]|] eqn:E; [done|]. intros [= <- <-]. eauto.
Qed.

(** ** Atomic replacement

    The write-to-temporary-then-rename pattern: if preparing the temporary [t]
    and cleaning up afterwards leave [p] alone, then every state of the disk
    holds at [p] either the old node or the finished one. *)
Lemma rename_commits {F A : Type} (h : io_error -> F) (p t : path)
    (pre : IO F unit) (post : IO F A) w r w' :
  keeps p pre -> keeps p post -> t <> p ->
  (pre ;; io_map_err h (fs_rename t p) ;; post) w = (r, w') ->
  (exists w1 n, pre w = (Ok tt, w1) /\ w_fs w1 !! t = Some n /\ w_fs w' !! p = Some n /\
     (exists w2, post w2 = (r, w')) /\
     exists new, extends w w' new /\
       Forall (fun f => f !! p = w_fs w !! p \/ f !! p = Some n) new) \/
  (exists e, r = Err e /\ w_fs w' !! p = w_fs w !! p /\
     exists new, extends w w' new /\ Forall (fun f => f !! p = w_fs w !! p) new).
Proof.
  intros Hpre Hpost Hne H.
  apply io_bind_inv in H as [([] & w1 & H1 & H)|(e & H1 & ->)].
  2:{ right. exists e. split; [done|]. by eapply Hpre. }
  destruct (Hpre _ _ _ H1) as (E1 & new1 & X1 & F1).
  apply io_bind_inv in H as [([] & w2 & H2 & H)|(e & H2 & ->)].
  - left. apply io_map_err_Ok_inv, syscall_Ok_inv in H2 as (s & Es & ->).
    destruct (w_fs w1 !! t) as [n|] eqn:Et; [|done].
    exists w1, n. split; [done|]. split; [done|].
    assert (s = <[p := n]> (delete t (w_fs w1))) as ->.
    { destruct (w_fs w1 !! p) as [[]|]; try done; destruct (has_parent _ _); by simplify_eq. }
    destruct (Hpost _ _ _ H) as (E3 & new3 & X3 & F3).
    cbn in E3, F3. rewrite lookup_insert_eq in E3, F3.
    split; [done|]. split; [by eexists|]. exists (new3 ++ [<[p := n]> (delete t (w_fs w1))] ++ new1). split.
    + eapply extends_trans; [|exact X3]. eapply (extends_trans _ _ _ _ [_]); [exact X1|apply extends_push].
    + rewrite !Forall_app. split; [|split].
      * eapply Forall_impl; [exact F3|]. cbn. auto.
      * apply Forall_singleton. right. apply lookup_insert_eq.
      * eapply Forall_impl; [exact F1|]. cbn. auto.
  - right. apply io_map_err_inv in H2 as (r0 & H2 & Er). destruct r0; [done|].
    apply syscall_Err_inv in H2 as (s & -> & Hs).
    assert (s = w_fs w1) as -> by (by destruct Hs as [?|[k ?]]).
    exists e. split; [done|]. cbn. split; [done|].
    exists (w_fs w1 :: new1). split; [|by constructor].
    exact (extends_trans _ _ _ _ [_] X1 (extends_push _ _)).
Qed.

(** ** What the writing calls leave behind *)

Lemma open_truncate_Ok_inv m p w w' :
  open_truncate m p w = (Ok tt, w') ->
  exists mt, w' = push_fs (<[p := File mt []]> (w_fs w)) w /\
    match w_fs w !! p with
    | Some n => mt = node_meta n
    | None => mt = new_meta (w_proc w) (w_fs w) p m
    end.
Proof.
  intros (s & H & ->)%syscall_Ok_inv.
  destruct (w_fs w !! p) as [[]|]; simplify_eq; eauto.
  destruct (has_parent _ _); simplify_eq; eauto.
Qed.

Lemma file_write_all_Ok_inv p d w w' mt old :
  w_fs w !! p = Some (File mt old) -> file_write_all p d w = (Ok tt, w') ->
  w' = push_fs (<[p := File mt (old ++ d)]> (w_fs w)) w.
Proof. intros Hp (s & H & ->)%syscall_Ok_inv. unfold put_data in H. rewrite Hp in H. by simplify_eq. Qed.

Lemma file_sync_all_Ok_inv p w u w' : file_sync_all p w = (Ok u, w') -> w' = push_fs (w_fs w) w.
Proof. intros (s & H & ->)%syscall_Ok_inv. by simplify_eq. Qed.

Lemma fs_read_Ok_inv p w d w' :
  fs_read p w = (Ok d, w') -> (exists mt, w_fs w !! p = Some (File mt d)) /\ w' = push_fs (w_fs w) w.
Proof.
  intros (s & H & ->)%syscall_Ok_inv. destruct (w_fs w !! p) as [[]|]; simplify_eq; eauto.
Qed.

(** Reading never changes the disk. *)
Lemma fs_read_inv p w r w' :
  fs_read p w = (r, w') -> w' = push_fs (w_fs w) w /\
  match r with Ok d => exists mt, w_fs w !! p = Some (File mt d) | Err _ => True end.
Proof.
  intros Hr. destruct r as [d|e].
  - apply fs_read_Ok_inv in Hr as [? ->]. done.
  - apply syscall_Err_inv in Hr as (s & -> & [->|[k ->]]); done.
Qed.
Lemma fs_read_to_string_inv p w r w' :
  fs_read_to_string p w = (r, w') -> w' = push_fs (w_fs w) w /\
  match r with
  | Ok s => exists mt d, w_fs w !! p = Some (File mt d) /\ from_utf8 d = Some s
  | Err _ => True
  end.
Proof.
  intros [(d & w1 & [-> [mt Hd]]%fs_read_inv & [= <- <-])|(e & [-> _]%fs_read_inv & ->)]%io_bind_inv; [|done].
  split; [done|]. destruct (from_utf8 d) eqn:E; cbn; eauto.
Qed.

Lemma fs_metadata_Ok_inv p w m w' :
  fs_metadata p w = (Ok m, w') ->
  (exists n, w_fs w !! p = Some n /\ m = node_meta n) /\ w' = push_fs (w_fs w) w.
Proof. intros (s & H & ->)%syscall_Ok_inv. destruct (w_fs w !! p); simplify_eq; eauto. Qed.

Lemma update_meta_Ok_inv g p w u w' :
  update_meta g p w = (Ok u, w') ->
  exists n, w_fs w !! p = Some n /\
    w' = push_fs (<[p := set_meta n (g (node_meta n))]> (w_fs w)) w.
Proof. intros (s & H & ->)%syscall_Ok_inv. destruct (w_fs w !! p); simplify_eq; eauto. Qed.

Lemma fs_rename_Ok_inv a b w u w' :
  fs_rename a b w = (Ok u, w') ->
  exists n, w_fs w !! a = Some n /\ w' = push_fs (<[b := n]> (delete a (w_fs w))) w.
Proof.
  intros (s & H & ->)%syscall_Ok_inv.
  destruct (w_fs w !! a) as [n|]; [|by simplify_eq].
  destruct (w_fs w !! b) as [[]|]; simplify_eq; destruct (has_parent _ _); simplify_eq; eauto.
Qed.

Lemma fs_copy_Ok_inv a b w u w' mt d :
  w_fs w !! a = Some (File mt d) -> fs_copy a b w = (Ok u, w') ->
  exists mb, w' = push_fs (<[b := File mb d]> (w_fs w)) w.
Proof.
  intros Ha (s & H & ->)%syscall_Ok_inv. rewrite Ha in H.
  destruct (w_fs w !! b) as [[]|]; [| |destruct (has_parent _ _)]; try done; injection H as <- <-; by eexists.
Qed.

Lemma io_try_inv {E F A B : Type} (m : IO E A) (k : result E A -> IO F B) w r w' :
  io_try m k w = (r, w') -> exists r1 w1, m w = (r1, w1) /\ k r1 w1 = (r, w').
Proof. unfold io_try. destruct (m w) as [r1 w1]. eauto. Qed.

(** A call that meets no fault on a disk that allows it. *)
Lemma fs_read_ok p w mt d :
  w_fault w (w_ops w) = None -> w_fs w !! p = Some (File mt d) ->
  fs_read p w = (Ok d, push_fs (w_fs w) w).
Proof. intros Hf Hp. unfold fs_read, syscall. by rewrite Hf, Hp. Qed.

Lemma path_exists_run {E : Type} p w :
  path_exists (E := E) p w = (Ok (exists_at (w_fs w) p), w).
Proof. done. Qed.

Lemma exists_at_Some f p n : f !! p = Some n -> exists_at f p = true.
Proof. intros H. unfold exists_at. rewrite H. done. Qed.
Lemma exists_at_None f p : f !! p = None -> exists_at f p = false.
Proof. intros H. unfold exists_at. rewrite H. done. Qed.

(** The part of [keeps] most callers need. *)
Lemma keeps_final {E A : Type} p (m : IO E A) w r w' :
  keeps p m -> m w = (r, w') ->
  w_fs w' !! p = w_fs w !! p /\ w_fault w' = w_fault w /\ w_proc w' = w_proc w.
Proof. intros Hk H. destruct (Hk _ _ _ H) as (? & new & (? & ? & ? & _) & ?). done. Qed.

Lemma keeps_log {E A : Type} p (m : IO E A) w r w' :
  keeps p m -> m w = (r, w') -> w_log w `suffix_of` w_log w'.
Proof. intros Hk H. destruct (Hk _ _ _ H) as (? & new & (? & ? & ? & ? & ?) & ?). done. Qed.

(** A child's directory is not below the child. *)
Lemma not_prefix_removelast (p : path) : p <> [] -> ~ p `prefix_of` removelast p.
Proof.
  intros Hp [k Hk]. assert (length (removelast p) < length p)%nat as Hl.
  { rewrite (app_removelast_last EmptyString Hp) at 2. rewrite length_app. cbn. lia. }
  rewrite Hk, length_app in Hl. lia.
Qed.

(** The run of a computation whose outcome is known. *)
Lemma run_of_fst {E A : Type} (m : IO E A) w r : fst (m w) = r -> m w = (r, snd (m w)).
Proof. intros <-. apply surjective_pairing. Qed.

(** ** Which commands a computation runs

    [runs P m]: the external commands that [m] adds to the log satisfy [P];
    [runs (fun _ => False) m] means that it runs none. *)
Definition runs {E A : Type} (P : list string -> Prop) (m : IO E A) : Prop :=
  forall w r w', m w = (r, w') ->
    exists new, w_log w' = new ++ w_log w /\ Forall (fun e => P e.1.1) new.

Lemma runs_pure {E A : Type} P (m : IO E A) : (forall w, w_log (snd (m w)) = w_log w) -> runs P m.
Proof. intros Hm w r w' Hr. specialize (Hm w). rewrite Hr in Hm. by exists []. Qed.
Lemma syscall_log {A : Type} torn (f : fs -> result io_error (A * fs)) w :
  w_log (snd (syscall torn f w)) = w_log w.
Proof. unfold syscall. destruct (w_fault w (w_ops w)); [done|]. by destruct (f (w_fs w)) as [[]|]. Qed.
Lemma runs_run_command (P : list string -> Prop) argv : P argv -> runs P (run_command argv).
Proof. intros HP w r w' [= <- <-]. eexists [_]. split; [done|]. by repeat constructor. Qed.
Lemma runs_try {E F A B : Type} P (m : IO E A) (k : result E A -> IO F B) :
  runs P m -> (forall r, runs P (k r)) -> runs P (io_try m k).
Proof.
  intros Hm Hk w r w' (r1 & w1 & (l1 & E1 & F1)%Hm & (l2 & E2 & F2)%Hk)%io_try_inv.
  exists (l2 ++ l1). rewrite E2, E1, app_assoc. split; [done|]. by apply Forall_app.
Qed.
Lemma runs_bind {E A B : Type} P (m : IO E A) (k : A -> IO E B) :
  runs P m -> (forall a, runs P (k a)) -> runs P (io_bind m k).
Proof.
  intros Hm Hk w r w' [(a & w1 & (l1 & E1 & F1)%Hm & (l2 & E2 & F2)%Hk)|(e & H1%Hm & ->)]%io_bind_inv; [|done].
  exists (l2 ++ l1). rewrite E2, E1, app_assoc. split; [done|]. by apply Forall_app.
Qed.
Lemma runs_map_err {E F A : Type} P (g : E -> F) (m : IO E A) : runs P m -> runs P (io_map_err g m).
Proof. by intros Hm w r w' (r0 & H0%Hm & _)%io_map_err_inv. Qed.
Lemma runs_if {E A : Type} P (b : bool) (m n : IO E A) : runs P m -> runs P n -> runs P (if b then m else n).
Proof. by destruct b. Qed.

(** Discharges [runs] goals by walking the computation down to its calls. *)
Ltac solve_runs :=
  repeat match goal with
  | |- runs _ (io_bind _ _) => apply runs_bind; [|intros]
  | |- runs _ (io_try _ _) => apply runs_try; [|intros]
  | |- runs _ (io_map_err _ _) => apply runs_map_err
  | |- runs _ (if ?b then _ else _) => apply runs_if
  | |- runs _ (match ?x with _ => _ end) => destruct x
  | |- runs _ (io_ret _) => by apply runs_pure
  | |- runs _ (io_err _) => by apply runs_pure
  | |- runs _ (io_lift _) => by apply runs_pure
  | |- runs _ (io_gets _) => by apply runs_pure
  | |- runs _ (path_exists _) => by apply runs_pure
  | |- runs _ io_proc => by apply runs_pure
  | |- runs _ (fs_read_to_string _) => apply runs_bind; [|intros]
  | |- runs _ (fs_write _ _) => apply runs_bind; [|intros]
  | |- runs _ (run_command _) => apply runs_run_command
  | |- runs _ (open_truncate _ _) => apply runs_pure; intros; apply syscall_log
  | |- runs _ (open_create_new _ _) => apply runs_pure; intros; apply syscall_log
  | |- runs _ (fs_copy _ _) => apply runs_pure; intros; apply syscall_log
  | |- runs _ (create_dir_all _) => apply runs_pure; intros; apply syscall_log
  | |- runs _ (fs_read _) => apply runs_pure; intros; apply syscall_log
  | |- runs _ (fs_metadata _) => apply runs_pure; intros; apply syscall_log
  | |- runs _ (file_write_all _ _) => apply runs_pure; intros; apply syscall_log
  | |- runs _ (file_sync_all _) => apply runs_pure; intros; apply syscall_log
  | |- runs _ (file_open _) => apply runs_pure; intros; apply syscall_log
  | |- runs _ (fs_rename _ _) => apply runs_pure; intros; apply syscall_log
  | |- runs _ (fs_remove_file _) => apply runs_pure; intros; apply syscall_log
  | |- runs _ (fs_set_mode _ _) => apply runs_pure; intros; apply syscall_log
  | |- runs _ (fs_chown _ _ _) => apply runs_pure; intros; apply syscall_log
  | |- runs _ _ => solve [eauto with runs]
  end.
Create HintDb runs discriminated.

(** A process on a quiet machine: no fault, and commands that succeed silently. *)
Definition calm_world (f : fs) : world :=
  World f [] 0 (fun _ => None) (Proc 42 18 0 0) (fun _ _ _ => Ok (Output true [] [])) [].
