(* ===== verification/Model.v ===== *)
(** * crates/compat-config: data model and errors

    Models crates/compat-config/src/model.rs, secret.rs and the [CompatError] of
    lib.rs: the users, endpoints and server parameters of the
    Hiddify-compatible deployment. *)

From S2P Require Import Prelude Bytes Io Fs.

(** ** lib.rs: [CompatError] *)
Module CompatError.
Inductive t :=
  | Io (msg : string)
  | Parse (msg : string)
  | ConfigValidationFailed (msg : string)
  | WrongTransportForEndpoint
  | UserNotFound
  | UnsupportedSchema (what : string) (found max_supported : Z).
End CompatError.
Notation CompatError := CompatError.t.

(** [.map_err(|e| CompatError::Io(e.to_string()))] *)
Definition compat_io {A : Type} (m : IO io_error A) : IO CompatError A :=
  io_map_err (fun e => CompatError.Io (message e)) m.
(** [.map_err(|e| CompatError::Parse(e.to_string()))] *)
Definition compat_parse {A : Type} (r : result string A) : result CompatError A :=
  map_err CompatError.Parse r.

Lemma keeps_compat_io {A : Type} p (m : IO io_error A) : keeps p m -> keeps p (compat_io m).
Proof. apply keeps_map_err. Qed.
#[export] Hint Resolve keeps_compat_io : fs.

(** ** secret.rs *)
Record SecretString := MkSecret { expose : string }.
(** [impl Debug for SecretString] *)
Definition secret_debug (s : SecretString) : string := "SecretString(REDACTED)".

(** ** model.rs *)
Inductive CompatTransport := VlessReality | Hysteria2.
#[export] Instance CompatTransport_eq_dec : EqDecision CompatTransport.
Proof. solve_decision. Defined.

Definition transport_as_str (t : CompatTransport) : string :=
  match t with VlessReality => "vless-reality" | Hysteria2 => "hysteria2" end.

Inductive PublicParameters :=
  | PReality (public_key_hex short_id fingerprint : string)
  | PHysteria2 (obfs_password : option string).

Record CompatEndpoint := {
  ep_id : string;
  ep_transport : CompatTransport;
  ep_host : string;
  ep_port : Z;
  ep_server_name : option string;
  ep_label : string;
  ep_public_parameters : PublicParameters
}.

Record CompatUser := {
  u_id : string;
  u_name : string;
  u_enabled : bool;
  u_vless_uuid : string;
  u_hysteria2_password : SecretString;
  u_subscription_token_hash_hex : string;
  u_created_at : Z;
  u_expires_at : option Z
}.

(** [CompatUser::is_active] *)
Definition is_active (u : CompatUser) (now_unix : Z) : bool :=
  u_enabled u && default true ((fun exp => now_unix <? exp) <$> u_expires_at u).

Record RealityServerParams := {
  r_private_key_hex : SecretString;
  r_public_key_hex : string;
  r_short_ids : list string;
  r_handshake_server : string;
  r_handshake_port : Z
}.

Record Hysteria2ServerParams := {
  h_tls_cert_path : string;
  h_tls_key_path : string;
  h_obfs_password : option SecretString;
  h_masquerade_dir_path : option string;
  h_up_mbps : option Z;
  h_down_mbps : option Z
}.

#[export] Instance SecretString_eq_dec : EqDecision SecretString.
Proof. solve_decision. Defined.
#[export] Instance CompatUser_eq_dec : EqDecision CompatUser.
Proof. solve_decision. Defined.

(** An expired user never becomes active again. *)
Lemma is_active_antitone u t t' : t <= t' -> is_active u t' = true -> is_active u t = true.
Proof.
  unfold is_active. intros Ht [-> H]%andb_prop.
  destruct (u_expires_at u); cbn in *; [|done]. apply Z.ltb_lt in H. apply Z.ltb_lt. lia.
Qed.

(** Users as data that a generic format can carry. *)
#[export] Instance SecretString_countable : Countable SecretString.
Proof. apply (inj_countable' expose MkSecret). by intros []. Defined.

Definition user_tuple (u : CompatUser) :=
  (u_id u, u_name u, u_enabled u, u_vless_uuid u, u_hysteria2_password u,
   u_subscription_token_hash_hex u, u_created_at u, u_expires_at u).
Definition tuple_user '(i, n, e, v, h, s, c, x) : CompatUser :=
  Build_CompatUser i n e v h s c x.
#[export] Instance CompatUser_countable : Countable CompatUser.
Proof. apply (inj_countable' user_tuple tuple_user). by intros []. Defined.
