(* ===== verification/Store.v ===== *)
(** * crates/compat-config: the user store

    Models store.rs (the [users.json] store: load, save, schema detection and
    migration) with the file primitives it rests on, migrate.rs
    ([backup_before_mutate], [atomic_write]) and ownership.rs
    ([preserve_ownership_before_rename]). *)

From stdpp Require Import pretty.
From Stdlib Require Import Strings.Byte.
From S2P Require Import Prelude Bytes Io Serde Fs Model.

(** ** ownership.rs *)
Definition preserve_ownership_before_rename (tmp_path target_path : path)
    : IO CompatError unit :=
  io_try (fs_metadata target_path) (fun r =>
    match r with
    | Ok m =>
      io_map_err (fun e => CompatError.Io ("failed to preserve ownership on " +:+ path_debug tmp_path +:+ ": " +:+ message e))
        (fs_chown (uid m) (gid m) tmp_path)
    | Err _ =>
      match parent target_path with
      | Some par =>
        do tm <- compat_io (fs_metadata tmp_path);
        do pm <- compat_io (fs_metadata par);
        io_map_err (fun e => CompatError.Io ("failed to preserve ownership on " +:+ path_debug tmp_path +:+ ": " +:+ message e))
          (fs_chown (uid tm) (gid pm) tmp_path)
      | None => io_ret tt
      end
    end).

(** ** Shared writers

    [write_file_mode_0640] (store.rs), [write_file_mode] (migrate.rs) and
    [write_config_file_mode_0640] (server.rs) are the same open-write-fsync. *)
Definition write_file_mode (p : path) (data : bytes) (m : Z) : IO CompatError unit :=
  compat_io (open_truncate m p) ;;
  compat_io (file_write_all p data) ;;
  compat_io (file_sync_all p).

(** [write_file_mode_0640] of store.rs *)
Definition write_file_mode_0640 (p : path) (data : bytes) : IO CompatError unit :=
  write_file_mode p data 416.

(** [fsync_parent_dir]: best effort, the outcome is dropped. *)
Definition fsync_parent_dir (p : path) : IO CompatError unit :=
  match parent p with
  | Some d => io_try (file_open d) (fun r =>
      match r with Ok _ => io_try (file_sync_all d) (fun _ => io_ret tt) | Err _ => io_ret tt end)
  | None => io_ret tt
  end.

(** [file_name().unwrap_or(dflt)] with a suffix, as a sibling of [p]. *)
Definition sibling (p : path) (dflt suffix : string) : path :=
  with_file_name p (default dflt (file_name p) +:+ suffix).

Definition tmp_sibling_path (pid : Z) (p : path) : path :=
  sibling p "store" (".tmp." +:+ pretty pid).

(** ** migrate.rs *)
Definition backup_before_mutate (ts : Z) (p : path) : IO CompatError path :=
  let backup_path := sibling p "state" (".pre-migration-" +:+ pretty ts +:+ ".bak") in
  do data <- compat_io (fs_read p);
  write_file_mode backup_path data 384 ;;
  io_ret backup_path.

Definition atomic_write (p : path) (data : bytes) (m : Z) : IO CompatError unit :=
  do pr <- io_proc;
  let tmp := sibling p "state" (".tmp." +:+ pretty (pid pr)) in
  ((match parent p with Some d => compat_io (create_dir_all d) | None => io_ret tt end) ;;
   write_file_mode tmp data m ;;
   preserve_ownership_before_rename tmp p) ;;
  compat_io (fs_rename tmp p) ;;
  fsync_parent_dir p.

(** ** store.rs *)
Definition USERS_SCHEMA_VERSION : Z := 1.

Record UsersFile := { uf_schema_version : Z; uf_users : list CompatUser }.
#[export] Instance UsersFile_eq_dec : EqDecision UsersFile.
Proof. solve_decision. Defined.
#[export] Instance UsersFile_countable : Countable UsersFile.
Proof.
  apply (inj_countable' (fun f => (uf_schema_version f, uf_users f))
    (fun '(v, u) => Build_UsersFile v u)). by intros [].
Defined.

Inductive UsersSchemaState :=
  | Missing
  | Legacy
  | Current
  | Future (found : Z)
  | Corrupted (msg : string).

Inductive UsersMigrationOutcome :=
  | MigrationMissing
  | AlreadyCurrent
  | Migrated (backup_path : path).

Section Store.
Context `{Json UsersFile, Json (list CompatUser)}.

Definition detect_users_schema (p : path) : IO CompatError UsersSchemaState :=
  do e <- path_exists p;
  if negb e then io_ret Missing
  else io_try (fs_read p) (fun r =>
    match r with
    | Err e => io_ret (Corrupted (message e))
    | Ok data =>
      io_ret match from_slice (A := UsersFile) data with
      | Ok versioned =>
        if USERS_SCHEMA_VERSION <? uf_schema_version versioned
        then Future (uf_schema_version versioned) else Current
      | Err _ =>
        match from_slice (A := list CompatUser) data with
        | Ok _ => Legacy
        | Err _ => Corrupted "neither the current versioned format nor the legacy bare-array format parses"
        end
      end
    end).

Definition unsupported (found : Z) : CompatError :=
  CompatError.UnsupportedSchema "users.json" found USERS_SCHEMA_VERSION.

Definition parse_users_bytes (data : bytes) : result CompatError (list CompatUser) :=
  match from_slice (A := UsersFile) data with
  | Ok versioned =>
    if USERS_SCHEMA_VERSION <? uf_schema_version versioned
    then Err (unsupported (uf_schema_version versioned))
    else Ok (uf_users versioned)
  | Err _ => compat_parse (from_slice (A := list CompatUser) data)
  end.

Definition load_users (p : path) : IO CompatError (list CompatUser) :=
  do e <- path_exists p;
  if negb e then io_ret []
  else
    do data <- compat_io (fs_read p);
    io_lift (parse_users_bytes data).

Definition set_dir_mode_0750 (p : path) : IO CompatError unit := compat_io (fs_set_mode 488 p).

Definition save_users_atomic (p : path) (users : list CompatUser) : IO CompatError unit :=
  do pr <- io_proc;
  let tmp_path := tmp_sibling_path (pid pr) p in
  ((match parent p with
    | Some d => compat_io (create_dir_all d) ;; set_dir_mode_0750 d
    | None => io_ret tt
    end) ;;
   let envelope := {| uf_schema_version := USERS_SCHEMA_VERSION; uf_users := users |} in
   do json <- io_lift (compat_parse (to_vec_pretty envelope));
   write_file_mode_0640 tmp_path json ;;
   preserve_ownership_before_rename tmp_path p) ;;
  compat_io (fs_rename tmp_path p) ;;
  fsync_parent_dir p.

Definition migrate_users (ts : Z) (p : path) : IO CompatError UsersMigrationOutcome :=
  do st <- detect_users_schema p;
  match st with
  | Missing => io_ret MigrationMissing
  | Current => io_ret AlreadyCurrent
  | Future found => io_err (unsupported found)
  | Corrupted msg =>
      io_err (CompatError.Parse ("cannot migrate " +:+ path_debug p +:+ ": " +:+ msg +:+ "; no changes made"))
  | Legacy =>
    do data <- compat_io (fs_read p);
    do legacy <- io_lift (compat_parse (from_slice (A := list CompatUser) data));
    let envelope := {| uf_schema_version := USERS_SCHEMA_VERSION; uf_users := legacy |} in
    do json <- io_lift (compat_parse (to_vec_pretty envelope));
    do reparsed <- io_lift (compat_parse (from_slice (A := UsersFile) json));
    if negb (uf_schema_version reparsed =? USERS_SCHEMA_VERSION)
       || negb (length (uf_users reparsed) =? length (uf_users envelope))%nat
    then io_err (CompatError.Parse
      "migrated users.json failed to reparse to the expected shape — this is a bug, not applying")
    else
      do backup_path <- backup_before_mutate ts p;
      atomic_write p json 416 ;;
      io_ret (Migrated backup_path)
  end.
End Store.

(** ** Framing *)

Lemma keeps_write_file_mode p q d m : q <> p -> keeps p (write_file_mode q d m).
Proof. intros. unfold write_file_mode. solve_keeps. Qed.
Lemma keeps_preserve_ownership p t q : t <> p -> keeps p (preserve_ownership_before_rename t q).
Proof. intros. unfold preserve_ownership_before_rename, fs_chown. solve_keeps. Qed.
Lemma keeps_fsync_parent_dir p q : keeps p (fsync_parent_dir q).
Proof. unfold fsync_parent_dir. solve_keeps. Qed.
#[export] Hint Resolve keeps_write_file_mode keeps_preserve_ownership keeps_fsync_parent_dir : fs.

Lemma file_name_app (d : path) n : file_name (d ++ [n]) = Some n.
Proof.
  unfold file_name. rewrite fmap_app. cbn. induction (Some <$> d) as [|x l IH]; [done|].
  cbn. rewrite IH. by destruct l.
Qed.

Lemma path_snoc (p : path) : p <> [] -> exists d n, p = d ++ [n].
Proof. intros Hp. exists (removelast p), (List.last p ""). by apply app_removelast_last. Qed.

Lemma sibling_snoc d n dflt s : sibling (d ++ [n]) dflt s = d ++ [n +:+ s].
Proof. unfold sibling, with_file_name. by rewrite file_name_app, removelast_last. Qed.

(** A sibling with a nonempty suffix is another file of the same directory. *)
Lemma sibling_ne p dflt s : (s <> "")%string -> sibling p dflt s <> p.
Proof.
  intros Hs. destruct (decide (p = [])) as [->|Hp]; [discriminate|].
  destruct (path_snoc p Hp) as (d & n & ->). rewrite sibling_snoc.
  intros [= E]%(app_inv_head d). by apply (str_app_ne_suffix n s Hs).
Qed.

Lemma sibling_ne_nil p dflt s : sibling p dflt s <> [].
Proof. unfold sibling, with_file_name. by destruct (removelast p). Qed.

Lemma sibling_not_below p dflt s : ~ sibling p dflt s `prefix_of` removelast p.
Proof.
  unfold sibling, with_file_name. intros [k Hk]. apply (f_equal length) in Hk.
  rewrite !length_app in Hk. cbn in Hk. lia.
Qed.

Lemma sibling_inj p d1 s1 d2 s2 :
  p <> [] -> sibling p d1 s1 = sibling p d2 s2 -> s1 = s2.
Proof.
  intros Hp. destruct (path_snoc p Hp) as (d & n & ->). rewrite !sibling_snoc.
  intros [= E]%(app_inv_head d). by apply (inj (String.app n)) in E.
Qed.

(** ** What the writers leave behind *)

Definition meta_after_open (w : world) (p : path) (m : Z) (mt : meta) : Prop :=
  match w_fs w !! p with
  | Some n => mt = node_meta n
  | None => mt = new_meta (w_proc w) (w_fs w) p m
  end.

Lemma write_file_mode_Ok_inv p d m w w' :
  write_file_mode p d m w = (Ok tt, w') ->
  exists mt, w_fs w' !! p = Some (File mt d) /\ meta_after_open w p m mt.
Proof.
  intros ([] & w1 & H1%io_map_err_Ok_inv & H)%io_bind_Ok_inv.
  apply io_bind_Ok_inv in H as ([] & w2 & H2%io_map_err_Ok_inv & H3%io_map_err_Ok_inv).
  apply open_truncate_Ok_inv in H1 as (mt & -> & Hmt).
  eapply file_write_all_Ok_inv in H2; [|apply lookup_insert_eq]. subst w2.
  apply file_sync_all_Ok_inv in H3 as ->. exists mt. cbn. split; [|done].
  by rewrite lookup_insert_eq.
Qed.

(** The owner and group that a replacement of [p] gets. *)
Definition owner_for (w : world) (p : path) (own : meta) (u g : Z) : Prop :=
  match w_fs w !! p with
  | Some n => u = uid (node_meta n) /\ g = gid (node_meta n)
  | None => u = uid own /\
      forall d n, parent p = Some d -> w_fs w !! d = Some n -> g = gid (node_meta n)
  end.

Lemma preserve_ownership_Ok_inv t p w w' mt d :
  w_fs w !! t = Some (File mt d) ->
  preserve_ownership_before_rename t p w = (Ok tt, w') ->
  exists u g, w_fs w' !! t = Some (File (Meta (mode mt) u g) d) /\
    (w_fault w (w_ops w) = None -> owner_for w p mt u g).
Proof.
  intros Ht. unfold preserve_ownership_before_rename, io_try.
  destruct (fs_metadata p w) as [[pm|e] w1] eqn:Em.
  - apply fs_metadata_Ok_inv in Em as ((n & Hn & ->) & ->).
    intros H%io_map_err_Ok_inv. apply update_meta_Ok_inv in H as (n' & Hn' & ->).
    cbn in Hn'. simplify_eq. cbn. rewrite lookup_insert_eq.
    do 2 eexists. split; [done|]. unfold owner_for. by rewrite Hn.
  - assert (w_fs w1 = w_fs w /\ (w_fault w (w_ops w) = None -> w_fs w !! p = None)) as [E1 Hno].
    { unfold fs_metadata, syscall in Em. destruct (w_fault w (w_ops w)); simplify_eq; [done|].
      destruct (w_fs w !! p); by simplify_eq. }
    destruct (parent p) as [par|] eqn:Hpar.
    + intros (tm & w2 & H2%io_map_err_Ok_inv & H)%io_bind_Ok_inv.
      apply io_bind_Ok_inv in H as (pm & w3 & H3%io_map_err_Ok_inv & H%io_map_err_Ok_inv).
      apply fs_metadata_Ok_inv in H2 as ((n & Hn & ->) & ->).
      apply fs_metadata_Ok_inv in H3 as ((n3 & Hn3 & ->) & ->).
      apply update_meta_Ok_inv in H as (n' & Hn' & ->).
      cbn in *. rewrite E1 in *. simplify_eq. rewrite lookup_insert_eq. do 2 eexists.
      split; [done|]. intros Hno'%Hno. unfold owner_for. rewrite Hno'. split; [done|].
      intros. by simplify_eq.
    + intros [= <-]. rewrite E1, Ht. exists (uid mt), (gid mt). split; [by destruct mt|].
      intros Hno'%Hno. unfold owner_for. rewrite Hno'. split; [done|]. congruence.
Qed.

Lemma fsync_parent_dir_ok p w r w' : fsync_parent_dir p w = (r, w') -> r = Ok tt.
Proof.
  unfold fsync_parent_dir, io_try. destruct (parent p); [|by intros [= <- <-]].
  destruct (file_open _ w) as [[] w1]; [|by intros [= <- <-]]. destruct (file_sync_all _ w1). by intros [= <- <-].
Qed.

(** ** The common body of both savers

    [prepare] readies the directory and yields the bytes; the bytes go to the
    temporary [t], which takes over the owner of [p] and is renamed over it. *)
Definition stage_tmp (prepare : IO CompatError bytes) (t p : path) (m : Z) : IO CompatError unit :=
  do json <- prepare;
  write_file_mode t json m ;; preserve_ownership_before_rename t p.

Lemma stage_tmp_Ok_inv prepare t p m w w' :
  t <> p -> keeps t prepare -> keeps p prepare ->
  stage_tmp prepare t p m w = (Ok tt, w') ->
  exists json w1 mt u g, prepare w = (Ok json, w1) /\ w_fs w' !! t = Some (File (Meta (mode mt) u g) json) /\
    meta_after_open w1 t m mt /\
    ((forall n, w_fault w n = None) -> match w_fs w !! p with
       | Some n => u = uid (node_meta n) /\ g = gid (node_meta n)
       | None => u = uid mt
       end).
Proof.
  intros Hne Kt Kp (json & w1 & H1 & H)%io_bind_Ok_inv.
  apply io_bind_Ok_inv in H as ([] & w2 & H2 & H3).
  destruct (keeps_final _ _ _ _ _ Kp H1) as (Ep & Ef & _).
  destruct (keeps_final p _ _ _ _ (keeps_write_file_mode _ _ _ _ Hne) H2) as (Ep2 & Ef2 & _).
  apply write_file_mode_Ok_inv in H2 as (mt & Ht & Hmt).
  destruct (preserve_ownership_Ok_inv _ _ _ _ _ _ Ht H3) as (u & g & Hu & Ho).
  exists json, w1, mt, u, g. do 3 (split; [done|]). intros Hnf.
  rewrite Ef2, Ef in Ho. specialize (Ho (Hnf _)). unfold owner_for in Ho.
  rewrite Ep2, Ep in Ho. destruct (w_fs w !! p); [done|]. by destruct Ho.
Qed.

(** What a replaced file owes to the one before it: with no fault on the way,
    the owner and group of the old file; the mode of the temporary. *)
Definition save_owner (w : world) (p : path) (mt : meta) : Prop :=
  (forall n, w_fault w n = None) ->
  match w_fs w !! p with
  | Some old => uid mt = uid (node_meta old) /\ gid mt = gid (node_meta old)
  | None => True
  end.
Definition save_mode (w : world) (t : path) (m : Z) (mt : meta) : Prop :=
  w_fs w !! t = None -> mode mt = Z.land m (Z.lnot (umask (w_proc w))).

Lemma stage_commit prepare t p m w r w' :
  t <> p -> keeps t prepare -> keeps p prepare ->
  (stage_tmp prepare t p m ;; compat_io (fs_rename t p) ;; fsync_parent_dir p) w = (r, w') ->
  exists new, extends w w' new /\
  match r with
  | Err _ => w_fs w' !! p = w_fs w !! p /\ Forall (fun f => f !! p = w_fs w !! p) new
  | Ok _ => exists json w1 mt, prepare w = (Ok json, w1) /\
      w_fs w' !! p = Some (File mt json) /\ save_owner w p mt /\ save_mode w t m mt /\
      Forall (fun f => f !! p = w_fs w !! p \/ f !! p = Some (File mt json)) new
  end.
Proof.
  intros Hne Kt Kp Hrun.
  apply rename_commits in Hrun; [|unfold stage_tmp; solve_keeps|solve_keeps|done].
  destruct Hrun as [(w1 & n & H1 & Ht & Hp & (w2 & Hr) & new & Hx & HF)
    |(e & -> & Hp & new & Hx & HF)]; exists new; (split; [done|]); [|done].
  apply fsync_parent_dir_ok in Hr as ->.
  apply stage_tmp_Ok_inv in H1 as (json & w3 & mt & u & g & Hj & Ht' & Hm & Ho); [|done..].
  simplify_eq. do 3 eexists. split; [done|]. split; [done|]. repeat split; [..|done].
  - intros Hnf. specialize (Ho Hnf). by destruct (w_fs w !! p).
  - intros Habs. destruct (keeps_final _ _ _ _ _ Kt Hj) as (Et & _ & Epr).
    unfold meta_after_open in Hm. rewrite Et, Habs in Hm. subst mt. cbn. by rewrite Epr.
Qed.

Definition dir_ready (p : path) (data : bytes) : IO CompatError bytes :=
  (match parent p with Some d => compat_io (create_dir_all d) | None => io_ret tt end) ;;
  io_ret data.

Lemma keeps_dir_ready q p data : ~ q `prefix_of` removelast p \/ p = [] -> keeps q (dir_ready p data).
Proof.
  intros Hq. unfold dir_ready. destruct p as [|c p]; cbn [parent]; [solve_keeps|].
  destruct Hq as [Hq|]; [|done]. solve_keeps.
Qed.

Lemma atomic_write_stages p data m w :
  atomic_write p data m w =
  let t := sibling p "state" (".tmp." +:+ pretty (pid (w_proc w))) in
  (stage_tmp (dir_ready p data) t p m ;; compat_io (fs_rename t p) ;; fsync_parent_dir p) w.
Proof.
  cbv zeta. unfold atomic_write, io_proc. cbn. apply io_bind_ext; [|done].
  unfold stage_tmp, dir_ready. by rewrite io_bind_assoc.
Qed.

Lemma atomic_write_spec p data m w r w' :
  atomic_write p data m w = (r, w') ->
  exists new, extends w w' new /\
  match r with
  | Err _ => w_fs w' !! p = w_fs w !! p /\ Forall (fun f => f !! p = w_fs w !! p) new
  | Ok _ => exists mt, w_fs w' !! p = Some (File mt data) /\ save_owner w p mt /\
      Forall (fun f => f !! p = w_fs w !! p \/ f !! p = Some (File mt data)) new
  end.
Proof.
  rewrite atomic_write_stages. cbv zeta. intros Hrun. apply stage_commit in Hrun.
  - destruct Hrun as (new & Hx & Hr). exists new. split; [done|]. destruct r; [|done].
    destruct Hr as (json & w1 & mt & Hj & Hp & Ho & _ & HF).
    apply io_bind_Ok_inv in Hj as (? & ? & _ & [= -> _]). by exists mt.
  - by apply sibling_ne.
  - apply keeps_dir_ready. left. apply sibling_not_below.
  - apply keeps_dir_ready. destruct p; [by right|left; by apply not_prefix_removelast].
Qed.

(** ** The users store *)
Section StoreFacts.
Context `{Json UsersFile, Json (list CompatUser)}.
Context `{!JsonLaws UsersFile}.

Definition envelope (users : list CompatUser) : UsersFile :=
  {| uf_schema_version := USERS_SCHEMA_VERSION; uf_users := users |}.

(** The bytes are those of the current schema and hold these users. *)
Definition stored (users : list CompatUser) (json : bytes) : Prop :=
  to_vec_pretty (envelope users) = Ok json /\ parse_users_bytes json = Ok users.

Lemma stored_intro users json : to_vec_pretty (envelope users) = Ok json -> stored users json.
Proof.
  intros Hj. split; [done|]. unfold parse_users_bytes. by rewrite (from_to_vec_pretty _ _ Hj).
Qed.

Definition save_prepare (p : path) (users : list CompatUser) : IO CompatError bytes :=
  (match parent p with
   | Some d => compat_io (create_dir_all d) ;; set_dir_mode_0750 d
   | None => io_ret tt
   end) ;;
  io_lift (compat_parse (to_vec_pretty (envelope users))).

Lemma save_users_stages p users w :
  save_users_atomic p users w =
  let t := tmp_sibling_path (pid (w_proc w)) p in
  (stage_tmp (save_prepare p users) t p 416 ;; compat_io (fs_rename t p) ;; fsync_parent_dir p) w.
Proof.
  cbv zeta. unfold save_users_atomic, io_proc. cbn. apply io_bind_ext; [|done].
  unfold stage_tmp, save_prepare. by rewrite io_bind_assoc.
Qed.

Lemma tmp_sibling_ne pid p : tmp_sibling_path pid p <> p.
Proof. by apply sibling_ne. Qed.

Lemma keeps_save_prepare q p users :
  q = p \/ (exists dflt s, q = sibling p dflt s) -> keeps q (save_prepare p users).
Proof.
  intros Hq. unfold save_prepare, set_dir_mode_0750, fs_set_mode.
  destruct p as [|c p]; cbn [parent]; [solve_keeps|].
  assert (~ q `prefix_of` removelast (c :: p)) as Hpre.
  { destruct Hq as [->|(dflt & s & ->)]; [by apply not_prefix_removelast|apply sibling_not_below]. }
  assert (removelast (c :: p) <> q) by (intros <-; by apply Hpre).
  solve_keeps.
Qed.

Lemma save_prepare_Ok_inv p users w json w1 :
  save_prepare p users w = (Ok json, w1) -> to_vec_pretty (envelope users) = Ok json.
Proof.
  intros ([] & w2 & _ & [= Hj <-])%io_bind_Ok_inv. by apply map_err_Ok_inv in Hj.
Qed.

Lemma save_users_spec p users w r w' :
  save_users_atomic p users w = (r, w') ->
  exists new, extends w w' new /\
  match r with
  | Err _ => w_fs w' !! p = w_fs w !! p /\ Forall (fun f => f !! p = w_fs w !! p) new
  | Ok _ => exists mt json, w_fs w' !! p = Some (File mt json) /\ stored users json /\
      save_owner w p mt /\ save_mode w (tmp_sibling_path (pid (w_proc w)) p) 416 mt /\
      Forall (fun f => f !! p = w_fs w !! p \/ f !! p = Some (File mt json)) new
  end.
Proof.
  rewrite save_users_stages. cbv zeta. intros Hrun. apply stage_commit in Hrun.
  - destruct Hrun as (new & Hx & Hr). exists new. split; [done|]. destruct r; [|done].
    destruct Hr as (json & w1 & mt & Hj & Hp & Ho & Hm & HF). exists mt, json.
    split; [done|]. split; [by eapply stored_intro, save_prepare_Ok_inv|]. done.
  - apply tmp_sibling_ne.
  - apply keeps_save_prepare. right. by do 2 eexists.
  - apply keeps_save_prepare. by left.
Qed.

Lemma load_users_file p w mt json users :
  w_fs w !! p = Some (File mt json) -> parse_users_bytes json = Ok users ->
  w_fault w (w_ops w) = None -> fst (load_users p w) = Ok users.
Proof.
  intros Hp Hj Hf. unfold load_users, io_bind. rewrite path_exists_run. cbn.
  rewrite (exists_at_Some _ _ _ Hp). cbn. unfold compat_io, io_map_err.
  rewrite (fs_read_ok _ _ _ _ Hf Hp). cbn. by rewrite Hj.
Qed.

(** Saving the users is atomic under every fault and crash.  Whatever system
    calls fail, each state the disk goes through holds at [p] either exactly
    what it held before or the complete new file; an error leaves [p] as it
    was, and success leaves a file that reads back as [users]. *)
Theorem save_users_crash_atomic p users w r w' :
  save_users_atomic p users w = (r, w') ->
  exists new, w_hist w' = new ++ w_hist w /\
  match r with
  | Err _ => w_fs w' !! p = w_fs w !! p /\ Forall (fun f => f !! p = w_fs w !! p) new
  | Ok _ => exists mt json, w_fs w' !! p = Some (File mt json) /\ stored users json /\
      Forall (fun f => f !! p = w_fs w !! p \/ f !! p = Some (File mt json)) new
  end.
Proof.
  intros (new & (Hh & _) & Hr)%save_users_spec. exists new. split; [done|].
  destruct r; [|done]. destruct Hr as (mt & json & ? & ? & _ & _ & ?). by exists mt, json.
Qed.

(** What was saved is what is loaded: after a save that returned [Ok], a
    load whose read meets no fault returns the same users in the same order. *)
Theorem save_then_load p users w w' :
  save_users_atomic p users w = (Ok tt, w') ->
  w_fault w' (w_ops w') = None ->
  fst (load_users p w') = Ok users.
Proof.
  intros (new & _ & mt & json & Hp & [_ Hj] & _)%save_users_spec Hf.
  by eapply load_users_file.
Qed.

(** A save keeps the file readable by its service: when no call fails, the
    new file has the owner and group of the file it replaces, and a fresh
    temporary gives it mode 0640 less the umask, so that replacing the file
    never hands it to the writer's own group. *)
Theorem save_keeps_ownership p users w w' old :
  save_users_atomic p users w = (Ok tt, w') ->
  (forall n, w_fault w n = None) ->
  w_fs w !! p = Some old ->
  w_fs w !! tmp_sibling_path (pid (w_proc w)) p = None ->
  exists json, w_fs w' !! p =
    Some (File (Meta (Z.land 416 (Z.lnot (umask (w_proc w)))) (uid (node_meta old)) (gid (node_meta old))) json).
Proof.
  intros (new & _ & mt & json & Hp & _ & Ho & Hm & _)%save_users_spec Hf Hold Htmp.
  exists json. rewrite Hp, <-(Hm Htmp). specialize (Ho Hf). rewrite Hold in Ho.
  destruct Ho as [<- <-]. by destruct mt.
Qed.

(** *** Migration *)

Definition backup_of (ts : Z) (p : path) : path :=
  sibling p "state" (".pre-migration-" +:+ pretty ts +:+ ".bak").

Lemma backup_ne ts p : backup_of ts p <> p.
Proof. by apply sibling_ne. Qed.

Lemma backup_ne_tmp ts (n : Z) p : p <> [] -> backup_of ts p <> sibling p "state" (".tmp." +:+ pretty n).
Proof. intros Hp [=]%sibling_inj; done. Qed.

Lemma keeps_detect q p : keeps q (detect_users_schema p).
Proof. unfold detect_users_schema. solve_keeps. Qed.

Lemma keeps_backup q ts p : q <> backup_of ts p -> keeps q (backup_before_mutate ts p).
Proof. intros. unfold backup_before_mutate. fold (backup_of ts p). solve_keeps. Qed.

Lemma keeps_atomic_write_other q p data m w r w' :
  ~ q `prefix_of` removelast p -> q <> p ->
  q <> sibling p "state" (".tmp." +:+ pretty (pid (w_proc w))) ->
  atomic_write p data m w = (r, w') -> w_fs w' !! q = w_fs w !! q.
Proof.
  intros Hd Hp Ht. rewrite atomic_write_stages. cbv zeta. intros Hrun.
  assert (keeps q (dir_ready p data)) by (apply keeps_dir_ready; eauto).
  eapply keeps_final; [|exact Hrun]. unfold stage_tmp. solve_keeps.
Qed.

(** The states [users.json] can be found in, told apart by their bytes. *)
Definition schema_of (data : bytes) (st : UsersSchemaState) : Prop :=
  match st with
  | Current => exists f, from_slice (A := UsersFile) data = Ok f /\ uf_schema_version f <= USERS_SCHEMA_VERSION
  | Future v => exists f, from_slice (A := UsersFile) data = Ok f /\ v = uf_schema_version f /\
                 USERS_SCHEMA_VERSION < v
  | Legacy => exists e us, from_slice (A := UsersFile) data = Err e /\
                 from_slice (A := list CompatUser) data = Ok us
  | Corrupted _ => exists e e', from_slice (A := UsersFile) data = Err e /\
                 from_slice (A := list CompatUser) data = Err e'
  | Missing => False
  end.

Lemma detect_Legacy_inv p w w1 :
  detect_users_schema p w = (Ok Legacy, w1) ->
  exists mt data, w_fs w !! p = Some (File mt data) /\ schema_of data Legacy.
Proof.
  unfold detect_users_schema. intros (b & w2 & [= <- <-] & Hd)%io_bind_Ok_inv.
  destruct (exists_at _ _); [|done]. cbn in Hd. unfold io_try in Hd.
  destruct (fs_read p w) as [[data|e] w3] eqn:Hr; [|done].
  apply fs_read_Ok_inv in Hr as ((mt & Hp) & _). exists mt, data. split; [done|].
  injection Hd as Hd _. unfold schema_of. split_tests. eauto.
Qed.

Lemma detect_schema p w mt data :
  w_fs w !! p = Some (File mt data) -> w_fault w (w_ops w) = None ->
  exists st, fst (detect_users_schema p w) = Ok st /\ schema_of data st.
Proof.
  intros Hp Hf. unfold detect_users_schema, io_bind, io_try. rewrite path_exists_run.
  rewrite (exists_at_Some _ _ _ Hp). cbn. rewrite (fs_read_ok _ _ _ _ Hf Hp). cbn.
  eexists. split; [done|]. unfold schema_of.
  destruct (from_slice (A := UsersFile) data) eqn:E1.
  - destruct (_ <? _) eqn:E2; [apply Z.ltb_lt in E2|apply Z.ltb_ge in E2]; eauto.
  - destruct (from_slice (A := list CompatUser) data) eqn:E2; eauto.
Qed.

(** Detection says what loading will do. *)
Lemma load_agrees_with_detect p w mt data :
  w_fs w !! p = Some (File mt data) -> w_fault w (w_ops w) = None ->
  exists st, fst (detect_users_schema p w) = Ok st /\ schema_of data st /\
  match st with
  | Current | Legacy => exists us, fst (load_users p w) = Ok us
  | Future v => fst (load_users p w) = Err (unsupported v)
  | Corrupted _ => exists e, fst (load_users p w) = Err (CompatError.Parse e)
  | Missing => False
  end.
Proof.
  intros Hp Hf. destruct (detect_schema p w mt data Hp Hf) as (st & Hd & Hs). exists st.
  split; [done|]. split; [done|]. unfold load_users, io_bind. rewrite path_exists_run.
  rewrite (exists_at_Some _ _ _ Hp). cbn. unfold compat_io, io_map_err.
  rewrite (fs_read_ok _ _ _ _ Hf Hp). cbn. unfold parse_users_bytes.
  destruct st; cbn in Hs; [done|..].
  - destruct Hs as (e & us & -> & ->). by exists us.
  - destruct Hs as (f & -> & Hv). rewrite (proj2 (Z.ltb_ge _ _) Hv). eauto.
  - destruct Hs as (f & -> & -> & Hv). by rewrite (proj2 (Z.ltb_lt _ _) Hv).
  - destruct Hs as (e & e' & -> & ->). cbn. eauto.
Qed.

Lemma backup_Ok_inv ts p w b w' :
  backup_before_mutate ts p w = (Ok b, w') ->
  b = backup_of ts p /\ exists mt data mb, w_fs w !! p = Some (File mt data) /\
    w_fs w' !! b = Some (File mb data).
Proof.
  unfold backup_before_mutate. fold (backup_of ts p).
  intros (data & w1 & H1%io_map_err_Ok_inv & Hb)%io_bind_Ok_inv.
  apply io_bind_Ok_inv in Hb as ([] & w2 & H2 & [= <- <-]). split; [done|].
  apply fs_read_Ok_inv in H1 as ((mt & Hp) & ->).
  apply write_file_mode_Ok_inv in H2 as (mb & Hmb & _). eauto 6.
Qed.

(** The legacy branch of [migrate_users]. *)
Definition migrate_legacy (ts : Z) (p : path) : IO CompatError UsersMigrationOutcome :=
  do data <- compat_io (fs_read p);
  do legacy <- io_lift (compat_parse (from_slice (A := list CompatUser) data));
  do json <- io_lift (compat_parse (to_vec_pretty (envelope legacy)));
  do reparsed <- io_lift (compat_parse (from_slice (A := UsersFile) json));
  if negb (uf_schema_version reparsed =? USERS_SCHEMA_VERSION)
     || negb (length (uf_users reparsed) =? length (uf_users (envelope legacy)))%nat
  then io_err (CompatError.Parse
    "migrated users.json failed to reparse to the expected shape — this is a bug, not applying")
  else
    do backup_path <- backup_before_mutate ts p;
    atomic_write p json 416 ;;
    io_ret (Migrated backup_path).

Lemma migrate_cases ts p w r w' :
  migrate_users ts p w = (r, w') ->
  (exists w1, detect_users_schema p w = (Ok Legacy, w1) /\ migrate_legacy ts p w1 = (r, w')) \/
  (w_fs w' !! p = w_fs w !! p /\ forall b, r <> Ok (Migrated b)).
Proof.
  unfold migrate_users. intros Hm. apply io_bind_inv in Hm.
  destruct Hm as [(st & w1 & Hd & Hm)|(e & Hd & ->)];
    destruct (keeps_final _ _ _ _ _ (keeps_detect p p) Hd) as (Ep & _).
  - destruct st; [|left; eauto|..]; injection Hm as <- <-; by right.
  - by right.
Qed.

(** What a migration leaves behind; [old] is the file found there. *)
Definition migrated (p b : path) (old : bytes) (w w' : world) : Prop :=
  exists us json mt mb, parse_users_bytes old = Ok us /\ stored us json /\
    w_fs w' !! p = Some (File mt json) /\ save_owner w p mt /\
    w_fs w' !! b = Some (File mb old).

Lemma migrate_legacy_spec ts p w mt data r w' :
  p <> [] -> w_fs w !! p = Some (File mt data) -> schema_of data Legacy ->
  migrate_legacy ts p w = (r, w') ->
  match r with
  | Ok o => o = Migrated (backup_of ts p) /\ migrated p (backup_of ts p) data w w'
  | Err _ => w_fs w' !! p = w_fs w !! p
  end.
Proof.
  intros Hp Hf (e & us & Hu & Hl). unfold migrate_legacy. intros Hm.
  apply io_bind_inv in Hm as [(d & w1 & Hr%io_map_err_Ok_inv & Hm)|(x & Hr & ->)];
    [|by destruct (keeps_final _ _ _ _ _ (keeps_compat_io p _ (keeps_fs_read p p)) Hr)].
  apply fs_read_Ok_inv in Hr as ((mt' & Hf') & ->). simplify_eq.
  rewrite Hl in Hm. cbn in Hm. set (w1 := push_fs _ _) in Hm.
  destruct (to_vec_pretty (envelope us)) as [json|?] eqn:Ej; [|by injection Hm as <- <-].
  cbn in Hm. rewrite (from_to_vec_pretty _ _ Ej) in Hm. cbn in Hm.
  rewrite Nat.eqb_refl in Hm. cbn in Hm.
  assert (p <> backup_of ts p) as Hb by (symmetry; apply backup_ne).
  apply io_bind_inv in Hm as [(b & w2 & Hbk & Hm)|(x & Hr & ->)];
    [|by destruct (keeps_final _ _ _ _ _ (keeps_backup p ts p Hb) Hr)].
  destruct (keeps_final _ _ _ _ _ (keeps_backup p ts p Hb) Hbk) as (E2 & F2 & P2).
  apply backup_Ok_inv in Hbk as (-> & m0 & d0 & mb & Hd0 & Hbk). cbn in Hd0, E2. simplify_eq.
  apply io_bind_inv in Hm as [([] & w3 & Hw & [= <- <-])|(x & Hw & ->)].
  - split; [done|]. destruct (atomic_write_spec _ _ _ _ _ _ Hw) as (_ & _ & mt2 & Hp2 & Ho & _).
    exists us, json, mt2, mb. unfold parse_users_bytes. rewrite Hu, Hl.
    split; [done|]. split; [by apply stored_intro|]. split; [done|]. split.
    + intros Hnf. rewrite <-E2. apply Ho. by rewrite F2.
    + rewrite <-Hbk. eapply keeps_atomic_write_other; [| | |done]; [|done|].
      * apply sibling_not_below.
      * by apply backup_ne_tmp.
  - destruct (atomic_write_spec _ _ _ _ _ _ Hw) as (_ & _ & -> & _). done.
Qed.

(** Migration never loses users.  If [migrate_users] reports a migration,
    the old file was a legacy list, the new file holds the same users in the
    current schema, and the reported backup holds the old bytes exactly.  In
    every other outcome, refusals and failures included, the file is as it was. *)
Theorem migrate_users_preserves ts p w r w' :
  p <> [] ->
  migrate_users ts p w = (r, w') ->
  match r with
  | Ok (Migrated b) => exists mt old, w_fs w !! p = Some (File mt old) /\ migrated p b old w w'
  | _ => w_fs w' !! p = w_fs w !! p
  end.
Proof.
  intros Hp [(w1 & Hd & Hm)|[E Hr]]%migrate_cases.
  - destruct (keeps_final _ _ _ _ _ (keeps_detect p p) Hd) as (E & F & _).
    destruct (detect_Legacy_inv _ _ _ Hd) as (mt & old & Hold & Hs).
    rewrite <-E in Hold. apply (migrate_legacy_spec _ _ _ _ _ _ _ Hp Hold Hs) in Hm.
    destruct r as [o|]; [|by rewrite Hm].
    destruct Hm as (-> & us & json & mt2 & mb & Hu & Hst & Hp2 & Ho & Hb).
    exists mt, old. rewrite <-E. split; [done|]. exists us, json, mt2, mb.
    repeat (split; [done|]). split; [|done]. intros Hnf. rewrite <-E. apply Ho. by rewrite F.
  - destruct r as [[]|]; try done. by destruct (Hr backup_path).
Qed.

(** Migration is idempotent: run again on the file it produced, with no
    fault on the read, it reports that there is nothing to do and changes
    nothing. *)
Theorem migrate_users_idempotent ts ts' p w b w1 :
  p <> [] ->
  migrate_users ts p w = (Ok (Migrated b), w1) ->
  w_fault w1 (w_ops w1) = None ->
  exists w2, migrate_users ts' p w1 = (Ok AlreadyCurrent, w2) /\ w_fs w2 = w_fs w1.
Proof.
  intros Hp [(w0 & Hd & Hm)|[_ Hr]]%migrate_cases Hf; [|by destruct (Hr b)].
  destruct (detect_Legacy_inv _ _ _ Hd) as (mt & old & Hold & Hs).
  destruct (keeps_final _ _ _ _ _ (keeps_detect p p) Hd) as (E & _ & _).
  rewrite <-E in Hold. apply (migrate_legacy_spec _ _ _ _ _ _ _ Hp Hold Hs) in Hm.
  destruct Hm as (_ & us & json & mt2 & mb & _ & [Hst _] & Hp2 & _).
  unfold migrate_users, detect_users_schema, io_bind, io_try.
  rewrite path_exists_run, (exists_at_Some _ _ _ Hp2). cbn.
  rewrite (fs_read_ok _ _ _ _ Hf Hp2), (from_to_vec_pretty _ _ Hst). cbn. eauto.
Qed.
End StoreFacts.

(** ** Concrete runs *)
Module StoreDemo.
#[export] Instance users_json : Json UsersFile := tagged_json "{".
#[export] Instance legacy_json : Json (list CompatUser) := tagged_json "[".
#[export] Instance users_json_laws : JsonLaws UsersFile := tagged_json_laws "{".

Definition alice : CompatUser := Build_CompatUser "a1" "alice" true "uuid-a" (MkSecret "pw") "00ff" 100 (Some 200).
Definition bob : CompatUser := Build_CompatUser "b2" "bob" false "uuid-b" (MkSecret "pw2") "11ee" 150 None.
Definition users_path : path := ["etc"; "vpn"; "users.json"].
Definition legacy_bytes : bytes := default [] (ok (to_vec [alice; bob])).
Definition disk : fs :=
  <[["etc"] := Dir (Meta 493 0 0)]> $ <[["etc"; "vpn"] := Dir (Meta 488 0 7)]> $
  <[users_path := File (Meta 416 0 7) legacy_bytes]> ∅.
Definition saved := save_users_atomic users_path [bob; alice] (calm_world disk).
Definition migration := migrate_users 1000 users_path (calm_world disk).
End StoreDemo.

Section StoreWitnesses.
Import StoreDemo.

Lemma save_users_crash_atomic_witness :
  fst saved = Ok tt /\
  exists new, w_hist (snd saved) = new ++ [] /\
    match fst saved with
    | Err _ => w_fs (snd saved) !! users_path = disk !! users_path /\
        Forall (fun f : fs => f !! users_path = disk !! users_path) new
    | Ok _ => exists mt json, w_fs (snd saved) !! users_path = Some (File mt json) /\
        stored [bob; alice] json /\
        Forall (fun f : fs => f !! users_path = disk !! users_path \/
                              f !! users_path = Some (File mt json)) new
    end.
Proof.
  split; [vm_compute; reflexivity|].
  exact (save_users_crash_atomic users_path [bob; alice] (calm_world disk) _ _
    (surjective_pairing saved)).
Defined.

Lemma save_then_load_witness : fst (load_users users_path (snd saved)) = Ok [bob; alice].
Proof.
  apply (save_then_load users_path [bob; alice] (calm_world disk) (snd saved)).
  - apply run_of_fst. vm_compute. reflexivity.
  - vm_compute. reflexivity.
Defined.

Lemma save_keeps_ownership_witness :
  exists json, w_fs (snd saved) !! users_path = Some (File (Meta 416 0 7) json).
Proof.
  apply (save_keeps_ownership users_path [bob; alice] (calm_world disk) (snd saved)
    (File (Meta 416 0 7) legacy_bytes)); [|done|..].
  - apply run_of_fst. vm_compute. reflexivity.
  - vm_compute. reflexivity.
  - vm_compute. reflexivity.
Defined.

Lemma migrate_users_preserves_witness :
  exists mt old, disk !! users_path = Some (File mt old) /\
    migrated users_path ["etc"; "vpn"; "users.json.pre-migration-1000.bak"] old
      (calm_world disk) (snd migration).
Proof.
  apply (migrate_users_preserves 1000 users_path (calm_world disk)
    (Ok (Migrated _)) (snd migration)); [done|].
  apply run_of_fst. vm_compute. reflexivity.
Defined.

Lemma migrate_users_idempotent_witness :
  exists w2, migrate_users 2000 users_path (snd migration) = (Ok AlreadyCurrent, w2) /\
    w_fs w2 = w_fs (snd migration).
Proof.
  apply (migrate_users_idempotent 1000 2000 users_path (calm_world disk)
    ["etc"; "vpn"; "users.json.pre-migration-1000.bak"] (snd migration)); [done|..].
  - apply run_of_fst. vm_compute. reflexivity.
  - vm_compute. reflexivity.
Defined.
End StoreWitnesses.
