(* ===== verification/Crypto.v ===== *)
(** * crates/crypto: signatures, key files and certificates

    Models crates/crypto/src/lib.rs, hierarchy.rs, secret.rs and
    fixed_bytes.rs.  Ed25519 itself ([ed25519_dalek]) is an interface: its four
    functions and the laws its documentation gives.  Arrays [[u8; N]] are byte
    lists whose length is part of well-formedness. *)

From stdpp Require Import pretty.
From Stdlib Require Import Strings.Byte.
From S2P Require Import Prelude Bytes Io Serde Fs.

(** ** The signature scheme *)
Class Ed25519 := {
  (** [SigningKey::from_bytes(sk).verifying_key().to_bytes()] *)
  ed_public : bytes -> bytes;
  (** [SigningKey::sign] *)
  ed_sign : bytes -> bytes -> bytes;
  (** [VerifyingKey::from_bytes]: is this the encoding of a curve point? *)
  ed_point : bytes -> result string unit;
  (** [VerifyingKey::verify] on a valid point *)
  ed_verify : bytes -> bytes -> bytes -> bool
}.
Class Ed25519Laws `{Ed25519} := {
  ed_public_length sk : length (ed_public sk) = 32%nat;
  ed_sign_length sk m : length (ed_sign sk m) = 64%nat;
  ed_public_point sk : ed_point (ed_public sk) = Ok tt;
  ed_verify_sign sk m : ed_verify (ed_public sk) m (ed_sign sk m) = true
}.

(** ** secret.rs *)
Record Secret (T : Type) := MkSecretOf { secret_expose : T }.
Arguments MkSecretOf {T} _.
Arguments secret_expose {T} _.

(** ** fixed_bytes.rs *)
Definition fixed_serialize `{Hex} (b : bytes) : string := hex_encode b.
Definition fixed_deserialize `{Hex} (n : nat) (s : string) : result string bytes :=
  v ← hex_decode s;
  if (length v =? n)%nat then Ok v
  else Err ("expected " +:+ pretty n +:+ " bytes").

Lemma fixed_bytes_roundtrip `{HexLaws} b :
  fixed_deserialize (length b) (fixed_serialize b) = Ok b.
Proof.
  unfold fixed_deserialize, fixed_serialize. rewrite hex_decode_encode. cbn.
  by rewrite Nat.eqb_refl.
Qed.

(** ** lib.rs *)
Inductive CryptoError :=
  | InvalidSignature
  | MalformedKey (msg : string)
  | InsecureKeyPermissions (msg : string).

Record PublicKey := MkPublicKey { key_bytes : bytes }.
#[export] Instance PublicKey_eq_dec : EqDecision PublicKey.
Proof. solve_decision. Defined.
#[export] Instance PublicKey_countable : Countable PublicKey.
Proof. apply (inj_countable' key_bytes MkPublicKey). by intros []. Defined.
Definition wf_key (k : PublicKey) : Prop := length (key_bytes k) = 32%nat.

Record KeyPair := MkKeyPair { signing_key : Secret bytes }.

(** [{mode:o}] *)
Fixpoint octal_go (fuel : nat) (n : Z) (acc : string) : string :=
  match fuel with
  | O => acc
  | S k =>
    let acc := pretty (n mod 8) +:+ acc in
    if n / 8 =? 0 then acc else octal_go k (n / 8) acc
  end.
(** A mode has 32 bits: eleven octal digits. *)
Definition octal (n : Z) : string := octal_go 11 n EmptyString.

Section Crypto.
Context {Ed : Ed25519} {Hx : Hex}.

Definition to_hex (k : PublicKey) : string := hex_encode (key_bytes k).

Definition from_hex (s : string) : result CryptoError PublicKey :=
  b ← map_err (fun e => MalformedKey ("bad hex public key: " +:+ e)) (hex_decode (trim s));
  guard_err (length b =? 32)%nat (MalformedKey "public key must be 32 bytes") ≫= fun _ =>
  map_err MalformedKey (ed_point b) ≫= fun _ =>
  Ok (MkPublicKey b).

(** [KeyPair::generate]; [entropy] is what the operating system's generator yields. *)
Definition generate (entropy : bytes) : KeyPair := MkKeyPair (MkSecretOf entropy).
Definition from_bytes (b : bytes) : KeyPair := MkKeyPair (MkSecretOf b).
Definition public_key (kp : KeyPair) : PublicKey :=
  MkPublicKey (ed_public (secret_expose (signing_key kp))).
Definition sign (kp : KeyPair) (message : bytes) : bytes :=
  ed_sign (secret_expose (signing_key kp)) message.
Definition to_bytes (kp : KeyPair) : bytes := secret_expose (signing_key kp).

Definition malformed (what : string) (p : path) (e : string) : CryptoError :=
  MalformedKey (what +:+ path_debug p +:+ e).

Definition save_to_file (kp : KeyPair) (p : path) : IO CryptoError unit :=
  io_map_err (fun e => malformed "cannot create " p (": " +:+ message e)) (open_create_new 384 p) ;;
  io_map_err (fun e => malformed "cannot write " p (": " +:+ message e))
    (file_write_all p (as_bytes (hex_encode (to_bytes kp)))).

Definition load_from_file (p : path) : IO CryptoError KeyPair :=
  do metadata <- io_map_err (fun e => malformed "cannot stat " p (": " +:+ message e)) (fs_metadata p);
  if negb (Z.land (mode metadata) 63 =? 0)
  then io_err (InsecureKeyPermissions
    (path_debug p +:+ " has mode " +:+ octal (mode metadata) +:+ ", expected 0600 or stricter"))
  else
    do hex_str <- io_map_err (fun e => malformed "cannot read " p (": " +:+ message e))
                    (fs_read_to_string p);
    do b <- io_lift (map_err (fun e => malformed "bad hex in " p (": " +:+ e)) (hex_decode (trim hex_str)));
    if (length b =? 32)%nat then io_ret (from_bytes b)
    else io_err (malformed EmptyString p " is not 32 bytes").

Definition verify (k : PublicKey) (msg signature : bytes) : result CryptoError unit :=
  map_err MalformedKey (ed_point (key_bytes k)) ≫= fun _ =>
  guard_err (ed_verify (key_bytes k) msg signature) InvalidSignature.

(** ** hierarchy.rs *)
Record KeyCertificate := MkCert {
  child_key : PublicKey;
  cert_issued_at : Z;
  cert_signature : bytes
}.

Definition cert_signing_bytes (child : PublicKey) (issued_at : Z) : bytes :=
  key_bytes child ++ to_be_bytes 8 issued_at.

Definition issue (parent : KeyPair) (child : PublicKey) (issued_at : Z) : KeyCertificate :=
  MkCert child issued_at (sign parent (cert_signing_bytes child issued_at)).

Definition verify_against (c : KeyCertificate) (parent_public : PublicKey) : result CryptoError unit :=
  verify parent_public (cert_signing_bytes (child_key c) (cert_issued_at c)) (cert_signature c).
End Crypto.

(** ** Facts *)
Section CryptoFacts.
Context {Ed : Ed25519} {EdL : Ed25519Laws} {Hx : Hex} {HxL : HexLaws}.

Lemma verify_Ok_inv k m s :
  verify k m s = Ok tt <-> ed_point (key_bytes k) = Ok tt /\ ed_verify (key_bytes k) m s = true.
Proof.
  unfold verify. destruct (ed_point (key_bytes k)) as [[]|]; cbn; [|naive_solver].
  rewrite guard_err_Ok_inv. naive_solver.
Qed.

Lemma verify_sign kp m : verify (public_key kp) m (sign kp m) = Ok tt.
Proof. apply verify_Ok_inv. split; [apply ed_public_point|apply ed_verify_sign]. Qed.

Lemma verify_issue kp child t : verify_against (issue kp child t) (public_key kp) = Ok tt.
Proof. apply verify_sign. Qed.

(** A certificate binds its two fields: equal signed bytes mean the same child
    and the same time. *)
Lemma cert_signing_bytes_inj a b s t :
  wf_key a -> wf_key b -> 0 <= s <= u64_max -> 0 <= t <= u64_max ->
  cert_signing_bytes a s = cert_signing_bytes b t -> a = b /\ s = t.
Proof.
  intros Ha Hb Hs Ht E. apply app_inj_1 in E; [|by rewrite Ha, Hb].
  destruct E as [Ek Et]. split; [destruct a, b; cbn in *; congruence|].
  unfold u64_max in *. apply (to_be_bytes_inj 8); [cbn; lia|cbn; lia|done].
Qed.

Lemma from_hex_to_hex kp : from_hex (to_hex (public_key kp)) = Ok (public_key kp).
Proof.
  unfold from_hex, to_hex. rewrite trim_graphic by apply hex_encode_graphic.
  rewrite hex_decode_encode. cbn. by rewrite ed_public_length, ed_public_point.
Qed.

(** *** Key files *)

Lemma load_key_file p w mt hex :
  (forall n, w_fault w n = None) -> w_fs w !! p = Some (File mt (as_bytes hex)) ->
  fst (load_from_file p w) =
    if negb (Z.land (mode mt) 63 =? 0)
    then Err (InsecureKeyPermissions
      (path_debug p +:+ " has mode " +:+ octal (mode mt) +:+ ", expected 0600 or stricter"))
    else match from_utf8 (as_bytes hex) with
    | None => Err (malformed "cannot read " p ": stream did not contain valid UTF-8")
    | Some s =>
      match hex_decode (trim s) with
      | Err e => Err (malformed "bad hex in " p (": " +:+ e))
      | Ok b => if (length b =? 32)%nat then Ok (from_bytes b)
                else Err (malformed EmptyString p " is not 32 bytes")
      end
    end.
Proof.
  intros Hf Hp. unfold load_from_file, io_bind, io_map_err, fs_metadata, syscall.
  rewrite Hf, Hp. cbn. destruct (Z.land _ _ =? 0); [|done]. cbn.
  unfold fs_read_to_string, io_bind. erewrite fs_read_ok; [|apply Hf|done]. cbn.
  destruct (from_utf8 _); [|done]. cbn. destruct (hex_decode _); [|done]. cbn.
  by destruct (_ =? _)%nat.
Qed.

(** The node of a key file that was saved for [kp]. *)
Definition key_file_of (kp : KeyPair) (n : node) : Prop :=
  exists mt, n = File mt (as_bytes (hex_encode (to_bytes kp))) /\ Z.land (mode mt) 63 = 0.

Lemma save_to_file_Ok_inv kp p w w' :
  save_to_file kp p w = (Ok tt, w') ->
  w_fs w !! p = None /\ w_fault w' = w_fault w /\ exists n, w_fs w' !! p = Some n /\ key_file_of kp n.
Proof.
  intros ([] & w1 & H1%io_map_err_Ok_inv & H2%io_map_err_Ok_inv)%io_bind_Ok_inv.
  apply syscall_Ok_inv in H1 as (s & E & ->).
  destruct (w_fs w !! p) as [n|] eqn:Hp; [done|].
  destruct (has_parent _ _); [|done]. injection E as <-.
  eapply file_write_all_Ok_inv in H2; [|apply lookup_insert_eq]. subst w'. cbn.
  rewrite insert_insert_eq, lookup_insert_eq. split; [done|]. split; [done|].
  eexists. split; [done|]. eexists. split; [done|].
  cbn. by rewrite (Z.land_comm 384), <-Z.land_assoc, Z.land_0_r.
Qed.

(** Loading a saved key, when nothing fails. *)
Lemma load_saved_key kp p w n :
  w_fs w !! p = Some n -> key_file_of kp n -> length (to_bytes kp) = 32%nat ->
  (forall k, w_fault w k = None) -> fst (load_from_file p w) = Ok kp.
Proof.
  intros Hp (mt & -> & Hm) Hl Hf. erewrite load_key_file; [|done|done].
  rewrite Hm. cbn. unfold from_utf8. rewrite graphic_utf8 by apply hex_encode_graphic.
  rewrite str_of_as_bytes, trim_graphic, hex_decode_encode by apply hex_encode_graphic.
  rewrite Hl. cbn. by destruct kp as [[]].
Qed.

(** Key files are private and round-trip.  A successful save created the
    file, gave it no permission for group or others, and is read back as the
    same key; a file that exists is never overwritten. *)
Theorem key_file_roundtrip kp p w w' :
  save_to_file kp p w = (Ok tt, w') ->
  length (to_bytes kp) = 32%nat ->
  (forall n, w_fault w n = None) ->
  w_fs w !! p = None /\
  (exists mt data, w_fs w' !! p = Some (File mt data) /\ Z.land (mode mt) 63 = 0) /\
  fst (load_from_file p w') = Ok kp.
Proof.
  intros (Hn & Ef & n & Hp & Hk)%save_to_file_Ok_inv Hl Hf. split; [done|]. split.
  - destruct Hk as (mt & -> & Hm). eauto.
  - eapply load_saved_key; [done..|]. by rewrite Ef.
Qed.

(** A key file that group or others may touch is refused, whatever it
    holds, and saving over an existing file fails and leaves it as it was. *)
Theorem key_file_guards kp p w n :
  (forall k, w_fault w k = None) ->
  w_fs w !! p = Some n ->
  (Z.land (mode (node_meta n)) 63 <> 0 ->
     exists e, fst (load_from_file p w) = Err (InsecureKeyPermissions e)) /\
  exists e, fst (save_to_file kp p w) = Err e /\ w_fs (snd (save_to_file kp p w)) = w_fs w.
Proof.
  intros Hf Hp. split.
  - intros Hm. unfold load_from_file, io_bind, io_map_err, fs_metadata, syscall.
    rewrite Hf, Hp. cbn. apply Z.eqb_neq in Hm. rewrite Hm. cbn. eauto.
  - unfold save_to_file, io_bind, io_map_err, open_create_new, syscall.
    rewrite Hf, Hp. cbn. eauto.
Qed.
End CryptoFacts.

(** ** A toy scheme

    Public keys are padded secrets and a signature is the key and the start
    of the message: useless as cryptography, but it satisfies the laws, so that the
    theorems can be run. *)
Module ToyEd25519.
Definition pad (n : nat) (b : bytes) : bytes := take n (b ++ repeat "0"%byte n).
Definition toy_public (sk : bytes) : bytes := pad 32 sk.
Definition toy_digest (m : bytes) : bytes := pad 32 m.
#[export] Instance toy : Ed25519 := Build_Ed25519 toy_public
  (fun sk m => toy_public sk ++ toy_digest m) (fun _ => Ok tt)
  (fun k m s => bool_decide (s = k ++ toy_digest m)).

Lemma length_pad n b : length (pad n b) = n.
Proof. unfold pad. rewrite length_take, length_app, repeat_length. lia. Qed.

#[export] Instance toy_laws : Ed25519Laws.
Proof.
  split; intros; cbn [ed_public ed_sign ed_point ed_verify toy].
  - apply length_pad.
  - unfold toy_digest, toy_public. by rewrite length_app, !length_pad.
  - done.
  - by apply bool_decide_eq_true.
Qed.

#[export] Instance hex : Hex := plain_hex.
#[export] Instance hex_laws : HexLaws := plain_hex_laws.

Definition key (c : byte) : KeyPair := from_bytes (repeat c 32).
Definition key_path : path := ["etc"; "vpn"; "root.key"].
Definition disk : fs := <[["etc"; "vpn"] := Dir (Meta 488 0 0)]> ∅.
End ToyEd25519.

Section CryptoWitnesses.
Import ToyEd25519.

Lemma key_file_roundtrip_witness :
  let w' := snd (save_to_file (key "r") key_path (calm_world disk)) in
  disk !! key_path = None /\
  (exists mt data, w_fs w' !! key_path = Some (File mt data) /\ Z.land (mode mt) 63 = 0) /\
  fst (load_from_file key_path w') = Ok (key "r").
Proof.
  apply (key_file_roundtrip (key "r") key_path (calm_world disk)); [|done|done].
  apply run_of_fst. vm_compute. reflexivity.
Defined.

Lemma key_file_guards_witness :
  let w := calm_world (<[key_path := File (Meta 420 0 0) []]> disk) in
  (Z.land 420 63 <> 0 -> exists e, fst (load_from_file key_path w) = Err (InsecureKeyPermissions e)) /\
  exists e, fst (save_to_file (key "r") key_path w) = Err e /\
    w_fs (snd (save_to_file (key "r") key_path w)) = w_fs w.
Proof.
  apply (key_file_guards (key "r") key_path _ (File (Meta 420 0 0) [])); [done|].
  vm_compute. reflexivity.
Defined.
End CryptoWitnesses.
