(* ===== verification/Config.v ===== *)
(** * crates/config: signed bundles and revocation

    Models crates/config/src/lib.rs and revocation.rs: the relay bundle, its
    chain of certificates up to the pinned root, and the signed revocation
    list. *)

From Stdlib Require Import Strings.Byte.
From S2P Require Import Prelude Bytes Serde Common Fs Crypto.

Definition CURRENT_SCHEMA_VERSION : Z := 1.
Definition SUPPORTED_SCHEMA_VERSIONS : list Z := [1].

Module ConfigError.
Inductive t :=
  | InvalidSignature
  | InvalidCertChain
  | Expired (expired_at now : Z)
  | NotYetValid (issued_at now : Z)
  | UnsupportedSchemaVersion (v : Z)
  | RevokedKey
  | MalformedPayload (msg : string).
End ConfigError.
Notation ConfigError := ConfigError.t.

Record EndpointDescriptor := {
  d_id : string;
  d_transport : string;
  d_address : string;
  d_provider_tag : string;
  d_capabilities : list string;
  d_cert_sha256_hex : string
}.

Record RelayBundlePayload := {
  b_schema_version : Z;
  b_issued_at : Z;
  b_expires_at : Z;
  b_nonce : string;
  b_endpoints : list EndpointDescriptor
}.

Record TrustRoot := MkTrustRoot { root_public_key : PublicKey }.

Record SignedBundle := {
  payload_bytes : bytes;
  bundle_signature : bytes;
  bundle_signing_key : PublicKey;
  bundle_key_cert : KeyCertificate;
  release_key_cert : KeyCertificate
}.

(** ** revocation.rs: the in-memory set *)
Record RevocationList := MkRevocationList { revoked : gset bytes }.
Definition revocation_empty : RevocationList := MkRevocationList ∅.
Definition from_keys (keys : list PublicKey) : RevocationList :=
  MkRevocationList (list_to_set (key_bytes <$> keys)).
Definition revoke (l : RevocationList) (k : PublicKey) : RevocationList :=
  MkRevocationList ({[ key_bytes k ]} ∪ revoked l).
Definition contains (l : RevocationList) (k : PublicKey) : bool :=
  bool_decide (key_bytes k ∈ revoked l).

Section Config.
Context {Ed : Ed25519} {J : Json RelayBundlePayload}.

(** [SignedBundle::sign] *)
Definition bundle_sign (payload : RelayBundlePayload) (bundle_key : KeyPair)
    (bundle_cert release_cert : KeyCertificate) : result ConfigError SignedBundle :=
  b ← map_err ConfigError.MalformedPayload (to_vec payload);
  Ok {| payload_bytes := b;
        bundle_signature := sign bundle_key b;
        bundle_signing_key := public_key bundle_key;
        bundle_key_cert := bundle_cert;
        release_key_cert := release_cert |}.

Definition verify_bundle (bundle : SignedBundle) (trust_root : TrustRoot)
    (rv : RevocationList) (now : UnixSeconds) : result ConfigError RelayBundlePayload :=
  map_err (fun _ => ConfigError.InvalidCertChain)
    (verify_against (release_key_cert bundle) (root_public_key trust_root)) ≫= fun _ =>
  if contains rv (child_key (release_key_cert bundle)) then Err ConfigError.RevokedKey else
  map_err (fun _ => ConfigError.InvalidCertChain)
    (verify_against (bundle_key_cert bundle) (child_key (release_key_cert bundle))) ≫= fun _ =>
  if bool_decide (child_key (bundle_key_cert bundle) <> bundle_signing_key bundle)
  then Err ConfigError.InvalidCertChain else
  if contains rv (bundle_signing_key bundle) then Err ConfigError.RevokedKey else
  map_err (fun _ => ConfigError.InvalidSignature)
    (verify (bundle_signing_key bundle) (payload_bytes bundle) (bundle_signature bundle)) ≫= fun _ =>
  map_err ConfigError.MalformedPayload (from_slice (payload_bytes bundle)) ≫= fun payload =>
  if negb (bool_decide (b_schema_version payload ∈ SUPPORTED_SCHEMA_VERSIONS))
  then Err (ConfigError.UnsupportedSchemaVersion (b_schema_version payload)) else
  if now <? b_issued_at payload
  then Err (ConfigError.NotYetValid (b_issued_at payload) now) else
  if b_expires_at payload <=? now
  then Err (ConfigError.Expired (b_expires_at payload) now) else
  Ok payload.

(** ** revocation.rs: the signed form *)
Record SignedRevocationList := {
  rl_issued_at : Z;
  rl_revoked_keys : list PublicKey;
  rl_release_key_cert : KeyCertificate;
  rl_signature : bytes
}.

Definition rl_signing_bytes (revoked_keys : list PublicKey) (issued_at : Z) : bytes :=
  to_be_bytes 8 issued_at ++ concat (key_bytes <$> revoked_keys).

Definition rl_issue (release_key : KeyPair) (release_cert : KeyCertificate)
    (revoked_keys : list PublicKey) (issued_at : Z) : SignedRevocationList :=
  {| rl_issued_at := issued_at;
     rl_revoked_keys := revoked_keys;
     rl_release_key_cert := release_cert;
     rl_signature := sign release_key (rl_signing_bytes revoked_keys issued_at) |}.

Definition rl_verify (l : SignedRevocationList) (trust_root : TrustRoot)
    : result ConfigError RevocationList :=
  map_err (fun _ => ConfigError.InvalidCertChain)
    (verify_against (rl_release_key_cert l) (root_public_key trust_root)) ≫= fun _ =>
  map_err (fun _ => ConfigError.InvalidSignature)
    (verify (child_key (rl_release_key_cert l))
       (rl_signing_bytes (rl_revoked_keys l) (rl_issued_at l)) (rl_signature l)) ≫= fun _ =>
  Ok (from_keys (rl_revoked_keys l)).
End Config.

(** ** Facts *)
Section ConfigFacts.
Context {Ed : Ed25519} {EdL : Ed25519Laws} {J : Json RelayBundlePayload} {JL : JsonLaws RelayBundlePayload}.

Lemma contains_from_keys keys k : contains (from_keys keys) k = true <-> k ∈ keys.
Proof.
  unfold contains, from_keys. cbn. rewrite bool_decide_eq_true, elem_of_list_to_set.
  rewrite list_elem_of_fmap. split; [|eauto]. intros ([b] & E & Hin). destruct k.
  cbn in E. by subst.
Qed.

(** The checks that do not depend on the clock or on revocations. *)
Definition chain_ok (b : SignedBundle) (root : TrustRoot) (p : RelayBundlePayload) : Prop :=
  verify_against (release_key_cert b) (root_public_key root) = Ok tt /\
  verify_against (bundle_key_cert b) (child_key (release_key_cert b)) = Ok tt /\
  child_key (bundle_key_cert b) = bundle_signing_key b /\
  verify (bundle_signing_key b) (payload_bytes b) (bundle_signature b) = Ok tt /\
  from_slice (payload_bytes b) = Ok p /\
  b_schema_version p ∈ SUPPORTED_SCHEMA_VERSIONS.

Lemma verify_bundle_Ok_inv b root rv now p :
  verify_bundle b root rv now = Ok p <->
  chain_ok b root p /\ contains rv (child_key (release_key_cert b)) = false /\
  contains rv (bundle_signing_key b) = false /\ b_issued_at p <= now < b_expires_at p.
Proof.
  unfold verify_bundle, chain_ok. split.
  - intros Hv. inv_result. destruct x.
    destruct (contains rv (child_key (release_key_cert b))); [done|]. inv_result. destruct x.
    case_bool_decide as E; [done|].
    destruct (contains rv (bundle_signing_key b)); [done|]. inv_result. destruct x.
    case_bool_decide as Es; [|done]. cbn in Hv.
    destruct (now <? b_issued_at _) eqn:E1; [done|]. destruct (b_expires_at _ <=? now) eqn:E2; [done|].
    injection Hv as <-. apply Z.ltb_ge in E1. apply Z.leb_gt in E2. done.
  - intros ((Hr & Hb & Hk & Hp & Hj & Hs) & N1 & N2 & Hn).
    rewrite Hr, N1, Hb, Hk, N2, Hp. cbn. rewrite bool_decide_eq_false_2 by naive_solver.
    rewrite Hj. cbn. rewrite bool_decide_eq_true_2 by done. cbn.
    replace (now <? b_issued_at p) with false by lia.
    by replace (b_expires_at p <=? now) with false by lia.
Qed.

(** A bundle that the rendezvous service builds with genuine certificates
    is accepted by every client that pins the root, throughout its validity
    window, and yields exactly the payload that was signed. *)
Theorem sign_then_verify root_key release_key bundle_key t1 t2 payload b rv now :
  bundle_sign payload bundle_key (issue release_key (public_key bundle_key) t2)
    (issue root_key (public_key release_key) t1) = Ok b ->
  b_schema_version payload ∈ SUPPORTED_SCHEMA_VERSIONS ->
  b_issued_at payload <= now < b_expires_at payload ->
  contains rv (public_key release_key) = false ->
  contains rv (public_key bundle_key) = false ->
  verify_bundle b (MkTrustRoot (public_key root_key)) rv now = Ok payload.
Proof.
  unfold bundle_sign. intros Hb Hs Hn R1 R2. inv_result. subst b.
  apply verify_bundle_Ok_inv. cbn. unfold chain_ok. cbn.
  rewrite !verify_issue, verify_sign. repeat split; try done; try lia. by apply from_to_vec.
Qed.

(** Acceptance has a sharp boundary.  For a bundle accepted once, the clock
    and the revocation list alone decide: it is accepted again exactly when
    neither signing key is revoked and the time is inside the window, so an
    expired bundle is refused forever and revoking either key ends its use. *)
Theorem verify_bundle_window b root rv0 now0 p :
  verify_bundle b root rv0 now0 = Ok p ->
  forall rv now, verify_bundle b root rv now = Ok p <->
    key_bytes (child_key (release_key_cert b)) ∉ revoked rv /\
    key_bytes (bundle_signing_key b) ∉ revoked rv /\
    b_issued_at p <= now < b_expires_at p.
Proof.
  intros (Hc & _)%verify_bundle_Ok_inv rv now. rewrite verify_bundle_Ok_inv.
  unfold contains. rewrite !bool_decide_eq_false. naive_solver.
Qed.

(** Issuing and verifying a revocation list round-trips: the list that the
    release key signed verifies against the root, and afterwards exactly the
    listed keys are revoked. *)
Theorem revocation_list_roundtrip root_key release_key keys t1 t2 :
  exists l, rl_verify (rl_issue release_key (issue root_key (public_key release_key) t1) keys t2)
      (MkTrustRoot (public_key root_key)) = Ok l /\
    forall k, contains l k = true <-> k ∈ keys.
Proof.
  exists (from_keys keys). split; [|intros; apply contains_from_keys].
  unfold rl_verify. cbn. by rewrite verify_issue, verify_sign.
Qed.

(** *** Authenticity

    [signed k m]: the holder of [k] signed [m].  Signatures cannot be forged:
    one that verifies under [k] was made by its holder. *)
Section Authenticity.
Context (signed : PublicKey -> bytes -> Prop).
Hypothesis unforgeable : forall k m s, verify k m s = Ok tt -> signed k m.

(** C9: Accepted payloads are authentic.  If [verify_bundle] returns a payload,
    then the root's holder certified a release key, whose holder certified a
    bundle key, whose holder signed those very bytes; neither key is revoked,
    the clock is inside the window and the schema is supported. *)
Theorem verify_bundle_authentic b root rv now p :
  verify_bundle b root rv now = Ok p ->
  exists rk bk t1 t2,
    signed (root_public_key root) (cert_signing_bytes rk t1) /\
    signed rk (cert_signing_bytes bk t2) /\
    signed bk (payload_bytes b) /\
    from_slice (payload_bytes b) = Ok p /\
    key_bytes rk ∉ revoked rv /\ key_bytes bk ∉ revoked rv /\
    b_issued_at p <= now < b_expires_at p /\ b_schema_version p ∈ SUPPORTED_SCHEMA_VERSIONS.
Proof.
  intros ((Hr & Hb & Hk & Hp & Hj & Hs) & N1 & N2 & Hn)%verify_bundle_Ok_inv.
  apply unforgeable in Hr, Hb, Hp. rewrite Hk in Hb.
  unfold contains in N1, N2. rewrite bool_decide_eq_false in N1, N2. do 4 eexists. eauto 10.
Qed.
End Authenticity.

(** *** Certificates and revocation lists share a message space *)

Definition confused_list (c release_cert : KeyCertificate) : SignedRevocationList :=
  {| rl_issued_at := from_be_bytes (take 8 (key_bytes (child_key c)));
     rl_revoked_keys := [MkPublicKey (drop 8 (key_bytes (child_key c)) ++ to_be_bytes 8 (cert_issued_at c))];
     rl_release_key_cert := release_cert;
     rl_signature := cert_signature c |}.

Lemma confused_bytes c release_cert :
  wf_key (child_key c) ->
  rl_signing_bytes (rl_revoked_keys (confused_list c release_cert))
    (rl_issued_at (confused_list c release_cert)) =
  cert_signing_bytes (child_key c) (cert_issued_at c).
Proof.
  unfold rl_signing_bytes, cert_signing_bytes. intros Hk. cbn [confused_list rl_issued_at rl_revoked_keys].
  cbn [fmap list_fmap concat key_bytes]. rewrite app_nil_r, app_assoc. f_equal.
  set (h := take 8 _). assert (length h = 8%nat) as Hl by (subst h; rewrite length_take, Hk; done).
  rewrite <-Hl at 1. rewrite to_from_be_bytes. apply take_drop.
Qed.

(** C40: A certificate's signature also verifies as a revocation list.  The two
    messages a release key signs are not told apart: any bundle certificate,
    which every client receives, can be rearranged without any key into a
    signed revocation list that verifies and revokes only a meaningless key,
    so whoever delivers the list can drop the real revocations. *)
Theorem certificate_forges_revocation_list c release_cert root :
  wf_key (child_key c) ->
  verify_against release_cert (root_public_key root) = Ok tt ->
  verify_against c (child_key release_cert) = Ok tt ->
  exists junk l, rl_verify (confused_list c release_cert) root = Ok l /\
    forall k, contains l k = true <-> k = junk.
Proof.
  intros Hk Hr Hc. exists (MkPublicKey (drop 8 (key_bytes (child_key c)) ++ to_be_bytes 8 (cert_issued_at c))).
  eexists. split.
  - unfold rl_verify. rewrite confused_bytes by done. cbn. rewrite Hr. cbn.
    unfold verify_against in Hc. by rewrite Hc.
  - intros k. rewrite contains_from_keys. cbn. rewrite list_elem_of_singleton. done.
Qed.
End ConfigFacts.

(** ** Concrete runs *)
#[export] Instance EndpointDescriptor_eq_dec : EqDecision EndpointDescriptor.
Proof. solve_decision. Defined.
#[export] Instance EndpointDescriptor_countable : Countable EndpointDescriptor.
Proof.
  apply (inj_countable' (fun d => (d_id d, d_transport d, d_address d, d_provider_tag d,
      d_capabilities d, d_cert_sha256_hex d))
    (fun '(a, b, c, d, e, f) => Build_EndpointDescriptor a b c d e f)). by intros [].
Defined.
#[export] Instance RelayBundlePayload_eq_dec : EqDecision RelayBundlePayload.
Proof. solve_decision. Defined.
#[export] Instance RelayBundlePayload_countable : Countable RelayBundlePayload.
Proof.
  apply (inj_countable' (fun p => (b_schema_version p, b_issued_at p, b_expires_at p, b_nonce p, b_endpoints p))
    (fun '(a, b, c, d, e) => Build_RelayBundlePayload a b c d e)). by intros [].
Defined.

Module ConfigDemo.
Import ToyEd25519.
#[export] Instance payload_json : Json RelayBundlePayload := tagged_json "{".
#[export] Instance payload_json_laws : JsonLaws RelayBundlePayload := tagged_json_laws "{".

Definition payload : RelayBundlePayload := Build_RelayBundlePayload 1 1000 2000 "n"
  [Build_EndpointDescriptor "e1" "direct-tls" "192.0.2.1:443" "p" ["tcp"] "ab"].
Definition root : TrustRoot := MkTrustRoot (public_key (key "r")).
Definition release_cert := issue (key "r") (public_key (key "l")) 900.
Definition bundle_cert := issue (key "l") (public_key (key "b")) 950.
Definition bundle : SignedBundle := {|
  payload_bytes := default [] (ok (to_vec payload));
  bundle_signature := sign (key "b") (default [] (ok (to_vec payload)));
  bundle_signing_key := public_key (key "b");
  bundle_key_cert := bundle_cert;
  release_key_cert := release_cert |}.
End ConfigDemo.

Section ConfigWitnesses.
Import ToyEd25519 ConfigDemo.

Lemma sign_then_verify_witness : verify_bundle bundle root revocation_empty 1500 = Ok payload.
Proof.
  apply (sign_then_verify (key "r") (key "l") (key "b") 900 950 payload bundle revocation_empty 1500);
    try (vm_compute; reflexivity); [apply list_elem_of_here|cbn; lia].
Defined.

Lemma verify_bundle_window_witness :
  verify_bundle bundle root revocation_empty 1999 = Ok payload /\
  verify_bundle bundle root revocation_empty 2000 <> Ok payload.
Proof.
  assert (verify_bundle bundle root revocation_empty 1500 = Ok payload) as H0 by (vm_compute; reflexivity).
  split.
  - apply (verify_bundle_window bundle root revocation_empty 1500 payload H0 revocation_empty 1999).
    split; [apply not_elem_of_empty|]. split; [apply not_elem_of_empty|]. cbn. lia.
  - intros H. apply (verify_bundle_window bundle root revocation_empty 1500 payload H0 revocation_empty 2000) in H.
    destruct H as (_ & _ & H). cbn in H. lia.
Defined.

Lemma revocation_list_roundtrip_witness :
  exists l, rl_verify (rl_issue (key "l") release_cert [public_key (key "x")] 1000) root = Ok l /\
    forall k, contains l k = true <-> k ∈ [public_key (key "x")].
Proof. exact (revocation_list_roundtrip (key "r") (key "l") [public_key (key "x")] 900 1000). Defined.

Lemma verify_bundle_authentic_witness : exists rk bk t1 t2,
  verify_bundle bundle root revocation_empty 1500 = Ok payload /\
  (exists s, verify rk (cert_signing_bytes bk t2) s = Ok tt) /\
  (exists s, verify (root_public_key root) (cert_signing_bytes rk t1) s = Ok tt).
Proof.
  destruct (verify_bundle_authentic (fun k m => exists s, verify k m s = Ok tt)
    (fun k m s Hv => ex_intro _ s Hv) bundle root revocation_empty 1500 payload)
    as (rk & bk & t1 & t2 & Hr & Hb & _); [vm_compute; reflexivity|].
  exists rk, bk, t1, t2. split; [vm_compute; reflexivity|]. split; assumption.
Defined.

Lemma certificate_forges_revocation_list_witness :
  exists junk l, rl_verify (confused_list bundle_cert release_cert) root = Ok l /\
    forall k, contains l k = true <-> k = junk.
Proof.
  apply (certificate_forges_revocation_list bundle_cert release_cert root);
    vm_compute; reflexivity.
Defined.
End ConfigWitnesses.
