(* ===== verification/Fl.v ===== *)
(** * Binary floating point

    The scores of crates/policy are [f32] and the token buckets of the services
    are [f64].  All of them are finite and non-negative, so a value is the
    integer number of [2^-scale] it is made of, where [2^-scale] is the smallest
    positive (subnormal) value of the format, and every operation is the exact
    rational result rounded to nearest, ties to even (IEEE 754).  Values stay
    far below the largest finite number, so overflow does not arise. *)

From S2P Require Import Prelude.

Record format := Format { prec : Z; scale : Z }.
Definition f32 : format := Format 24 149.
Definition f64 : format := Format 53 1074.

(** The integer nearest to [n/d], ties to even. *)
Definition nearest (n d : Z) : Z :=
  let q := n / d in
  let r := n mod d in
  if 2 * r <? d then q
  else if d <? 2 * r then q + 1
  else if Z.even q then q else q + 1.

Section Fl.
Context (F : format).

(** The exponent of the last place of a value of size [n/d]. *)
Definition last_place (n d : Z) : Z := Z.max 0 (Z.log2 (n / d) + 1 - prec F).
Definition rnd (n d : Z) : Z :=
  let u := 2 ^ last_place n d in nearest n (d * u) * u.

Definition fone : Z := 2 ^ scale F.
Definition fadd (a b : Z) : Z := rnd (a + b) 1.
(** [a - b] for [b <= a] *)
Definition fsub (a b : Z) : Z := rnd (a - b) 1.
Definition fmul (a b : Z) : Z := rnd (a * b) fone.
Definition fdiv (a b : Z) : Z := rnd (a * fone) b.
(** [n as f32] for an unsigned integer *)
Definition fof (n : Z) : Z := rnd (n * fone) 1.
(** The literal [n/d] *)
Definition flit (n d : Z) : Z := rnd (n * fone) d.

(** A value of the format. *)
Definition rep (a : Z) : Prop := 0 <= a /\ (2 ^ last_place a 1 | a).

Context (Hprec : 1 <= prec F) (Hscale : 0 <= scale F).

Lemma nearest_le n d B : 0 < d -> n <= B * d -> nearest n d <= B.
Proof.
  intros Hd Hn. unfold nearest.
  pose proof (Z.div_mod n d ltac:(lia)). pose proof (Z.mod_pos_bound n d Hd).
  set (q := n / d) in *. set (r := n mod d) in *.
  assert (q <= B) by nia.
  assert (r <> 0 -> q + 1 <= B) by nia.
  split_tests; lia.
Qed.

Lemma nearest_ge n d B : 0 < d -> B * d <= n -> B <= nearest n d.
Proof.
  intros Hd Hn. unfold nearest.
  pose proof (Z.div_mod n d ltac:(lia)). pose proof (Z.mod_pos_bound n d Hd).
  assert (B <= n / d) by (apply Z.div_le_lower_bound; lia).
  split_tests; lia.
Qed.

Lemma last_place_nonneg n d : 0 <= last_place n d.
Proof. unfold last_place. lia. Qed.
Lemma place_pos n d : 0 < 2 ^ last_place n d.
Proof. apply Z.pow_pos_nonneg; [lia|apply last_place_nonneg]. Qed.

Lemma last_place_mono n d n' d' :
  0 < d -> 0 < d' -> n / d <= n' / d' -> last_place n d <= last_place n' d'.
Proof. intros. unfold last_place. pose proof (Z.log2_le_mono _ _ H1). lia. Qed.

(** Rounding does not cross a representable value from below... *)
Lemma rnd_le n d B : 0 <= n -> 0 < d -> rep B -> n <= B * d -> rnd n d <= B.
Proof.
  intros Hn Hd [HB Hdiv] Hle. unfold rnd. cbv zeta.
  assert (last_place n d <= last_place B 1) as Hl.
  { apply last_place_mono; [lia|lia|]. rewrite Z.div_1_r. apply Z.div_le_upper_bound; lia. }
  pose proof (place_pos n d) as Hu. pose proof (last_place_nonneg n d).
  assert ((2 ^ last_place n d | B)) as [c Hc].
  { etrans; [|exact Hdiv]. exists (2 ^ (last_place B 1 - last_place n d)).
    rewrite <-Z.pow_add_r by lia. f_equal. lia. }
  rewrite Hc. apply Z.mul_le_mono_nonneg_r; [lia|]. apply nearest_le; nia.
Qed.

(** ... nor from above. *)
Lemma rnd_ge n d B : 0 <= n -> 0 < d -> rep B -> B * d <= n -> B <= rnd n d.
Proof.
  intros Hn Hd [HB Hdiv] Hle. unfold rnd. cbv zeta.
  assert (B <= n / d) as Hq by (apply Z.div_le_lower_bound; lia).
  assert (last_place B 1 <= last_place n d) as Hl.
  { apply last_place_mono; [lia|lia|]. by rewrite Z.div_1_r. }
  pose proof (place_pos n d) as Hu. pose proof (last_place_nonneg B 1).
  destruct (decide (last_place B 1 = last_place n d)) as [E|E].
  - rewrite E in Hdiv. destruct Hdiv as [c Hc]. rewrite Hc.
    apply Z.mul_le_mono_nonneg_r; [lia|]. apply nearest_ge; nia.
  - assert (0 < last_place n d) as Hpos by lia.
    assert (last_place n d = Z.log2 (n / d) + 1 - prec F) as El by (unfold last_place in *; lia).
    assert (0 < n / d) as Hqp.
    { destruct (decide (n / d = 0)) as [Z0|]; [|lia]. rewrite Z0 in El. cbn in El. lia. }
    pose proof (proj1 (Z.log2_spec _ Hqp)) as Hlog.
    set (e := last_place n d) in *. set (eB := last_place B 1) in *.
    assert (2 ^ (prec F - 1) * (d * 2 ^ e) <= n) as Hbig.
    { replace (2 ^ (prec F - 1) * (d * 2 ^ e)) with (d * (2 ^ (prec F - 1) * 2 ^ e)) by lia.
      rewrite <-Z.pow_add_r by lia. replace (prec F - 1 + e) with (Z.log2 (n / d)) by lia.
      pose proof (Z.mul_div_le n d Hd). nia. }
    pose proof (nearest_ge n (d * 2 ^ e) (2 ^ (prec F - 1)) ltac:(nia) Hbig) as Hnear.
    assert (B < 2 ^ (prec F - 1) * 2 ^ e) as HBs.
    { rewrite <-Z.pow_add_r by lia. destruct (decide (B = 0)) as [->|]; [apply Z.pow_pos_nonneg; lia|].
      pose proof (proj2 (Z.log2_spec B ltac:(lia))).
      assert (Z.log2 B + 1 <= prec F + eB) by (subst eB; unfold last_place; rewrite Z.div_1_r; lia).
      eapply Z.lt_le_trans; [exact H0|]. apply Z.pow_le_mono_r; lia. }
    nia.
Qed.

Lemma below_next_binade n d : 0 <= n -> 0 < d -> n < 2 ^ prec F * (d * 2 ^ last_place n d).
Proof.
  intros Hn Hd. pose proof (last_place_nonneg n d).
  assert (n / d < 2 ^ (prec F + last_place n d)) as Hq.
  { destruct (decide (n / d = 0)) as [->|]; [apply Z.pow_pos_nonneg; lia|].
    pose proof (Z.div_pos n d Hn Hd).
    pose proof (proj2 (Z.log2_spec (n / d) ltac:(lia))) as Hlog.
    eapply Z.lt_le_trans; [exact Hlog|]. apply Z.pow_le_mono_r; unfold last_place; lia. }
  rewrite Z.pow_add_r in Hq by lia.
  pose proof (Z.div_mod n d ltac:(lia)). pose proof (Z.mod_pos_bound n d Hd). nia.
Qed.

(** Every result is a value of the format. *)
Lemma rnd_rep n d : 0 <= n -> 0 < d -> rep (rnd n d).
Proof.
  intros Hn Hd. unfold rnd. cbv zeta. set (e := last_place n d).
  pose proof (last_place_nonneg n d) as He. fold e in He.
  assert (0 < 2 ^ e) by (apply Z.pow_pos_nonneg; lia).
  set (m := nearest n (d * 2 ^ e)).
  assert (0 <= m) as Hm by (apply nearest_ge; nia).
  assert (m <= 2 ^ prec F) as Hm2.
  { apply nearest_le; [nia|]. pose proof (below_next_binade n d Hn Hd). fold e in H0. lia. }
  split; [nia|]. unfold last_place. rewrite Z.div_1_r.
  destruct (decide (m = 0)) as [->|Hm0]; [cbn; apply Z.divide_0_r|].
  rewrite Z.log2_mul_pow2 by lia.
  destruct (decide (m = 2 ^ prec F)) as [->|].
  - rewrite Z.log2_pow2 by lia. rewrite <-Z.pow_add_r by lia.
    exists (2 ^ (prec F + e - Z.max 0 (e + prec F + 1 - prec F))).
    rewrite <-Z.pow_add_r by lia. f_equal. lia.
  - assert (Z.log2 m < prec F) by (apply Z.log2_lt_pow2; lia).
    exists (m * 2 ^ (e - Z.max 0 (e + Z.log2 m + 1 - prec F))).
    rewrite <-Z.mul_assoc, <-Z.pow_add_r by lia. f_equal. f_equal. lia.
Qed.

(** Rounding keeps the order. *)
Lemma div_cross n d n' d' : 0 < d -> 0 < d' -> n * d' <= n' * d -> n / d <= n' / d'.
Proof.
  intros Hd Hd' Hle. apply Z.div_le_lower_bound; [lia|]. apply (Z.mul_le_mono_pos_r _ _ d Hd).
  etrans; [|exact Hle]. pose proof (Z.mul_div_le n d Hd).
  replace (d' * (n / d) * d) with (d * (n / d) * d') by lia. apply Z.mul_le_mono_nonneg_r; lia.
Qed.
Lemma nearest_mono n d n' d' : 0 < d -> 0 < d' -> n * d' <= n' * d -> nearest n d <= nearest n' d'.
Proof.
  intros Hd Hd' Hle. unfold nearest.
  pose proof (Z.div_mod n d ltac:(lia)) as E. pose proof (Z.mod_pos_bound n d Hd) as B.
  pose proof (Z.div_mod n' d' ltac:(lia)) as E'. pose proof (Z.mod_pos_bound n' d' Hd') as B'.
  set (q := n / d) in *. set (r := n mod d) in *. set (q' := n' / d') in *. set (r' := n' mod d') in *.
  assert (q <= q') by by apply div_cross.
  destruct (decide (q = q')) as [Eq|]; [|split_tests; lia].
  assert (r * d' <= r' * d) as Hr by (rewrite E, E', Eq in Hle; lia).
  clearbody q q' r r'. clear E E' Hle. subst q'. split_tests; try lia; nia.
Qed.
Lemma rnd_top n d : 0 <= n -> 0 < d -> rnd n d <= 2 ^ prec F * 2 ^ last_place n d.
Proof.
  intros Hn Hd. pose proof (place_pos n d). apply Z.mul_le_mono_nonneg_r; [lia|].
  apply nearest_le; [nia|]. pose proof (below_next_binade n d Hn Hd). lia.
Qed.
Lemma rnd_bottom n d : 0 <= n -> 0 < d -> 0 < last_place n d -> 2 ^ (prec F - 1) * 2 ^ last_place n d <= rnd n d.
Proof.
  intros Hn Hd Hpos. pose proof (place_pos n d). apply Z.mul_le_mono_nonneg_r; [lia|].
  assert (last_place n d = Z.log2 (n / d) + 1 - prec F) as El by (unfold last_place in *; lia).
  assert (0 < n / d) as Hqp.
  { pose proof (Z.div_pos n d Hn Hd). destruct (decide (n / d = 0)) as [Z0|]; [|lia]. rewrite Z0 in El. cbn in El. lia. }
  apply nearest_ge; [nia|].
  replace (2 ^ (prec F - 1) * (d * 2 ^ last_place n d)) with (d * (2 ^ (prec F - 1) * 2 ^ last_place n d)) by lia.
  rewrite <-Z.pow_add_r by lia. replace (prec F - 1 + last_place n d) with (Z.log2 (n / d)) by lia.
  pose proof (proj1 (Z.log2_spec _ Hqp)). pose proof (Z.mul_div_le n d Hd). nia.
Qed.
Lemma rnd_mono n d n' d' : 0 <= n -> 0 < d -> 0 < d' -> n * d' <= n' * d -> rnd n d <= rnd n' d'.
Proof.
  intros Hn Hd Hd' Hle. assert (0 <= n') by nia.
  pose proof (div_cross n d n' d' Hd Hd' Hle) as Hq.
  pose proof (last_place_mono n d n' d' Hd Hd' Hq) as Hl.
  destruct (decide (last_place n d = last_place n' d')) as [E|E].
  - unfold rnd. rewrite E. pose proof (place_pos n' d'). apply Z.mul_le_mono_nonneg_r; [lia|]. apply nearest_mono; nia.
  - pose proof (last_place_nonneg n d). etrans; [by apply rnd_top|]. etrans; [|apply rnd_bottom; lia].
    rewrite <-!Z.pow_add_r by lia. apply Z.pow_le_mono_r; lia.
Qed.

Lemma rnd_exact a : rep a -> rnd a 1 = a.
Proof. intros Ha. pose proof Ha as [? _]. apply Z.le_antisymm; [apply rnd_le|apply rnd_ge]; auto; lia. Qed.

Lemma rep_0 : rep 0.
Proof. split; [lia|]. apply Z.divide_0_r. Qed.

Lemma rnd_0 d : 0 < d -> rnd 0 d = 0.
Proof. intros. apply Z.le_antisymm; [apply rnd_le|apply rnd_ge]; auto using rep_0; lia. Qed.

Lemma fone_pos : 0 < fone.
Proof. apply Z.pow_pos_nonneg; lia. Qed.

(** Scaling by a factor of at most one never raises a value. *)
Lemma fmul_le_r a x : 0 <= a <= fone -> rep x -> fmul a x <= x.
Proof.
  intros Ha [Hx Hd]. pose proof fone_pos. apply rnd_le; [nia|lia|done|nia].
Qed.
Lemma fmul_le_l a x : rep a -> 0 <= x <= fone -> fmul a x <= a.
Proof.
  intros [Ha Hd] Hx. pose proof fone_pos. apply rnd_le; [nia|lia|done|nia].
Qed.
Lemma fmul_rep a x : 0 <= a -> 0 <= x -> rep (fmul a x).
Proof. intros. apply rnd_rep; [nia|apply fone_pos]. Qed.
Lemma fadd_rep a x : 0 <= a -> 0 <= x -> rep (fadd a x).
Proof. intros. apply rnd_rep; lia. Qed.
Lemma fadd_le a b B : 0 <= a -> 0 <= b -> rep B -> a + b <= B -> fadd a b <= B.
Proof. intros. apply rnd_le; [lia|lia|done|lia]. Qed.
Lemma fadd_ge_l a b : rep a -> 0 <= b -> a <= fadd a b.
Proof. intros [? ?] ?. apply rnd_ge; [lia|lia|done|lia]. Qed.
End Fl.

#[export] Hint Resolve rep_0 fmul_rep fadd_rep : fl.

(** Deciding that a constant is a value of the format. *)
Definition repb (F : format) (a : Z) : bool := (0 <=? a) && (a mod 2 ^ last_place F a 1 =? 0).
Lemma repb_rep F a : repb F a = true -> rep F a.
Proof.
  unfold repb. intros [H1 H2]%andb_prop. split; [lia|].
  apply Z.mod_divide; [|lia]. pose proof (place_pos F a 1). lia.
Qed.
