(* ===== verification/Failure.v ===== *)
(** * Failure categories, the connection state machine and the shutdown guard

    Models crates/network-state/src/lib.rs, crates/failure-classifier/src/lib.rs
    and the error type of crates/transport-api/src/lib.rs.  The guard's clock is
    the logical [tick] of the connection engine. *)

From S2P Require Import Prelude Common Fl.

(** ** network-state *)
Inductive FailureCategory :=
  | DnsFailure | TcpTimeout | TcpReset | TlsFailure | QuicFailure | UdpUnavailable
  | HandshakeTimeout | StallAfterConnect | EndpointUnreachable | ProviderDegradation
  | TransportDegradation | GeneralRouteFailure | PossibleShutdown | LocalNetworkFailure.
#[export] Instance FailureCategory_eq_dec : EqDecision FailureCategory.
Proof. solve_decision. Defined.

Definition is_remote_signal (c : FailureCategory) : bool :=
  match c with LocalNetworkFailure => false | _ => true end.
Definition is_transport_attributable (c : FailureCategory) : bool :=
  match c with
  | TcpReset | TlsFailure | QuicFailure | UdpUnavailable | TransportDegradation => true
  | _ => false
  end.
Definition is_endpoint_attributable (c : FailureCategory) : bool :=
  match c with
  | EndpointUnreachable | TcpTimeout | HandshakeTimeout | StallAfterConnect => true
  | _ => false
  end.

Inductive Outcome := Success | Failure (c : FailureCategory).
Record Observation := {
  o_transport : TransportId;
  o_endpoint : EndpointId;
  o_at : UnixSeconds;
  o_outcome : Outcome
}.

(** No category is blamed on both sides, and what is blamed at all is remote. *)
Lemma attribution_disjoint c :
  is_transport_attributable c && is_endpoint_attributable c = false /\
  (is_transport_attributable c || is_endpoint_attributable c = true -> is_remote_signal c = true).
Proof. by destruct c. Qed.

(** ** transport-api: errors *)
Inductive TransportError :=
  | TeConnect (category : FailureCategory) (detail : string)
  | TeSession (category : FailureCategory) (detail : string).
Definition te_category (e : TransportError) : FailureCategory :=
  match e with TeConnect c _ => c | TeSession c _ => c end.

(** ** The per-connection state machine *)
Inductive ConnectionState :=
  | Idle | Connecting | Connected | Healthy | Degraded
  | Failed (c : FailureCategory) | Closed.
Inductive Event :=
  | StartConnecting | ConnectSucceeded | ConnectFailed (c : FailureCategory)
  | DataFlowing | StallDetected | UserClose | ResetEvent.

Definition transition (s : ConnectionState) (e : Event) : ConnectionState :=
  match s, e with
  | _, UserClose => Closed
  | _, ResetEvent => Idle
  | Idle, StartConnecting => Connecting
  | Connecting, ConnectSucceeded => Connected
  | Connecting, ConnectFailed cat => Failed cat
  | Connected, DataFlowing => Healthy
  | Connected, StallDetected => Degraded
  | Healthy, StallDetected => Degraded
  | Healthy, DataFlowing => Healthy
  | Degraded, DataFlowing => Healthy
  | Failed _, StartConnecting => Connecting
  | s, _ => s
  end.

Definition run_events (s : ConnectionState) (es : list Event) : ConnectionState :=
  foldl transition s es.

(** A connection carries data. *)
Definition established (s : ConnectionState) : bool :=
  match s with Connected | Healthy | Degraded => true | _ => false end.

(** ** The shutdown guard *)
Record ShutdownGuard := {
  window : list (Z * bool);
  window_size : Z;
  failure_fraction_threshold : Z;
  cooldown_ticks : Z;
  cooldown_until : option Z
}.

Definition guard_new (size threshold cooldown : Z) : ShutdownGuard :=
  {| window := []; window_size := size; failure_fraction_threshold := threshold;
     cooldown_ticks := cooldown; cooldown_until := None |}.

Definition set_window (g : ShutdownGuard) (w : list (Z * bool)) (until : option Z) : ShutdownGuard :=
  {| window := w; window_size := window_size g;
     failure_fraction_threshold := failure_fraction_threshold g;
     cooldown_ticks := cooldown_ticks g; cooldown_until := until |}.

Definition record (g : ShutdownGuard) (tick : Z) (success : bool) : ShutdownGuard :=
  let w := if window_size g <=? Z.of_nat (length (window g)) then tail (window g) else window g in
  set_window g (w ++ [(tick, success)]) (cooldown_until g).

Definition failure_fraction (g : ShutdownGuard) : Z :=
  match window g with
  | [] => 0
  | _ =>
    let failures := Z.of_nat (length (filter (fun e => e.2 = false) (window g))) in
    fdiv f32 (fof f32 failures) (fof f32 (Z.of_nat (length (window g))))
  end.

(** [u64] addition in a release build *)
Definition wrapping_add64 (a b : Z) : Z := (a + b) mod 2 ^ 64.

Definition should_suppress_switching (g : ShutdownGuard) (tick : Z) : bool * ShutdownGuard :=
  let evaluate (g : ShutdownGuard) :=
    if (Z.max (window_size g) 4 <=? Z.of_nat (length (window g)))
       && (failure_fraction_threshold g <=? failure_fraction g)
    then (true, set_window g (window g) (Some (wrapping_add64 tick (cooldown_ticks g))))
    else (false, g) in
  match cooldown_until g with
  | Some until => if tick <? until then (true, g) else evaluate (set_window g [] None)
  | None => evaluate g
  end.

(** ** Facts about the state machine *)

(** A connection is only ever considered established after a successful
    connect: in every event sequence from [Idle] that ends in a state carrying
    data, a [ConnectSucceeded] occurs, and no close or reset follows it. *)
Theorem established_after_connect es :
  established (run_events Idle es) = true ->
  exists pre post, es = pre ++ ConnectSucceeded :: post /\
    run_events Idle pre = Connecting /\ UserClose ∉ post /\ ResetEvent ∉ post.
Proof.
  unfold run_events. induction es as [|e es IH] using rev_ind; [done|].
  rewrite foldl_app. cbn. intros He. set (s := foldl transition Idle es) in *.
  destruct (established s) eqn:Es.
  - destruct (IH eq_refl) as (pre & post & -> & Hpre & N1 & N2).
    exists pre, (post ++ [e]). rewrite <-app_assoc. split; [done|]. split; [done|].
    assert (e <> UserClose /\ e <> ResetEvent) as [? ?] by (split; intros ->; by destruct s).
    split; rewrite elem_of_app, list_elem_of_singleton; naive_solver.
  - exists es, []. assert (s = Connecting /\ e = ConnectSucceeded) as [? ->]
      by (destruct s, e; naive_solver).
    split; [done|]. split; [done|]. split; apply not_elem_of_nil.
Qed.

(** ** The guard under load

    [drive] belongs to the specification and translates no code: it is the
    engine of the theorems below, which asks the guard once at each of [n]
    consecutive ticks and always has a candidate to dial.  As in the loop of
    engine.rs ([Engine]), a tick that the guard suppresses neither dials nor
    records, and every other tick dials and records how the dial ended,
    [ok tick]; what is left out is a tick at which all candidates are
    quarantined, where engine.rs neither dials nor records.  It counts the
    dials. *)
Fixpoint drive (ok : Z -> bool) (g : ShutdownGuard) (tick : Z) (n : nat) : Z * ShutdownGuard :=
  match n with
  | O => (0, g)
  | S n =>
    let '(suppress, g1) := should_suppress_switching g tick in
    if suppress then drive ok g1 (tick + 1) n
    else let '(d, g2) := drive ok (record g1 tick (ok tick)) (tick + 1) n in (1 + d, g2)
  end.

Lemma drive_app ok g t a b :
  drive ok g t (a + b) =
  let '(d1, g1) := drive ok g t a in
  let '(d2, g2) := drive ok g1 (t + Z.of_nat a) b in (d1 + d2, g2).
Proof.
  revert g t. induction a as [|a IH]; intros g t; cbn [drive Nat.add].
  - replace (t + Z.of_nat 0) with t by lia. by destruct (drive ok g t b).
  - destruct (should_suppress_switching g t) as [[] g1]; rewrite IH;
      destruct (drive ok _ (t + 1) a) as [d1 g2];
      replace (t + 1 + Z.of_nat a) with (t + Z.of_nat (S a)) by lia;
      destruct (drive ok g2 _ b); [done|]. f_equal. lia.
Qed.

Lemma f32_one_rep : rep f32 (fone f32).
Proof. apply repb_rep. vm_compute. reflexivity. Qed.

Lemma fof_pos n : 1 <= n -> 0 < fof f32 n.
Proof.
  intros Hn. pose proof (fone_pos f32 ltac:(done)).
  assert (fone f32 <= fof f32 n); [|lia].
  apply rnd_ge; [done|nia|lia|apply f32_one_rep|nia].
Qed.

Lemma fdiv_same a : 0 < a -> fdiv f32 a a = fone f32.
Proof.
  intros Ha. pose proof (fone_pos f32 ltac:(done)).
  apply Z.le_antisymm; [apply rnd_le|apply rnd_ge]; try done; try nia; apply f32_one_rep.
Qed.

Definition failing (w : list (Z * bool)) : Prop := Forall (fun e => e.2 = false) w.

Lemma failure_fraction_failing g :
  failing (window g) -> window g <> [] -> failure_fraction g = fone f32.
Proof.
  intros Hf Hne. unfold failure_fraction. destruct (window g) as [|x w] eqn:E; [done|]. cbv zeta.
  rewrite filter_all by done.
  apply fdiv_same, fof_pos. cbn [length]. lia.
Qed.

Definition guard_params (g : ShutdownGuard) (W th C : Z) : Prop :=
  window_size g = W /\ failure_fraction_threshold g = th /\ cooldown_ticks g = C.

(** Ready to probe from an empty window at tick [t]. *)
Definition fresh (g : ShutdownGuard) (t : Z) : Prop :=
  match cooldown_until g with None => window g = [] | Some u => u <= t end.

Section DutyCycle.
Context (W th C : Z) (HW : 4 <= W) (Hth : 0 <= th <= fone f32) (HC : 1 <= C).

Lemma suppress_filling g t :
  guard_params g W th C -> cooldown_until g = None -> Z.of_nat (length (window g)) < W ->
  should_suppress_switching g t = (false, g).
Proof.
  intros (EW & _ & _) Hc Hl. unfold should_suppress_switching. rewrite Hc, EW. cbn.
  by replace (Z.max W 4 <=? Z.of_nat (length (window g))) with false by lia.
Qed.

Lemma record_filling g t :
  guard_params g W th C -> Z.of_nat (length (window g)) < W ->
  guard_params (record g t false) W th C /\ cooldown_until (record g t false) = cooldown_until g /\
  window (record g t false) = window g ++ [(t, false)].
Proof.
  intros (EW & ET & EC) Hl. unfold record. rewrite EW.
  replace (W <=? Z.of_nat (length (window g))) with false by lia. done.
Qed.

Lemma suppress_full g t :
  guard_params g W th C -> cooldown_until g = None -> Z.of_nat (length (window g)) = W ->
  failing (window g) ->
  should_suppress_switching g t = (true, set_window g (window g) (Some (wrapping_add64 t C))).
Proof.
  intros (EW & ET & EC) Hc Hl Hf. unfold should_suppress_switching. rewrite Hc. cbn.
  rewrite failure_fraction_failing, EW, ET, EC by (done || (intros E; rewrite E in Hl; cbn in Hl; lia)).
  replace (Z.max W 4 <=? Z.of_nat (length (window g))) with true by lia.
  by replace (th <=? fone f32) with true by lia.
Qed.

Lemma drive_cooldown ok g t u n :
  cooldown_until g = Some u -> t + Z.of_nat n <= u -> drive ok g t n = (0, g).
Proof.
  intros Hc. revert t. induction n as [|n IH]; intros t Hu; [done|]. cbn [drive].
  unfold should_suppress_switching. rewrite Hc.
  replace (t <? u) with true by lia. apply IH. lia.
Qed.

Lemma drive_filling g t n :
  guard_params g W th C -> cooldown_until g = None -> failing (window g) ->
  Z.of_nat (length (window g)) + Z.of_nat n = W ->
  exists g', drive (fun _ => false) g t n = (Z.of_nat n, g') /\ guard_params g' W th C /\
    cooldown_until g' = None /\ failing (window g') /\ Z.of_nat (length (window g')) = W.
Proof.
  revert g t. induction n as [|n IH]; intros g t Hg Hc Hf Hl; [exists g; split_and!; (done || lia)|].
  cbn [drive]. rewrite suppress_filling by (done || lia).
  destruct (record_filling g t Hg ltac:(lia)) as (Hg' & Hc' & Hw').
  destruct (IH (record g t false) (t + 1)) as (g' & -> & H).
  - done.
  - by rewrite Hc'.
  - rewrite Hw'. apply Forall_app. split; [done|by apply Forall_singleton].
  - rewrite Hw', length_app. cbn [length]. lia.
  - exists g'. split; [|done]. f_equal. lia.
Qed.

Lemma fresh_starts g t :
  guard_params g W th C -> fresh g t ->
  exists g', guard_params g' W th C /\ cooldown_until g' = None /\ window g' = [] /\
    forall n, drive (fun _ => false) g t (S n) = drive (fun _ => false) g' t (S n).
Proof.
  intros Hg Hfr. unfold fresh in Hfr. destruct (cooldown_until g) as [u|] eqn:Hc.
  - exists (set_window g [] None). split; [done|]. split; [done|]. split; [done|]. intros n. cbn [drive].
    unfold should_suppress_switching. rewrite Hc. cbn.
    by replace (t <? u) with false by lia.
  - by exists g.
Qed.

Lemma drive_cycle g t :
  guard_params g W th C -> fresh g t -> 0 <= t -> t + W + C < 2 ^ 64 ->
  exists g', drive (fun _ => false) g t (Z.to_nat (W + C)) = (W, g') /\
    guard_params g' W th C /\ fresh g' (t + W + C).
Proof.
  intros Hg Hfr Ht Hb. destruct (fresh_starts g t Hg Hfr) as (g0 & Hg0 & Hc0 & Hw0 & Hd).
  replace (Z.to_nat (W + C)) with (S (Z.to_nat (W + C - 1))) by lia. rewrite Hd.
  replace (S (Z.to_nat (W + C - 1))) with (Z.to_nat W + Z.to_nat C)%nat by lia.
  rewrite drive_app.
  destruct (drive_filling g0 t (Z.to_nat W)) as (g1 & -> & Hg1 & Hc1 & Hf1 & Hl1);
    [done|done|by rewrite Hw0; constructor|rewrite Hw0; cbn; lia|].
  replace (Z.to_nat C) with (S (Z.to_nat (C - 1))) by lia. cbn [drive].
  rewrite suppress_full by done. rewrite Z2Nat.id by lia.
  assert (wrapping_add64 (t + W) C = t + W + C) as -> by (unfold wrapping_add64; apply Z.mod_small; lia).
  rewrite (drive_cooldown _ _ _ (t + W + C)) by (done || lia).
  eexists. split; [f_equal; lia|]. split; [done|]. cbn. lia.
Qed.

Lemma duty_cycles (k : nat) g t :
  guard_params g W th C -> fresh g t -> 0 <= t -> t + Z.of_nat k * (W + C) < 2 ^ 64 ->
  fst (drive (fun _ => false) g t (k * Z.to_nat (W + C))) = Z.of_nat k * W.
Proof.
  revert g t. induction k as [|k IH]; intros g t Hg Hfr Ht Hb; [done|].
  cbn [Nat.mul]. rewrite drive_app.
  destruct (drive_cycle g t Hg Hfr Ht) as (g' & -> & Hg' & Hfr'); [nia|].
  rewrite Z2Nat.id by lia. rewrite Z.add_assoc.
  specialize (IH g' (t + W + C) Hg' Hfr' ltac:(lia) ltac:(nia)).
  destruct (drive _ g' _ _) as [d ?]. cbn [fst] in *. lia.
Qed.
End DutyCycle.

(** C38: A dead network is probed at a fixed low rate, neither cycled through nor
    given up on.  Take a guard with a window of [W >= 4] dials, a threshold [th]
    in [0, 1] and a cooldown of [C >= 1] ticks, and an engine with a candidate
    to dial at every tick that asks it at consecutive ticks, dials and records
    when the guard lets it, and does neither when it does not ([drive]).  While every dial fails and the tick
    stays below 2^64, it dials exactly [W] times in each stretch of [W + C]
    ticks: after each pause the guard lets it try again.  (With a window below
    four the guard never holds a dial back, [small_window_never_suppresses].) *)
Theorem guard_duty_cycle W th C t (k : nat) :
  4 <= W -> 0 <= th <= fone f32 -> 1 <= C ->
  0 <= t -> t + Z.of_nat k * (W + C) < 2 ^ 64 ->
  fst (drive (fun _ => false) (guard_new W th C) t (k * Z.to_nat (W + C))) = Z.of_nat k * W.
Proof. intros HW Hth HC Ht Hb. by apply (duty_cycles W th C HW Hth HC). Qed.

(** An invariant under which the guard stays silent lets every dial through. *)
Lemma drive_silent (ok : Z -> bool) (I : ShutdownGuard -> Prop) g t n :
  (forall g t, I g -> should_suppress_switching g t = (false, g) /\ I (record g t (ok t))) ->
  I g -> fst (drive ok g t n) = Z.of_nat n.
Proof.
  intros HI. revert g t. induction n as [|n IH]; intros g t Hg; [done|]. cbn [drive].
  destruct (HI g t Hg) as [-> Hr]. specialize (IH _ (t + 1) Hr).
  destruct (drive ok _ (t + 1) n). cbn in *. lia.
Qed.

(** A healthy network is never held back: as long as dials succeed the guard
    never suppresses one, for any window and any positive threshold. *)
Theorem guard_lets_healthy_through W th C t n :
  0 < th ->
  fst (drive (fun _ => true) (guard_new W th C) t n) = Z.of_nat n.
Proof.
  intros Hth. apply (drive_silent _ (fun g => cooldown_until g = None /\
    failure_fraction_threshold g = th /\ Forall (fun e => e.2 = true) (window g))); [|done].
  intros g t' (Hc & Ht & Hw). split.
  - unfold should_suppress_switching. rewrite Hc. cbn.
    assert (failure_fraction g = 0) as ->.
    { unfold failure_fraction. destruct (window g) as [|x w] eqn:E; [done|]. cbv zeta.
      rewrite filter_none by (eapply Forall_impl; [exact Hw|]; cbn; congruence).
      change (fof f32 (Z.of_nat (length []))) with 0. unfold fdiv. rewrite Z.mul_0_l.
      apply rnd_0; [done|]. apply fof_pos. cbn [length]. lia. }
    rewrite Ht. replace (th <=? 0) with false by lia. by rewrite andb_false_r.
  - split; [done|]. split; [done|]. unfold record. cbn. apply Forall_app.
    split; [|by apply Forall_singleton]. destruct (_ <=? _); [|done]. by apply Forall_tail.
Qed.

(** A window below four observations never triggers the guard, whatever fails:
    the test asks for at least four and the window cannot hold them. *)
Theorem small_window_never_suppresses ok W th C t n :
  W < 4 -> fst (drive ok (guard_new W th C) t n) = Z.of_nat n.
Proof.
  intros HW. apply (drive_silent _ (fun g => cooldown_until g = None /\ window_size g = W /\
    Z.of_nat (length (window g)) <= Z.max 1 W)); [|split_and!; (done || cbn; lia)].
  intros g t' (Hc & Hs & Hl). split.
  - unfold should_suppress_switching. rewrite Hc. cbn.
    by replace (Z.max (window_size g) 4 <=? Z.of_nat (length (window g))) with false by lia.
  - split; [done|]. split; [done|]. unfold record. cbn. rewrite Hs, length_app. cbn [length].
    destruct (W <=? _) eqn:E; [apply Z.leb_le in E|apply Z.leb_gt in E].
    + destruct (window g); cbn in *; lia.
    + lia.
Qed.

(** ** Concrete runs: the engine's guard has a window of 8, a threshold of 0.75
    and a cooldown of 90 ticks. *)
Lemma established_after_connect_witness :
  exists pre post, [StartConnecting; ConnectFailed TcpReset; StartConnecting; ConnectSucceeded; DataFlowing]
      = pre ++ ConnectSucceeded :: post /\
    run_events Idle pre = Connecting /\ UserClose ∉ post /\ ResetEvent ∉ post.
Proof.
  exact (established_after_connect
    [StartConnecting; ConnectFailed TcpReset; StartConnecting; ConnectSucceeded; DataFlowing] eq_refl).
Defined.

Lemma guard_duty_cycle_witness :
  fst (drive (fun _ => false) (guard_new 8 (flit f32 3 4) 90) 0 (5 * Z.to_nat (8 + 90))) = 5 * 8.
Proof.
  apply (guard_duty_cycle 8 (flit f32 3 4) 90); try lia.
  split; vm_compute; discriminate.
Defined.

Lemma guard_lets_healthy_through_witness :
  fst (drive (fun _ => true) (guard_new 8 (flit f32 3 4) 90) 0 1000) = 1000.
Proof. apply (guard_lets_healthy_through 8 (flit f32 3 4) 90 0 1000). vm_compute. reflexivity. Defined.
