(* ===== verification/Telemetry.v ===== *)
(** * crates/telemetry

    Models crates/telemetry/src/lib.rs: the schema of the events.  No code of the
    repository builds an event, so there are no operations; what is shown is how
    much an event can say: apart from its transport and its tag, only one of a
    fixed number of values. *)

From stdpp Require Import finite.
From S2P Require Import Prelude Bytes Io Serde Common Fs Failure.

(** Text of the program's own, by its type: any string constant makes a tag. *)
Inductive EndpointTag := MkEndpointTag (tag : string).
Inductive Outcome := Success | Failure (category : FailureCategory).
Inductive SessionEndReason := UserDisconnect | Stall | Reset | Migration.
Inductive LossBucket := LossNone | Low | Moderate | High.
Inductive LatencyBucket := Under50Ms | Under150Ms | Under400Ms | Over400Ms.
(** A [u8], meant as the hour of the day. *)
Inductive TimeBucket := MkTimeBucket (hour : Byte.byte).
Inductive Event :=
  | ConnectionAttempt (transport : TransportId) (endpoint_tag : EndpointTag)
  | ConnectionResult (transport : TransportId) (endpoint_tag : EndpointTag) (outcome : Outcome)
      (handshake_ms_bucket : DurationBucket)
  | SessionEnded (transport : TransportId) (duration_bucket : DurationBucket) (reason : SessionEndReason)
  | StallObserved (transport : TransportId) (endpoint_tag : EndpointTag)
  | NetworkConditionBucket (loss_bucket : LossBucket) (latency_bucket : LatencyBucket) (time_bucket : TimeBucket).

#[export] Instance EndpointTag_eq_dec : EqDecision EndpointTag.
Proof. solve_decision. Defined.
#[export] Instance DurationBucket_eq_dec : EqDecision DurationBucket.
Proof. solve_decision. Defined.
#[export] Instance Outcome_eq_dec : EqDecision Outcome.
Proof. solve_decision. Defined.
#[export] Instance SessionEndReason_eq_dec : EqDecision SessionEndReason.
Proof. solve_decision. Defined.
#[export] Instance LossBucket_eq_dec : EqDecision LossBucket.
Proof. solve_decision. Defined.
#[export] Instance LatencyBucket_eq_dec : EqDecision LatencyBucket.
Proof. solve_decision. Defined.
#[export] Instance Byte_eq_dec : EqDecision Byte.byte := Byte.byte_eq_dec.
#[export] Instance TimeBucket_eq_dec : EqDecision TimeBucket.
Proof. solve_decision. Defined.
#[export] Instance Event_eq_dec : EqDecision Event.
Proof. solve_decision. Defined.

(** The closed parts of an event. *)
Ltac finite_enum :=
  first [by apply (bool_decide_unpack _); vm_compute
        |by intros []; apply (bool_decide_unpack _); vm_compute
        |by intros [|[]]; apply (bool_decide_unpack _); vm_compute
        |by intros [[]]; apply (bool_decide_unpack _); vm_compute].
#[export] Program Instance FailureCategory_finite : Finite FailureCategory := {|
  enum := [DnsFailure; TcpTimeout; TcpReset; TlsFailure; QuicFailure; UdpUnavailable; HandshakeTimeout;
    StallAfterConnect; EndpointUnreachable; ProviderDegradation; TransportDegradation; GeneralRouteFailure;
    PossibleShutdown; LocalNetworkFailure] |}.
Solve Obligations with finite_enum.
#[export] Program Instance DurationBucket_finite : Finite DurationBucket := {|
  enum := [Under100Ms; Under500Ms; Under2s; Under10s; Over10s] |}.
Solve Obligations with finite_enum.
#[export] Program Instance SessionEndReason_finite : Finite SessionEndReason := {|
  enum := [UserDisconnect; Stall; Reset; Migration] |}.
Solve Obligations with finite_enum.
#[export] Program Instance LossBucket_finite : Finite LossBucket := {| enum := [LossNone; Low; Moderate; High] |}.
Solve Obligations with finite_enum.
#[export] Program Instance LatencyBucket_finite : Finite LatencyBucket := {|
  enum := [Under50Ms; Under150Ms; Under400Ms; Over400Ms] |}.
Solve Obligations with finite_enum.
#[export] Program Instance Outcome_finite : Finite Outcome := {|
  enum := Success :: (Failure <$> enum FailureCategory) |}.
Solve Obligations with finite_enum.
#[export] Program Instance TimeBucket_finite : Finite TimeBucket := {|
  enum := (fun n => MkTimeBucket (byte_of (Z.of_nat n))) <$> seq 0 256 |}.
Solve Obligations with finite_enum.

(** ** What an event says *)

(** Beside the transport and the tag: which variant it is, and its buckets. *)
Definition Closed : Type :=
  unit + Outcome * DurationBucket + DurationBucket * SessionEndReason + unit +
  LossBucket * LatencyBucket * TimeBucket.
Definition said (e : Event) : option TransportId * option EndpointTag * Closed :=
  match e with
  | ConnectionAttempt t g => (Some t, Some g, inl (inl (inl (inl tt))))
  | ConnectionResult t g o d => (Some t, Some g, inl (inl (inl (inr (o, d)))))
  | SessionEnded t d r => (Some t, None, inl (inl (inr (d, r))))
  | StallObserved t g => (Some t, Some g, inl (inr tt))
  | NetworkConditionBucket l y h => (None, None, inr (l, y, h))
  end.

(** An event says no more than its transport, its tag and one of 4193 values:
    there is no room in it for an address, a time of day finer than a bucket or
    an identifier of the user. *)
Theorem event_content_bounded :
  card Closed = 4193%nat /\ forall e1 e2, said e1 = said e2 -> e1 = e2.
Proof.
  split; [vm_compute; reflexivity|]. intros [] []; cbn; intros E; by simplify_eq.
Qed.
