(* ===== verification/Policy.v ===== *)
(** * crates/policy: scoring, quarantine, selection and the kill switch

    Models crates/policy/src/lib.rs and killswitch.rs.  Instants are
    nanoseconds of the monotonic clock, read by the caller of each operation;
    the random generator ([rand]) is an interface. *)

From S2P Require Import Prelude Common Fl Failure.

(** ** The random generator *)
Class Rng (R : Type) := {
  (** [rng.gen_range(lo..=hi)] *)
  gen_range : Z -> Z -> R -> Z * R;
  (** [WeightedIndex::new(&weights).ok()?.sample(rng)] *)
  weighted_index : list Z -> R -> option (nat * R)
}.
Class RngLaws (R : Type) `{Rng R} := {
  gen_range_bounds lo hi r : lo <= hi -> lo <= fst (gen_range lo hi r) <= hi;
  weighted_index_total ws r : ws <> [] -> Forall (fun w => 0 < w) ws ->
    exists i r', weighted_index ws r = Some (i, r') /\ (i < length ws)%nat
}.

(** ** Scores *)
Definition EWMA_ALPHA : Z := Eval vm_compute in flit f32 3 10.
Definition SCORE_FLOOR : Z := Eval vm_compute in flit f32 1 20.
Definition QUARANTINE_THRESHOLD : Z := 3.
Definition QUARANTINE_MIN : Z := 60.
Definition QUARANTINE_MAX : Z := 300.
Definition NANOS : Z := 1000000000.

Record Score := {
  ewma_success : Z;
  total_attempts : Z;
  consecutive_failures : Z;
  last_failure_category : option FailureCategory;
  quarantined_until : option Z
}.

Definition score_default : Score :=
  {| ewma_success := flit f32 1 2; total_attempts := 0; consecutive_failures := 0;
     last_failure_category := None; quarantined_until := None |}.

Definition record_success (s : Score) : Score :=
  {| ewma_success := fadd f32 (fmul f32 EWMA_ALPHA (fone f32))
       (fmul f32 (fsub f32 (fone f32) EWMA_ALPHA) (ewma_success s));
     total_attempts := saturating_add u32_max (total_attempts s) 1;
     consecutive_failures := 0;
     last_failure_category := last_failure_category s;
     quarantined_until := None |}.

(** ** Candidates *)
Record Candidate := { c_transport : TransportId; c_endpoint : EndpointId }.
#[export] Instance Candidate_eq_dec : EqDecision Candidate.
Proof. solve_decision. Defined.
#[export] Instance Candidate_countable : Countable Candidate.
Proof.
  apply (inj_countable' (fun c => (transport_str (c_transport c), endpoint_str (c_endpoint c)))
    (fun '(t, e) => {| c_transport := MkTransportId t; c_endpoint := MkEndpointId e |})).
  by intros [[] []].
Defined.
Notation ScoreBoard := (gmap Candidate Score).

Section Policy.
Context {R : Type} `{Rng R}.

Definition record_failure (s : Score) (category : FailureCategory) (now : Z) (rng : R) : Score * R :=
  let cf := saturating_add u16_max (consecutive_failures s) 1 in
  let e := fadd f32 (fmul f32 EWMA_ALPHA 0)
             (fmul f32 (fsub f32 (fone f32) EWMA_ALPHA) (ewma_success s)) in
  let '(until, rng) :=
    if QUARANTINE_THRESHOLD <=? cf
    then let '(jitter_secs, rng) := gen_range QUARANTINE_MIN QUARANTINE_MAX rng in
         (Some (now + jitter_secs * NANOS), rng)
    else (quarantined_until s, rng) in
  ({| ewma_success := e;
      total_attempts := saturating_add u32_max (total_attempts s) 1;
      consecutive_failures := cf;
      last_failure_category := Some category;
      quarantined_until := until |}, rng).

Definition is_quarantined (s : Score) (now : Z) : bool :=
  match quarantined_until s with Some until => now <? until | None => false end.

Definition selection_weight (s : Score) : Z := Z.max (ewma_success s) SCORE_FLOOR.

(** ** The board *)
Definition board_new : ScoreBoard := ∅.

Definition score_of (b : ScoreBoard) (c : Candidate) : Score := default score_default (b !! c).
Definition observe_success (b : ScoreBoard) (c : Candidate) : ScoreBoard :=
  <[c := record_success (score_of b c)]> b.
Definition observe_failure (b : ScoreBoard) (c : Candidate) (category : FailureCategory)
    (now : Z) (rng : R) : ScoreBoard * R :=
  if negb (is_remote_signal category) then (b, rng)
  else let '(s, rng) := record_failure (score_of b c) category now rng in (<[c := s]> b, rng).

Definition eligible (b : ScoreBoard) (now : Z) (candidates : list Candidate) : list Candidate :=
  filter (fun c => is_quarantined (score_of b c) now = false) candidates.

Definition select_next (b : ScoreBoard) (candidates : list Candidate) (now : Z) (rng : R)
    : option Candidate * R :=
  match eligible b now candidates with
  | [] => (None, rng)
  | el =>
    match weighted_index ((fun c => selection_weight (score_of b c)) <$> el) rng with
    | None => (None, rng)
    | Some (i, rng) => (el !! i, rng)
    end
  end.
End Policy.

(** ** killswitch.rs *)
Inductive RoutePolicy := SecureRouteActive | SecureRouteUnavailable.
#[export] Instance RoutePolicy_eq_dec : EqDecision RoutePolicy.
Proof. solve_decision. Defined.

Class KillSwitchBackend (B : Type) := {
  apply_policy : B -> RoutePolicy -> B;
  current_policy : B -> RoutePolicy
}.
Record MockBackend := { mb_policy : RoutePolicy; mb_apply_log : list RoutePolicy }.
Definition mock_new : MockBackend := {| mb_policy := SecureRouteUnavailable; mb_apply_log := [] |}.
#[export] Instance mock_backend : KillSwitchBackend MockBackend := {|
  apply_policy b p := {| mb_policy := p; mb_apply_log := mb_apply_log b ++ [p] |};
  current_policy b := mb_policy b |}.

Record KillSwitch (B : Type) := MkKillSwitch { backend : B }.
Arguments MkKillSwitch {B} _.
Arguments backend {B} _.
Section KillSwitchOps.
Context {B : Type} `{KillSwitchBackend B}.
Definition on_secure_route_established (k : KillSwitch B) : KillSwitch B :=
  MkKillSwitch (apply_policy (backend k) SecureRouteActive).
Definition on_secure_route_lost (k : KillSwitch B) : KillSwitch B :=
  MkKillSwitch (apply_policy (backend k) SecureRouteUnavailable).
Definition policy (k : KillSwitch B) : RoutePolicy := current_policy (backend k).
End KillSwitchOps.

(** ** Facts about scores *)
Definition EWMA_BETA : Z := Eval vm_compute in fsub f32 (fone f32) EWMA_ALPHA.

(** The two weights of the moving average add up to one exactly. *)
Lemma alpha_beta : fsub f32 (fone f32) EWMA_ALPHA = EWMA_BETA /\
  fmul f32 EWMA_ALPHA (fone f32) = EWMA_ALPHA /\ fmul f32 EWMA_ALPHA 0 = 0 /\
  EWMA_ALPHA + EWMA_BETA = fone f32 /\ 0 < EWMA_ALPHA /\ 0 < EWMA_BETA /\
  0 < SCORE_FLOOR <= EWMA_ALPHA.
Proof. vm_compute. split_and!; (reflexivity || discriminate). Qed.
Lemma alpha_rep : rep f32 EWMA_ALPHA.
Proof. apply repb_rep. vm_compute. reflexivity. Qed.
Lemma beta_rep : rep f32 EWMA_BETA.
Proof. apply repb_rep. vm_compute. reflexivity. Qed.

Definition wf_score (s : Score) : Prop :=
  rep f32 (ewma_success s) /\ ewma_success s <= fone f32 /\
  0 <= total_attempts s <= u32_max /\ 0 <= consecutive_failures s <= u16_max.

Definition wf_board (b : ScoreBoard) : Prop := forall c, wf_score (score_of b c).

Lemma score_default_wf : wf_score score_default.
Proof.
  split; [apply repb_rep; vm_compute; reflexivity|].
  split; [vm_compute; discriminate|]. unfold u32_max, u16_max. cbn. lia.
Qed.

Lemma record_success_ewma s : wf_score s ->
  rep f32 (ewma_success (record_success s)) /\
  EWMA_ALPHA <= ewma_success (record_success s) <= fone f32.
Proof.
  intros (Hr & Hle & _). destruct alpha_beta as (Eb & Ea & _ & Es & ? & ? & _).
  pose proof Hr as [Hnn _]. cbn. rewrite Eb, Ea.
  pose proof (fmul_rep f32 ltac:(done) ltac:(done) EWMA_BETA (ewma_success s) ltac:(lia) Hnn) as Hm.
  pose proof (fmul_le_l f32 ltac:(done) EWMA_BETA (ewma_success s) beta_rep ltac:(lia)) as Hb.
  pose proof Hm as [Hm0 _]. split; [apply fadd_rep; (done || lia)|]. split.
  - apply fadd_ge_l; [done|apply alpha_rep|done].
  - apply fadd_le; [lia|done|apply f32_one_rep|lia].
Qed.

Section PolicyFacts.
Context {R : Type} {Rg : Rng R} {RgL : RngLaws R}.

Lemma record_failure_ewma s cat now (rng : R) : wf_score s ->
  let s' := fst (record_failure s cat now rng) in
  rep f32 (ewma_success s') /\ 0 <= ewma_success s' <= ewma_success s.
Proof.
  intros (Hr & Hle & _). cbv zeta. pose proof Hr as [Hnn _].
  destruct alpha_beta as (Eb & _ & Ez & Es & ? & ? & _).
  assert (ewma_success (fst (record_failure s cat now rng)) = fmul f32 EWMA_BETA (ewma_success s)) as ->.
  { unfold record_failure. destruct (_ <=? _); [destruct (gen_range _ _ _)|]; cbn; rewrite Eb, Ez;
    apply rnd_exact, fmul_rep; (done || lia). }
  pose proof (fmul_rep f32 ltac:(done) ltac:(done) EWMA_BETA (ewma_success s) ltac:(lia) Hnn) as Hm.
  split; [done|]. split; [apply Hm|]. apply fmul_le_r; [done|lia|done].
Qed.

Lemma record_failure_fields s cat now (rng : R) :
  let s' := fst (record_failure s cat now rng) in
  total_attempts s' = saturating_add u32_max (total_attempts s) 1 /\
  consecutive_failures s' = saturating_add u16_max (consecutive_failures s) 1 /\
  last_failure_category s' = Some cat.
Proof.
  cbv zeta. unfold record_failure.
  by destruct (_ <=? _); [destruct (gen_range _ _ _)|].
Qed.

Lemma record_success_wf s : wf_score s -> wf_score (record_success s).
Proof.
  intros Hs. destruct (record_success_ewma s Hs) as (? & ? & ?).
  destruct Hs as (_ & _ & ? & ?). split_and!; try done; cbn; unfold saturating_add, u32_max, u16_max in *; lia.
Qed.

Lemma record_failure_wf s cat now (rng : R) : wf_score s -> wf_score (fst (record_failure s cat now rng)).
Proof.
  intros Hs. destruct (record_failure_ewma s cat now rng Hs) as (? & ? & ?).
  destruct (record_failure_fields s cat now rng) as (E1 & E2 & _).
  destruct Hs as (? & ? & ? & ?). unfold wf_score. rewrite E1, E2.
  unfold saturating_add, u32_max, u16_max in *. split_and!; (done || lia).
Qed.

Lemma score_of_insert b c s c' : score_of (<[c := s]> b) c' = if decide (c = c') then s else score_of b c'.
Proof.
  unfold score_of. case_decide as E; [subst; by rewrite lookup_insert_eq|by rewrite lookup_insert_ne].
Qed.

Lemma observe_success_wf b c : wf_board b -> wf_board (observe_success b c).
Proof.
  intros Hb c'. unfold observe_success. rewrite score_of_insert. case_decide; [|done].
  by apply record_success_wf.
Qed.
Lemma observe_failure_wf b c cat now (rng : R) :
  wf_board b -> wf_board (fst (observe_failure b c cat now rng)).
Proof.
  intros Hb c'. unfold observe_failure. destruct (is_remote_signal cat); [|done]. cbn.
  pose proof (record_failure_wf (score_of b c) cat now rng (Hb c)) as Hw.
  destruct (record_failure _ _ _ _) as [s r]. cbn in *. rewrite score_of_insert. by case_decide.
Qed.

(** A history of observations. *)
Inductive observed : Type :=
  | ObsSuccess (c : Candidate)
  | ObsFailure (c : Candidate) (cat : FailureCategory) (now : Z).
Definition observe (st : ScoreBoard * R) (o : observed) : ScoreBoard * R :=
  match o with
  | ObsSuccess c => (observe_success st.1 c, st.2)
  | ObsFailure c cat now => observe_failure st.1 c cat now st.2
  end.

Lemma board_new_wf : wf_board board_new.
Proof. intros c. apply score_default_wf. Qed.

Lemma observe_all_wf os (st : ScoreBoard * R) : wf_board st.1 -> wf_board (foldl observe st os).1.
Proof.
  revert st. induction os as [|o os IH]; intros [b r] Hb; [done|]. apply IH.
  destruct o; cbn; [by apply observe_success_wf|by apply observe_failure_wf].
Qed.

Lemma wf_weight s : wf_score s -> SCORE_FLOOR <= selection_weight s <= fone f32.
Proof.
  intros (Hr & Hle & _). unfold selection_weight. split; [lia|]. apply Z.max_lub; [done|].
  vm_compute. discriminate.
Qed.

(** *** The counters *)

(** How often a candidate was tried with an outcome that counts, and how often it
    failed since it last succeeded. *)
Definition counted (c : Candidate) (o : observed) : bool :=
  match o with
  | ObsSuccess c' => bool_decide (c' = c)
  | ObsFailure c' cat _ => bool_decide (c' = c) && is_remote_signal cat
  end.
Definition attempts_step (c : Candidate) (n : Z) (o : observed) : Z := if counted c o then n + 1 else n.
Definition attempts (c : Candidate) (os : list observed) : Z := foldl (attempts_step c) 0 os.
Definition streak_step (c : Candidate) (n : Z) (o : observed) : Z :=
  if counted c o then match o with ObsSuccess _ => 0 | ObsFailure _ _ _ => n + 1 end else n.
Definition streak (c : Candidate) (os : list observed) : Z := foldl (streak_step c) 0 os.

Lemma observe_counters (st : ScoreBoard * R) o c n m :
  0 <= n -> 0 <= m ->
  total_attempts (score_of st.1 c) = Z.min u32_max n -> consecutive_failures (score_of st.1 c) = Z.min u16_max m ->
  let s := score_of (observe st o).1 c in
  total_attempts s = Z.min u32_max (attempts_step c n o) /\ consecutive_failures s = Z.min u16_max (streak_step c m o).
Proof.
  intros Hn Hm Ht Hf. cbv zeta. unfold attempts_step, streak_step. destruct st as [b rng], o as [c'|c' cat now]; cbn in Ht, Hf |- *.
  - unfold observe_success. rewrite score_of_insert. case_decide as E; [subst; rewrite bool_decide_eq_true_2 by done|].
    + cbn. rewrite Ht. unfold saturating_add, u32_max, u16_max. lia.
    + by rewrite bool_decide_eq_false_2.
  - unfold observe_failure. destruct (is_remote_signal cat); cbn [negb]; [|by rewrite andb_false_r].
    rewrite andb_true_r. destruct (record_failure_fields (score_of b c') cat now rng) as (E1 & E2 & _).
    destruct (record_failure (score_of b c') cat now rng) as [s' r']. cbn in E1, E2 |- *. rewrite score_of_insert.
    case_decide as E; [subst; rewrite bool_decide_eq_true_2 by done|by rewrite bool_decide_eq_false_2].
    rewrite E1, E2, Ht, Hf. unfold saturating_add, u32_max, u16_max. lia.
Qed.
Lemma observe_all_counters os (st : ScoreBoard * R) c n m :
  0 <= n -> 0 <= m ->
  total_attempts (score_of st.1 c) = Z.min u32_max n -> consecutive_failures (score_of st.1 c) = Z.min u16_max m ->
  let s := score_of (foldl observe st os).1 c in
  total_attempts s = Z.min u32_max (foldl (attempts_step c) n os) /\
  consecutive_failures s = Z.min u16_max (foldl (streak_step c) m os).
Proof.
  revert st n m. induction os as [|o os IH]; intros st n m Hn Hm Ht Hf; [done|]. cbn [foldl].
  destruct (observe_counters st o c n m Hn Hm Ht Hf) as [Ht' Hf']. apply IH; [| |exact Ht'|exact Hf'].
  - unfold attempts_step. destruct (counted c o); lia.
  - unfold streak_step. destruct (counted c o); [|done]. destruct o; lia.
Qed.

(** C39: The scoring invariant.  Whatever is observed, in whatever order, every
    candidate's score is a single-precision number in [0, 1]; its counters are
    exact until they saturate and then stay at the largest value of their type:
    [total_attempts] counts the observations of the candidate that count (a
    success, or a failure that is a signal about the remote side), and
    [consecutive_failures] those failures since its last success; and its
    selection weight lies between the floor and one, so no candidate is ever
    excluded by its score alone. *)
Theorem scoreboard_invariant os (rng : R) c :
  let s := score_of (foldl observe (board_new, rng) os).1 c in
  rep f32 (ewma_success s) /\ 0 <= ewma_success s <= fone f32 /\
  total_attempts s = Z.min u32_max (attempts c os) /\
  consecutive_failures s = Z.min u16_max (streak c os) /\
  SCORE_FLOOR <= selection_weight s <= fone f32.
Proof.
  cbv zeta. pose proof (observe_all_wf os (board_new, rng) board_new_wf c) as Hw.
  pose proof (wf_weight _ Hw). destruct Hw as (Hr & Hle & _). pose proof Hr as [? _].
  destruct (observe_all_counters os (board_new, rng) c 0 0) as [H1 H2]; [done|done|done|done|]. done.
Qed.

(** Scores move the right way.  On a well-formed score a failure never
    raises the moving average and a success lifts it to at least the smoothing
    factor, well above the floor. *)
Theorem score_moves s cat now (rng : R) :
  wf_score s ->
  ewma_success (fst (record_failure s cat now rng)) <= ewma_success s /\
  SCORE_FLOOR <= EWMA_ALPHA <= ewma_success (record_success s).
Proof.
  intros Hs. destruct (record_failure_ewma s cat now rng Hs) as (_ & _ & ?).
  destruct (record_success_ewma s Hs) as (_ & ? & _). destruct alpha_beta as (_ & _ & _ & _ & _ & _ & ?).
  lia.
Qed.

(** Quarantine is bounded and lifted by success.  The third failure in a
    row quarantines a candidate for at least 60 and at most 300 seconds,
    earlier ones leave its quarantine as it was, and a success ends any
    quarantine at once. *)
Theorem quarantine_bounds s cat now (rng : R) :
  wf_score s ->
  let s' := fst (record_failure s cat now rng) in
  (if QUARANTINE_THRESHOLD <=? consecutive_failures s + 1
   then forall t, (t < now + 60 * NANOS -> is_quarantined s' t = true) /\
                  (now + 300 * NANOS <= t -> is_quarantined s' t = false)
   else quarantined_until s' = quarantined_until s) /\
  (forall t, is_quarantined (record_success s) t = false).
Proof.
  intros (_ & _ & _ & Hc). cbv zeta. split; [|done].
  assert ((QUARANTINE_THRESHOLD <=? saturating_add u16_max (consecutive_failures s) 1) =
          (QUARANTINE_THRESHOLD <=? consecutive_failures s + 1)) as E
    by (unfold saturating_add, QUARANTINE_THRESHOLD, u16_max in *; lia).
  unfold record_failure. cbv zeta. rewrite E.
  destruct (QUARANTINE_THRESHOLD <=? consecutive_failures s + 1); [|reflexivity].
  pose proof (gen_range_bounds QUARANTINE_MIN QUARANTINE_MAX rng ltac:(done)) as Hj.
  destruct (gen_range _ _ _) as [j r]. cbn in Hj. intros t. unfold is_quarantined. cbn.
  unfold QUARANTINE_MIN, QUARANTINE_MAX, NANOS in *. split; intros; [apply Z.ltb_lt|apply Z.ltb_ge]; lia.
Qed.

Lemma elem_of_eligible b now cs c :
  c ∈ eligible b now cs <-> c ∈ cs /\ is_quarantined (score_of b c) now = false.
Proof. unfold eligible. rewrite list_elem_of_filter. naive_solver. Qed.

Lemma select_next_wf b cs now (rng : R) :
  wf_board b ->
  match fst (select_next b cs now rng) with
  | Some c => c ∈ cs /\ is_quarantined (score_of b c) now = false
  | None => forall c, c ∈ cs -> is_quarantined (score_of b c) now = true
  end.
Proof.
  intros Hb. unfold select_next.
  pose proof (elem_of_eligible b now cs) as He.
  destruct (eligible b now cs) as [|c0 el] eqn:E.
  { intros c Hc. destruct (is_quarantined _ _) eqn:Q; [done|].
    destruct (not_elem_of_nil c). apply He. done. }
  destruct (weighted_index_total ((fun c => selection_weight (score_of b c)) <$> c0 :: el) rng)
    as (i & r & -> & Hi); [done|..].
  { apply Forall_fmap, Forall_true. intros c. cbn. pose proof (wf_weight _ (Hb c)).
    destruct alpha_beta as (_ & _ & _ & _ & _ & _ & ?). lia. }
  rewrite length_fmap in Hi. apply lookup_lt_is_Some in Hi as [c Hc]. cbn [fst]. rewrite Hc.
  apply He. by eapply list_elem_of_lookup_2.
Qed.

(** Selection is total and sound.  Whatever was observed before,
    [select_next] returns a candidate of the list that is not quarantined, and
    returns none exactly when every candidate is quarantined. *)
Theorem select_next_spec os cs now (rng : R) :
  let b := (foldl observe (board_new, rng) os).1 in
  forall rng', match fst (select_next b cs now rng') with
  | Some c => c ∈ cs /\ is_quarantined (score_of b c) now = false
  | None => forall c, c ∈ cs -> is_quarantined (score_of b c) now = true
  end.
Proof. cbv zeta. intros rng'. apply select_next_wf, observe_all_wf, board_new_wf. Qed.

(** Failures are attributed to one candidate, and local ones to none:
    observing a failure changes no other candidate's score, and a local network
    failure changes nothing at all. *)
Theorem observe_failure_attribution b c cat now (rng : R) c' :
  (c' <> c \/ is_remote_signal cat = false) ->
  score_of (fst (observe_failure b c cat now rng)) c' = score_of b c'.
Proof.
  intros Hc. unfold observe_failure. destruct (is_remote_signal cat); [|done]. cbn.
  destruct (record_failure _ _ _ _) as [s r]. cbn. rewrite score_of_insert.
  case_decide; naive_solver.
Qed.
End PolicyFacts.

(** ** The kill switch *)
Class KillSwitchBackendLaws (B : Type) `{KillSwitchBackend B} := {
  current_apply (b : B) p : current_policy (apply_policy b p) = p
}.
#[export] Instance mock_backend_laws : KillSwitchBackendLaws MockBackend.
Proof. done. Qed.

(** Route signals: [true] established, [false] lost. *)
Definition on_signal {B : Type} `{KillSwitchBackend B} (k : KillSwitch B) (up : bool) : KillSwitch B :=
  if up then on_secure_route_established k else on_secure_route_lost k.

(** Traffic is allowed only while the last signal was an established route.
    After any signals the policy is that of the last one; before any, it is the
    backend's own, which for a new mock backend is to block. *)
Theorem kill_switch_follows_last_signal {B : Type} `{KillSwitchBackendLaws B} (b : B) (signals : list bool) :
  policy (foldl on_signal (MkKillSwitch b) signals) =
  match List.last (Some <$> signals) None with
  | Some true => SecureRouteActive
  | Some false => SecureRouteUnavailable
  | None => current_policy b
  end.
Proof.
  induction signals as [|s signals _] using rev_ind; [done|].
  rewrite foldl_app, fmap_app. change (Some <$> [s]) with [Some s]. rewrite List.last_last. cbn. destruct s; apply current_apply.
Qed.

(** ** Concrete runs: a generator that always draws the lowest choice. *)
Module PolicyDemo.
#[export] Instance low_rng : Rng unit := Build_Rng unit (fun lo _ r => (lo, r))
  (fun ws r => match ws with [] => None | _ => Some (0%nat, r) end).
#[export] Instance low_rng_laws : RngLaws unit.
Proof. split; [cbn; lia|]. intros [|w ws] r ? _; [done|]. exists 0%nat, r. cbn. split; [done|lia]. Qed.
Definition tls : Candidate := Build_Candidate (MkTransportId "direct-tls") (MkEndpointId "e1").
Definition quic : Candidate := Build_Candidate (MkTransportId "noise-quic") (MkEndpointId "e2").
Definition three_failures : ScoreBoard :=
  (foldl observe (board_new, tt) [ObsFailure tls TcpReset 0; ObsFailure tls TcpReset 1; ObsFailure tls TcpReset 2]).1.
Lemma three_failures_wf : wf_board three_failures.
Proof. apply observe_all_wf, board_new_wf. Qed.
End PolicyDemo.

Section PolicyWitnesses.
Import PolicyDemo.

Lemma score_moves_witness :
  ewma_success (fst (record_failure score_default TcpReset 0 tt)) <= ewma_success score_default /\
  SCORE_FLOOR <= EWMA_ALPHA <= ewma_success (record_success score_default).
Proof. apply (score_moves score_default TcpReset 0 tt). exact score_default_wf. Defined.

Lemma quarantine_bounds_witness :
  is_quarantined (record_success (score_of three_failures tls)) 5 = false.
Proof.
  pose proof (quarantine_bounds (score_of three_failures tls) TcpReset 3 tt (three_failures_wf tls)) as Hq.
  cbv zeta in Hq. destruct Hq as [_ Hq]. exact (Hq 5).
Defined.

Lemma select_next_spec_witness :
  fst (select_next three_failures [tls; quic] 10 tt) = Some quic /\
  is_quarantined (score_of three_failures quic) 10 = false.
Proof.
  assert (fst (select_next three_failures [tls; quic] 10 tt) = Some quic) as E
    by (vm_compute; reflexivity).
  pose proof (select_next_spec [ObsFailure tls TcpReset 0; ObsFailure tls TcpReset 1; ObsFailure tls TcpReset 2]
    [tls; quic] 10 tt tt) as Hs.
  fold three_failures in Hs. cbv zeta in Hs. rewrite E in Hs. split; [exact E|]. exact (proj2 Hs).
Defined.

Lemma observe_failure_attribution_witness :
  score_of (fst (observe_failure three_failures tls TcpReset 5 tt)) quic = score_of three_failures quic.
Proof. apply (observe_failure_attribution three_failures tls TcpReset 5 tt quic). by left. Defined.

Lemma kill_switch_follows_last_signal_witness :
  policy (foldl on_signal (MkKillSwitch mock_new) [true; false]) = SecureRouteUnavailable.
Proof. exact (kill_switch_follows_last_signal mock_new [true; false]). Defined.
End PolicyWitnesses.
