(* ===== verification/Engine.v ===== *)
(** * apps/client-daemon: the connection engine

    Models apps/client-daemon/src/engine.rs: candidates built from a relay
    bundle, and the attempt loop that ties scoring, the shutdown guard and the
    transports together.  The transports and the world they dial into are
    parameters: [dial] stands for [Transport::connect], [net] for everything
    outside the process, and each look at the clock is [clock net]. *)

From S2P Require Import Prelude Bytes Serde Common Fl Failure Policy Config.

(** ** transport-api: endpoints *)
Record Endpoint (Addr : Type) := {
  e_id : EndpointId;
  e_address : Addr;
  e_provider_tag : string;
  e_pinned_cert_sha256 : bytes
}.
Arguments e_id {Addr} _.
Arguments e_address {Addr} _.
Arguments e_provider_tag {Addr} _.
Arguments e_pinned_cert_sha256 {Addr} _.

Module EngineError.
Inductive t :=
  | PossibleShutdown
  | NoCandidates
  | AllAttemptsFailed (e : TransportError).
End EngineError.
Notation EngineError := EngineError.t.

(** How a call ends: it returns, or the process panics. *)
Inductive outcome (A : Type) :=
  | Returned (a : A)
  | Panicked.
Arguments Returned {A} a.
Arguments Panicked {A}.

Definition known_transport_id_str (s : string) : string :=
  if decide (s = "direct-tls")%string then "direct-tls"
  else if decide (s = "noise-quic")%string then "noise-quic" else EmptyString.

Section Engine.
(** [SocketAddr] and its parser, opaque to the engine. *)
Context {Addr : Type} (parse_addr : string -> option Addr) {HexI : Hex}.
(** Sessions, the network, the clock, and the random generator. *)
Context {Session Net R : Type} {Rg : Rng R}.
Context (dial : TransportId -> Endpoint Addr -> Net -> result TransportError Session * Net).
Context (clock : Net -> Z) (sleep_ms : Z -> Net -> Net) (entropy : Net -> R).

Definition parse_endpoint (d : EndpointDescriptor) : option (Endpoint Addr) :=
  address ← parse_addr (d_address d);
  hash_bytes ← ok (hex_decode (d_cert_sha256_hex d));
  if (length hash_bytes =? 32)%nat
  then Some {| e_id := MkEndpointId (d_id d); e_address := address;
               e_provider_tag := d_provider_tag d; e_pinned_cert_sha256 := hash_bytes |}
  else None.

Record ResolvedEndpoint := { re_descriptor : EndpointDescriptor; re_endpoint : Endpoint Addr }.

Record ConnectionEngine := {
  transports : gset TransportId;
  endpoints : list ResolvedEndpoint;
  scores : ScoreBoard;
  shutdown_guard : ShutdownGuard;
  tick : Z;
  max_attempts : nat
}.

Definition with_max_attempts (ts : list TransportId) (ds : list EndpointDescriptor) (n : nat)
    : ConnectionEngine := {|
  transports := list_to_set ts;
  endpoints := omap (fun d => (fun e => {| re_descriptor := d; re_endpoint := e |}) <$> parse_endpoint d) ds;
  scores := board_new;
  shutdown_guard := guard_new 8 (flit f32 3 4) 90;
  tick := 0;
  max_attempts := n |}.
Definition engine_new (ts : list TransportId) (ds : list EndpointDescriptor) : ConnectionEngine :=
  with_max_attempts ts ds 4.

Definition candidates (e : ConnectionEngine) : list (Candidate * ResolvedEndpoint * TransportId) :=
  omap (fun re =>
    let t := MkTransportId (known_transport_id_str (d_transport (re_descriptor re))) in
    if decide (t ∈ transports e)
    then Some ({| c_transport := t; c_endpoint := MkEndpointId (d_id (re_descriptor re)) |}, re, t)
    else None) (endpoints e).

Definition with_state (e : ConnectionEngine) (b : ScoreBoard) (g : ShutdownGuard) (t : Z) : ConnectionEngine :=
  {| transports := transports e; endpoints := endpoints e; scores := b; shutdown_guard := g;
     tick := t; max_attempts := max_attempts e |}.

(** What the attempts did, first one first: the candidate and how it ended. *)
Definition attempt_log : Type := list (Candidate * result TransportError Session).

Fixpoint attempts (n : nat) (all : list (Candidate * ResolvedEndpoint * TransportId))
    (last_err : option TransportError) (e : ConnectionEngine) (rng : R) (net : Net) (log : attempt_log)
    : outcome (result EngineError (TransportId * Session)) * ConnectionEngine * Net * attempt_log :=
  match n with
  | O => (Returned (Err match last_err with
                        | Some x => EngineError.AllAttemptsFailed x
                        | None => EngineError.NoCandidates
                        end), e, net, log)
  | S n =>
    let t := tick e in
    let e := with_state e (scores e) (shutdown_guard e) ((t + 1) mod 2 ^ 64) in
    let '(suppress, g) := should_suppress_switching (shutdown_guard e) t in
    let e := with_state e (scores e) g (tick e) in
    if suppress then (Returned (Err EngineError.PossibleShutdown), e, net, log) else
    let '(chosen, rng) := select_next (scores e) ((fun x => x.1.1) <$> all) (clock net) rng in
    match chosen with
    | None => (Returned (Err EngineError.NoCandidates), e, net, log)
    | Some chosen =>
      match list_find (fun x => x.1.1 = chosen) all with
      | None => (Panicked, e, net, log)
      | Some (_, (_, resolved, transport)) =>
        let '(r, net) := dial transport (re_endpoint resolved) net in
        let log := log ++ [(chosen, r)] in
        match r with
        | Ok session =>
          (Returned (Ok (c_transport chosen, session)),
           with_state e (observe_success (scores e) chosen) (record (shutdown_guard e) t true) (tick e),
           net, log)
        | Err x =>
          let category := te_category x in
          let g := record (shutdown_guard e) t false in
          let '(b, rng) :=
            if is_remote_signal category
            then observe_failure (scores e) chosen category (clock net) rng
            else (scores e, rng) in
          let '(jitter_ms, rng) := gen_range 50 499 rng in
          attempts n all (Some x) (with_state e b g (tick e)) rng (sleep_ms jitter_ms net) log
        end
      end
    end
  end.

Definition connect (e : ConnectionEngine) (net : Net)
    : outcome (result EngineError (TransportId * Session)) * ConnectionEngine * Net * attempt_log :=
  match candidates e with
  | [] => (Returned (Err EngineError.NoCandidates), e, net, [])
  | all => attempts (max_attempts e) all None e (entropy net) net []
  end.

(** ** Facts *)
Lemma parse_endpoint_pin d ep :
  parse_endpoint d = Some ep -> hex_decode (d_cert_sha256_hex d) = Ok (e_pinned_cert_sha256 ep).
Proof.
  unfold parse_endpoint. destruct (parse_addr _); [|done]. cbn.
  destruct (hex_decode _) as [h|]; [|done]. cbn. destruct (_ =? _)%nat; [|done]. by intros [= <-].
Qed.

Context {RgL : RngLaws R}.

Definition failed (p : Candidate * result TransportError Session) : Prop := exists x, p.2 = Err x.
Definition failed_locally (p : Candidate * result TransportError Session) : Prop :=
  exists x, p.2 = Err x /\ is_remote_signal (te_category x) = false.

(** What a run of the loop reports, against the attempts it made. *)
Definition reports (budget : nat) (cs : list Candidate) (last_err : option TransportError)
    (out : outcome (result EngineError (TransportId * Session))) (new : attempt_log) : Prop :=
  (length new <= budget)%nat /\ Forall (fun p => p.1 ∈ cs) new /\
  match out with
  | Panicked => False
  | Returned (Ok (t, s)) =>
      exists pre c, new = pre ++ [(c, Ok s)] /\ t = c_transport c /\ Forall failed pre
  | Returned (Err (EngineError.AllAttemptsFailed x)) =>
      length new = budget /\ Forall failed new /\
      List.last ((fun p => p.2) <$> new) (Err (default x last_err)) = Err x
  | Returned (Err _) => Forall failed new
  end.

Definition wf_guard (g : ShutdownGuard) : Prop :=
  Z.of_nat (length (window g)) <= Z.max 1 (window_size g).

Lemma record_wf g t ok : wf_guard g -> wf_guard (record g t ok).
Proof.
  unfold wf_guard, record. cbn. intros Hg. rewrite length_app. cbn [length].
  destruct (_ <=? _) eqn:E; [apply Z.leb_le in E|apply Z.leb_gt in E; lia].
  destruct (window g); cbn in *; lia.
Qed.

Lemma suppress_wf g t : wf_guard g -> wf_guard (should_suppress_switching g t).2.
Proof.
  unfold should_suppress_switching, wf_guard. intros Hg.
  destruct (cooldown_until g); [destruct (_ <? _); [done|]|]; destruct (_ && _); cbn; lia.
Qed.

(** The part of the engine's state that the operations keep well-formed. *)
Definition wf_engine (e : ConnectionEngine) : Prop :=
  wf_board (scores e) /\ wf_guard (shutdown_guard e) /\ 0 <= tick e < 2 ^ 64.

Lemma select_found b (all : list (Candidate * ResolvedEndpoint * TransportId)) now rng c r :
  wf_board b -> select_next b ((fun x => x.1.1) <$> all) now rng = (Some c, r) ->
  exists i x, list_find (fun x => x.1.1 = c) all = Some (i, x) /\ c ∈ (fun x => x.1.1) <$> all.
Proof.
  intros Hb Hs. pose proof (select_next_wf b ((fun x => x.1.1) <$> all) now rng Hb) as Hc.
  rewrite Hs in Hc. destruct Hc as [Hc _]. pose proof Hc as (x & -> & Hin)%list_elem_of_fmap.
  destruct (list_find_elem_of (fun y => y.1.1 = x.1.1) all x Hin eq_refl) as [[i y] ?]. eauto.
Qed.

Lemma last_cons_default {A} (a : A) l d : List.last (a :: l) d = List.last l a.
Proof.
  revert a d. induction l as [|b l IH]; intros a d; [done|].
  change (List.last (b :: l) d = List.last (b :: l) a). by rewrite !IH.
Qed.

(** One more failed attempt in front of a run. *)
Lemma reports_cons n cs last_err x c out new :
  c ∈ cs -> reports n cs (Some x) out new -> reports (S n) cs last_err out ((c, Err x) :: new).
Proof.
  intros Hc (Hl & Hin & Hout). split; [cbn; lia|]. split; [by constructor|].
  assert (failed (c, Err x)) by by exists x.
  destruct out as [[[t s]|[| |y]]|]; [..|done].
  - destruct Hout as (pre & c' & -> & -> & Hf). exists ((c, Err x) :: pre), c'. split; [done|].
    split; [done|by constructor].
  - by constructor.
  - by constructor.
  - destruct Hout as (Hn & Hf & Hlast). split; [cbn; lia|]. split; [by constructor|].
    rewrite fmap_cons. cbn [snd]. by rewrite last_cons_default.
Qed.

Lemma wf_with_state e b g t :
  wf_board b -> wf_guard g -> 0 <= t < 2 ^ 64 -> wf_engine (with_state e b g t).
Proof. done. Qed.

Lemma attempts_spec n all last_err e rng net log out e' net' log' :
  wf_engine e ->
  attempts n all last_err e rng net log = (out, e', net', log') ->
  exists new, log' = log ++ new /\ reports n ((fun x => x.1.1) <$> all) last_err out new /\
    wf_engine e' /\ (Forall failed_locally new -> scores e' = scores e).
Proof.
  revert last_err e rng net log.
  induction n as [|n IH]; intros last_err e rng net log (Hb & Hg & Ht); cbn [attempts].
  { intros [= <- <- <- <-]. exists []. rewrite app_nil_r. split; [done|]. split; [|done].
    split; [done|]. split; [constructor|]. destruct last_err; cbn; [|constructor].
    split; [done|]. split; [constructor|done]. }
  cbv zeta. cbn [with_state shutdown_guard scores tick].
  pose proof (Z.mod_pos_bound (tick e + 1) (2 ^ 64) ltac:(lia)) as Ht'.
  pose proof (suppress_wf (shutdown_guard e) (tick e) Hg) as Hg1.
  destruct (should_suppress_switching _ _) as [[] g1]; cbn [snd] in Hg1.
  { intros [= <- <- <- <-]. exists []. rewrite app_nil_r. split; [done|]. split; [|done].
    split; [cbn; lia|]. by split; constructor. }
  destruct (select_next _ _ _ rng) as [[c|] rng1] eqn:Es.
  2:{ intros [= <- <- <- <-]. exists []. rewrite app_nil_r. split; [done|]. split; [|done].
      split; [cbn; lia|]. by split; constructor. }
  destruct (select_found _ _ _ _ _ _ Hb Es) as (i & [[c' re] tr] & -> & Hin).
  destruct (dial tr (re_endpoint re) net) as [[sess|x] net1].
  { intros [= <- <- <- <-]. exists [(c, Ok sess)]. split; [done|].
    split; [|split; [by apply wf_with_state; [apply observe_success_wf|apply record_wf|]|]].
    - split; [cbn; lia|]. split; [by apply Forall_singleton|]. exists [], c. by split_and!.
    - intros [(y & ? & _) _]%Forall_cons. done. }
  destruct (if is_remote_signal _ then _ else _) as [b rng2] eqn:Eo.
  destruct (gen_range 50 499 rng2) as [j rng3]. intros Hrun.
  assert (wf_board b /\ (is_remote_signal (te_category x) = false -> b = scores e)) as [Hb2 Hloc].
  { destruct (is_remote_signal _); [|by injection Eo as <- <-]. split; [|done].
    pose proof (observe_failure_wf (scores e) c (te_category x) (clock net1) rng1 Hb) as Hw.
    by rewrite Eo in Hw. }
  apply IH in Hrun as (new & -> & Hrep & Hwf & Hsc);
    [|by apply wf_with_state; [|apply record_wf|]].
  exists ((c, Err x) :: new). rewrite <-app_assoc. split; [done|].
  split; [by apply reports_cons|]. split; [done|].
  intros [(y & Hy & Hr) Hf]%Forall_cons. cbn in Hy. injection Hy as <-. by rewrite (Hsc Hf), <-(Hloc Hr).
Qed.

Lemma candidates_registered e c re t :
  (c, re, t) ∈ candidates e -> t ∈ transports e /\ c_transport c = t /\ re ∈ endpoints e.
Proof.
  unfold candidates. rewrite list_elem_of_omap. intros (re' & Hre & Hc).
  case_decide; [|done]. by injection Hc as <- <- <-.
Qed.

Lemma connect_run e net out e' net' log :
  wf_engine e -> connect e net = (out, e', net', log) ->
  reports (max_attempts e) ((fun x => x.1.1) <$> candidates e) None out log /\
  wf_engine e' /\ (Forall failed_locally log -> scores e' = scores e).
Proof.
  intros He. unfold connect. destruct (candidates e) as [|x all] eqn:Ec.
  - intros [= <- <- <- <-]. split; [|done]. split; [cbn; lia|]. by split; constructor.
  - intros Hrun. apply attempts_spec in Hrun as (new & -> & ?); done.
Qed.

(** Where a session comes from: a dial of one of the engine's endpoints, over the
    transport its descriptor names; the endpoints themselves never change. *)
Lemma attempts_session n all last_err e rng net log out e' net' log' :
  attempts n all last_err e rng net log = (out, e', net', log') ->
  endpoints e' = endpoints e /\
      forall t s, out = Returned (Ok (t, s)) ->
    exists c re tr net1 net2, (c, re, tr) ∈ all /\ t = c_transport c /\
      dial tr (re_endpoint re) net1 = (Ok s, net2).
Proof.
  revert last_err e rng net log.
  induction n as [|n IH]; intros last_err e rng net log; cbn [attempts].
  { intros [= <- <- <- <-]. done. }
  cbv zeta. cbn [with_state shutdown_guard scores tick].
  destruct (should_suppress_switching _ _) as [[] g1]; [by intros [= <- <- <- <-]|].
  destruct (select_next _ _ _ rng) as [[c|] rng1]; [|by intros [= <- <- <- <-]].
  destruct (list_find _ all) as [[i [[c' re] tr]]|] eqn:Ef; [|by intros [= <- <- <- <-]].
  apply list_find_Some in Ef as (Hi & Hc & _). cbn in Hc. subst c'.
  destruct (dial tr (re_endpoint re) net) as [[sess|x] net1] eqn:Ed.
  { intros [= <- <- <- <-]. split; [done|]. intros t s [= <- <-].
    exists c, re, tr, net, net1. split; [by eapply list_elem_of_lookup_2|done]. }
  destruct (if is_remote_signal _ then _ else _) as [b rng2].
  destruct (gen_range 50 499 rng2) as [j rng3]. by intros [-> ?]%IH.
Qed.

Lemma connect_session e net out e' net' log :
  connect e net = (out, e', net', log) ->
  endpoints e' = endpoints e /\
      forall t s, out = Returned (Ok (t, s)) ->
    exists re net1 net2, re ∈ endpoints e /\
      t = MkTransportId (known_transport_id_str (d_transport (re_descriptor re))) /\
      dial t (re_endpoint re) net1 = (Ok s, net2).
Proof.
  unfold connect. destruct (candidates e) as [|x all] eqn:Ec; [by intros [= <- <- <- <-]|].
  rewrite <-Ec. intros [-> Hs]%attempts_session. split; [done|]. intros t s E.
  destruct (Hs t s E) as (c & re & tr & net1 & net2 & Hin & -> & Hd). clear Hs.
  unfold candidates in Hin. apply list_elem_of_omap in Hin as (re' & Hre & Hc).
  case_decide; [|done]. injection Hc as <- <- <-. eauto 10.
Qed.

(** The states an engine can be in: new, or after any calls of [connect]. *)
Inductive reachable : ConnectionEngine -> Prop :=
  | reach_new ts ds n : reachable (with_max_attempts ts ds n)
  | reach_connect e net out e' net' log :
      reachable e -> connect e net = (out, e', net', log) -> reachable e'.

Lemma reachable_wf e : reachable e -> wf_engine e.
Proof.
  induction 1 as [ts ds n|e net out e' net' log _ IH Hc].
  - split; [apply board_new_wf|]. split; [unfold wf_guard; cbn; lia|cbn; lia].
  - by apply (connect_run _ _ _ _ _ _ IH Hc).
Qed.

(** Every endpoint of a reachable engine is its descriptor, parsed. *)
Lemma reachable_resolved e re :
  reachable e -> re ∈ endpoints e -> parse_endpoint (re_descriptor re) = Some (re_endpoint re).
Proof.
  induction 1 as [ts ds n|e net out e' net' log _ IH Hc].
  - cbn. intros (d & Hd & E)%list_elem_of_omap. destruct (parse_endpoint d) eqn:Ep; [|done].
    by injection E as <-.
  - by rewrite (proj1 (connect_session _ _ _ _ _ _ Hc)).
Qed.

(** Connecting is bounded and honest.  From any state the engine can reach,
    [connect] never panics and dials at most [max_attempts] candidates, all of
    them from the bundle; it reports a session exactly when its last dial
    succeeded, over that dial's transport, every dial before it having failed,
    and when it reports that all attempts failed it used its whole budget and
    passes on the last error. *)
Theorem connect_reports e net out e' net' log :
  reachable e -> connect e net = (out, e', net', log) ->
  (length log <= max_attempts e)%nat /\
  Forall (fun p => exists re, (p.1, re, c_transport p.1) ∈ candidates e) log /\
  match out with
  | Panicked => False
  | Returned (Ok (t, s)) => t ∈ transports e /\
      exists pre c, log = pre ++ [(c, Ok s)] /\ t = c_transport c /\ Forall failed pre
  | Returned (Err (EngineError.AllAttemptsFailed x)) =>
      length log = max_attempts e /\ Forall failed log /\
      List.last ((fun p => p.2) <$> log) (Err x) = Err x
  | Returned (Err _) => Forall failed log
  end.
Proof.
  intros Hr Hc. destruct (connect_run _ _ _ _ _ _ (reachable_wf e Hr) Hc) as ((Hl & Hin & Hout) & _).
  assert (Forall (fun p => exists re, (p.1, re, c_transport p.1) ∈ candidates e) log) as Hcand.
  { eapply Forall_impl; [exact Hin|]. intros p (x & E & Hx)%list_elem_of_fmap.
    destruct x as [[c re] t]. cbn in E.
    destruct (candidates_registered _ _ _ _ Hx) as (_ & Ht & _). rewrite E, Ht. by exists re. }
  split; [done|]. split; [done|]. destruct out as [[[t s]|[]]|]; try done.
  split; [|done]. destruct Hout as (pre & c & -> & -> & _).
  apply Forall_app in Hcand as [_ [[re Hre] _]%Forall_cons]. exact (proj1 (candidates_registered _ _ _ _ Hre)).
Qed.

(** A client that is merely offline keeps its opinion of the relays: if every
    dial of a call fails for a local reason, no score changes, so nothing is
    quarantined by it. *)
Theorem connect_offline_keeps_scores e net out e' net' log :
  reachable e -> connect e net = (out, e', net', log) ->
  Forall failed_locally log -> scores e' = scores e.
Proof. intros Hr Hc. by apply (connect_run _ _ _ _ _ _ (reachable_wf e Hr) Hc). Qed.

(** The engine recovers.  In any reachable state, if the guard is not
    pausing it, some candidate is out of quarantine and dials succeed, then
    [connect] yields a session with its first dial. *)
Theorem connect_live e net :
  reachable e ->
  max_attempts e <> 0%nat ->
  fst (should_suppress_switching (shutdown_guard e) (tick e)) = false ->
  (exists x, x ∈ candidates e /\ is_quarantined (score_of (scores e) x.1.1) (clock net) = false) ->
  (forall t ep n, exists s, fst (dial t ep n) = Ok s) ->
  exists t s e' net' c, connect e net = (Returned (Ok (t, s)), e', net', [(c, Ok s)]).
Proof.
  intros Hr Hm Hsup (x & Hx & Hq) Hd. pose proof (reachable_wf e Hr) as (Hb & _).
  unfold connect. destruct (candidates e) as [|x0 all0] eqn:Ec; [by apply not_elem_of_nil in Hx|].
  set (all := x0 :: all0) in *. clearbody all.
  destruct (max_attempts e) as [|n]; [done|]. cbn [attempts with_state shutdown_guard scores tick].
  destruct (should_suppress_switching _ _) as [sup g]. cbn in Hsup. subst sup.
  pose proof (select_next_wf (scores e) ((fun x => x.1.1) <$> all) (clock net) (entropy net) Hb) as Hs.
  destruct (select_next _ _ _ _) as [[c|] rng1] eqn:Es; cbn [fst] in Hs.
  - destruct (select_found _ _ _ _ _ _ Hb Es) as (i & [[c' re] tr] & -> & _).
    destruct (Hd tr (re_endpoint re) net) as [s Hs'].
    destruct (dial tr (re_endpoint re) net) as [r net1]. cbn in Hs'. subst r. by do 5 eexists.
  - rewrite (Hs x.1.1) in Hq; [done|]. apply list_elem_of_fmap. by exists x.
Qed.
End Engine.

(** ** A concrete engine: two relays, one of them down *)
Module EngineDemo.
Import PolicyDemo.
#[export] Instance hex : Hex := plain_hex.
Definition pin : string := hex_encode (repeat Byte.x11 32).
Definition descriptors : list EndpointDescriptor := [
  Build_EndpointDescriptor "e1" "direct-tls" "192.0.2.1:443" "p" [] pin;
  Build_EndpointDescriptor "e2" "noise-quic" "192.0.2.2:443" "p" [] pin;
  Build_EndpointDescriptor "e3" "carrier-pigeon" "192.0.2.3:443" "p" [] pin].
Definition registered : list TransportId := [MkTransportId "direct-tls"; MkTransportId "noise-quic"].
Definition engine := with_max_attempts (fun s => Some s) registered descriptors 4.
(** The network: a clock that advances with every sleep; [up] answers dials. *)
Definition dial (up : bool) (t : TransportId) (ep : Endpoint string) (net : Z)
    : result TransportError unit * Z :=
  (if up then Ok tt else Err (TeConnect LocalNetworkFailure "offline"), net + 1000).
Definition run (up : bool) := connect (dial up) (fun n => n) (fun ms n => n + ms) (fun _ => tt) engine 0.
End EngineDemo.

Section EngineWitnesses.
Import PolicyDemo EngineDemo.

Lemma connect_reports_witness :
  exists t, (run true).1.1.1 = Returned (Ok (t, tt)) /\ t ∈ transports engine /\
    (length (run true).2 <= 4)%nat.
Proof.
  destruct (connect_reports (fun s => Some s) (dial true) (fun n => n) (fun ms n => n + ms) (fun _ => tt)
    engine 0 _ _ _ _ (reach_new _ _ _ _ _ _ _ _) (tuple4_eta (run true))) as (Hl & _ & Hout).
  assert ((run true).1.1.1 = Returned (Ok (MkTransportId "direct-tls", tt))) as E
    by (vm_compute; reflexivity).
  rewrite E in Hout. exists (MkTransportId "direct-tls"). split; [exact E|].
  split; [exact (proj1 Hout)|exact Hl].
Defined.

Lemma connect_offline_keeps_scores_witness :
  length (run false).2 = 4%nat /\ scores (run false).1.1.2 = scores engine.
Proof.
  split; [vm_compute; reflexivity|].
  apply (connect_offline_keeps_scores (fun s => Some s) (dial false) (fun n => n) (fun ms n => n + ms)
    (fun _ => tt) engine 0 _ _ _ (run false).2 (reach_new _ _ _ _ _ _ _ _) (tuple4_eta (run false))).
  vm_compute. repeat constructor; by eexists.
Defined.

Lemma connect_live_witness : exists t s e' net' c, run true = (Returned (Ok (t, s)), e', net', [(c, Ok s)]).
Proof.
  unfold run.
  refine (connect_live (fun s => Some s) (dial true) (fun n => n) (fun ms n => n + ms) (fun _ => tt) engine 0 _ _ _ _ _).
  - apply reach_new.
  - discriminate.
  - vm_compute. reflexivity.
  - eexists. split; [apply list_elem_of_here|]. vm_compute. reflexivity.
  - intros. by exists tt.
Defined.
End EngineWitnesses.
