(* ===== verification/RateLimiter.v ===== *)
(** * Token buckets

    The per-address token bucket of services/rendezvous/src/lib.rs and the one
    of services/subscription/src/lib.rs, which also evicts.  Token counts are
    [f64]; instants are nanoseconds of the monotonic clock. *)

From stdpp Require Import sorting.
From S2P Require Import Prelude Fl.

Inductive IpAddr := V4 (a : Z) | V6 (a : Z).
#[export] Instance IpAddr_eq_dec : EqDecision IpAddr.
Proof. solve_decision. Defined.
#[export] Instance IpAddr_countable : Countable IpAddr.
Proof.
  apply (inj_countable' (fun i => match i with V4 a => inl a | V6 a => inr a end)
    (fun x => match x with inl a => V4 a | inr a => V6 a end)). by intros [].
Defined.

Definition NANOS_PER_SEC : Z := 1000000000.
(** [now.duration_since(last).as_secs_f64()]; the difference saturates at zero. *)
Definition elapsed_secs (now last : Z) : Z :=
  let d := Z.max 0 (now - last) in
  fadd f64 (fof f64 (d / NANOS_PER_SEC))
    (fdiv f64 (fof f64 (d mod NANOS_PER_SEC)) (fof f64 NANOS_PER_SEC)).

Notation Buckets := (gmap IpAddr (Z * Z)).
Record RateLimiter := { buckets : Buckets; capacity : Z; refill_per_sec : Z }.
Definition limiter_new (capacity refill : Z) : RateLimiter :=
  {| buckets := ∅; capacity := capacity; refill_per_sec := refill |}.
Definition set_buckets (l : RateLimiter) (b : Buckets) : RateLimiter :=
  {| buckets := b; capacity := capacity l; refill_per_sec := refill_per_sec l |}.

(** The part both services share: refill, then take a token if there is one. *)
Definition take_token (l : RateLimiter) (ip : IpAddr) (now : Z) : bool * RateLimiter :=
  let '(tokens, last) := default (capacity l, now) (buckets l !! ip) in
  let tokens := Z.min (fadd f64 tokens (fmul f64 (elapsed_secs now last) (refill_per_sec l))) (capacity l) in
  if fone f64 <=? tokens
  then (true, set_buckets l (<[ip := (fsub f64 tokens (fone f64), now)]> (buckets l)))
  else (false, set_buckets l (<[ip := (tokens, now)]> (buckets l))).

(** [RateLimiter::allow] of services/rendezvous *)
Definition allow_rendezvous : RateLimiter -> IpAddr -> Z -> bool * RateLimiter := take_token.

Definition MAX_BUCKETS : Z := 8192.
Definition TRIM_TO : nat := Z.to_nat (MAX_BUCKETS / 2).
(** [f64::MIN_POSITIVE] *)
Definition F64_MIN_POSITIVE : Z := 2 ^ 52.

Definition later (a b : IpAddr * Z) : Prop := b.2 <= a.2.
#[export] Instance later_dec : RelDecision later.
Proof. intros a b. unfold later. apply _. Defined.
#[export] Instance later_total : Total later.
Proof. intros a b. unfold later. lia. Qed.
#[export] Instance later_trans : Transitive later.
Proof. intros a b c. unfold later. lia. Qed.

Section Subscription.
(** The unspecified order in which a [HashMap] is walked. *)
Context (walk : Buckets -> list (IpAddr * (Z * Z))).

(** The two passes of [evict_full_buckets]: buckets that are full and idle go,
    and of the rest the addresses seen last stay. *)
Definition drop_idle (l : RateLimiter) (now : Z) : Buckets :=
  let idle_for := Z.max (fdiv f64 (capacity l) (Z.max (refill_per_sec l) F64_MIN_POSITIVE)) (fone f64) in
  filter (fun '(_, (tokens, last)) => tokens < capacity l \/ elapsed_secs now last < idle_for) (buckets l).
Definition by_last_seen (b : Buckets) : list (IpAddr * Z) :=
  merge_sort later ((fun '(ip, (_, last)) => (ip, last)) <$> walk b).
Definition most_recent (b : Buckets) : gset IpAddr :=
  list_to_set ((take TRIM_TO (by_last_seen b)).*1).

(** [evict_full_buckets] *)
Definition evict_full_buckets (l : RateLimiter) (now : Z) : RateLimiter :=
  if Z.of_nat (size (buckets l)) <=? MAX_BUCKETS then l else
  let b := drop_idle l now in
  if (TRIM_TO <? size b)%nat
  then let keep := most_recent b in set_buckets l (filter (fun '(ip, _) => ip ∈ keep) b)
  else set_buckets l b.

(** [RateLimiter::allow] of services/subscription *)
Definition allow_subscription (l : RateLimiter) (ip : IpAddr) (now : Z) : bool * RateLimiter :=
  let '(allowed, l) := take_token l ip now in
  (allowed, evict_full_buckets l now).
Definition bucket_count (l : RateLimiter) : nat := size (buckets l).
End Subscription.

(** ** Facts *)

Definition wf_bucket (cap : Z) (b : Z * Z) : Prop := rep f64 b.1 /\ b.1 <= cap.
Definition wf_limiter (l : RateLimiter) : Prop :=
  rep f64 (capacity l) /\ 0 <= refill_per_sec l /\ map_Forall (fun _ b => wf_bucket (capacity l) b) (buckets l).

Lemma f64_prec : 1 <= prec f64.
Proof. done. Qed.
Lemma f64_scale : 0 <= scale f64.
Proof. done. Qed.
Lemma fone64_pos : 0 < fone f64.
Proof. exact (fone_pos f64 f64_scale). Qed.

Lemma fof_nonneg n : 0 <= n -> 0 <= fof f64 n.
Proof. intros. pose proof fone64_pos. apply (rnd_rep f64 f64_prec); nia. Qed.

Lemma elapsed_secs_nonneg now last : 0 <= elapsed_secs now last.
Proof.
  unfold elapsed_secs. set (d := Z.max 0 (now - last)).
  assert (0 <= d / NANOS_PER_SEC /\ 0 <= d mod NANOS_PER_SEC) as [? ?].
  { split; [apply Z.div_pos|apply Z.mod_pos_bound]; unfold NANOS_PER_SEC; lia. }
  assert (0 < fof f64 NANOS_PER_SEC) by (vm_compute; reflexivity).
  pose proof fone64_pos. pose proof (fof_nonneg (d mod NANOS_PER_SEC) ltac:(done)).
  apply (fadd_rep f64 f64_prec); [by apply fof_nonneg|].
  apply (rnd_rep f64 f64_prec); [nia|done].
Qed.

Lemma elapsed_secs_same now : elapsed_secs now now = 0.
Proof. unfold elapsed_secs. rewrite Z.sub_diag. vm_compute. reflexivity. Qed.

(** The refilled level of an address's bucket. *)
Definition level (l : RateLimiter) (ip : IpAddr) (now : Z) : Z :=
  let '(tokens, last) := default (capacity l, now) (buckets l !! ip) in
  Z.min (fadd f64 tokens (fmul f64 (elapsed_secs now last) (refill_per_sec l))) (capacity l).

Lemma level_wf l ip now : wf_limiter l -> rep f64 (level l ip now) /\ level l ip now <= capacity l.
Proof.
  intros (Hc & Hr & Hb). unfold level.
  assert (exists t last, default (capacity l, now) (buckets l !! ip) = (t, last) /\ rep f64 t) as (t & last & -> & Ht).
  { destruct (buckets l !! ip) as [[t last]|] eqn:E; cbn; [|eauto].
    exists t, last. split; [done|]. apply (Hb ip (t, last) E). }
  pose proof (elapsed_secs_nonneg now last). split; [|lia].
  pose proof (fmul_rep f64 f64_prec f64_scale (elapsed_secs now last) (refill_per_sec l) ltac:(done) Hr) as [? _].
  pose proof Ht as [? _]. apply Z.min_case; [|done]. by apply (fadd_rep f64 f64_prec).
Qed.

Lemma take_token_level l ip now :
  take_token l ip now =
  if fone f64 <=? level l ip now
  then (true, set_buckets l (<[ip := (fsub f64 (level l ip now) (fone f64), now)]> (buckets l)))
  else (false, set_buckets l (<[ip := (level l ip now, now)]> (buckets l))).
Proof. unfold take_token, level. by destruct (default _ _) as [t last]. Qed.

Lemma take_token_wf l ip now : wf_limiter l -> wf_limiter (take_token l ip now).2.
Proof.
  intros Hl. destruct (level_wf l ip now Hl) as [Hr Hle]. destruct Hl as (Hc & Hf & Hb).
  rewrite take_token_level. pose proof fone64_pos. pose proof Hr as [? _].
  destruct (_ <=? _) eqn:E; split; try done; (split; [done|]); cbn; apply map_Forall_insert_2; try done.
  apply Z.leb_le in E. split; cbn.
  - apply (rnd_rep f64 f64_prec); lia.
  - etrans; [|exact Hle]. apply (rnd_le f64); [lia|lia|done|lia].
Qed.

(** Small integers are exact. *)
Lemma int_rep k : 0 <= k <= 2 ^ 53 -> rep f64 (k * fone f64).
Proof.
  intros Hk. pose proof fone64_pos. split; [nia|]. unfold last_place, fone in *. rewrite Z.div_1_r.
  cbn [prec scale f64] in *. destruct (decide (k = 0)) as [->|]; [apply Z.divide_0_r|].
  rewrite Z.log2_mul_pow2 by lia. destruct (decide (k = 2 ^ 53)) as [->|].
  - exists (2 ^ 52). vm_compute. reflexivity.
  - assert (Z.log2 k < 53) by (apply Z.log2_lt_pow2; lia).
    exists (k * 2 ^ (1074 - Z.max 0 (1074 + Z.log2 k + 1 - 53))).
    rewrite <-Z.mul_assoc, <-Z.pow_add_r by lia. do 2 f_equal. lia.
Qed.

(** A bucket of whole tokens, asked again at the instant it was last touched. *)
Lemma level_same_instant l ip now k :
  0 <= k <= 2 ^ 53 -> k * fone f64 <= capacity l ->
  default (capacity l, now) (buckets l !! ip) = (k * fone f64, now) ->
  level l ip now = k * fone f64.
Proof.
  intros Hk Hc E. unfold level. rewrite E, elapsed_secs_same.
  unfold fmul. rewrite Z.mul_0_l, rnd_0 by (done || apply fone64_pos).
  unfold fadd. rewrite Z.add_0_r, rnd_exact by (done || by apply int_rep). lia.
Qed.

Lemma evict_small walk l now : Z.of_nat (size (buckets l)) <= MAX_BUCKETS -> evict_full_buckets walk l now = l.
Proof. intros Hs. unfold evict_full_buckets. by rewrite (proj2 (Z.leb_le _ _) Hs). Qed.

(** How many of [n] requests that arrive at one instant are let through. *)
Fixpoint burst (allow : RateLimiter -> IpAddr -> Z -> bool * RateLimiter)
    (l : RateLimiter) (ip : IpAddr) (now : Z) (n : nat) : Z :=
  match n with
  | O => 0
  | S n => let '(ok, l) := allow l ip now in (if ok then 1 else 0) + burst allow l ip now n
  end.

Lemma burst_from walk l ip now k n :
  0 <= k <= 2 ^ 53 -> k * fone f64 <= capacity l -> buckets l ⊆ {[ip := (k * fone f64, now)]} ->
  default (capacity l, now) (buckets l !! ip) = (k * fone f64, now) ->
  burst (allow_subscription walk) l ip now n = Z.min (Z.of_nat n) k.
Proof.
  revert l k. induction n as [|n IH]; intros l k Hk Hc Hb Hd; [cbn; lia|].
  cbn [burst]. unfold allow_subscription. rewrite take_token_level, (level_same_instant _ _ _ k) by done.
  pose proof fone64_pos.
  assert (forall x, <[ip := x]> (buckets l) = {[ip := x]}) as Hins.
  { intros x. destruct (buckets l !! ip) as [b|] eqn:E.
    - replace (buckets l) with ({[ip := b]} : Buckets); [by rewrite insert_singleton_eq|].
      apply map_eq. intros i. destruct (decide (ip = i)) as [<-|Hne]; [by rewrite lookup_singleton_eq, E|].
      rewrite lookup_singleton_ne by done. destruct (buckets l !! i) eqn:Ei; [|done].
      eapply (lookup_weaken) in Ei; [|exact Hb]. by rewrite lookup_singleton_ne in Ei.
    - replace (buckets l) with (∅ : Buckets); [done|]. symmetry. apply map_empty. intros i.
      destruct (buckets l !! i) eqn:Ei; [|done]. destruct (decide (ip = i)) as [<-|Hne]; [congruence|].
      eapply (lookup_weaken) in Ei; [|exact Hb]. by rewrite lookup_singleton_ne in Ei. }
  destruct (fone f64 <=? k * fone f64) eqn:E; [apply Z.leb_le in E|apply Z.leb_gt in E];
    rewrite evict_small by (cbn; rewrite Hins, map_size_singleton; vm_compute; discriminate).
  - assert (1 <= k) by nia.
    assert (fsub f64 (k * fone f64) (fone f64) = (k - 1) * fone f64) as ->.
    { unfold fsub. replace (k * fone f64 - fone f64) with ((k - 1) * fone f64) by lia.
      apply rnd_exact; [done|]. apply int_rep. lia. }
    rewrite (IH _ (k - 1)); cbn; rewrite ?Hins, ?lookup_singleton_eq; try done; (lia || nia).
  - assert (k = 0) as -> by nia. rewrite (IH _ 0); cbn; rewrite ?Hins, ?lookup_singleton_eq; try done; lia.
Qed.

(** A burst is cut off exactly at capacity.  Of [n] requests that one address
    sends at one instant to a fresh limiter of [c] tokens, exactly the smaller
    of [n] and [c] are let through: floating point neither grants an extra
    request nor loses one. *)
Theorem burst_exact walk c refill ip now n :
  0 <= c <= 2 ^ 53 ->
  burst (allow_subscription walk) (limiter_new (c * fone f64) refill) ip now n = Z.min (Z.of_nat n) c.
Proof. intros Hc. apply burst_from; [done|done|apply map_empty_subseteq|done]. Qed.

Section Eviction.
Context (walk : Buckets -> list (IpAddr * (Z * Z))).

Lemma size_filter_keep (b : Buckets) (keep : gset IpAddr) :
  (size (filter (fun '(ip, _) => ip ∈ keep) b) <= size keep)%nat.
Proof.
  rewrite <-size_dom. apply subseteq_size. intros ip. rewrite elem_of_dom.
  intros [x Hx]. apply map_lookup_filter_Some in Hx. naive_solver.
Qed.

Lemma size_list_to_set (l : list IpAddr) : (size (list_to_set l : gset IpAddr) <= length l)%nat.
Proof.
  induction l as [|a l IH]; [cbn; by rewrite size_empty|]. cbn [list_to_set length].
  rewrite size_union_alt, size_singleton.
  pose proof (subseteq_size (list_to_set l ∖ {[a]} : gset IpAddr) (list_to_set l) ltac:(set_solver)). lia.
Qed.

Lemma size_most_recent b : (size (most_recent walk b) <= TRIM_TO)%nat.
Proof.
  unfold most_recent. etrans; [apply size_list_to_set|]. rewrite length_fmap, length_take. lia.
Qed.

Lemma evict_bound l now : Z.of_nat (size (buckets (evict_full_buckets walk l now))) <= MAX_BUCKETS.
Proof.
  unfold evict_full_buckets. destruct (_ <=? MAX_BUCKETS) eqn:E; [by apply Z.leb_le|]. cbv zeta.
  assert (Z.of_nat TRIM_TO <= MAX_BUCKETS) by (vm_compute; discriminate).
  destruct (TRIM_TO <? _)%nat eqn:E2; [|apply Nat.ltb_ge in E2; cbn; lia].
  cbn [buckets set_buckets]. pose proof (size_filter_keep (drop_idle l now) (most_recent walk (drop_idle l now))).
  pose proof (size_most_recent (drop_idle l now)). lia.
Qed.

Lemma evict_subset l now : buckets (evict_full_buckets walk l now) ⊆ buckets l.
Proof.
  unfold evict_full_buckets. destruct (_ <=? MAX_BUCKETS); [done|]. cbv zeta.
  destruct (TRIM_TO <? _)%nat; cbn; [etrans; [apply map_filter_subseteq|]|]; apply map_filter_subseteq.
Qed.

Lemma evict_wf l now : wf_limiter l -> wf_limiter (evict_full_buckets walk l now).
Proof.
  intros (Hc & Hr & Hb). pose proof (evict_subset l now) as Hs.
  assert (capacity (evict_full_buckets walk l now) = capacity l /\
    refill_per_sec (evict_full_buckets walk l now) = refill_per_sec l) as [Ec Er].
  { unfold evict_full_buckets. destruct (_ <=? _); [done|]. by destruct (_ <? _)%nat. }
  unfold wf_limiter. rewrite Ec, Er. split; [done|]. split; [done|].
  intros ip x Hx. apply (Hb ip x). by eapply lookup_weaken.
Qed.

(** Requests served one after the other. *)
Definition serve (l : RateLimiter) (r : IpAddr * Z) : RateLimiter := (allow_subscription walk l r.1 r.2).2.

(** The limiter's memory and its buckets stay bounded.  After any requests,
    from any addresses and at any times, there are at most 8192 buckets, and
    every bucket holds a number of tokens between zero and the capacity. *)
Theorem limiter_bounded c refill reqs :
  rep f64 c -> 0 <= refill ->
  let l := foldl serve (limiter_new c refill) reqs in
  Z.of_nat (bucket_count l) <= MAX_BUCKETS /\
  forall ip t last, buckets l !! ip = Some (t, last) -> 0 <= t <= c.
Proof.
  intros Hc Hr.
  assert (forall l, wf_limiter l -> capacity l = c -> Z.of_nat (size (buckets l)) <= MAX_BUCKETS ->
    let l' := foldl serve l reqs in
    wf_limiter l' /\ capacity l' = c /\ Z.of_nat (size (buckets l')) <= MAX_BUCKETS) as Hind.
  { induction reqs as [|r reqs IH]; intros l Hl Ec Hs; [done|]. cbn [foldl]. apply IH; clear IH.
    - unfold serve, allow_subscription. pose proof (take_token_wf l r.1 r.2 Hl).
      destruct (take_token _ _ _). by apply evict_wf.
    - rewrite <-Ec. unfold serve, allow_subscription. rewrite take_token_level.
      destruct (_ <=? level _ _ _); unfold evict_full_buckets;
        (destruct (_ <=? MAX_BUCKETS); [done|]); by destruct (_ <? _)%nat.
    - unfold serve, allow_subscription. destruct (take_token _ _ _). apply evict_bound. }
  destruct (Hind (limiter_new c refill)) as ((_ & _ & Hb) & Ec & Hs);
    [split; [done|]; split; [done|]; apply map_Forall_empty|done|vm_compute; discriminate|].
  cbv zeta. split; [done|]. intros ip t last Hip. destruct (Hb ip (t, last) Hip) as [[? _] ?].
  cbn in *. lia.
Qed.

(** Whatever the order, each bucket is walked once. *)
Hypothesis walk_all : forall b, walk b ≡ₚ map_to_list b.

(** Eviction forgets the least recently seen.  When the second pass trims
    the map, every address it keeps was seen no earlier than any it drops. *)
Theorem eviction_keeps_recent (b : Buckets) ip x ip' x' :
  b !! ip = Some x -> b !! ip' = Some x' ->
  ip ∈ most_recent walk b -> ip' ∉ most_recent walk b -> x'.2 <= x.2.
Proof.
  unfold most_recent, by_last_seen. intros Hip Hip' Hin Hout.
  set (seen := (fun '(ip, (_, last)) => (ip, last)) <$> walk b) in *.
  assert (forall i y, (i, y) ∈ merge_sort later seen <-> exists t, b !! i = Some (t, y)) as Hel.
  { intros i y. rewrite merge_sort_Permutation. subst seen. rewrite list_elem_of_fmap. split.
    - intros ([i' [t y']] & [= -> ->] & Hw). exists t. rewrite walk_all in Hw. by apply elem_of_map_to_list in Hw.
    - intros [t Ht]. exists (i, (t, y)). split; [done|]. rewrite walk_all. by apply elem_of_map_to_list. }
  pose proof (StronglySorted_merge_sort later seen) as Hsort.
  rewrite <-(take_drop TRIM_TO (merge_sort later seen)) in Hsort, Hel.
  set (kept := take TRIM_TO _) in *. set (gone := drop TRIM_TO _) in *.
  apply elem_of_list_to_set, list_elem_of_fmap in Hin as ([i y] & -> & Hy).
  destruct x' as [t' y']. assert ((ip', y') ∈ gone) as Hg.
  { assert ((ip', y') ∈ kept ++ gone) as [Hk|Hk]%elem_of_app by (apply Hel; by exists t'); [|done].
    destruct Hout. apply elem_of_list_to_set, list_elem_of_fmap. by exists (ip', y'). }
  assert (x.2 = y) as ->.
  { assert ((i, y) ∈ kept ++ gone) as [t Ht]%Hel by (apply elem_of_app; by left). cbn in Hip. by simplify_eq. }
  exact (StronglySorted_app_1_elem_of later _ _ _ _ Hsort Hy Hg).
Qed.
End Eviction.

(** ** Concrete runs: the services' own parameters. *)
Lemma burst_exact_witness :
  burst (allow_subscription map_to_list) (limiter_new (200 * fone f64) (50 * fone f64)) (V4 1) 0 1000 = 200.
Proof. apply (burst_exact map_to_list 200 (50 * fone f64) (V4 1) 0 1000). lia. Defined.

Definition served : RateLimiter :=
  foldl (serve map_to_list) (limiter_new (200 * fone f64) (50 * fone f64)) [(V4 1, 0); (V6 2, 5)].
Lemma limiter_bounded_witness :
  Z.of_nat (bucket_count served) <= MAX_BUCKETS /\
  forall ip t last, buckets served !! ip = Some (t, last) -> 0 <= t <= 200 * fone f64.
Proof.
  apply (limiter_bounded map_to_list); [apply int_rep; lia|vm_compute; discriminate].
Defined.

(** Four thousand and ninety-seven addresses, one too many for the trimmed map. *)
Definition crowd : Buckets := list_to_map ((fun i => (V4 (Z.of_nat i), (0, Z.of_nat i))) <$> seq 0 4097).

Lemma eviction_keeps_recent_witness :
  V4 7 ∈ most_recent map_to_list crowd /\ V4 0 ∉ most_recent map_to_list crowd /\ 0 <= 7.
Proof.
  assert (crowd !! V4 7 = Some (0, 7)) as E7 by (vm_compute; reflexivity).
  assert (crowd !! V4 0 = Some (0, 0)) as E0 by (vm_compute; reflexivity).
  set (kept := (take TRIM_TO (by_last_seen map_to_list crowd)).*1).
  assert (bool_decide (V4 7 ∈ kept) = true) as Hin by (vm_compute; reflexivity).
  assert (bool_decide (V4 0 ∈ kept) = false) as Hout by (vm_compute; reflexivity).
  rewrite bool_decide_eq_true in Hin. rewrite bool_decide_eq_false in Hout.
  assert (V4 7 ∈ most_recent map_to_list crowd) as Hin' by (apply elem_of_list_to_set; exact Hin).
  assert (V4 0 ∉ most_recent map_to_list crowd) as Hout'
    by (unfold most_recent; rewrite elem_of_list_to_set; exact Hout).
  split; [exact Hin'|]. split; [exact Hout'|].
  exact (eviction_keeps_recent map_to_list (fun b => reflexivity _) crowd _ _ _ _ E7 E0 Hin' Hout').
Defined.
