(* ===== verification/Http.v ===== *)
(** * HTTP responses

    What the two services' handlers hand to [axum]: a status, headers and a
    body, with the content types its [IntoResponse] instances document. *)

From S2P Require Import Prelude Bytes Serde.

Record Response := { status : Z; headers : list (string * string); body : bytes }.

Definition TEXT_PLAIN : string := "text/plain; charset=utf-8".
Definition APPLICATION_JSON : string := "application/json".

(** [(status, text).into_response()] *)
Definition text_response (code : Z) (text : string) : Response :=
  {| status := code; headers := [("content-type", TEXT_PLAIN)]; body := as_bytes text |}.
(** [(status, [("content-type", ct)], body).into_response()] *)
Definition typed_response (code : Z) (ct : string) (b : bytes) : Response :=
  {| status := code; headers := [("content-type", ct)]; body := b |}.
(** [Json(value).into_response()] *)
Definition json_response {A : Type} `{Json A} (a : A) : Response :=
  match to_vec a with
  | Ok b => typed_response 200 APPLICATION_JSON b
  | Err e => text_response 500 e
  end.

(** [HeaderMap::insert] replaces every value of the name. *)
Definition insert_header (name value : string) (r : Response) : Response :=
  {| status := status r;
     headers := filter (fun h => h.1 <> name) (headers r) ++ [(name, value)];
     body := body r |}.
Definition header (name : string) (r : Response) : option string :=
  snd <$> List.find (fun h => String.eqb h.1 name) (headers r).

Definition is_success (r : Response) : bool := (200 <=? status r) && (status r <? 300).

Lemma header_insert_eq name v r : header name (insert_header name v r) = Some v.
Proof.
  unfold header, insert_header. cbn.
  induction (headers r) as [|h hs IH]; cbn; [by rewrite String.eqb_refl|].
  case_decide as Hd; cbn; [|done]. apply String.eqb_neq in Hd. by rewrite Hd.
Qed.

Lemma header_insert_ne name name' v r : name <> name' -> header name' (insert_header name v r) = header name' r.
Proof.
  intros Hne. unfold header, insert_header. cbn [headers]. f_equal.
  induction (headers r) as [|h hs IH]; [cbn; by apply String.eqb_neq in Hne as ->|].
  destruct (decide (h.1 = name)) as [E|E].
  - rewrite filter_cons_False by naive_solver. cbn [List.find].
    destruct (String.eqb_spec h.1 name'); [congruence|done].
  - rewrite filter_cons_True by done. cbn [List.find app]. by destruct (String.eqb h.1 name').
Qed.
