(* ===== verification/Rendezvous.v ===== *)
(** * Rendezvous: the service that issues relay bundles and its client

    Models services/rendezvous/src/lib.rs and crates/rendezvous-client/src/lib.rs.
    The random generator and the HTTP transport are parameters; each reading
    of a clock is an argument. *)

From Stdlib Require Import Strings.Byte.
From S2P Require Import Prelude Bytes Io Serde Common Fs Http Crypto Config Fl RateLimiter.

(** ** services/rendezvous *)
Record RelayPoolEntry := {
  pe_id : string;
  pe_transport : string;
  pe_address : string;
  pe_provider_tag : string;
  pe_capabilities : list string;
  pe_cert_sha256_hex : string
}.
(** [impl From<RelayPoolEntry> for EndpointDescriptor] *)
Definition descriptor_of (e : RelayPoolEntry) : EndpointDescriptor := {|
  d_id := pe_id e; d_transport := pe_transport e; d_address := pe_address e;
  d_provider_tag := pe_provider_tag e; d_capabilities := pe_capabilities e;
  d_cert_sha256_hex := pe_cert_sha256_hex e |}.

Record AppState := {
  bundle_key : KeyPair;
  app_bundle_key_cert : KeyCertificate;
  app_release_key_cert : KeyCertificate;
  pool : list RelayPoolEntry;
  subset_size : nat;
  ttl_secs : Z;
  rate_limiter : RateLimiter;
  revocation_list_bytes : option bytes
}.
Definition set_limiter (s : AppState) (l : RateLimiter) : AppState := {|
  bundle_key := bundle_key s; app_bundle_key_cert := app_bundle_key_cert s;
  app_release_key_cert := app_release_key_cert s; pool := pool s; subset_size := subset_size s;
  ttl_secs := ttl_secs s; rate_limiter := l; revocation_list_bytes := revocation_list_bytes s |}.

(** [rand]: a draw without replacement, and random bytes. *)
Class Sampler (R : Type) := {
  choose_multiple : forall {A : Type}, nat -> list A -> R -> list A * R;
  fill_bytes : nat -> R -> bytes * R
}.
Class SamplerLaws (R : Type) `{Sampler R} := {
  choose_multiple_spec {A : Type} n (l : list A) r :
    (n <= length l)%nat ->
    fst (choose_multiple n l r) ⊆+ l /\ length (fst (choose_multiple n l r)) = n
}.

Inductive RendezvousClientError :=
  | Fetch (msg : string)
  | Verify (e : ConfigError)
  | NoCache
  | RcIo (e : io_error)
  | CacheCorrupt (msg : string).

Section Rendezvous.
Context {Ed : Ed25519} {HexI : Hex} {JP : Json RelayBundlePayload} {JB : Json SignedBundle}.
Context {R : Type} {Sm : Sampler R}.

Definition get_relay_bundle (state : AppState) (ip : IpAddr) (instant : Z) (now : UnixSeconds) (rng : R)
    : Response * AppState * R :=
  let '(allowed, l) := allow_rendezvous (rate_limiter state) ip instant in
  let state := set_limiter state l in
  if negb allowed then (text_response 429 "rate limited", state, rng) else
  let n := Nat.min (subset_size state) (length (pool state)) in
  let '(chosen, rng) := choose_multiple n (pool state) rng in
  let '(nonce_bytes, rng) := fill_bytes 16 rng in
  let payload := {|
    b_schema_version := CURRENT_SCHEMA_VERSION;
    b_issued_at := now;
    b_expires_at := saturating_add_secs now (ttl_secs state);
    b_nonce := hex_encode nonce_bytes;
    b_endpoints := descriptor_of <$> chosen |} in
  match bundle_sign payload (bundle_key state) (app_bundle_key_cert state) (app_release_key_cert state) with
  | Ok bundle => (json_response bundle, state, rng)
  | Err _ => (text_response 500 "signing error", state, rng)
  end.

Definition get_revocation_list (state : AppState) : Response :=
  match revocation_list_bytes state with
  | Some b => typed_response 200 APPLICATION_JSON b
  | None => text_response 404 "no revocation list configured"
  end.

Definition health : Response := text_response 200 "ok".

(** The routes of [build_router]; [None]: there is no such route. *)
Definition build_router (state : AppState) (p : string) (ip : IpAddr) (instant : Z) (now : UnixSeconds) (rng : R)
    : option Response * AppState * R :=
  if decide (p = "/v1/relay-bundle")%string then
    let '(reply, state, rng) := get_relay_bundle state ip instant now rng in (Some reply, state, rng)
  else if decide (p = "/v1/revocation-list")%string then (Some (get_revocation_list state), state, rng)
  else if decide (p = "/healthz")%string then (Some health, state, rng)
  else (None, state, rng).

Definition dev_key_hierarchy (root release bundle : bytes) (now : UnixSeconds)
    : PublicKey * KeyPair * KeyCertificate * KeyCertificate :=
  let root := generate root in
  let release := generate release in
  let bundle_key := generate bundle in
  let release_cert := issue root (public_key release) now in
  let bundle_cert := issue release (public_key bundle_key) now in
  (public_key root, bundle_key, bundle_cert, release_cert).

(** ** crates/rendezvous-client *)

(** [HttpSource::fetch]; [get] performs the request. *)
Definition http_fetch (get : string -> result string Response) (base_url : string)
    : result RendezvousClientError SignedBundle :=
  let url := base_url +:+ "/v1/relay-bundle" in
  resp ← map_err Fetch (get url);
  if negb (is_success resp) then Err (Fetch ("http status " +:+ pretty.pretty (status resp)))
  else map_err Fetch (from_slice (body resp)).

Record RendezvousClient := { trust_root : TrustRoot; cache_path : path }.

Definition write_cache (c : RendezvousClient) (b : SignedBundle) : IO RendezvousClientError unit :=
  do data <- io_lift (map_err CacheCorrupt (to_vec b));
  io_map_err RcIo (fs_write (cache_path c) data).

Definition read_cache (c : RendezvousClient) : IO RendezvousClientError SignedBundle :=
  do e <- path_exists (cache_path c);
  if negb e then io_err NoCache
  else
    do data <- io_map_err RcIo (fs_read (cache_path c));
    io_lift (map_err CacheCorrupt (from_slice data)).

(** [fetched] is what the source returned. *)
Definition get_bundle (c : RendezvousClient) (fetched : result RendezvousClientError SignedBundle)
    (rv : RevocationList) (now : UnixSeconds) : IO RendezvousClientError RelayBundlePayload :=
  match fetched with
  | Ok bundle =>
    do payload <- io_lift (map_err Verify (verify_bundle bundle (trust_root c) rv now));
    write_cache c bundle ;;
    io_ret payload
  | Err _ =>
    do cached <- read_cache c;
    io_lift (map_err Verify (verify_bundle cached (trust_root c) rv now))
  end.
End Rendezvous.

(** ** Facts *)
Section RendezvousFacts.
Context {Ed : Ed25519} {EdL : Ed25519Laws} {HexI : Hex}.
Context {JP : Json RelayBundlePayload} {JPL : JsonLaws RelayBundlePayload}.
Context {JB : Json SignedBundle} {JBL : JsonLaws SignedBundle}.
Context {R : Type} {Sm : Sampler R} {SmL : SamplerLaws R}.

(** The service holds a bundle key certified by a release key certified by the root. *)
Definition genuine (s : AppState) (root : TrustRoot) (release_key : PublicKey) : Prop :=
  exists t1 t2 rootk relk, root = MkTrustRoot (public_key rootk) /\ release_key = public_key relk /\
    app_release_key_cert s = issue rootk (public_key relk) t1 /\
    app_bundle_key_cert s = issue relk (public_key (bundle_key s)) t2.

Lemma sign_genuine s root rel payload b rv now :
  genuine s root rel ->
  bundle_sign payload (bundle_key s) (app_bundle_key_cert s) (app_release_key_cert s) = Ok b ->
  b_schema_version payload ∈ SUPPORTED_SCHEMA_VERSIONS ->
  b_issued_at payload <= now < b_expires_at payload ->
  contains rv rel = false -> contains rv (public_key (bundle_key s)) = false ->
  verify_bundle b root rv now = Ok payload.
Proof.
  intros (t1 & t2 & rootk & relk & -> & -> & E1 & E2) Hb Hs Hn R1 R2.
  unfold bundle_sign in Hb. rewrite E1, E2 in Hb. inv_result. subst b.
  apply verify_bundle_Ok_inv. unfold chain_ok. cbn. rewrite !verify_issue, verify_sign.
  repeat split; try done; try lia. by apply from_to_vec.
Qed.

Lemma issued_accepted s root rel ip instant now rng resp s' rng' url rv now' :
  get_relay_bundle s ip instant now rng = (resp, s', rng') ->
  status resp = 200 ->
  genuine s root rel ->
  now <= now' < saturating_add_secs now (ttl_secs s) ->
  contains rv rel = false -> contains rv (public_key (bundle_key s)) = false ->
  exists b p, http_fetch (fun _ => Ok resp) url = Ok b /\ verify_bundle b root rv now' = Ok p /\
    b_endpoints p ⊆+ (descriptor_of <$> pool s) /\
    length (b_endpoints p) = Nat.min (subset_size s) (length (pool s)).
Proof.
  unfold get_relay_bundle. destruct (allow_rendezvous _ _ _) as [[] l]; cbn [negb]; [|by intros [= <- _ _]].
  cbn [set_limiter subset_size pool bundle_key app_bundle_key_cert app_release_key_cert ttl_secs].
  destruct (choose_multiple_spec (Nat.min (subset_size s) (length (pool s))) (pool s) rng) as [Hsub Hlen]; [lia|].
  destruct (choose_multiple _ _ _) as [chosen rng1]. destruct (fill_bytes _ _) as [nonce rng2].
  cbn [fst] in *. set (payload := Build_RelayBundlePayload _ _ _ _ _).
  destruct (bundle_sign _ _ _ _) as [b|e] eqn:Eb; [|by intros [= <- _ _]].
  intros [= <- _ _] Hst Hgen Hn R1 R2. unfold json_response in *.
  destruct (to_vec b) as [data|e] eqn:Ej; [|done]. exists b, payload. split.
  - unfold http_fetch. cbn. by rewrite (from_to_vec _ _ Ej).
  - split; [eapply sign_genuine; eauto; apply list_elem_of_here|]. subst payload. cbn.
    rewrite length_fmap. split; [by apply fmap_submseteq|done].
Qed.

(** What the service issues, the client accepts.  A reply with status 200
    from a service holding genuine keys parses to a bundle that a client
    pinning the root verifies at any time before the bundle expires, provided
    no key is revoked; its endpoints are [min subset_size (length pool)]
    distinct entries of the pool. *)
Theorem issued_bundle_accepted s root rel ip instant now rng resp s' rng' url rv now' :
  get_relay_bundle s ip instant now rng = (resp, s', rng') ->
  status resp = 200 ->
  genuine s root rel ->
  now <= now' < saturating_add_secs now (ttl_secs s) ->
  contains rv rel = false -> contains rv (public_key (bundle_key s)) = false ->
  exists b p, http_fetch (fun _ => Ok resp) url = Ok b /\ verify_bundle b root rv now' = Ok p /\
    b_endpoints p ⊆+ (descriptor_of <$> pool s) /\
    length (b_endpoints p) = Nat.min (subset_size s) (length (pool s)).
Proof. apply issued_accepted. Qed.

Lemma fs_write_Ok_inv p d w w' :
  fs_write p d w = (Ok tt, w') -> exists mt, w_fs w' !! p = Some (File mt d) /\ w_fault w' = w_fault w.
Proof.
  intros ([] & w1 & H1 & H2)%io_bind_Ok_inv. apply open_truncate_Ok_inv in H1 as (mt & -> & _).
  eapply file_write_all_Ok_inv in H2; [|apply lookup_insert_eq]. subst w'.
  exists mt. cbn. by rewrite lookup_insert_eq.
Qed.

(** What a call of [get_bundle] returned, and from which bundle. *)
Lemma get_bundle_inv c fetched rv now w r w' :
  get_bundle c fetched rv now w = (r, w') ->
  match r with
  | Ok p => exists b, verify_bundle b (trust_root c) rv now = Ok p /\
      (fetched = Ok b \/
       exists mt data, w_fs w !! cache_path c = Some (File mt data) /\ from_slice data = Ok b)
  | Err (Verify e) => w_fs w' = w_fs w
  | Err _ => True
  end.
Proof.
  unfold get_bundle. destruct fetched as [b|e].
  - intros Hg. apply io_bind_inv in Hg as [(p & w1 & [= Hv <-] & Hg)|(e & [= Hv <-] & ->)].
    + apply map_err_Ok_inv in Hv. apply io_bind_inv in Hg as [([] & w2 & _ & [= <- <-])|(e & Hw & ->)].
      * exists b. eauto.
      * unfold write_cache in Hw. destruct e; try done.
        apply io_bind_inv in Hw as [(d & w2 & _ & Hw)|(x & [= Hw _] & [= <-])].
        -- apply io_map_err_inv in Hw as ([] & _ & [=]).
        -- by apply map_err_Err_inv in Hw as (? & _ & [=]).
    + by apply map_err_Err_inv in Hv as (e' & _ & ->).
  - intros Hg. apply io_bind_inv in Hg as [(b & w1 & Hr & [= Hv <-])|(e' & Hr & ->)].
    + unfold read_cache in Hr. apply io_bind_Ok_inv in Hr as (ex & w2 & [= <- <-] & Hr).
      destruct (exists_at _ _); [|done]. cbn in Hr.
      apply io_bind_Ok_inv in Hr as (d & w2 & Hd%io_map_err_Ok_inv & [= Hs <-]).
      apply fs_read_Ok_inv in Hd as ((mt & Hd) & ->). apply map_err_Ok_inv in Hs.
      destruct r as [p|[]]; try done; apply (f_equal (map_err (fun e => e))) in Hv.
      * destruct (verify_bundle _ _ _ _) as [p'|] eqn:Ev; [|done]. injection Hv as ->. exists b. eauto 6.
    + destruct e'; try done. unfold read_cache in Hr.
      apply io_bind_inv in Hr as [(ex & w2 & [= <- <-] & Hr)|(x & [=] & _)].
      destruct (negb _); [done|].
      apply io_bind_inv in Hr as [(d & w2 & _ & [= Hr _])|(x & Hr & [= <-])].
      * by apply map_err_Err_inv in Hr as (? & _ & [=]).
      * by apply io_map_err_inv in Hr as ([] & _ & [=]).
Qed.

(** C29: The client never trusts an unverified bundle.  A payload it returns comes
    from a bundle, fetched or cached, that verified at that very time under the
    pinned root and the revocation list; and a fetched bundle that does not
    verify is refused without touching the cache. *)
Theorem get_bundle_only_verified c fetched rv now w r w' :
  get_bundle c fetched rv now w = (r, w') ->
  match r with
  | Ok p => exists b, verify_bundle b (trust_root c) rv now = Ok p /\
      (fetched = Ok b \/
       exists mt data, w_fs w !! cache_path c = Some (File mt data) /\ from_slice data = Ok b)
  | Err (Verify e) => w_fs w' = w_fs w
  | Err _ => True
  end.
Proof. apply get_bundle_inv. Qed.

(** The cache carries the client through an outage.  After one successful
    fetch, whenever the rendezvous service cannot be reached the client still
    obtains the same payload from its cache, until the bundle expires or one of
    its keys is revoked. *)
Theorem cache_survives_outage c b rv0 now0 w p w' rv now e :
  get_bundle c (Ok b) rv0 now0 w = (Ok p, w') ->
  w_fault w' (w_ops w') = None ->
  contains rv (child_key (release_key_cert b)) = false ->
  contains rv (bundle_signing_key b) = false ->
  b_issued_at p <= now < b_expires_at p ->
  fst (get_bundle c (Err e) rv now w') = Ok p.
Proof.
  unfold get_bundle. intros Hg Hf R1 R2 Hn.
  apply io_bind_Ok_inv in Hg as (p' & w1 & [= Hv <-] & Hg). apply map_err_Ok_inv in Hv.
  apply io_bind_Ok_inv in Hg as ([] & w2 & Hw & [= -> ->]). unfold write_cache in Hw.
  apply io_bind_Ok_inv in Hw as (d & w3 & [= Hd <-] & Hw%io_map_err_Ok_inv).
  apply map_err_Ok_inv in Hd. apply fs_write_Ok_inv in Hw as (mt & Hc & _).
  unfold read_cache, io_bind. rewrite path_exists_run, (exists_at_Some _ _ _ Hc). cbn.
  unfold io_map_err. rewrite (fs_read_ok _ _ _ _ Hf Hc). cbn. rewrite (from_to_vec _ _ Hd). cbn.
  apply verify_bundle_Ok_inv in Hv as (Hch & _).
  by rewrite (proj2 (verify_bundle_Ok_inv b (trust_root c) rv now p)).
Qed.
End RendezvousFacts.

(** ** Concrete runs *)
#[export] Instance KeyCertificate_eq_dec : EqDecision KeyCertificate.
Proof. solve_decision. Defined.
#[export] Instance KeyCertificate_countable : Countable KeyCertificate.
Proof.
  apply (inj_countable' (fun c => (child_key c, cert_issued_at c, cert_signature c))
    (fun '(k, t, s) => MkCert k t s)). by intros [].
Defined.
#[export] Instance SignedBundle_eq_dec : EqDecision SignedBundle.
Proof. solve_decision. Defined.
#[export] Instance SignedBundle_countable : Countable SignedBundle.
Proof.
  apply (inj_countable' (fun b => (payload_bytes b, bundle_signature b, bundle_signing_key b,
      bundle_key_cert b, release_key_cert b))
    (fun '(p, s, k, c, d) => Build_SignedBundle p s k c d)). by intros [].
Defined.

Module RendezvousDemo.
Import ToyEd25519 ConfigDemo.
#[export] Instance bundle_json : Json SignedBundle := tagged_json "{".
#[export] Instance bundle_json_laws : JsonLaws SignedBundle := tagged_json_laws "{".
#[export] Instance first_sampler : Sampler unit := Build_Sampler unit
  (fun A n l r => (take n l, r)) (fun n r => (repeat "7"%byte n, r)).
#[export] Instance first_sampler_laws : SamplerLaws unit.
Proof.
  split. intros A n l r Hn. cbn. rewrite length_take. split; [|lia].
  apply sublist_submseteq, sublist_take.
Qed.
Definition state : AppState := {|
  bundle_key := key "b"; app_bundle_key_cert := bundle_cert; app_release_key_cert := release_cert;
  pool := [Build_RelayPoolEntry "e1" "direct-tls" "192.0.2.1:443" "p" [] "ab";
           Build_RelayPoolEntry "e2" "noise-quic" "192.0.2.2:443" "q" [] "cd"];
  subset_size := 5; ttl_secs := 900;
  rate_limiter := limiter_new (20 * fone f64) (5 * fone f64); revocation_list_bytes := None |}.
Definition issued := get_relay_bundle state (V4 1) 0 1000 tt.
Definition cache : path := ["tmp"; "bundle.json"].
Definition client : RendezvousClient := {| trust_root := root; cache_path := cache |}.
Definition w0 : world := calm_world (<[["tmp"] := Dir (Meta 511 0 0)]> ∅).
Definition online := get_bundle client (Ok bundle) revocation_empty 1500 w0.
End RendezvousDemo.

Section RendezvousWitnesses.
Import ToyEd25519 ConfigDemo RendezvousDemo.

Lemma issued_bundle_accepted_witness :
  exists b p, http_fetch (fun _ => Ok issued.1.1) "http://r" = Ok b /\
    verify_bundle b root revocation_empty 1899 = Ok p /\
    b_endpoints p ⊆+ (descriptor_of <$> pool state) /\ length (b_endpoints p) = 2%nat.
Proof.
  apply (issued_bundle_accepted state root (public_key (key "l")) (V4 1) 0 1000 tt
    issued.1.1 issued.1.2 issued.2).
  - unfold issued. destruct (get_relay_bundle _ _ _ _ _) as [[]]; reflexivity.
  - vm_compute. reflexivity.
  - exists 900, 950, (key "r"), (key "l"). vm_compute. repeat split.
  - vm_compute. split; [discriminate|reflexivity].
  - vm_compute. reflexivity.
  - vm_compute. reflexivity.
Defined.

Lemma get_bundle_only_verified_witness :
  exists b, verify_bundle b root revocation_empty 1500 = Ok payload /\
    (Ok (E := RendezvousClientError) bundle = Ok b \/
     exists mt data, w_fs w0 !! cache = Some (File mt data) /\ from_slice data = Ok b).
Proof.
  apply (get_bundle_only_verified client (Ok bundle) revocation_empty 1500 w0 (Ok payload) (snd online)).
  apply run_of_fst. vm_compute. reflexivity.
Defined.

Lemma cache_survives_outage_witness :
  fst (get_bundle client (Err (Fetch "unreachable")) revocation_empty 1999 (snd online)) = Ok payload.
Proof.
  apply (cache_survives_outage client bundle revocation_empty 1500 w0).
  - apply run_of_fst. vm_compute. reflexivity.
  - vm_compute. reflexivity.
  - vm_compute. reflexivity.
  - vm_compute. reflexivity.
  - vm_compute. split; [discriminate|reflexivity].
Defined.
End RendezvousWitnesses.
