(* ===== verification/Render.v ===== *)
(** * crates/compat-config: client-facing rendering

    Models render.rs: share links, the sing-box client subscription and the
    standard endpoint pair, and credentials.rs, on which the fingerprint rests.
    SHA-256, base64 and X25519 are interfaces. *)

From stdpp Require Import pretty.
From Stdlib Require Import Strings.Byte Strings.Ascii.
From S2P Require Import Prelude Bytes Serde Fs Model.

(** ** [serde_json::Value]

    Objects keep their fields in the order they were set; a field is looked up
    by name. *)
Inductive json :=
  | JNull
  | JBool (b : bool)
  | JNum (n : Z)
  | JStr (s : string)
  | JArr (l : list json)
  | JObj (l : list (string * json)).

Definition jget (k : string) (j : json) : option json :=
  match j with
  | JObj l => snd <$> List.find (fun f => String.eqb f.1 k) l
  | _ => None
  end.
(** [value[k] = v] on an object *)
Definition jset (k : string) (v : json) (j : json) : json :=
  match j with
  | JObj l =>
    if existsb (fun f => String.eqb f.1 k) l
    then JObj ((fun f => if String.eqb f.1 k then (k, v) else f) <$> l)
    else JObj (l ++ [(k, v)])
  | _ => j
  end.
(** [Map::remove] on an object *)
Definition jremove (k : string) (j : json) : json :=
  match j with
  | JObj l => JObj (List.filter (fun f => negb (String.eqb f.1 k)) l)
  | _ => j
  end.
(** [==] of [serde_json::Value]: objects are maps, so the order of their fields
    does not matter. *)
Fixpoint json_eqb (a b : json) : bool :=
  match a, b with
  | JNull, JNull => true
  | JBool x, JBool y => Bool.eqb x y
  | JNum x, JNum y => x =? y
  | JStr x, JStr y => String.eqb x y
  | JArr la, JArr lb =>
    (fix go la lb := match la, lb with
       | [], [] => true
       | x :: la, y :: lb => json_eqb x y && go la lb
       | _, _ => false
       end) la lb
  | JObj la, JObj lb =>
    (length la =? length lb)%nat &&
    (fix go la := match la with
       | [] => true
       | (k, x) :: la => match jget k b with Some y => json_eqb x y | None => false end && go la
       end) la
  | _, _ => false
  end.
Definition jstrings (l : list string) : json := JArr (JStr <$> l).

(** ** credentials.rs *)
Class Sha256 := { sha256 : bytes -> bytes }.
Class Base64Url := { b64_encode : bytes -> string; b64_decode : string -> result string bytes }.
Class Base64UrlLaws `{Base64Url} := {
  b64_decode_encode b : b64_decode (b64_encode b) = Ok b;
  b64_encode_graphic b : Forall graphic (as_bytes (b64_encode b))
}.
(** [MontgomeryPoint::mul_base_clamped(k).to_bytes()] *)
Class X25519 := { x25519_base : bytes -> bytes }.
Class X25519Laws `{X25519} := { x25519_base_length k : length (x25519_base k) = 32%nat }.

Definition hex_byte (b : byte) : string := str_of_bytes (hex_bytes [b]).
Definition hex_group (b : bytes) : string := str_of_bytes (hex_bytes b).

(** [generate_uuid_v4]; [entropy] are the 16 random bytes. *)
Definition uuid_bytes (entropy : bytes) : bytes :=
  let v6 := byte_of (Z.lor (Z.land (byte_val (nth 6 entropy x00)) 15) 64) in
  let v8 := byte_of (Z.lor (Z.land (byte_val (nth 8 entropy x00)) 63) 128) in
  <[8%nat := v8]> (<[6%nat := v6]> entropy).
Definition generate_uuid_v4 (entropy : bytes) : string :=
  let b := uuid_bytes entropy in
  hex_group (take 4 b) +:+ "-" +:+ hex_group (take 2 (drop 4 b)) +:+ "-" +:+
  hex_group (take 2 (drop 6 b)) +:+ "-" +:+ hex_group (take 2 (drop 8 b)) +:+ "-" +:+
  hex_group (drop 10 b).
Definition generate_user_id (entropy : bytes) : string := "user_" +:+ generate_uuid_v4 entropy.

(** [u8::is_ascii_hexdigit] *)
Definition is_ascii_hexdigit (b : byte) : bool :=
  let v := byte_val b in
  ((48 <=? v) && (v <=? 57)) || ((65 <=? v) && (v <=? 70)) || ((97 <=? v) && (v <=? 102)).

Section Credentials.
Context {HexI : Hex} {Sha : Sha256} {B64 : Base64Url} {X : X25519}.

Definition generate_hysteria2_password (entropy24 : bytes) : string := hex_encode entropy24.
Definition generate_hysteria2_obfs_password (entropy24 : bytes) : string := hex_encode entropy24.
Definition generate_short_id (entropy4 : bytes) : string := hex_encode entropy4.
Definition generate_subscription_token (entropy20 : bytes) : string := b64_encode entropy20.

Definition hash_token (token : string) : string := hex_encode (sha256 (as_bytes token)).
Definition verify_token (token stored_hash_hex : string) : bool :=
  let computed_bytes := as_bytes (hash_token token) in
  let stored_bytes := as_bytes stored_hash_hex in
  if negb (length computed_bytes =? length stored_bytes)%nat then false
  else bool_decide (computed_bytes = stored_bytes).

Definition derive_reality_public_key (private_key : string) : result string string :=
  decoded ← map_err (fun e => "REALITY private key is not valid base64url without padding: " +:+ e)
    (b64_decode (trim private_key));
  if (length decoded =? 32)%nat then Ok (b64_encode (x25519_base decoded))
  else Err ("REALITY private key decodes to " +:+ pretty (length decoded) +:+
            " bytes; X25519 requires exactly 32").

Definition validate_reality_public_key_shape (public_key : string) : result string unit :=
  if bool_decide (trim public_key = EmptyString) then Err "REALITY public key is empty" else
  decoded ← map_err (fun e => "REALITY public key is not valid base64url without padding: " +:+ e)
    (b64_decode (trim public_key));
  if negb (length decoded =? 32)%nat
  then Err ("REALITY public key decodes to " +:+ pretty (length decoded) +:+
            " bytes; X25519 requires exactly 32")
  else Ok tt.

Definition validate_reality_short_id (short_id : string) : result string unit :=
  let trimmed := trim short_id in
  if bool_decide (trimmed = EmptyString) then Err "REALITY short_id is empty" else
  if (8 <? String.length trimmed)%nat
  then Err ("REALITY short_id is " +:+ pretty (String.length trimmed) +:+
            " hex digits; sing-box allows at most 8") else
  if negb (forallb is_ascii_hexdigit (as_bytes trimmed))
  then Err ("REALITY short_id " +:+ quoted trimmed +:+ " is not valid hex") else
  Ok tt.

Definition validate_reality_keypair (private_key public_key : string) : result string unit :=
  validate_reality_public_key_shape public_key ≫= fun _ =>
  derived ← derive_reality_public_key private_key;
  if bool_decide (derived = trim public_key) then Ok tt
  else Err "REALITY public key does not correspond to private.key".
End Credentials.

(** ** Share links *)
Definition unreserved (b : byte) : bool :=
  let v := byte_val b in
  ((65 <=? v) && (v <=? 90)) || ((97 <=? v) && (v <=? 122)) || ((48 <=? v) && (v <=? 57)) ||
  (v =? 45) || (v =? 46) || (v =? 95) || (v =? 126).
(** [{b:02X}] *)
Definition upper_hex_digit (n : Z) : byte := byte_of (if n <? 10 then 48 + n else 55 + n).
Definition encode_label_byte (b : byte) : bytes :=
  if unreserved b then [b]
  else ["%"%byte; upper_hex_digit (byte_val b / 16); upper_hex_digit (byte_val b mod 16)].
Definition percent_encode_label (label : string) : string :=
  str_of_bytes (concat (encode_label_byte <$> as_bytes label)).

Definition sni_of (ep : CompatEndpoint) : string := default (ep_host ep) (ep_server_name ep).

Definition render_vless_reality_uri (user : CompatUser) (ep : CompatEndpoint) : result CompatError string :=
  match ep_public_parameters ep with
  | PReality public_key_hex short_id fingerprint =>
    Ok ("vless://" +:+ u_vless_uuid user +:+ "@" +:+ ep_host ep +:+ ":" +:+ pretty (ep_port ep) +:+
        "?encryption=none&security=reality&sni=" +:+ sni_of ep +:+ "&fp=" +:+ fingerprint +:+
        "&pbk=" +:+ public_key_hex +:+ "&sid=" +:+ short_id +:+
        "&type=tcp&flow=xtls-rprx-vision#" +:+ percent_encode_label (ep_label ep))
  | PHysteria2 _ => Err CompatError.WrongTransportForEndpoint
  end.

Definition render_hysteria2_uri (user : CompatUser) (ep : CompatEndpoint) : result CompatError string :=
  match ep_public_parameters ep with
  | PHysteria2 obfs_password =>
    Ok ("hysteria2://" +:+ expose (u_hysteria2_password user) +:+ "@" +:+ ep_host ep +:+ ":" +:+
        pretty (ep_port ep) +:+ "?sni=" +:+ sni_of ep +:+ "&insecure=0" +:+
        match obfs_password with
        | Some pw => "&obfs=salamander&obfs-password=" +:+ pw
        | None => EmptyString
        end +:+ "#" +:+ percent_encode_label (ep_label ep))
  | PReality _ _ _ => Err CompatError.WrongTransportForEndpoint
  end.

Definition render_endpoint_uri (user : CompatUser) (ep : CompatEndpoint) : result CompatError string :=
  match ep_transport ep with
  | VlessReality => render_vless_reality_uri user ep
  | Hysteria2 => render_hysteria2_uri user ep
  end.
Fixpoint render_lines (user : CompatUser) (eps : list CompatEndpoint) : result CompatError (list string) :=
  match eps with
  | [] => Ok []
  | ep :: rest =>
    uri ← render_endpoint_uri user ep;
    lines ← render_lines user rest;
    Ok (uri :: lines)
  end.
Definition newline : string := String (ascii_of_nat 10) EmptyString.
Definition render_uri_list (user : CompatUser) (eps : list CompatEndpoint) : result CompatError string :=
  lines ← render_lines user eps;
  Ok (String.concat newline lines).

(** ** The sing-box client subscription *)
Inductive SelectionProfile := Reliability | Performance | Auto.
Definition profile_default : SelectionProfile := Reliability.
Definition profile_parse (s : string) : option SelectionProfile :=
  if decide (s = "reliability")%string then Some Reliability
  else if decide (s = "performance")%string then Some Performance
  else if decide (s = "auto")%string then Some Auto
  else None.

Definition client_outbound (user : CompatUser) (ep : CompatEndpoint) : json :=
  match ep_public_parameters ep with
  | PReality public_key_hex short_id fingerprint => JObj [
      ("type", JStr "vless");
      ("tag", JStr (ep_label ep));
      ("server", JStr (ep_host ep));
      ("server_port", JNum (ep_port ep));
      ("uuid", JStr (u_vless_uuid user));
      ("flow", JStr "xtls-rprx-vision");
      ("packet_encoding", JStr "xudp");
      ("tls", JObj [
        ("enabled", JBool true);
        ("server_name", JStr (sni_of ep));
        ("utls", JObj [("enabled", JBool true); ("fingerprint", JStr fingerprint)]);
        ("reality", JObj [
          ("enabled", JBool true);
          ("public_key", JStr public_key_hex);
          ("short_id", JStr short_id)])])]
  | PHysteria2 obfs_password =>
    let ob := JObj [
      ("type", JStr "hysteria2");
      ("tag", JStr (ep_label ep));
      ("server", JStr (ep_host ep));
      ("server_port", JNum (ep_port ep));
      ("password", JStr (expose (u_hysteria2_password user)));
      ("tls", JObj [
        ("enabled", JBool true);
        ("server_name", JStr (sni_of ep));
        ("insecure", JBool false)])] in
    match obfs_password with
    | Some pw => jset "obfs" (JObj [("type", JStr "salamander"); ("password", JStr pw)]) ob
    | None => ob
    end
  end.

(** The first label of the endpoints with a given transport. *)
Definition first_tag (t : CompatTransport) (eps : list CompatEndpoint) : option string :=
  ep_label <$> List.find (fun ep => bool_decide (ep_transport ep = t)) eps.

Definition or_else {A} (a b : option A) : option A := match a with Some x => Some x | None => b end.

Definition default_tag (profile : SelectionProfile) (eps : list CompatEndpoint) : string :=
  let reality_tag := first_tag VlessReality eps in
  let hysteria2_tag := first_tag Hysteria2 eps in
  let first := head (ep_label <$> eps) in
  match profile with
  | Reliability => default "auto" (or_else reality_tag first)
  | Performance => default "auto" (or_else (or_else hysteria2_tag reality_tag) first)
  | Auto => "auto"
  end.

Definition render_singbox_client_subscription_with_profile (user : CompatUser)
    (eps : list CompatEndpoint) (profile : SelectionProfile) : result CompatError json :=
  let tags := ep_label <$> eps in
  let outbounds := client_outbound user <$> eps in
  let urltest := JObj [
    ("type", JStr "urltest");
    ("tag", JStr "auto");
    ("outbounds", jstrings tags);
    ("url", JStr "https://www.gstatic.com/generate_204");
    ("interval", JStr "1m")] in
  let selector := JObj [
    ("type", JStr "selector");
    ("tag", JStr "select");
    ("outbounds", jstrings (tags ++ ["auto"]));
    ("default", JStr (default_tag profile eps))] in
  let direct := JObj [("type", JStr "direct"); ("tag", JStr "direct")] in
  Ok (JObj [
    ("outbounds", JArr (outbounds ++ [urltest; selector; direct]));
    ("route", JObj [("final", JStr "select")])]).
Definition render_singbox_client_subscription (user : CompatUser) (eps : list CompatEndpoint)
    : result CompatError json :=
  render_singbox_client_subscription_with_profile user eps profile_default.

Definition standard_endpoints (public_host : string) (reality_port hysteria_port : Z)
    (reality_public_key_hex reality_short_id handshake_server : string)
    (hysteria_obfs_password : option string) : list CompatEndpoint := [
  {| ep_id := "reality-1"; ep_transport := VlessReality; ep_host := public_host;
     ep_port := reality_port; ep_server_name := Some handshake_server; ep_label := "Reality";
     ep_public_parameters := PReality reality_public_key_hex reality_short_id "chrome" |};
  {| ep_id := "hysteria2-1"; ep_transport := Hysteria2; ep_host := public_host;
     ep_port := hysteria_port; ep_server_name := Some public_host; ep_label := "Hysteria2";
     ep_public_parameters := PHysteria2 hysteria_obfs_password |}].

(** [endpoints_fingerprint] *)
Definition endpoints_fingerprint {HexI : Hex} {Sha : Sha256} {J : Json (list CompatEndpoint)}
    (eps : list CompatEndpoint) : string :=
  hash_token (match to_vec eps with Ok b => str_of_bytes b | Err _ => EmptyString end).

(** ** Facts about share links *)
Fixpoint percent_decode (l : bytes) : option bytes :=
  match l with
  | [] => Some []
  | b :: t =>
    if Byte.eqb b "%"
    then match t with
         | h :: l' :: t' =>
           match hex_value h, hex_value l' with
           | Some x, Some y => cons (byte_of (16 * x + y)) <$> percent_decode t'
           | _, _ => None
           end
         | _ => None
         end
    else cons b <$> percent_decode t
  end.

Lemma byte_val_upper n : 0 <= n < 16 -> byte_val (upper_hex_digit n) = if n <? 10 then 48 + n else 55 + n.
Proof.
  intros. unfold upper_hex_digit. rewrite byte_val_of, Z.mod_small; [done|]. destruct (n <? 10); lia.
Qed.

Lemma hex_value_upper n : 0 <= n < 16 -> hex_value (upper_hex_digit n) = Some n.
Proof.
  intros Hn. unfold hex_value. rewrite byte_val_upper by done.
  destruct (n <? 10) eqn:E; [apply Z.ltb_lt in E|apply Z.ltb_ge in E].
  - replace ((48 <=? 48 + n) && (48 + n <=? 57)) with true by lia. f_equal. lia.
  - replace ((48 <=? 55 + n) && (55 + n <=? 57)) with false by lia.
    replace ((97 <=? 55 + n) && (55 + n <=? 102)) with false by lia.
    replace ((65 <=? 55 + n) && (55 + n <=? 70)) with true by lia. f_equal. lia.
Qed.

Lemma nibbles b : 0 <= byte_val b / 16 < 16 /\ 0 <= byte_val b mod 16 < 16 /\
  byte_of (16 * (byte_val b / 16) + byte_val b mod 16) = b.
Proof.
  pose proof (byte_val_range b). split; [|split].
  - split; [apply Z.div_pos|apply Z.div_lt_upper_bound]; lia.
  - apply Z.mod_pos_bound. lia.
  - rewrite <-Z.div_mod by done. apply byte_of_val.
Qed.

Lemma percent_decode_byte b t : percent_decode (encode_label_byte b ++ t) = cons b <$> percent_decode t.
Proof.
  unfold encode_label_byte. destruct (unreserved b) eqn:E; cbn [app percent_decode].
  - replace (Byte.eqb b "%") with false; [done|]. symmetry. destruct (Byte.eqb b "%") eqn:Eb; [|done].
    apply Byte.byte_dec_bl in Eb. subst b. vm_compute in E. done.
  - destruct (nibbles b) as (H1 & H2 & H3). replace (Byte.eqb "%" "%") with true by reflexivity.
    by rewrite !hex_value_upper, H3 by done.
Qed.

(** A character that needs no escaping inside a URI fragment. *)
Definition fragment_safe (b : byte) : bool := unreserved b || Byte.eqb b "%".

Lemma upper_hex_unreserved n : 0 <= n < 16 -> unreserved (upper_hex_digit n) = true.
Proof. intros. unfold unreserved. rewrite byte_val_upper by done. destruct (n <? 10) eqn:E; lia. Qed.

(** Labels survive the share link.  The encoded label uses only unreserved
    characters and percent escapes, so it cannot end the fragment or add
    parameters, and percent-decoding it gives the label back. *)
Theorem percent_label_roundtrip label :
  percent_decode (as_bytes (percent_encode_label label)) = Some (as_bytes label) /\
  forallb fragment_safe (as_bytes (percent_encode_label label)) = true.
Proof.
  unfold percent_encode_label. rewrite as_bytes_str_of.
  induction (as_bytes label) as [|b l [IH1 IH2]]; [done|]. rewrite fmap_cons. cbn [concat].
  rewrite percent_decode_byte, IH1, forallb_app, IH2, andb_true_r. split; [done|].
  unfold encode_label_byte. destruct (unreserved b) eqn:E; cbn [forallb].
  - unfold fragment_safe. by rewrite E.
  - destruct (nibbles b) as (H1 & H2 & _). unfold fragment_safe.
    by rewrite !upper_hex_unreserved by done.
Qed.

(** An endpoint whose parameters are those of its transport. *)
Definition consistent (ep : CompatEndpoint) : bool :=
  match ep_transport ep, ep_public_parameters ep with
  | VlessReality, PReality _ _ _ => true
  | Hysteria2, PHysteria2 _ => true
  | _, _ => false
  end.

Lemma render_lines_spec user eps :
  match render_lines user eps with
  | Ok lines => forallb consistent eps = true /\ length lines = length eps /\
      Forall2 (fun ep line => render_endpoint_uri user ep = Ok line) eps lines
  | Err e => forallb consistent eps = false /\ e = CompatError.WrongTransportForEndpoint
  end.
Proof.
  induction eps as [|ep eps IH]; [by repeat constructor|]. cbn [render_lines forallb].
  destruct (render_endpoint_uri user ep) as [uri|e] eqn:E; cbn.
  - assert (consistent ep = true) as ->.
    { unfold render_endpoint_uri, render_vless_reality_uri, render_hysteria2_uri, consistent in *.
      by destruct (ep_transport ep), (ep_public_parameters ep). }
    destruct (render_lines user eps); cbn; [|done]. destruct IH as (? & ? & ?).
    split; [done|]. split; [lia|]. by constructor.
  - unfold render_endpoint_uri, render_vless_reality_uri, render_hysteria2_uri, consistent in *.
    destruct (ep_transport ep), (ep_public_parameters ep); by simplify_eq/=.
Qed.

(** ** Facts about the subscription *)

(** The outbounds an outbound refers to by tag. *)
Definition jstr (j : json) : option string := match j with JStr s => Some s | _ => None end.
Definition references (o : json) : list string :=
  match jget "outbounds" o with Some (JArr l) => omap jstr l | _ => [] end ++
  match jget "default" o with Some (JStr s) => [s] | _ => [] end.
Definition tag_of (o : json) : option string := jget "tag" o ≫= jstr.
Definition outbounds_of (doc : json) : list json :=
  match jget "outbounds" doc with Some (JArr l) => l | _ => [] end.
Definition final_of (doc : json) : option string := (jget "route" doc ≫= jget "final") ≫= jstr.

Lemma client_outbound_tag user ep :
  tag_of (client_outbound user ep) = Some (ep_label ep) /\ references (client_outbound user ep) = [].
Proof. unfold client_outbound. by destruct (ep_public_parameters ep) as [|[]]. Qed.

Lemma omap_jstr_strings (l : list string) : omap jstr (JStr <$> l) = l.
Proof. induction l as [|s l IH]; [done|]. cbn. f_equal. exact IH. Qed.

Lemma first_tag_elem t eps s : first_tag t eps = Some s -> s ∈ ep_label <$> eps.
Proof.
  unfold first_tag. destruct (List.find _ eps) as [ep|] eqn:E; [|done]. intros [= <-].
  apply find_some in E as [Hin _]. apply list_elem_of_fmap. exists ep. split; [done|].
  by apply list_elem_of_In.
Qed.

Lemma default_tag_elem profile eps : default_tag profile eps ∈ (ep_label <$> eps) ++ ["auto"].
Proof.
  unfold default_tag. apply elem_of_app.
  assert (forall o, (forall s, o = Some s -> s ∈ ep_label <$> eps) ->
    default "auto" (or_else o (head (ep_label <$> eps))) ∈ ep_label <$> eps \/
    default "auto" (or_else o (head (ep_label <$> eps))) ∈ ["auto"]) as Ho.
  { intros [s|] Hs; cbn [or_else default]; [left; by apply Hs|].
    destruct eps; cbn; [right; apply list_elem_of_here|left; apply list_elem_of_here]. }
  destruct profile; [apply Ho; apply first_tag_elem|apply Ho|right; apply list_elem_of_here].
  intros s. destruct (first_tag Hysteria2 eps) eqn:E; cbn; [intros [= <-]; by eapply first_tag_elem|].
  apply first_tag_elem.
Qed.

(** A subscription never refers to anything it does not contain.  For any
    user, endpoints and profile the document renders, its final route and every
    tag that an outbound lists are tags of outbounds in it, and the manual
    selector's default is one of the selector's own options. *)
Theorem subscription_references_resolve user eps profile :
  exists doc, render_singbox_client_subscription_with_profile user eps profile = Ok doc /\
    (forall t, final_of doc = Some t -> exists o, o ∈ outbounds_of doc /\ tag_of o = Some t) /\
    (forall o t, o ∈ outbounds_of doc -> t ∈ references o ->
       exists o', o' ∈ outbounds_of doc /\ tag_of o' = Some t) /\
    (forall ep, ep ∈ eps -> client_outbound user ep ∈ outbounds_of doc).
Proof.
  eexists. split; [reflexivity|]. cbn [outbounds_of jget List.find String.eqb fmap option_fmap option_map snd fst].
  set (outs := _ ++ [_; _; _]).
  assert (forall t, t ∈ (ep_label <$> eps) ++ ["auto"] -> exists o', o' ∈ outs /\ tag_of o' = Some t) as Hres.
  { intros t [(ep & -> & Hep)%list_elem_of_fmap|Ht%list_elem_of_singleton]%elem_of_app; [|subst t].
    - exists (client_outbound user ep). split; [|apply client_outbound_tag].
      apply elem_of_app. left. apply list_elem_of_fmap. eauto.
    - eexists. split; [apply elem_of_app; right; apply list_elem_of_here|reflexivity]. }
  split; [|split].
  - intros t Ht. change (Some "select" = Some t) in Ht. injection Ht as <-. eexists.
    split; [apply elem_of_app; right; apply list_elem_of_further, list_elem_of_here|reflexivity].
  - intros o t [(ep & -> & _)%list_elem_of_fmap|Ho]%elem_of_app Ht.
    + rewrite (proj2 (client_outbound_tag user ep)) in Ht. by apply not_elem_of_nil in Ht.
    + apply Hres. rewrite !elem_of_cons in Ho.
      destruct Ho as [->|[->|[->|Ho]]]; [..|by apply not_elem_of_nil in Ho].
      * cbn in Ht. rewrite omap_jstr_strings, app_nil_r in Ht. apply elem_of_app. by left.
      * cbn in Ht. rewrite omap_jstr_strings in Ht. apply elem_of_app in Ht as [Ht|Ht]; [done|].
        apply list_elem_of_singleton in Ht as ->. apply default_tag_elem.
      * by apply not_elem_of_nil in Ht.
  - intros ep Hep. apply elem_of_app. left. apply list_elem_of_fmap. eauto.
Qed.

(** ** Facts about credentials *)
Section CredentialFacts.
Context {HexI : Hex} {HexL : HexLaws} {Sha : Sha256} {B64 : Base64Url} {B64L : Base64UrlLaws}.
Context {X : X25519} {XL : X25519Laws}.

Lemma verify_token_iff token stored : verify_token token stored = true <-> stored = hash_token token.
Proof.
  unfold verify_token. destruct (Nat.eqb_spec (length (as_bytes (hash_token token))) (length (as_bytes stored)))
    as [E|E]; cbn [negb].
  - rewrite bool_decide_eq_true. split; [|by intros ->].
    intros Hb. by rewrite <-(str_of_as_bytes stored), <-Hb, str_of_as_bytes.
  - split; [done|]. by intros ->.
Qed.


(** Key validation is exact.  The public key derived from a private key
    validates against it, and a public key that validates is, up to white space
    around it, the derived one: no split key pair passes. *)
Theorem reality_keypair_exact private_key public_key :
  validate_reality_keypair private_key public_key = Ok tt <->
  derive_reality_public_key private_key = Ok (trim public_key) /\ trim public_key <> EmptyString.
Proof.
  unfold validate_reality_keypair, validate_reality_public_key_shape. split.
  - intros Hv. case_bool_decide as Hne; [by inv_result|]. inv_result.
    case_bool_decide as E; [|done]. by subst.
  - intros [Hd Hne]. rewrite bool_decide_eq_false_2 by done. rewrite Hd.
    unfold derive_reality_public_key in Hd. inv_result.
    destruct (length x =? 32)%nat; [|done]. injection Hd as Hd.
    rewrite <-Hd, b64_decode_encode. cbn. rewrite x25519_base_length. cbn.
    by rewrite bool_decide_eq_true_2.
Qed.

(** Generated short ids are valid: four random bytes always give a short id
    that the validation used at start-up and by the doctor accepts. *)
Theorem generated_short_id_valid entropy :
  length entropy = 4%nat -> validate_reality_short_id (generate_short_id entropy) = Ok tt.
Proof.
  intros Hl. unfold validate_reality_short_id, generate_short_id.
  rewrite trim_graphic by apply hex_encode_graphic.
  pose proof (hex_encode_length entropy) as Hs. rewrite Hl in Hs. cbn in Hs.
  rewrite bool_decide_eq_false_2 by (intros E; by rewrite E in Hs). rewrite Hs. cbn.
  replace (forallb is_ascii_hexdigit (as_bytes (hex_encode entropy))) with true; [done|].
  symmetry. apply forallb_forall. intros c Hc%list_elem_of_In.
  pose proof (hex_encode_digits entropy) as Hd. rewrite Forall_forall in Hd.
  destruct (Hd c Hc) as [v Hv]. unfold hex_value in Hv. unfold is_ascii_hexdigit.
  destruct ((48 <=? _) && _) eqn:E1; [done|]. destruct ((97 <=? _) && _) eqn:E2; [by rewrite orb_true_r|].
  destruct ((65 <=? _) && _) eqn:E3; [by rewrite orb_true_r|done].
Qed.
End CredentialFacts.

(** ** Concrete runs: hexadecimal stands in for base64, padding for X25519. *)
Module RenderDemo.
#[export] Instance hex : Hex := plain_hex.
#[export] Instance hex_laws : HexLaws := plain_hex_laws.
#[export] Instance b64 : Base64Url := Build_Base64Url hex_encode hex_decode.
#[export] Instance b64_laws : Base64UrlLaws.
Proof. split; [apply hex_decode_encode|apply hex_encode_graphic]. Qed.
Definition pad32 (k : bytes) : bytes := take 32 (k ++ repeat "0"%byte 32).
#[export] Instance x25519 : X25519 := Build_X25519 pad32.
#[export] Instance x25519_laws : X25519Laws.
Proof. split. intros k. cbn [x25519_base x25519]. unfold pad32. rewrite length_take, length_app, repeat_length. lia. Qed.
Definition private_key : string := hex_encode (repeat "k"%byte 32).
End RenderDemo.

Section RenderWitnesses.
Import RenderDemo.

Lemma reality_keypair_exact_witness :
  validate_reality_keypair private_key (private_key +:+ " ") = Ok tt.
Proof. apply reality_keypair_exact. split; vm_compute; [reflexivity|discriminate]. Defined.

Lemma generated_short_id_valid_witness :
  validate_reality_short_id (generate_short_id [x00; x7f; xff; x10]) = Ok tt.
Proof. apply (generated_short_id_valid [x00; x7f; xff; x10]). reflexivity. Defined.
End RenderWitnesses.
