(* ===== verification/Server.v ===== *)
(** * crates/compat-config: the sing-box server configuration

    Models server.rs: rendering the server configuration from the user store,
    and the write-validate-swap that puts it in place.  The sing-box binary is
    an external command. *)

From stdpp Require Import pretty.
From Stdlib Require Import Strings.Byte.
From S2P Require Import Prelude Bytes Io Serde Fs Model Store Render.

Record ServerPorts := { vless_reality_port : Z; hysteria2_port : Z }.

Definition vless_user (u : CompatUser) : json := JObj [
  ("name", JStr (u_id u));
  ("uuid", JStr (u_vless_uuid u));
  ("flow", JStr "xtls-rprx-vision")].
Definition hysteria_user (u : CompatUser) : json := JObj [
  ("name", JStr (u_id u));
  ("password", JStr (expose (u_hysteria2_password u)))].

Definition active_users (users : list CompatUser) (now_unix : Z) : list CompatUser :=
  filter (fun u => is_active u now_unix = true) users.

(** The Hysteria2 inbound, with the optional fields the code sets afterwards. *)
Definition hysteria_inbound (active : list CompatUser) (hysteria : Hysteria2ServerParams)
    (ports : ServerPorts) : json :=
  let ib := JObj [
    ("type", JStr "hysteria2");
    ("tag", JStr "hysteria2-in");
    ("listen", JStr "::");
    ("listen_port", JNum (hysteria2_port ports));
    ("users", JArr (hysteria_user <$> active));
    ("tls", JObj [
      ("enabled", JBool true);
      ("certificate_path", JStr (h_tls_cert_path hysteria));
      ("key_path", JStr (h_tls_key_path hysteria))])] in
  let ib := match h_masquerade_dir_path hysteria with
    | Some masq_path => jset "masquerade" (JObj [("type", JStr "file"); ("directory", JStr masq_path)]) ib
    | None => ib
    end in
  let ib := match h_obfs_password hysteria with
    | Some obfs_pw => jset "obfs" (JObj [("type", JStr "salamander"); ("password", JStr (expose obfs_pw))]) ib
    | None => ib
    end in
  match h_up_mbps hysteria, h_down_mbps hysteria with
  | Some up, Some down =>
    jset "ignore_client_bandwidth" (JBool true) (jset "down_mbps" (JNum down) (jset "up_mbps" (JNum up) ib))
  | _, _ => ib
  end.

Definition vless_inbound (active : list CompatUser) (reality : RealityServerParams) (ports : ServerPorts) : json :=
  JObj [
    ("type", JStr "vless");
    ("tag", JStr "vless-reality-in");
    ("listen", JStr "::");
    ("listen_port", JNum (vless_reality_port ports));
    ("users", JArr (vless_user <$> active));
    ("tls", JObj [
      ("enabled", JBool true);
      ("server_name", JStr (r_handshake_server reality));
      ("reality", JObj [
        ("enabled", JBool true);
        ("handshake", JObj [
          ("server", JStr (r_handshake_server reality));
          ("server_port", JNum (r_handshake_port reality))]);
        ("private_key", JStr (expose (r_private_key_hex reality)));
        ("short_id", jstrings (r_short_ids reality))])])].

Definition render_singbox_server_config (users : list CompatUser) (reality : RealityServerParams)
    (hysteria : Hysteria2ServerParams) (ports : ServerPorts) (now_unix : Z) : json :=
  let active := active_users users now_unix in
  JObj [
    ("log", JObj [("level", JStr "warn"); ("timestamp", JBool true)]);
    ("inbounds", JArr [vless_inbound active reality ports; hysteria_inbound active hysteria ports]);
    ("outbounds", JArr [JObj [("type", JStr "direct"); ("tag", JStr "direct")]])].

(** ** Safe apply *)
Definition config_backup_path (target_path : path) : path := sibling target_path "config.json" ".bak".

(** [write_config_file_mode_0640] and [set_file_mode_0640] *)
Definition write_config_file_mode_0640 (p : path) (data : bytes) : IO CompatError unit :=
  write_file_mode p data 416.
Definition set_file_mode_0640 (p : path) : IO CompatError unit := compat_io (fs_set_mode 416 p).

(** [SingBoxBackend::validate] *)
Definition singbox_validate (binary_path config_path : path) : IO CompatError unit :=
  do output <- io_map_err (fun e => CompatError.Io ("failed to run sing-box check: " +:+ message e))
    (run_command [path_str binary_path; "check"; "-c"; path_str config_path]);
  if success output then io_ret tt
  else io_err (CompatError.ConfigValidationFailed (from_utf8_lossy (stderr output))).

Section Apply.
Context {J : Json json}.

(** What happens before the swap: write the new file beside the target, have it
    validated, keep a copy of the current one. *)
Definition stage_config (new_config : json) (target_path tmp_path : path)
    (validate_fn : path -> IO CompatError unit) : IO CompatError unit :=
  (match parent target_path with Some d => compat_io (create_dir_all d) | None => io_ret tt end) ;;
  do data <- io_lift (compat_parse (to_vec_pretty new_config));
  write_config_file_mode_0640 tmp_path data ;;
  io_try (validate_fn tmp_path) (fun r =>
    match r with
    | Err e => io_try (fs_remove_file tmp_path) (fun _ => io_err e)
    | Ok _ =>
      do ex <- path_exists target_path;
      (if ex
       then compat_io (fs_copy target_path (config_backup_path target_path)) ;;
            set_file_mode_0640 (config_backup_path target_path)
       else io_ret tt) ;;
      preserve_ownership_before_rename tmp_path target_path
    end).

Definition apply_config_atomically (new_config : json) (target_path : path)
    (validate_fn : path -> IO CompatError unit) : IO CompatError unit :=
  do pr <- io_proc;
  let tmp_path := sibling target_path "config.json" (".tmp." +:+ pretty (pid pr)) in
  stage_config new_config target_path tmp_path validate_fn ;;
  compat_io (fs_rename tmp_path target_path) ;;
  fsync_parent_dir target_path.

Definition singbox_apply (binary_path : path) (new_config : json) (target_path : path) : IO CompatError unit :=
  apply_config_atomically new_config target_path (singbox_validate binary_path).
End Apply.

(** ** Facts about the swap *)

Lemma backup_path_ne t : config_backup_path t <> t.
Proof. by apply sibling_ne. Qed.

Lemma backup_path_ne_tmp t (n : Z) :
  t <> [] -> config_backup_path t <> sibling t "config.json" (".tmp." +:+ pretty n).
Proof. intros Ht [=]%sibling_inj; done. Qed.

Lemma keeps_singbox_validate q bin p : keeps q (singbox_validate bin p).
Proof. unfold singbox_validate. solve_keeps. Qed.
#[export] Hint Resolve keeps_singbox_validate : fs.

(** sing-box accepted [data] as the contents of [p]. *)
Definition accepted_by_singbox (bin p : path) (data : bytes) (w : world) : Prop :=
  exists (f : fs) mt out, ([path_str bin; "check"; "-c"; path_str p], f, Ok out) ∈ w_log w /\
    success out = true /\ f !! p = Some (File mt data).

Lemma accepted_suffix bin p data w w' :
  w_log w `suffix_of` w_log w' -> accepted_by_singbox bin p data w -> accepted_by_singbox bin p data w'.
Proof.
  intros [l Hl] (f & mt & out & Hin & ?). exists f, mt, out. split; [|done].
  rewrite Hl. apply elem_of_app. by right.
Qed.

Lemma singbox_validate_Ok_inv bin p w w' mt data :
  w_fs w !! p = Some (File mt data) -> singbox_validate bin p w = (Ok tt, w') ->
  w_fs w' = w_fs w /\ accepted_by_singbox bin p data w'.
Proof.
  intros Hp (out & w1 & H1%io_map_err_Ok_inv & H2)%io_bind_Ok_inv.
  unfold run_command in H1. injection H1 as Hr <-.
  destruct (success out) eqn:Es; [|done]. injection H2 as <-. cbn. split; [done|].
  exists (w_fs w), mt, out. rewrite Hr. split; [apply list_elem_of_here|]. done.
Qed.

Section ApplyFacts.
Context {J : Json json}.

Lemma keeps_stage_config q cfg target tmp bin :
  q <> tmp -> q <> config_backup_path target -> (~ q `prefix_of` removelast target \/ target = []) ->
  keeps q (stage_config cfg target tmp (singbox_validate bin)).
Proof.
  intros Ht Hb Hd. unfold stage_config, set_file_mode_0640, fs_set_mode, write_config_file_mode_0640.
  destruct target as [|c target]; cbn [parent]; [solve_keeps|]. destruct Hd as [Hd|]; [|done].
  solve_keeps.
Qed.

(** The copy kept of a configuration that was there before. *)
Definition backed_up (w w' : world) (target : path) : Prop :=
  forall mt old, w_fs w !! target = Some (File mt old) ->
    exists mb, w_fs w' !! config_backup_path target = Some (File mb old).

Lemma backup_step tmp target w w' :
  tmp <> config_backup_path target ->
  (do ex <- path_exists target;
   (if ex then compat_io (fs_copy target (config_backup_path target)) ;;
               set_file_mode_0640 (config_backup_path target)
    else io_ret tt) ;;
   preserve_ownership_before_rename tmp target) w = (Ok tt, w') ->
  backed_up w w' target.
Proof.
  intros Hne Hrun mt old Hold.
  apply io_bind_Ok_inv in Hrun as (ex & w1 & [= <- <-] & Hrun).
  rewrite (exists_at_Some _ _ _ Hold) in Hrun.
  apply io_bind_Ok_inv in Hrun as ([] & w2 & Hc & Hp).
  apply io_bind_Ok_inv in Hc as ([] & w3 & Hcopy%io_map_err_Ok_inv & Hm%io_map_err_Ok_inv).
  eapply fs_copy_Ok_inv in Hcopy as (mb & E3); [|done]. subst w3.
  apply update_meta_Ok_inv in Hm as (n & Hn & ->). cbn in Hn. rewrite lookup_insert_eq in Hn.
  injection Hn as <-. eapply keeps_final in Hp as (Hp & _); [|by apply keeps_preserve_ownership].
  rewrite Hp. cbn. rewrite lookup_insert_eq. eauto.
Qed.

Lemma stage_config_Ok_inv cfg target tmp bin w w' :
  tmp <> target -> tmp <> [] -> tmp <> config_backup_path target -> ~ tmp `prefix_of` removelast target ->
  ~ target `prefix_of` removelast target \/ target = [] ->
  stage_config cfg target tmp (singbox_validate bin) w = (Ok tt, w') ->
  exists data mt, to_vec_pretty cfg = Ok data /\ w_fs w' !! tmp = Some (File mt data) /\
    accepted_by_singbox bin tmp data w' /\ backed_up w w' target.
Proof.
  intros Hne Hnil Hnb Hpre Hpt (u & w1 & H1 & H)%io_bind_Ok_inv.
  apply io_bind_Ok_inv in H as (data & w2 & [= Hd <-] & H).
  apply io_bind_Ok_inv in H as ([] & w3 & H3 & H).
  apply io_try_inv in H as ([[]|e] & w4 & H4 & H);
    [|apply io_try_inv in H as (? & ? & _ & [=])].
  apply map_err_Ok_inv in Hd.
  assert (w_fs w1 !! target = w_fs w !! target) as E1.
  { eapply keeps_final; [|exact H1]. destruct target as [|c target]; cbn [parent]; [solve_keeps|].
    destruct Hpt as [Hpt|]; [|done]. solve_keeps. }
  assert (w_fs w3 !! target = w_fs w1 !! target) as E3
    by (eapply keeps_final; [|exact H3]; by apply keeps_write_file_mode).
  apply write_file_mode_Ok_inv in H3 as (mt & Ht & _).
  destruct (singbox_validate_Ok_inv _ _ _ _ _ _ Ht H4) as [E4 Hacc]. rewrite <-E4 in Ht.
  pose proof (backup_step tmp target w4 w' Hnb H) as Hbk.
  assert (w_log w4 `suffix_of` w_log w') as Hlog.
  { eapply (keeps_log []); [|exact H]. unfold set_file_mode_0640, fs_set_mode.
    assert (config_backup_path target <> []) by apply sibling_ne_nil. solve_keeps. }
  assert (exists mt', w_fs w' !! tmp = Some (File mt' data)) as [mt' Ht'].
  { apply io_bind_Ok_inv in H as (ex & w5 & [= <- <-] & H).
    apply io_bind_Ok_inv in H as ([] & w6 & H6 & H7).
    assert (w_fs w6 !! tmp = Some (File mt data)) as Ht6.
    { rewrite <-Ht. eapply keeps_final; [|exact H6]. unfold set_file_mode_0640, fs_set_mode. solve_keeps. }
    destruct (preserve_ownership_Ok_inv _ _ _ _ _ _ Ht6 H7) as (? & ? & -> & _). eauto. }
  exists data, mt'. split; [done|]. split; [done|]. split; [by eapply accepted_suffix|].
  intros m0 old Hold. apply (Hbk m0 old). by rewrite E4, E3, E1.
Qed.

(** Where there was no configuration, an older copy stays what it is. *)
Definition older_copy (w w' : world) (target : path) : Prop :=
  match w_fs w !! target with
  | Some (File _ _) => True
  | Some (Dir _) => False
  | None => w_fs w' !! config_backup_path target = w_fs w !! config_backup_path target
  end.
Lemma backup_step_absent tmp target w w' :
  tmp <> config_backup_path target ->
  (do ex <- path_exists target;
   (if ex then compat_io (fs_copy target (config_backup_path target)) ;;
               set_file_mode_0640 (config_backup_path target)
    else io_ret tt) ;;
   preserve_ownership_before_rename tmp target) w = (Ok tt, w') ->
  older_copy w w' target.
Proof.
  intros Hne Hrun. apply io_bind_Ok_inv in Hrun as (ex & w1 & [= <- <-] & Hrun).
  apply io_bind_Ok_inv in Hrun as ([] & w2 & Hc & Hp). unfold older_copy, exists_at in *.
  destruct (w_fs w !! target) as [[m d|m]|] eqn:Et; [done|..]; cbn in Hc.
  - apply io_bind_Ok_inv in Hc as ([] & w3 & Hcopy%io_map_err_Ok_inv & _).
    apply syscall_Ok_inv in Hcopy as (f' & H & _). rewrite Et in H. by destruct (w_fs w !! config_backup_path target) as [[]|].
  - injection Hc as <-. eapply keeps_final; [|exact Hp]. by apply keeps_preserve_ownership.
Qed.
Lemma apply_config_absent bin cfg target w w' :
  target <> [] -> singbox_apply bin cfg target w = (Ok tt, w') -> older_copy w w' target.
Proof.
  intros Hnil. unfold singbox_apply, apply_config_atomically, io_proc. cbn -[sibling stage_config].
  set (tmp := sibling _ _ _).
  assert (tmp <> target) as Hne by by apply sibling_ne.
  assert (tmp <> config_backup_path target) as Hnb by (symmetry; by apply backup_path_ne_tmp).
  assert (config_backup_path target <> target) as Hbt by apply backup_path_ne.
  assert (~ target `prefix_of` removelast target) as Hpt by by apply not_prefix_removelast.
  assert (~ config_backup_path target `prefix_of` removelast target) as Hpb by apply sibling_not_below.
  intros ([] & w1 & H1 & Hrest)%io_bind_Ok_inv.
  assert (w_fs w' !! config_backup_path target = w_fs w1 !! config_backup_path target) as E1.
  { eapply keeps_final; [|exact Hrest]. solve_keeps. }
  apply io_bind_Ok_inv in H1 as ([] & w2 & H2 & H1). apply io_bind_Ok_inv in H1 as (data & w3 & [= _ <-] & H1).
  apply io_bind_Ok_inv in H1 as ([] & w4 & H4 & H1).
  apply io_try_inv in H1 as ([[]|e] & w5 & H5 & H1); [|apply io_try_inv in H1 as (? & ? & _ & [=])].
  assert (forall q, q = target \/ q = config_backup_path target -> w_fs w5 !! q = w_fs w !! q) as K.
  { intros q Hq. transitivity (w_fs w4 !! q); [eapply keeps_final; [|exact H5]; apply keeps_singbox_validate|].
    transitivity (w_fs w2 !! q); [eapply keeps_final; [|exact H4]; apply keeps_write_file_mode; by destruct Hq as [->| ->]|].
    eapply keeps_final; [|exact H2]. destruct target as [|c t]; [done|]. cbn [parent].
    destruct Hq as [->| ->]; solve_keeps. }
  apply backup_step_absent in H1; [|done]. unfold older_copy in *. rewrite <-(K target) by (by left).
  rewrite <-(K (config_backup_path target)), E1 by (by right). done.
Qed.

Lemma apply_config_spec bin cfg target w r w' :
  target <> [] -> singbox_apply bin cfg target w = (r, w') ->
  exists new, extends w w' new /\
  match r with
  | Err _ => w_fs w' !! target = w_fs w !! target /\
      Forall (fun f => f !! target = w_fs w !! target) new
  | Ok _ => exists data mt tmp, to_vec_pretty cfg = Ok data /\
      w_fs w' !! target = Some (File mt data) /\
      Forall (fun f => f !! target = w_fs w !! target \/ f !! target = Some (File mt data)) new /\
      accepted_by_singbox bin tmp data w' /\ backed_up w w' target
  end.
Proof.
  intros Hnil. unfold singbox_apply, apply_config_atomically, io_proc. cbn -[sibling stage_config].
  set (tmp := sibling _ _ _).
  assert (tmp <> target) as Hne by by apply sibling_ne.
  assert (tmp <> []) as Hnn by apply sibling_ne_nil.
  assert (tmp <> config_backup_path target) as Hnb by (symmetry; by apply backup_path_ne_tmp).
  assert (config_backup_path target <> target) as Hbt by apply backup_path_ne.
  assert (~ tmp `prefix_of` removelast target) as Hpre by apply sibling_not_below.
  assert (~ target `prefix_of` removelast target) as Hpt by by apply not_prefix_removelast.
  intros Hrun. pose proof Hrun as Hcut. apply rename_commits in Hcut;
    [|apply keeps_stage_config; auto|solve_keeps|done].
  destruct Hcut as [(w1 & n & H1 & Ht & Hp & (w2 & Hr) & new & Hx & HF)|(e & -> & Hp & new & Hx & HF)];
    exists new; (split; [done|]); [|done].
  apply fsync_parent_dir_ok in Hr as ->.
  destruct (stage_config_Ok_inv cfg target tmp bin w w1) as (data & mt & Hd & Ht' & Hacc & Hbk); auto.
  rewrite Ht in Ht'. injection Ht' as ->. exists data, mt, tmp. split; [done|]. split; [done|].
  split; [done|].
  unfold io_bind at 1 in Hrun. rewrite H1 in Hrun.
  assert (forall q, q <> tmp -> q <> target -> keeps q (compat_io (fs_rename tmp target) ;; fsync_parent_dir target))
    as Hk by (intros; solve_keeps).
  split.
  - eapply accepted_suffix; [|done]. eapply (keeps_log []); [|exact Hrun]. by apply Hk.
  - intros m0 old Hold. destruct (Hbk m0 old Hold) as [mb Hmb]. exists mb. rewrite <-Hmb.
    eapply keeps_final; [|exact Hrun]. by apply Hk.
Qed.

(** A running configuration is only ever replaced by one that sing-box
    accepted, and in one step.  Whatever fails, every state of the disk holds
    at the target the old configuration or the complete new one; an error
    leaves the old one; and after success the bytes in place are those that
    [sing-box check] accepted, with the previous configuration kept beside it. *)
Theorem config_swap_safe bin cfg target w r w' :
  target <> [] ->
  singbox_apply bin cfg target w = (r, w') ->
  exists new, w_hist w' = new ++ w_hist w /\
  match r with
  | Err _ => w_fs w' !! target = w_fs w !! target /\
      Forall (fun f => f !! target = w_fs w !! target) new
  | Ok _ => exists data mt tmp, to_vec_pretty cfg = Ok data /\
      w_fs w' !! target = Some (File mt data) /\
      Forall (fun f => f !! target = w_fs w !! target \/ f !! target = Some (File mt data)) new /\
      accepted_by_singbox bin tmp data w' /\ backed_up w w' target
  end.
Proof.
  intros Hn (new & (Hh & _) & Hr)%apply_config_spec; [|done]. by exists new.
Qed.
End ApplyFacts.

(** ** Who may connect *)

Definition jarr (j : json) : list json := match j with JArr l => l | _ => [] end.
(** The values of one field over the users of an inbound. *)
Definition user_field (k : string) (inbound : json) : list json :=
  omap (jget k) (default [] (jarr <$> jget "users" inbound)).
Definition inbounds_of (cfg : json) : list json := default [] (jarr <$> jget "inbounds" cfg).

Lemma jget_jset_ne k k' v l : k <> k' -> jget k' (jset k v (JObj l)) = jget k' (JObj l).
Proof.
  intros Hne. unfold jset. destruct (existsb _ l); cbn; f_equal.
  - induction l as [|[k0 v0] l IH]; [done|]. cbn. destruct (String.eqb_spec k0 k) as [->|]; cbn.
    + by rewrite (proj2 (String.eqb_neq _ _) Hne).
    + by destruct (String.eqb k0 k').
  - induction l as [|f l IH]; cbn; [by rewrite (proj2 (String.eqb_neq _ _) Hne)|].
    by destruct (String.eqb f.1 k').
Qed.

Lemma jset_obj k v l : exists l', jset k v (JObj l) = JObj l'.
Proof. unfold jset. destruct (existsb _ l); eauto. Qed.

Lemma hysteria_inbound_get k active hysteria ports :
  k ∉ ["masquerade"; "obfs"; "up_mbps"; "down_mbps"; "ignore_client_bandwidth"] ->
  jget k (hysteria_inbound active hysteria ports) = jget k (JObj [
    ("type", JStr "hysteria2"); ("tag", JStr "hysteria2-in"); ("listen", JStr "::");
    ("listen_port", JNum (hysteria2_port ports)); ("users", JArr (hysteria_user <$> active));
    ("tls", JObj [("enabled", JBool true); ("certificate_path", JStr (h_tls_cert_path hysteria));
                  ("key_path", JStr (h_tls_key_path hysteria))])]).
Proof.
  intros Hk. rewrite !not_elem_of_cons in Hk. destruct Hk as (K1 & K2 & K3 & K4 & K5 & _).
  unfold hysteria_inbound. cbv zeta. set (base := JObj _).
  assert (forall k0 v j, (exists l, j = JObj l) -> k <> k0 ->
    jget k (jset k0 v j) = jget k j /\ exists l, jset k0 v j = JObj l) as Hs.
  { intros k0 v j [l ->] Hne. split; [by apply jget_jset_ne|apply jset_obj]. }
  assert (exists l, base = JObj l) as Hb by (by eexists).
  set (m1 := match h_masquerade_dir_path hysteria with Some _ => _ | None => _ end).
  assert (jget k m1 = jget k base /\ exists l, m1 = JObj l) as [E1 O1]
    by (subst m1; destruct (h_masquerade_dir_path hysteria); [by apply Hs|done]).
  set (m2 := match h_obfs_password hysteria with Some _ => _ | None => _ end).
  assert (jget k m2 = jget k base /\ exists l, m2 = JObj l) as [E2 O2].
  { rewrite <-E1. subst m2. destruct (h_obfs_password hysteria); [by apply Hs|done]. }
  destruct (h_up_mbps hysteria); [|done]. destruct (h_down_mbps hysteria); [|done].
  destruct (Hs "up_mbps" (JNum z) m2 O2 K3) as [E3 O3].
  destruct (Hs "down_mbps" (JNum z0) _ O3 K4) as [E4 O4].
  destruct (Hs "ignore_client_bandwidth" (JBool true) _ O4 K5) as [E5 _]. congruence.
Qed.

Lemma jget_jset_eq k v l : jget k (jset k v (JObj l)) = Some v.
Proof.
  unfold jset. destruct (existsb _ l) eqn:E; cbn.
  - induction l as [|[k0 v0] l IH]; [done|]. cbn in *. destruct (String.eqb k0 k) eqn:Ek; cbn.
    + by rewrite String.eqb_refl.
    + rewrite Ek. by apply IH.
  - induction l as [|[k0 v0] l IH]; cbn in *; [by rewrite String.eqb_refl|].
    apply orb_false_iff in E as [-> E]. by apply IH.
Qed.

Lemma hysteria_inbound_obfs active hysteria ports :
  jget "obfs" (hysteria_inbound active hysteria ports) =
  (fun pw => JObj [("type", JStr "salamander"); ("password", JStr (expose pw))]) <$> h_obfs_password hysteria.
Proof.
  unfold hysteria_inbound. cbv zeta. set (base := JObj _).
  set (m1 := match h_masquerade_dir_path hysteria with Some _ => _ | None => _ end).
  assert (jget "obfs" m1 = None /\ exists l, m1 = JObj l) as [E1 [l1 O1]].
  { subst m1 base. destruct (h_masquerade_dir_path hysteria); [|by split; [|eexists]].
    split; [by rewrite jget_jset_ne|apply jset_obj]. }
  clearbody m1. subst m1.
  set (m2 := match h_obfs_password hysteria with Some _ => _ | None => _ end).
  assert (jget "obfs" m2 = (fun pw => JObj [("type", JStr "salamander"); ("password", JStr (expose pw))])
    <$> h_obfs_password hysteria /\ exists l, m2 = JObj l) as [E2 [l2 O2]].
  { subst m2. destruct (h_obfs_password hysteria); [|by split; [|eexists]].
    split; [by rewrite jget_jset_eq|apply jset_obj]. }
  clearbody m2. subst m2. rewrite <-E2.
  destruct (h_up_mbps hysteria) as [up|]; [|done]. destruct (h_down_mbps hysteria) as [down|]; [|done].
  destruct (jset_obj "up_mbps" (JNum up) l2) as [l3 E3].
  destruct (jset_obj "down_mbps" (JNum down) l3) as [l4 E4].
  rewrite E3, E4, jget_jset_ne, <-E4, jget_jset_ne, <-E3, jget_jset_ne by done. done.
Qed.

(** [admits cfg ob cred]: an inbound of [cfg] of the same protocol listens on the
    port that the client's outbound [ob] dials and lists a user whose field
    [cred] is the client's.  REALITY clients must also know a short id, the
    disguise name and the public key that belongs to the server's private key,
    Hysteria2 clients the obfuscation. *)
Definition path2 (a b : string) (j : json) : option json := jget a j ≫= jget b.
Definition vless_known (ib ob : json) : Prop :=
  jget "type" ib = Some (JStr "vless") /\ jget "type" ob = Some (JStr "vless") /\
  jget "listen_port" ib = jget "server_port" ob /\
  (exists u, u ∈ default [] (jarr <$> jget "users" ib) /\
     jget "uuid" u = jget "uuid" ob /\ jget "flow" u = jget "flow" ob) /\
  path2 "tls" "server_name" ib = path2 "tls" "server_name" ob /\
  (exists sid, path2 "tls" "reality" ob ≫= jget "short_id" = Some sid /\
     sid ∈ default [] (jarr <$> (path2 "tls" "reality" ib ≫= jget "short_id"))).
(** The client's credentials are known to some inbound, whatever public key it
    has; non-admission is stated of this. *)
Definition vless_recognizes (cfg ob : json) : Prop := exists ib, ib ∈ inbounds_of cfg /\ vless_known ib ob.
(** The client authenticates the server by the X25519 public key it was given. *)
Definition reality_key_matches {B64 : Base64Url} {X : X25519} (ib ob : json) : Prop :=
  exists private_key public_key,
    path2 "tls" "reality" ib ≫= jget "private_key" = Some (JStr private_key) /\
    path2 "tls" "reality" ob ≫= jget "public_key" = Some (JStr public_key) /\
    derive_reality_public_key private_key = Ok public_key.
Definition vless_admits {B64 : Base64Url} {X : X25519} (cfg ob : json) : Prop :=
  exists ib, ib ∈ inbounds_of cfg /\ vless_known ib ob /\ reality_key_matches ib ob.
Definition hysteria_admits (cfg ob : json) : Prop :=
  exists ib, ib ∈ inbounds_of cfg /\
    jget "type" ib = Some (JStr "hysteria2") /\ jget "type" ob = Some (JStr "hysteria2") /\
    jget "listen_port" ib = jget "server_port" ob /\
    (exists u, u ∈ default [] (jarr <$> jget "users" ib) /\ jget "password" u = jget "password" ob) /\
    jget "obfs" ib = jget "obfs" ob.

(** A deployment: one set of values from which both sides are rendered. *)
Section Deployment.
Context (host public_key short_id : string).
Context (reality : RealityServerParams) (hysteria : Hysteria2ServerParams) (ports : ServerPorts).
Context (Hsid : short_id ∈ r_short_ids reality).

Definition deployed_endpoints : list CompatEndpoint :=
  standard_endpoints host (vless_reality_port ports) (hysteria2_port ports) public_key short_id
    (r_handshake_server reality) (expose <$> h_obfs_password hysteria).
Definition server_config (users : list CompatUser) (now : Z) : json :=
  render_singbox_server_config users reality hysteria ports now.

(** The client's public key is the one of the server's private key. *)
Definition key_shared {B64 : Base64Url} {X : X25519} : Prop :=
  derive_reality_public_key (expose (r_private_key_hex reality)) = Ok public_key.

Lemma vless_recognizes_iff users now u ep :
  ep ∈ deployed_endpoints -> ep_transport ep = VlessReality ->
  vless_recognizes (server_config users now) (client_outbound u ep) <->
  exists v, v ∈ users /\ is_active v now = true /\ u_vless_uuid v = u_vless_uuid u.
Proof.
  unfold deployed_endpoints, standard_endpoints. rewrite !elem_of_cons.
  intros [->|[->|?%not_elem_of_nil]]; [|done|done]. intros _. split.
  - intros (ib & [->|[->|?%not_elem_of_nil]%elem_of_cons]%elem_of_cons & Ht & _ & _ & (j & Hj & Hu & _) & _);
      [|by rewrite hysteria_inbound_get in Ht by (vm_compute; set_solver)|done].
    apply list_elem_of_fmap in Hj as (v & -> & Hv). apply list_elem_of_filter in Hv as [Ha Hv].
    exists v. split; [done|]. split; [done|]. by injection Hu.
  - intros (v & Hv & Ha & Hu). exists (vless_inbound (active_users users now) reality ports).
    split; [apply list_elem_of_here|]. do 3 (split; [done|]). split; [|split; [done|]].
    + exists (vless_user v). split; [|split; [cbn; by rewrite Hu|done]].
      apply list_elem_of_fmap. exists v. split; [done|]. by apply list_elem_of_filter.
    + exists (JStr short_id). split; [done|]. cbn. apply list_elem_of_fmap. eauto.
Qed.
Lemma key_matches_iff {B64 : Base64Url} {X : X25519} users now u ep ib :
  ep ∈ deployed_endpoints -> ep_transport ep = VlessReality -> ib ∈ inbounds_of (server_config users now) ->
  jget "type" ib = Some (JStr "vless") -> reality_key_matches ib (client_outbound u ep) <-> key_shared.
Proof.
  unfold deployed_endpoints, standard_endpoints. rewrite !elem_of_cons. intros [->|[->|?%not_elem_of_nil]]; [|done|done].
  intros _ [->|[->|?%not_elem_of_nil]%elem_of_cons]%elem_of_cons Ht;
    [|by rewrite hysteria_inbound_get in Ht by (vm_compute; set_solver)|done]. split.
  - by intros (pr & pu & [= <-] & [= <-] & Hd).
  - intros Hd. by exists (expose (r_private_key_hex reality)), public_key.
Qed.
Lemma vless_admits_iff {B64 : Base64Url} {X : X25519} users now u ep :
  ep ∈ deployed_endpoints -> ep_transport ep = VlessReality ->
  vless_admits (server_config users now) (client_outbound u ep) <->
  (exists v, v ∈ users /\ is_active v now = true /\ u_vless_uuid v = u_vless_uuid u) /\ key_shared.
Proof.
  intros Hep Et. rewrite <-(vless_recognizes_iff users now u ep Hep Et). split.
  - intros (ib & Hib & Hk & Hm). split; [by exists ib|]. by apply (key_matches_iff users now u ep ib Hep Et Hib (proj1 Hk)).
  - intros [(ib & Hib & Hk) Hs]. exists ib. split; [done|]. split; [done|].
    by apply (key_matches_iff users now u ep ib Hep Et Hib (proj1 Hk)).
Qed.

Lemma hysteria_admits_iff users now u ep :
  ep ∈ deployed_endpoints -> ep_transport ep = Hysteria2 ->
  hysteria_admits (server_config users now) (client_outbound u ep) <->
  exists v, v ∈ users /\ is_active v now = true /\
    expose (u_hysteria2_password v) = expose (u_hysteria2_password u).
Proof.
  unfold deployed_endpoints, standard_endpoints. rewrite !elem_of_cons.
  intros [->|[->|?%not_elem_of_nil]]; [done| |done]. intros _.
  set (ob := client_outbound u _).
  assert (jget "type" ob = Some (JStr "hysteria2") /\ jget "server_port" ob = Some (JNum (hysteria2_port ports)) /\
    jget "password" ob = Some (JStr (expose (u_hysteria2_password u))) /\
    jget "obfs" ob = (fun pw => JObj [("type", JStr "salamander"); ("password", JStr (expose pw))])
      <$> h_obfs_password hysteria) as (O1 & O2 & O3 & O4)
    by (subst ob; unfold client_outbound; cbn; by destruct (h_obfs_password hysteria)).
  split.
  - intros (ib & [->|[->|?%not_elem_of_nil]%elem_of_cons]%elem_of_cons & Ht & _ & _ & (j & Hj & Hu) & _); [done| |done].
    rewrite hysteria_inbound_get in Hj by (vm_compute; set_solver).
    apply list_elem_of_fmap in Hj as (v & -> & Hv). apply list_elem_of_filter in Hv as [Ha Hv].
    exists v. split; [done|]. split; [done|]. rewrite O3 in Hu. by injection Hu.
  - intros (v & Hv & Ha & Hu). exists (hysteria_inbound (active_users users now) hysteria ports).
    split; [apply list_elem_of_further, list_elem_of_here|].
    rewrite !hysteria_inbound_get, hysteria_inbound_obfs, O1, O2, O3, O4 by (vm_compute; set_solver).
    do 3 (split; [done|]). split; [|done].
    exists (hysteria_user v). split; [|cbn; by rewrite Hu].
    apply list_elem_of_fmap. exists v. split; [done|]. by apply list_elem_of_filter.
Qed.

(** C14: The server admits exactly the active users.  With subscription and server
    configuration rendered from one deployment, and no two users sharing a
    credential, a user's own subscription gets them in over Hysteria2 if and
    only if the user is enabled and not expired at the time the server
    configuration was rendered; and over REALITY if and only if, besides, the
    public key that the subscription advertises is the one of the private key
    in the server's configuration. *)
Theorem server_admits_active_users {B64 : Base64Url} {X : X25519} users now u ep :
  (forall v, v ∈ users -> u_vless_uuid v = u_vless_uuid u \/
     expose (u_hysteria2_password v) = expose (u_hysteria2_password u) -> v = u) ->
  u ∈ users ->
  ep ∈ deployed_endpoints ->
  match ep_transport ep with
  | VlessReality => vless_admits (server_config users now) (client_outbound u ep) <-> is_active u now = true /\ key_shared
  | Hysteria2 => hysteria_admits (server_config users now) (client_outbound u ep) <-> is_active u now = true
  end.
Proof.
  intros Huniq Hu Hep. destruct (ep_transport ep) eqn:Et.
  - rewrite vless_admits_iff by done. split; [|intros [Ha Hk]; eauto].
    intros [(v & Hv & Ha & E) Hk]. by rewrite <-(Huniq v Hv (or_introl E)).
  - rewrite hysteria_admits_iff by done. split; [|eauto].
    intros (v & Hv & Ha & E). by rewrite <-(Huniq v Hv (or_intror E)).
Qed.
End Deployment.

(** ** Concrete runs *)
Module ServerDemo.
Import StoreDemo RenderDemo.
(** A JSON writer good enough to run: the size of the document. *)
#[export] Instance value_json : Json json := Build_Json json
  (fun j => Ok (as_bytes "{}")) (fun j => Ok (as_bytes "{}")) (fun _ => Err "unsupported").
Definition server_key : string := hex_encode (repeat "s"%byte 32).
Definition client_key : string := default EmptyString (ok (derive_reality_public_key server_key)).
Definition reality : RealityServerParams :=
  Build_RealityServerParams (MkSecret server_key) client_key ["01ab"] "www.example.com" 443.
Definition hysteria : Hysteria2ServerParams :=
  Build_Hysteria2ServerParams "/c.pem" "/k.pem" (Some (MkSecret "obfs")) (Some "/www") (Some 100) (Some 50).
Definition ports : ServerPorts := Build_ServerPorts 443 8443.
Definition target : path := ["etc"; "vpn"; "config.json"].
Definition bin : path := ["usr"; "bin"; "sing-box"].
Definition disk_cfg : fs := <[target := File (Meta 416 0 9) (as_bytes "old")]> disk.
Definition cfg : json := server_config reality hysteria ports [alice; bob] 150.
Definition swapped := singbox_apply bin cfg target (calm_world disk_cfg).
End ServerDemo.

Section ServerWitnesses.
Import StoreDemo RenderDemo ServerDemo.

Lemma config_swap_safe_witness :
  exists data mt tmp, to_vec_pretty cfg = Ok data /\
    w_fs (snd swapped) !! target = Some (File mt data) /\
    accepted_by_singbox bin tmp data (snd swapped) /\ backed_up (calm_world disk_cfg) (snd swapped) target.
Proof.
  destruct (config_swap_safe bin cfg target (calm_world disk_cfg) (Ok tt) (snd swapped))
    as (new & _ & data & mt & tmp & H1 & H2 & _ & H3 & H4); [discriminate| |].
  - apply run_of_fst. vm_compute. reflexivity.
  - exists data, mt, tmp. split; [exact H1|]. split; [exact H2|]. split; [exact H3|exact H4].
Defined.

Lemma server_admits_active_users_witness :
  let eps := deployed_endpoints "vpn.example.com" client_key "01ab" reality hysteria ports in
  Forall (fun ep => match ep_transport ep with
    | VlessReality => vless_admits (server_config reality hysteria ports [alice; bob] 150) (client_outbound alice ep)
    | Hysteria2 => hysteria_admits (server_config reality hysteria ports [alice; bob] 150) (client_outbound alice ep)
    end) eps.
Proof.
  cbv zeta. apply Forall_forall. intros ep Hep.
  pose proof (server_admits_active_users "vpn.example.com" client_key "01ab" reality hysteria ports
    (list_elem_of_here _ _) [alice; bob] 150 alice ep) as H.
  assert (forall v, v ∈ [alice; bob] -> u_vless_uuid v = u_vless_uuid alice \/
    expose (u_hysteria2_password v) = expose (u_hysteria2_password alice) -> v = alice) as Huniq.
  { intros v Hv Hor. rewrite !elem_of_cons in Hv.
    destruct Hv as [->|[->|Hv]]; [reflexivity| |by apply not_elem_of_nil in Hv].
    exfalso. destruct Hor as [E|E]; discriminate E. }
  specialize (H Huniq (list_elem_of_here _ _) Hep).
  destruct (ep_transport ep); apply H; [|reflexivity]. split; [reflexivity|]. vm_compute. reflexivity.
Defined.
End ServerWitnesses.
