(* ===== verification/Subscription.v ===== *)
(** * services/subscription: the per-user subscription service

    Models services/subscription/src/lib.rs: the token lookup and the handler
    behind [GET /sub/{token}], with the response headers its route adds, over
    the users store and the rate limiter.  The readings of the clocks are
    arguments of the handler. *)

From Stdlib Require Import Strings.Byte.
From S2P Require Import Prelude Bytes Io Serde Fs Model Store Render Http Fl RateLimiter Server.

Record AppState := {
  users_file : path;
  endpoints : list CompatEndpoint;
  rate_limiter : RateLimiter
}.
Definition set_limiter (s : AppState) (l : RateLimiter) : AppState :=
  {| users_file := users_file s; endpoints := endpoints s; rate_limiter := l |}.

Record SubQuery := { format : option string; profile : option string }.

Section Subscription.
Context {HexI : Hex} {Sha : Sha256}.
Context {JU : Json UsersFile} {JL : Json (list CompatUser)} {JV : Json json} {JE : Json (list CompatEndpoint)}.
Context (walk : Buckets -> list (IpAddr * (Z * Z))).

(** Every user is examined; the last match wins. *)
Definition find_user_by_token (users : list CompatUser) (token : string) (now_unix : Z) : option CompatUser :=
  foldl (fun found u =>
    let matches := verify_token token (u_subscription_token_hash_hex u) in
    if matches && is_active u now_unix then Some u else found) None users.

(** The body for an identified user. *)
Definition render_reply (s : AppState) (user : CompatUser) (query : SubQuery) : option Response :=
  let fmt := default "singbox" (format query) in
  let prof := default profile_default (profile query ≫= profile_parse) in
  if decide (fmt = "singbox")%string then
    match render_singbox_client_subscription_with_profile user (endpoints s) prof with
    | Ok doc =>
      (* [to_string_pretty(..).unwrap()] *)
      match to_vec_pretty doc with
      | Ok b => Some (typed_response 200 APPLICATION_JSON b)
      | Err _ => None
      end
    | Err _ => Some (text_response 500 "render error")
    end
  else if decide (fmt = "uri" \/ fmt = "hiddify")%string then
    match render_uri_list user (endpoints s) with
    | Ok b => Some (typed_response 200 TEXT_PLAIN (as_bytes b))
    | Err _ => Some (text_response 500 "render error")
    end
  else Some (text_response 400 "unknown format").

(** The handler; [None] is a panic of the request's task. *)
Definition get_subscription (s : AppState) (token : string) (query : SubQuery) (ip : IpAddr)
    (instant now : Z) (w : world) : option Response * AppState * world :=
  let '(allowed, l) := allow_subscription walk (rate_limiter s) ip instant in
  let s := set_limiter s l in
  if negb allowed then (Some (text_response 429 "rate limited"), s, w) else
  if (String.length token =? 0)%nat || (128 <? String.length token)%nat
  then (Some (text_response 404 "not found"), s, w) else
  match load_users (users_file s) w with
  | (Err _, w) => (Some (text_response 500 "internal error"), s, w)
  | (Ok users, w) =>
    match find_user_by_token users token now with
    | None => (Some (text_response 404 "not found"), s, w)
    | Some user => (render_reply s user query, s, w)
    end
  end.

(** The layer on the [/sub] route. *)
Definition no_store_headers (r : Response) : Response :=
  insert_header "x-content-type-options" "nosniff"
    (insert_header "pragma" "no-cache" (insert_header "cache-control" "no-store" r)).

(** What a client of [GET /sub/{token}] receives. *)
Definition sub_route (s : AppState) (token : string) (query : SubQuery) (ip : IpAddr)
    (instant now : Z) (w : world) : option Response :=
  no_store_headers <$> (get_subscription s token query ip instant now w).1.1.

(** [GET /internal/state-fingerprint] *)
Definition state_fingerprint (s : AppState) : result string Response :=
  b ← to_vec (JObj [("endpoints_fingerprint_sha256", JStr (endpoints_fingerprint (endpoints s)))]);
  Ok (typed_response 200 APPLICATION_JSON b).

(** [GET /healthz] *)
Definition health : Response := text_response 200 "ok".

(** The routes of [build_router]; the framework matches the path and decodes its
    parameters.  [None] is a panic of the request's task. *)
Inductive Route := SubRoute (token : string) (query : SubQuery) | HealthRoute | FingerprintRoute.
Definition build_router (s : AppState) (r : Route) (ip : IpAddr) (instant now : Z) (w : world)
    : option Response * AppState * world :=
  match r with
  | SubRoute token query =>
    let '(reply, s, w) := get_subscription s token query ip instant now w in (no_store_headers <$> reply, s, w)
  | HealthRoute => (Some health, s, w)
  | FingerprintRoute => (ok (state_fingerprint s), s, w)
  end.
End Subscription.

(** ** Facts *)
Section SubscriptionFacts.
Context {HexI : Hex} {Sha : Sha256}.
Context {JU : Json UsersFile} {JL : Json (list CompatUser)} {JV : Json json}.
Context (walk : Buckets -> list (IpAddr * (Z * Z))).

Lemma load_users_disk p w r w' : load_users p w = (r, w') -> w_fs w' = w_fs w.
Proof.
  unfold load_users, io_bind at 1. rewrite path_exists_run. destruct (exists_at (w_fs w) p); cbn [negb]; [|by intros [= _ <-]].
  intros [(d & w1 & Hd & [= _ <-])|(e & Hd & _)]%io_bind_inv; by apply io_map_err_inv in Hd as (r0 & [-> _]%fs_read_inv & _).
Qed.

Lemma find_user_Some users token now u :
  find_user_by_token users token now = Some u ->
  u ∈ users /\ u_subscription_token_hash_hex u = hash_token token /\ is_active u now = true.
Proof.
  unfold find_user_by_token. intros Hf.
  assert (forall acc, foldl (fun found u => if verify_token token (u_subscription_token_hash_hex u)
      && is_active u now then Some u else found) acc users = Some u ->
    acc = Some u \/ (u ∈ users /\ u_subscription_token_hash_hex u = hash_token token /\ is_active u now = true)) as Hgen.
  { clear Hf. induction users as [|v users IH]; intros acc; cbn [foldl]; [by left|].
    intros [Hv|(? & ? & ?)]%IH; [|right; split; [by apply list_elem_of_further|done]].
    destruct (verify_token _ _) eqn:Ev; [|by left]. destruct (is_active v now) eqn:Ea; [|by left].
    injection Hv as ->. right. split; [apply list_elem_of_here|]. split; [|done]. by apply verify_token_iff. }
  by destruct (Hgen None Hf).
Qed.

Lemma find_user_None users token now :
  find_user_by_token users token now = None ->
  forall u, u ∈ users -> is_active u now = true -> u_subscription_token_hash_hex u <> hash_token token.
Proof.
  intros Hf u Hu Ha E. revert Hf. unfold find_user_by_token.
  assert (forall us acc, foldl (fun found u => if verify_token token (u_subscription_token_hash_hex u)
      && is_active u now then Some u else found) (Some acc) us <> None) as Hsome.
  { clear. induction us as [|v us IH]; intros acc; cbn [foldl]; [done|]. destruct (_ && _); apply IH. }
  assert (forall acc, foldl (fun found u => if verify_token token (u_subscription_token_hash_hex u)
      && is_active u now then Some u else found) acc users <> None) as Hall; [|apply Hall].
  induction users as [|v users IH]; intros acc; cbn [foldl]; [by apply not_elem_of_nil in Hu|].
  apply elem_of_cons in Hu as [->|Hu]; [|by apply IH].
  rewrite (proj2 (verify_token_iff token (u_subscription_token_hash_hex v)) E), Ha. apply Hsome.
Qed.

(** A token of a length the handler looks at. *)
Definition token_length_ok (token : string) : Prop := (1 <= String.length token <= 128)%nat.

Lemma get_subscription_run s token query ip instant now w users w1 :
  fst (allow_subscription walk (rate_limiter s) ip instant) = true ->
  token_length_ok token ->
  load_users (users_file s) w = (Ok users, w1) ->
  (get_subscription walk s token query ip instant now w).1.1 =
    match find_user_by_token users token now with
    | None => Some (text_response 404 "not found")
    | Some user => render_reply s user query
    end.
Proof.
  intros Hal [Ht1 Ht2] Hl. unfold get_subscription.
  destruct (allow_subscription walk (rate_limiter s) ip instant) as [allowed l]. cbn in Hal. subst allowed.
  cbn [negb]. replace (String.length token =? 0)%nat with false by (symmetry; apply Nat.eqb_neq; lia).
  replace (128 <? String.length token)%nat with false by (symmetry; apply Nat.ltb_ge; lia).
  cbn [orb users_file set_limiter]. rewrite Hl. by destruct (find_user_by_token _ _ _).
Qed.

(** C16: Tokens are the only way in, and refusals say nothing.  A reply with
    status 200 is the rendering for a stored user who is active now and whose
    stored hash is that of the presented token; when no active user has that
    hash, whether the token is unknown, disabled or expired, the reply is the
    same 404 in every case. *)
Theorem subscription_access s token query ip instant now w users w1 :
  fst (allow_subscription walk (rate_limiter s) ip instant) = true ->
  token_length_ok token ->
  load_users (users_file s) w = (Ok users, w1) ->
  let reply := (get_subscription walk s token query ip instant now w).1.1 in
  (forall r, reply = Some r -> status r = 200 ->
     exists u, u ∈ users /\ is_active u now = true /\
       u_subscription_token_hash_hex u = hash_token token /\ render_reply s u query = Some r) /\
  ((forall u, u ∈ users -> is_active u now = true -> u_subscription_token_hash_hex u <> hash_token token) ->
   reply = Some (text_response 404 "not found")).
Proof.
  intros Hal Ht Hl. cbv zeta. rewrite (get_subscription_run _ _ _ _ _ _ _ _ _ Hal Ht Hl). split.
  - intros r Hr Hst. destruct (find_user_by_token users token now) as [u|] eqn:Ef; [|by simplify_eq].
    destruct (find_user_Some _ _ _ _ Ef) as (? & ? & ?). by exists u.
  - intros Hno. destruct (find_user_by_token users token now) as [u|] eqn:Ef; [|done].
    destruct (find_user_Some _ _ _ _ Ef) as (Hu & Eh & Ha). by destruct (Hno u Hu Ha).
Qed.

(** No request changes the disk, or of the state anything but the limiter. *)
Lemma requests_change_only_limiter {JE : Json (list CompatEndpoint)} s r ip instant now w reply s' w' :
  build_router walk s r ip instant now w = (reply, s', w') ->
  w_fs w' = w_fs w /\ s' = set_limiter s (rate_limiter s') /\
  match r with SubRoute _ _ => True | _ => s' = s end.
Proof.
  destruct r as [token query| |]; cbn [build_router]; [|by intros [= _ <- <-]; destruct s..].
  unfold get_subscription. destruct (allow_subscription walk (rate_limiter s) ip instant) as [[] l]; cbn [negb]; [|by intros [= _ <- <-]].
  destruct (_ || _); [by intros [= _ <- <-]|]. cbn [users_file set_limiter].
  destruct (load_users (users_file s) w) as [r w1] eqn:El. apply (load_users_disk (users_file s)) in El.
  destruct r as [users|]; [destruct (find_user_by_token users token now)|]; by intros [= _ <- <-].
Qed.

(** Nothing on the subscription route is cacheable: every reply, errors
    included, carries [no-store] and the two headers beside it, and is
    otherwise the handler's. *)
Theorem sub_route_never_cached s token query ip instant now w r :
  sub_route walk s token query ip instant now w = Some r ->
  header "cache-control" r = Some "no-store" /\ header "pragma" r = Some "no-cache" /\
  header "x-content-type-options" r = Some "nosniff" /\
  exists r0, (get_subscription walk s token query ip instant now w).1.1 = Some r0 /\
    status r = status r0 /\ body r = body r0 /\ header "content-type" r = header "content-type" r0.
Proof.
  unfold sub_route. destruct (get_subscription _ _ _ _ _ _ _ _) as [[[r0|] s'] w']; [|done].
  cbn [fst fmap option_fmap option_map]. intros [= <-]. unfold no_store_headers.
  split_and!; [..|exists r0; split_and!]; try done;
    repeat first [rewrite header_insert_eq | rewrite header_insert_ne by done]; done.
Qed.

(** C15: A served subscription works.  In a deployment whose service caches the
    standard endpoints, with the public key of the server's private key, and
    whose store holds [users] with distinct credentials, an active user
    presenting their token is sent a sing-box document whose servers are exactly
    those endpoints, each with the user's credentials (what else it lists are a
    group, a selector and the direct exit), and every one of them is admitted by
    the server configuration rendered for [users]. *)
Theorem served_subscription_works {B64 : Base64Url} {X : X25519} s token ip instant now w users w1 u
    host public_key short_id reality hysteria ports b :
  fst (allow_subscription walk (rate_limiter s) ip instant) = true ->
  token_length_ok token ->
  load_users (users_file s) w = (Ok users, w1) ->
  endpoints s = deployed_endpoints host public_key short_id reality hysteria ports ->
  short_id ∈ r_short_ids reality -> key_shared public_key reality ->
  (forall v, v ∈ users -> u_vless_uuid v = u_vless_uuid u \/
     expose (u_hysteria2_password v) = expose (u_hysteria2_password u) \/
     u_subscription_token_hash_hex v = u_subscription_token_hash_hex u -> v = u) ->
  u ∈ users -> is_active u now = true -> u_subscription_token_hash_hex u = hash_token token ->
  (forall doc : json, to_vec_pretty doc = Ok (b doc)) ->
  exists doc, (get_subscription walk s token (Build_SubQuery None None) ip instant now w).1.1 =
      Some (typed_response 200 APPLICATION_JSON (b doc)) /\
    (exists groups, outbounds_of doc = (client_outbound u <$> endpoints s) ++ groups /\
       jget "type" <$> groups = [Some (JStr "urltest"); Some (JStr "selector"); Some (JStr "direct")]) /\
    Forall (fun ep =>
      match ep_transport ep with
      | VlessReality => vless_admits (server_config reality hysteria ports users now) (client_outbound u ep)
      | Hysteria2 => hysteria_admits (server_config reality hysteria ports users now) (client_outbound u ep)
      end) (endpoints s).
Proof.
  intros Hal Ht Hl Hep Hsid Hkey Huniq Hu Ha Hh Hj.
  assert (find_user_by_token users token now = Some u) as Hf.
  { destruct (find_user_by_token users token now) as [v|] eqn:Ef.
    - destruct (find_user_Some _ _ _ _ Ef) as (Hv & Eh & _). f_equal. apply Huniq; [done|].
      right. right. by rewrite Eh, Hh.
    - by destruct (find_user_None _ _ _ Ef u Hu Ha). }
  rewrite (get_subscription_run _ _ _ _ _ _ _ _ _ Hal Ht Hl), Hf. unfold render_reply. cbn [format profile].
  eexists. split; [cbn; rewrite Hj; reflexivity|].
  split; [by eexists|]. apply Forall_forall. intros ep Hin. rewrite Hep in Hin. destruct (ep_transport ep) eqn:Et.
  - apply (vless_admits_iff host public_key short_id); eauto 6.
  - apply (hysteria_admits_iff host public_key short_id); eauto.
Qed.
End SubscriptionFacts.

(** ** A concrete service; the digest is the identity *)
Module SubscriptionDemo.
Import StoreDemo RenderDemo ServerDemo.
#[export] Instance sha : Sha256 := Build_Sha256 (fun m => m).
Definition carol : CompatUser :=
  Build_CompatUser "c3" "carol" true "uuid-c" (MkSecret "pw-c") (hash_token "tok") 100 (Some 200).
Definition stored_users : bytes := default [] (ok (to_vec_pretty (envelope [bob; carol]))).
Definition wsub : world := calm_world (<[users_path := File (Meta 416 0 7) stored_users]> disk).
Definition service : AppState := {|
  users_file := users_path;
  endpoints := deployed_endpoints "vpn.example.com" client_key "01ab" reality hysteria ports;
  rate_limiter := limiter_new (200 * fone f64) (50 * fone f64) |}.
Definition loaded : world := snd (load_users users_path wsub).
Lemma loaded_ok : load_users users_path wsub = (Ok [bob; carol], loaded).
Proof. apply run_of_fst. vm_compute. reflexivity. Qed.
End SubscriptionDemo.

Section SubscriptionWitnesses.
Import StoreDemo RenderDemo ServerDemo SubscriptionDemo.

Lemma subscription_access_witness :
  (get_subscription map_to_list service "tok" (Build_SubQuery None None) (V4 1) 0 250 wsub).1.1 =
  Some (text_response 404 "not found").
Proof.
  apply (subscription_access map_to_list service "tok" (Build_SubQuery None None) (V4 1) 0 250 wsub
    [bob; carol] loaded).
  - vm_compute. reflexivity.
  - vm_compute. lia.
  - exact loaded_ok.
  - intros u Hu Ha. rewrite !elem_of_cons in Hu.
    destruct Hu as [->|[->|Hu]]; [discriminate Ha|discriminate Ha|by apply not_elem_of_nil in Hu].
Defined.

Lemma sub_route_never_cached_witness :
  exists r, sub_route map_to_list service "tok" (Build_SubQuery None None) (V4 1) 0 150 wsub = Some r /\
    status r = 200 /\ header "cache-control" r = Some "no-store".
Proof.
  eexists. split; [vm_compute; reflexivity|]. split; [reflexivity|].
  refine (proj1 (sub_route_never_cached map_to_list service "tok" (Build_SubQuery None None) (V4 1) 0 150 wsub _ _)).
  vm_compute. reflexivity.
Defined.

Lemma served_subscription_works_witness :
  exists doc, (get_subscription map_to_list service "tok" (Build_SubQuery None None) (V4 1) 0 150 wsub).1.1 =
      Some (typed_response 200 APPLICATION_JSON (as_bytes "{}")) /\
    length (outbounds_of doc) = 5%nat /\
    Forall (fun ep =>
      match ep_transport ep with
      | VlessReality => vless_admits (server_config reality hysteria ports [bob; carol] 150) (client_outbound carol ep)
      | Hysteria2 => hysteria_admits (server_config reality hysteria ports [bob; carol] 150) (client_outbound carol ep)
      end) (endpoints service).
Proof.
  destruct (served_subscription_works map_to_list service "tok" (V4 1) 0 150 wsub [bob; carol] loaded carol
    "vpn.example.com" client_key "01ab" reality hysteria ports (fun _ => as_bytes "{}")) as (doc & Hr & (groups & Ho & Hg) & Hall).
  - vm_compute. reflexivity.
  - vm_compute. lia.
  - exact loaded_ok.
  - reflexivity.
  - apply list_elem_of_here.
  - vm_compute. reflexivity.
  - intros v Hv Hor. rewrite !elem_of_cons in Hv.
    destruct Hv as [->|[->|Hv]]; [|reflexivity|by apply not_elem_of_nil in Hv].
    exfalso. destruct Hor as [E|[E|E]]; discriminate E.
  - apply list_elem_of_further, list_elem_of_here.
  - reflexivity.
  - reflexivity.
  - reflexivity.
  - exists doc. split; [exact Hr|]. split; [|exact Hall]. rewrite Ho, length_app.
    apply (f_equal length) in Hg. rewrite length_fmap in Hg. rewrite Hg. reflexivity.
Defined.
End SubscriptionWitnesses.
