(* ===== verification/Deployment.v ===== *)
(** * crates/compat-config: [deployment.toml]

    Models deployment.rs: the deployment's settings, their validation, the
    layout of the state directory, and the migration of the file to the current
    schema.  Reading TOML is the [toml] crate's business and a parameter. *)

From stdpp Require Import pretty.
From Stdlib Require Import Strings.Byte Ascii.
From S2P Require Import Prelude Bytes Io Serde Fs Model Store Render.

Definition DEPLOYMENT_SCHEMA_VERSION : Z := 1.

Record UdpProbeSection := {
  ipv4_resolvers : list string;
  ipv6_resolvers : list string;
  udp_retries : Z;
  udp_timeout_ms : Z;
  udp_delay_ms : Z
}.
Record RealitySection := {
  reality_listen_port : Z;
  handshake_server : string;
  handshake_port : Z
}.
Record Hysteria2Section := {
  hysteria2_listen_port : Z;
  up_mbps : option Z;
  down_mbps : option Z
}.
Record SubscriptionSection := {
  subscription_listen_port : Z;
  public_port : Z
}.
(** The two paths are kept as the text of the file; [pathbuf] gives the path. *)
Record DeploymentConfig := {
  schema_version : Z;
  public_host : string;
  subscription_host : string;
  reality : RealitySection;
  hysteria2 : Hysteria2Section;
  subscription : SubscriptionSection;
  udp_probe : option UdpProbeSection;
  state_dir : string;
  singbox_binary : string
}.

Definition default_state_dir : string := "/etc/vpn/compat".
Definition default_singbox_binary : string := "/usr/local/bin/sing-box".
Definition default_handshake_port : Z := 443.
Definition default_public_port : Z := 8443.
Definition default_ipv4_resolvers : list string := ["1.1.1.1"; "8.8.8.8"].
Definition default_ipv6_resolvers : list string := ["2606:4700:4700::1111"; "2001:4860:4860::8888"].
Definition default_udp_retries : Z := 2.
Definition default_udp_timeout_ms : Z := 2000.
Definition default_udp_delay_ms : Z := 250.
Definition UdpProbeSection_default : UdpProbeSection := {|
  ipv4_resolvers := default_ipv4_resolvers;
  ipv6_resolvers := default_ipv6_resolvers;
  udp_retries := default_udp_retries;
  udp_timeout_ms := default_udp_timeout_ms;
  udp_delay_ms := default_udp_delay_ms |}.

(** The components of an absolute path: empty ones and ["."] vanish. *)
Fixpoint split_slash (s : string) : list string :=
  match s with
  | EmptyString => [EmptyString]
  | String c t =>
    if Ascii.eqb c "/"%char then EmptyString :: split_slash t
    else match split_slash t with
         | [] => [String c EmptyString]
         | x :: r => String c x :: r
         end
  end.
Definition pathbuf (s : string) : path :=
  List.filter (fun c => negb (String.eqb c EmptyString) && negb (String.eqb c ".")) (split_slash s).

(** ** Accessors *)
Section Accessors.
Context (cfg : DeploymentConfig).
Definition udp_probe_config : UdpProbeSection := default UdpProbeSection_default (udp_probe cfg).
Definition users_file : path := pathbuf (state_dir cfg) ++ ["users"; "users.json"].
Definition reality_dir : path := pathbuf (state_dir cfg) ++ ["reality"].
Definition reality_private_key_file : path := reality_dir ++ ["private.key"].
Definition reality_public_key_file : path := reality_dir ++ ["public.key"].
Definition hysteria_dir : path := pathbuf (state_dir cfg) ++ ["hysteria"].
Definition hysteria_obfs_password_file : path := reality_dir ++ ["hysteria_obfs_password.txt"].
Definition singbox_config_file : path := pathbuf (state_dir cfg) ++ ["sing-box"; "config.json"].
End Accessors.

(** [toml::from_str::<DeploymentConfig>] *)
Class DeploymentToml := { toml_from_str : string -> result string DeploymentConfig }.

(** [DeploymentConfig::validate] *)
Definition validate (cfg : DeploymentConfig) : result CompatError unit :=
  if DEPLOYMENT_SCHEMA_VERSION <? schema_version cfg
  then Err (CompatError.UnsupportedSchema "deployment.toml" (schema_version cfg) DEPLOYMENT_SCHEMA_VERSION)
  else if negb (Bool.eqb (bool_decide (is_Some (up_mbps (hysteria2 cfg))))
                         (bool_decide (is_Some (down_mbps (hysteria2 cfg)))))
  then Err (CompatError.Parse
    "[hysteria2] up_mbps and down_mbps must be set together (both, or neither) — see docs/PERFORMANCE_OPTIMIZATION_PLAN.md")
  else Ok tt.

Definition load {T : DeploymentToml} (p : path) : IO CompatError DeploymentConfig :=
  do text <- compat_io (fs_read_to_string p);
  do cfg <- io_lift (compat_parse (toml_from_str text));
  io_lift (validate cfg) ;;
  io_ret cfg.

(** ** Migration *)
Inductive DeploymentMigrationOutcome :=
  | DMissing
  | DAlreadyCurrent
  | DMigrated (backup_path : path).

Definition version_line : string := "schema_version = " +:+ pretty DEPLOYMENT_SCHEMA_VERSION +:+ newline.

Definition migrate_deployment_toml_text (original : string) : option string :=
  let already_versioned := existsb
    (fun l => starts_with_bytes (as_bytes "schema_version") (trim_start_bytes l))
    (lines_bytes (as_bytes original)) in
  if already_versioned then None else Some (version_line +:+ original).

(** [serde_json::to_value], by the derived [Serialize]. *)
Definition jopt (o : option json) : json := default JNull o.
Definition udp_probe_value (u : UdpProbeSection) : json := JObj [
  ("ipv4_resolvers", jstrings (ipv4_resolvers u));
  ("ipv6_resolvers", jstrings (ipv6_resolvers u));
  ("retries", JNum (udp_retries u));
  ("timeout_ms", JNum (udp_timeout_ms u));
  ("delay_ms", JNum (udp_delay_ms u))].
Definition deployment_value (c : DeploymentConfig) : json := JObj [
  ("schema_version", JNum (schema_version c));
  ("public_host", JStr (public_host c));
  ("subscription_host", JStr (subscription_host c));
  ("reality", JObj [
    ("listen_port", JNum (reality_listen_port (reality c)));
    ("handshake_server", JStr (handshake_server (reality c)));
    ("handshake_port", JNum (handshake_port (reality c)))]);
  ("hysteria2", JObj [
    ("listen_port", JNum (hysteria2_listen_port (hysteria2 c)));
    ("up_mbps", jopt (JNum <$> up_mbps (hysteria2 c)));
    ("down_mbps", jopt (JNum <$> down_mbps (hysteria2 c)))]);
  ("subscription", JObj [
    ("listen_port", JNum (subscription_listen_port (subscription c)));
    ("public_port", JNum (public_port (subscription c)))]);
  ("udp_probe", jopt (udp_probe_value <$> udp_probe c));
  ("state_dir", JStr (state_dir c));
  ("singbox_binary", JStr (singbox_binary c))].

Section Migrate.
Context {T : DeploymentToml}.

(** Everything that is checked before the disk is touched: the patched text. *)
Definition check_migration (p : path) (original : string) : result CompatError (option string) :=
  original_cfg ← map_err (fun e => CompatError.Parse ("cannot migrate " +:+ path_debug p +:+
    ": existing file does not parse (" +:+ e +:+ "); no changes made")) (toml_from_str original);
  validate original_cfg ≫= fun _ =>
  match migrate_deployment_toml_text original with
  | None => Ok None
  | Some patched =>
    migrated_cfg ← map_err (fun e => CompatError.Parse ("migrated deployment.toml failed to reparse (" +:+
      e +:+ ") — this is a bug, not applying")) (toml_from_str patched);
    validate migrated_cfg ≫= fun _ =>
    if negb (schema_version migrated_cfg =? DEPLOYMENT_SCHEMA_VERSION)
    then Err (CompatError.Parse ("migration produced schema_version " +:+ pretty (schema_version migrated_cfg) +:+
      " (expected " +:+ pretty DEPLOYMENT_SCHEMA_VERSION +:+ ") — refusing to apply"))
    else if negb (json_eqb (jremove "schema_version" (deployment_value original_cfg))
                           (jremove "schema_version" (deployment_value migrated_cfg)))
    then Err (CompatError.Parse
      "migration would change a value other than schema_version — refusing to apply (this is a bug in migrate_deployment_toml_text)")
    else Ok (Some patched)
  end.

Definition migrate_deployment_toml (ts : Z) (p : path) : IO CompatError DeploymentMigrationOutcome :=
  do ex <- path_exists p;
  if negb ex then io_ret DMissing else
  do original <- compat_io (fs_read_to_string p);
  do checked <- io_lift (check_migration p original);
  match checked with
  | None => io_ret DAlreadyCurrent
  | Some patched =>
    do backup_path <- backup_before_mutate ts p;
    atomic_write p (as_bytes patched) 420 ;;
    io_ret (DMigrated backup_path)
  end.
End Migrate.

(** ** Facts *)

Definition with_schema (v : Z) (c : DeploymentConfig) : DeploymentConfig :=
  Build_DeploymentConfig v (public_host c) (subscription_host c) (reality c) (hysteria2 c)
    (subscription c) (udp_probe c) (state_dir c) (singbox_binary c).

Lemma json_eqb_strings a b : json_eqb (jstrings a) (jstrings b) = true -> a = b.
Proof.
  revert b. induction a as [|x a IH]; intros [|y b] E; try done; cbn in E.
  apply andb_prop in E as [->%String.eqb_eq E]. f_equal. by apply IH.
Qed.

Lemma json_eqb_opt_num a b : json_eqb (jopt (JNum <$> a)) (jopt (JNum <$> b)) = true -> a = b.
Proof. destruct a, b; cbn; try done. by intros ->%Z.eqb_eq. Qed.

(** Splits the conjunction of tests that an object comparison amounts to. *)
Ltac split_eqb :=
  repeat match goal with
  | H : (_ && _)%bool = true |- _ => apply andb_prop in H as [? ?]
  | H : String.eqb _ _ = true |- _ => apply String.eqb_eq in H
  | H : (_ =? _) = true |- _ => apply Z.eqb_eq in H
  end.

Lemma json_eqb_opt_udp a b :
  json_eqb (jopt (udp_probe_value <$> a)) (jopt (udp_probe_value <$> b)) = true -> a = b.
Proof.
  destruct a as [[]|], b as [[]|]; cbn -[jstrings]; try done. intros E. split_eqb.
  repeat match goal with Hs : json_eqb (jstrings _) _ = true |- _ => apply json_eqb_strings in Hs end.
  by subst.
Qed.

(** The comparison of the projections settles every field but the version. *)
Lemma same_projection c c' :
  json_eqb (jremove "schema_version" (deployment_value c))
           (jremove "schema_version" (deployment_value c')) = true ->
  c' = with_schema (schema_version c') c.
Proof.
  destruct c as [v ph sh [] [] [] up sd sb], c' as [v' ph' sh' [] [] [] up' sd' sb'].
  cbn -[jopt udp_probe_value]. intros E. split_eqb.
  repeat match goal with
  | Hs : json_eqb (jopt (udp_probe_value <$> _)) _ = true |- _ => apply json_eqb_opt_udp in Hs
  | Hs : json_eqb (jopt (JNum <$> _)) _ = true |- _ => apply json_eqb_opt_num in Hs
  end.
  unfold with_schema. cbn. by subst.
Qed.

Lemma migrate_text_Some s t : migrate_deployment_toml_text s = Some t -> t = version_line +:+ s.
Proof. unfold migrate_deployment_toml_text. destruct (existsb _ _); by intros [= <-]. Qed.

(** The marker is found again, whatever follows it. *)
Lemma migrate_text_marked s : migrate_deployment_toml_text (version_line +:+ s) = None.
Proof.
  unfold migrate_deployment_toml_text, lines_bytes. rewrite as_bytes_app.
  change (as_bytes version_line) with (as_bytes "schema_version = 1" ++ [nl]).
  rewrite <-app_assoc. cbn [app]. rewrite split_inclusive_line by (vm_compute; repeat constructor; discriminate).
  by rewrite fmap_cons.
Qed.

Section MigrateFacts.
Context {T : DeploymentToml}.

Lemma check_migration_Some p s patched :
  check_migration p s = Ok (Some patched) ->
  patched = version_line +:+ s /\
  exists c, toml_from_str s = Ok c /\ toml_from_str patched = Ok (with_schema DEPLOYMENT_SCHEMA_VERSION c) /\
    validate (with_schema DEPLOYMENT_SCHEMA_VERSION c) = Ok tt.
Proof.
  unfold check_migration. intros H. inv_result.
  destruct (migrate_deployment_toml_text s) as [t|] eqn:Et; [|by inv_result].
  apply migrate_text_Some in Et. inv_result.
  destruct (negb (schema_version _ =? _)) eqn:Ev; [done|].
  destruct (negb (json_eqb _ _)) eqn:Ej; [done|].
  apply negb_false_iff in Ev, Ej. apply Z.eqb_eq in Ev. apply same_projection in Ej.
  inv_result. simplify_eq. split; [done|]. eexists. split; [done|].
  rewrite Ev in Ej. rewrite <-Ej. destruct x2. done.
Qed.

Lemma check_migration_current p s :
  check_migration p s = Ok None -> exists l, l ∈ lines_bytes (as_bytes s) /\
    starts_with_bytes (as_bytes "schema_version") (trim_start_bytes l) = true.
Proof.
  unfold check_migration. intros H. inv_result.
  destruct (migrate_deployment_toml_text s) as [t|] eqn:Et.
  - inv_result. by repeat (destruct (negb _); [done|]).
  - unfold migrate_deployment_toml_text in Et. destruct (existsb _ _) eqn:Ex; [|done].
    apply existsb_exists in Ex as (l & Hl & Hs). exists l. by rewrite list_elem_of_In.
Qed.

Lemma fs_read_to_string_Ok_inv p w s w' :
  fs_read_to_string p w = (Ok s, w') ->
  (exists mt, w_fs w !! p = Some (File mt (as_bytes s))) /\ is_str s /\ w' = push_fs (w_fs w) w.
Proof.
  intros (d & w1 & ((mt & Hp) & ->)%fs_read_Ok_inv & [= Hs <-])%io_bind_Ok_inv.
  apply ok_or_Ok_inv, from_utf8_Some in Hs as [Hv <-]. eauto.
Qed.

(** What a reported migration leaves behind. *)
Definition settings_migrated (p b : path) (w w' : world) : Prop :=
  exists mt mt' mb s c,
    w_fs w !! p = Some (File mt (as_bytes s)) /\
    w_fs w' !! p = Some (File mt' (as_bytes (version_line +:+ s))) /\
    w_fs w' !! b = Some (File mb (as_bytes s)) /\
    is_str s /\ toml_from_str s = Ok c /\
    toml_from_str (version_line +:+ s) = Ok (with_schema DEPLOYMENT_SCHEMA_VERSION c) /\
    validate (with_schema DEPLOYMENT_SCHEMA_VERSION c) = Ok tt.

Lemma migrate_deployment_spec ts p w r w' :
  p <> [] ->
  migrate_deployment_toml ts p w = (r, w') ->
  match r with
  | Ok (DMigrated b) => settings_migrated p b w w'
  | _ => w_fs w' !! p = w_fs w !! p
  end.
Proof.
  intros Hp Hm. apply io_bind_inv in Hm as [(ex & w0 & [= <- <-] & Hm)|(e & [=] & _)].
  destruct (exists_at (w_fs w) p); [|by injection Hm as <- <-]. cbn [negb] in Hm.
  apply io_bind_inv in Hm as [(s & w1 & Hr%io_map_err_Ok_inv & Hm)|(e & Hr & ->)];
    [|eapply keeps_final; [|exact Hr]; solve_keeps].
  apply fs_read_to_string_Ok_inv in Hr as ((mt & Hs) & Hu & ->).
  apply io_bind_inv in Hm as [(o & w2 & [= Hc <-] & Hm)|(e & [= Hc <-] & ->)]; [|done].
  destruct o as [patched|]; [|by injection Hm as <- <-].
  apply check_migration_Some in Hc as (-> & c & Hc & Hc' & Hv).
  assert (p <> backup_of ts p) as Hb by (symmetry; apply backup_ne).
  apply io_bind_inv in Hm as [(b & w2 & Hbk & Hm)|(e & Hbk & ->)];
    destruct (keeps_final _ _ _ _ _ (keeps_backup p ts p Hb) Hbk) as (E2 & _); [|done].
  apply backup_Ok_inv in Hbk as (-> & m0 & d0 & mb & Hd0 & Hbk). cbn in Hd0, E2. simplify_eq.
  apply io_bind_inv in Hm as [([] & w3 & Hw & [= <- <-])|(x & Hw & ->)];
    destruct (atomic_write_spec _ _ _ _ _ _ Hw) as (new & _ & Hsp); [|by destruct Hsp as [-> _]].
  destruct Hsp as (mt' & Hp' & _). exists mt, mt', mb, s, c. split_and!; try done.
  rewrite <-Hbk. eapply keeps_atomic_write_other; [| | |done]; [|done|].
  - apply sibling_not_below.
  - by apply backup_ne_tmp.
Qed.

(** Migrating the deployment's settings never changes a setting.  If
    [migrate_deployment_toml] reports a migration, then the new file is the old
    text, byte for byte, behind one version line; both read as the same
    settings up to the version, which is now current and passes validation; and
    the reported backup holds the old bytes.  In every other outcome, refusals
    and failed system calls included, the file is untouched. *)
Theorem migrate_deployment_preserves ts p w r w' :
  p <> [] ->
  migrate_deployment_toml ts p w = (r, w') ->
  match r with
  | Ok (DMigrated b) => exists mt mt' mb s c,
      w_fs w !! p = Some (File mt (as_bytes s)) /\
      w_fs w' !! p = Some (File mt' (as_bytes (version_line +:+ s))) /\
      w_fs w' !! b = Some (File mb (as_bytes s)) /\
      toml_from_str s = Ok c /\
      toml_from_str (version_line +:+ s) = Ok (with_schema DEPLOYMENT_SCHEMA_VERSION c) /\
      validate (with_schema DEPLOYMENT_SCHEMA_VERSION c) = Ok tt
  | _ => w_fs w' !! p = w_fs w !! p
  end.
Proof.
  intros Hp Hm%migrate_deployment_spec; [|done]. destruct r as [[]|]; try done.
  destruct Hm as (mt & mt' & mb & s & c & ? & ? & ? & _ & ? & ? & ?). by exists mt, mt', mb, s, c.
Qed.

(** Migrating the settings is idempotent: after a migration, a second run
    whose read meets no fault reports that the file is current and writes
    nothing. *)
Theorem migrate_deployment_idempotent ts ts' p w b w1 :
  p <> [] ->
  migrate_deployment_toml ts p w = (Ok (DMigrated b), w1) ->
  w_fault w1 (w_ops w1) = None ->
  exists w2, migrate_deployment_toml ts' p w1 = (Ok DAlreadyCurrent, w2) /\ w_fs w2 = w_fs w1.
Proof.
  intros Hp (mt & mt' & mb & s & c & _ & Hf & _ & Hu & _ & Ht & Hv)%migrate_deployment_spec Hnf; [|done].
  assert (from_utf8 (as_bytes (version_line +:+ s)) = Some (version_line +:+ s)) as Hu'.
  { apply from_utf8_Some. split; [|done]. by rewrite as_bytes_app. }
  unfold migrate_deployment_toml. unfold io_bind at 1. rewrite path_exists_run, (exists_at_Some _ _ _ Hf).
  cbn [negb]. unfold io_bind at 1, compat_io, io_map_err, fs_read_to_string. unfold io_bind at 1.
  rewrite (fs_read_ok _ _ _ _ Hnf Hf). unfold io_lift at 1. rewrite Hu'. cbn [ok_or map_err].
  unfold io_bind, io_lift, check_migration. rewrite Ht. cbn [map_err mbind result_bind]. rewrite Hv.
  cbn [result_bind mbind]. rewrite migrate_text_marked. eauto.
Qed.
End MigrateFacts.

(** ** Concrete runs: a reader that knows two files *)
Module DeploymentDemo.
Import StoreDemo.
Definition toml_path : path := ["etc"; "vpn"; "deployment.toml"].
Definition settings : DeploymentConfig := {|
  schema_version := 0; public_host := "vpn.example.com"; subscription_host := "sub.example.com";
  reality := {| reality_listen_port := 443; handshake_server := "www.example.com";
                handshake_port := default_handshake_port |};
  hysteria2 := {| hysteria2_listen_port := 8443; up_mbps := None; down_mbps := None |};
  subscription := {| subscription_listen_port := 8090; public_port := default_public_port |};
  udp_probe := None; state_dir := default_state_dir; singbox_binary := default_singbox_binary |}.
Definition text : string := "public_host = 'vpn.example.com'".
#[export] Instance toml : DeploymentToml := {| toml_from_str := fun s =>
  if String.eqb s text then Ok settings
  else if String.eqb s (version_line +:+ text) then Ok (with_schema 1 settings)
  else Err "expected a key" |}.
Definition wtoml : world := calm_world (<[toml_path := File (Meta 420 0 0) (as_bytes text)]> disk).
Definition migrated_world : world := snd (migrate_deployment_toml 7 toml_path wtoml).
Lemma migrated_run : migrate_deployment_toml 7 toml_path wtoml =
  (Ok (DMigrated (backup_of 7 toml_path)), migrated_world).
Proof.
  unfold migrated_world.
  refine (run_of_fst (migrate_deployment_toml 7 toml_path) wtoml (Ok (DMigrated (backup_of 7 toml_path))) _).
  vm_compute. reflexivity.
Qed.
End DeploymentDemo.

Section DeploymentWitnesses.
Import StoreDemo DeploymentDemo.

Lemma migrate_deployment_preserves_witness :
  exists mt' mb, w_fs migrated_world !! toml_path = Some (File mt' (as_bytes (version_line +:+ text))) /\
    w_fs migrated_world !! backup_of 7 toml_path = Some (File mb (as_bytes text)).
Proof.
  assert (toml_path <> []) as Hp by discriminate.
  destruct (migrate_deployment_preserves 7 toml_path wtoml _ migrated_world Hp migrated_run)
    as (mt & mt' & mb & s & c & Hs & Hn & Hb & _).
  assert (as_bytes s = as_bytes text) as Es.
  { assert (w_fs wtoml !! toml_path = Some (File (Meta 420 0 0) (as_bytes text))) as E by (vm_compute; reflexivity).
    rewrite E in Hs. congruence. }
  exists mt', mb. rewrite as_bytes_app in Hn |- *. rewrite Es in Hn, Hb. by split.
Defined.

Lemma migrate_deployment_idempotent_witness :
  exists w2, migrate_deployment_toml 8 toml_path migrated_world = (Ok DAlreadyCurrent, w2) /\
    w_fs w2 = w_fs migrated_world.
Proof.
  apply (migrate_deployment_idempotent 7 8 toml_path wtoml (backup_of 7 toml_path)).
  - discriminate.
  - exact migrated_run.
  - vm_compute. reflexivity.
Defined.
End DeploymentWitnesses.
