(* ===== verification/Service.v ===== *)
(** * apps/admin: driving the sing-box service

    Models service.rs: the [systemctl] calls that reload the server and check
    that it stays up.  Each call is an external command of the world; the
    monotonic clock of the verification loop is the class [Clock]. *)

From Stdlib Require Import Strings.Byte.
From S2P Require Import Prelude Bytes Io Fs.

(** What the clocks show.  [wall n] is [UnixSeconds::now()] after [n] calls of
    the run; [instants n i] is the i-th [Instant::now()] of the verification
    that starts when [n] commands have run. *)
Class Clock := { wall : nat -> Z; instants : nat -> nat -> Z }.

Record CompatibilityServiceManager := {
  systemctl_binary : string;
  service_name : string;
  settle : Z  (* milliseconds *)
}.
Definition manager_new (service_name : string) : CompatibilityServiceManager :=
  {| systemctl_binary := "systemctl"; service_name := service_name; settle := 300 |}.
Definition manager_default : CompatibilityServiceManager := manager_new "sing-box".

Section Manager.
Context {C : Clock} (mgr : CompatibilityServiceManager).

(** One retry when the command could not be started. *)
Definition run (args : list string) : IO io_error output :=
  io_try (run_command (systemctl_binary mgr :: args)) (fun r =>
    match r with
    | Ok o => io_ret o
    | Err _ => run_command (systemctl_binary mgr :: args)
    end).
Definition probe {E : Type} (args : list string) (test : output -> bool) : IO E bool :=
  io_try (run args) (fun r => io_ret match r with Ok o => test o | Err _ => false end).

Definition is_available {E : Type} : IO E bool := probe ["--version"] success.
Definition is_unit_installed {E : Type} : IO E bool :=
  let unit_name := service_name mgr +:+ ".service" in
  probe ["show"; "-p"; "LoadState"; "--value"; unit_name]
    (fun o => success o && String.eqb (trim (from_utf8_lossy (stdout o))) "loaded").
Definition is_active {E : Type} : IO E bool := probe ["is-active"; "--quiet"; service_name mgr] success.
Definition is_failed {E : Type} : IO E bool := probe ["is-failed"; "--quiet"; service_name mgr] success.

Definition reload_args : list string := ["reload-or-restart"; service_name mgr].
Definition reload_or_restart : IO string unit :=
  do output <- io_map_err (fun e => "failed to invoke systemctl: " +:+ message e) (run reload_args);
  if success output then io_ret tt
  else io_err ("systemctl reload-or-restart " +:+ service_name mgr +:+ " failed: " +:+
               from_utf8_lossy (stderr output)).

(** The loop of [reload_and_verify]; [i] numbers the readings of the clock. *)
Fixpoint verify_loop (fuel : nat) (clock : nat -> Z) (deadline : Z) (i : nat)
    (consecutive_active : Z) : IO string unit :=
  match fuel with
  | O => io_err "out of fuel"
  | S k =>
    if clock i <? deadline then
      do active <- is_active;
      if active then
        let consecutive_active := consecutive_active + 1 in
        if consecutive_active =? 3 then io_ret tt
        else verify_loop k clock deadline (S i) consecutive_active
      else verify_loop k clock deadline (S i) 0
    else io_err (service_name mgr +:+ " did not remain active after reload")
  end.

Definition reload_and_verify : IO string unit :=
  reload_or_restart ;;
  fun w =>
    let clock := instants (length (w_log w)) in
    verify_loop 11 clock (clock 0%nat + settle mgr * 10) 1 0 w.

(** ** Facts *)

(** What a computation that only runs commands does to the world: the log grows
    by entries that saw the disk as it is and satisfy [P]. *)
Definition logged (w : world) (new : list (list string * fs * result io_error output)) : world :=
  World (w_fs w) (w_hist w) (w_ops w) (w_fault w) (w_proc w) (w_run w) (new ++ w_log w).
Definition commands {E A : Type} (P : list string -> Prop) (m : IO E A) : Prop :=
  forall w r w', m w = (r, w') ->
    exists new, w' = logged w new /\ Forall (fun e => P e.1.1 /\ e.1.2 = w_fs w) new.

Lemma logged_nil w : logged w [] = w.
Proof. by destruct w. Qed.
Lemma logged_app w l l' : logged (logged w l) l' = logged w (l' ++ l).
Proof. unfold logged. cbn. by rewrite app_assoc. Qed.

Lemma commands_ret {E A : Type} P (a : A) : commands (E := E) P (io_ret a).
Proof. intros w r w' [= <- <-]. exists []. by rewrite logged_nil. Qed.
Lemma commands_err {E A : Type} P (e : E) : commands (A := A) P (io_err e).
Proof. intros w r w' [= <- <-]. exists []. by rewrite logged_nil. Qed.
Lemma commands_run (P : list string -> Prop) argv : P argv -> commands P (run_command argv).
Proof. intros HP w r w' [= <- <-]. eexists [_]. split; [done|]. by repeat constructor. Qed.
Lemma commands_try {E F A B : Type} P (m : IO E A) (k : result E A -> IO F B) :
  commands P m -> (forall r, commands P (k r)) -> commands P (io_try m k).
Proof.
  intros Hm Hk w r w' (r1 & w1 & H1 & H2)%io_try_inv.
  apply Hm in H1 as (l1 & -> & F1). apply Hk in H2 as (l2 & -> & F2).
  exists (l2 ++ l1). rewrite logged_app. split; [done|]. by apply Forall_app.
Qed.
Lemma commands_bind {E A B : Type} P (m : IO E A) (k : A -> IO E B) :
  commands P m -> (forall a, commands P (k a)) -> commands P (io_bind m k).
Proof.
  intros Hm Hk.
  assert (commands P (io_try m (fun r => match r with Ok a => k a | Err e => io_err e end))) as Ht.
  { apply commands_try; [done|]. intros []; [apply Hk|apply commands_err]. }
  intros w r w' H. apply (Ht w r w'). unfold io_try, io_bind in *. by destruct (m w) as [[]].
Qed.
Lemma commands_keeps {E A : Type} P p (m : IO E A) : commands P m -> keeps p m.
Proof.
  intros Hm w r w' (new & -> & _)%Hm. split; [done|]. exists []. split; [|done].
  split_and!; try done. by apply suffix_app_r.
Qed.

Lemma commands_probe {E : Type} (P : list string -> Prop) args test :
  P (systemctl_binary mgr :: args) -> commands (E := E) P (probe args test).
Proof.
  intros HP. repeat (apply commands_try; [|intros []]); auto using commands_ret, commands_run.
Qed.

Lemma commands_map_err {E F A : Type} P (g : E -> F) (m : IO E A) : commands P m -> commands P (io_map_err g m).
Proof. by intros Hm w r w' (r0 & H0%Hm & _)%io_map_err_inv. Qed.

(** A verified reload runs nothing but the reload and the check that follows it. *)
Lemma commands_verify_loop (P : list string -> Prop) fuel clock deadline i n :
  P [systemctl_binary mgr; "is-active"; "--quiet"; service_name mgr] ->
  commands P (verify_loop fuel clock deadline i n).
Proof.
  intros HP. revert i n. induction fuel as [|fuel IH]; intros i n; cbn [verify_loop]; [apply commands_err|].
  destruct (clock i <? deadline); [|apply commands_err].
  apply commands_bind; [by apply commands_probe|]. intros []; [|apply IH].
  destruct (n + 1 =? 3); [apply commands_ret|apply IH].
Qed.
Lemma commands_reload_and_verify (P : list string -> Prop) :
  P (systemctl_binary mgr :: reload_args) ->
  P [systemctl_binary mgr; "is-active"; "--quiet"; service_name mgr] ->
  commands P reload_and_verify.
Proof.
  intros Hr Ha. apply commands_bind.
  - unfold reload_or_restart. apply commands_bind.
    + apply commands_map_err. unfold run. apply commands_try; [by apply commands_run|].
      intros []; [apply commands_ret|by apply commands_run].
    + intros o. destruct (success o); [apply commands_ret|apply commands_err].
  - intros _ w r w' H. by apply (commands_verify_loop P) in H.
Qed.

(** The disk that the running server last loaded its configuration from: the one
    seen by the latest reload that succeeded. *)
Definition is_reload (e : list string * fs * result io_error output) : bool :=
  bool_decide (e.1.1 = systemctl_binary mgr :: reload_args) &&
  match e.2 with Ok o => success o | Err _ => false end.
Definition live_disk (log : list (list string * fs * result io_error output)) : option fs :=
  (fun e => e.1.2) <$> List.find is_reload log.

Definition not_reload (argv : list string) : Prop := argv <> systemctl_binary mgr :: reload_args.

Lemma live_disk_app new log :
  Forall (fun e => not_reload e.1.1) new -> live_disk (new ++ log) = live_disk log.
Proof.
  induction 1 as [|e new He Hn IH]; [done|]. unfold live_disk in *. cbn. unfold is_reload at 1.
  by rewrite (bool_decide_false _ He).
Qed.

Lemma probe_quiet {E : Type} args test w (r : result E bool) w' :
  args <> reload_args -> probe args test w = (r, w') ->
  exists new, w' = logged w new /\ live_disk (w_log w') = live_disk (w_log w).
Proof.
  intros Hne Hr. apply (commands_probe not_reload) in Hr as (new & -> & HF); [|by intros [=]].
  exists new. split; [done|]. apply live_disk_app. eapply Forall_impl; [exact HF|]. by intros ? [].
Qed.

(** A reload that reports success loaded the disk as it is; one that reports
    failure loaded nothing. *)
Lemma reload_or_restart_spec w r w' :
  reload_or_restart w = (r, w') ->
  exists new, w' = logged w new /\
    live_disk (w_log w') = match r with Ok _ => Some (w_fs w) | Err _ => live_disk (w_log w) end.
Proof.
  unfold reload_or_restart, run, io_bind, io_map_err, io_try, run_command. cbn.
  set (argv := systemctl_binary mgr :: reload_args).
  assert (forall f o log, live_disk ((argv, f, o) :: log) =
    match o with Ok x => if success x then Some f else live_disk log | Err _ => live_disk log end) as Hl.
  { intros f o log. unfold live_disk. cbn. unfold is_reload at 1. cbn. rewrite bool_decide_true by done.
    destruct o as [x|]; [|done]. by destruct (success x). }
  destruct (w_run w (length (w_log w)) argv (w_fs w)) as [o|e]; cbn.
  - destruct (success o) eqn:Es; intros [= <- <-]; eexists [_]; (split; [reflexivity|]); cbn -[live_disk]; by rewrite Hl, Es.
  - destruct (w_run w (S (length (w_log w))) argv (w_fs w)) as [o|e']; cbn.
    + destruct (success o) eqn:Es; intros [= <- <-]; eexists [_; _]; (split; [reflexivity|]); cbn -[live_disk];
        by rewrite !Hl, ?Es.
    + intros [= <- <-]; eexists [_; _]; (split; [reflexivity|]); cbn -[live_disk]; by rewrite !Hl.
Qed.

Lemma is_active_args : ["is-active"; "--quiet"; service_name mgr] <> reload_args.
Proof. done. Qed.

Lemma verify_loop_quiet fuel clock deadline i n w r w' :
  verify_loop fuel clock deadline i n w = (r, w') ->
  exists new, w' = logged w new /\ live_disk (w_log w') = live_disk (w_log w).
Proof.
  revert i n w. induction fuel as [|fuel IH]; intros i n w; cbn [verify_loop].
  { intros [= <- <-]. exists []. by rewrite logged_nil. }
  destruct (clock i <? deadline); [|intros [= <- <-]; exists []; by rewrite logged_nil].
  intros [(a & w1 & H1 & H2)|(e & H1 & ->)]%io_bind_inv;
    apply probe_quiet in H1 as (l1 & -> & L1); [|done|eauto|done].
  destruct a; [destruct (n + 1 =? 3)|].
  - injection H2 as <- <-. eauto.
  - apply IH in H2 as (l2 & -> & L2). exists (l2 ++ l1). rewrite <-logged_app. split; [done|congruence].
  - apply IH in H2 as (l2 & -> & L2). exists (l2 ++ l1). rewrite <-logged_app. split; [done|congruence].
Qed.

(** The answers systemctl gave, latest first: each command that could be started
    and whether it succeeded. *)
Definition answers (log : list (list string * fs * result io_error output)) : list (list string * bool) :=
  omap (fun e => match e.2 with Ok o => Some (e.1.1, success o) | Err _ => None end) log.
Definition active_answer : list string * bool :=
  ([systemctl_binary mgr; "is-active"; "--quiet"; service_name mgr], true).

Lemma is_active_true {E : Type} w w' :
  is_active (E := E) w = (Ok true, w') -> answers (w_log w') = active_answer :: answers (w_log w).
Proof.
  unfold is_active, probe, run, io_try, run_command. cbn.
  destruct (w_run w (length (w_log w)) _ (w_fs w)) as [o|e]; cbn.
  - intros [= Hs <-]. cbn. by rewrite Hs.
  - destruct (w_run w (S (length (w_log w))) _ (w_fs w)) as [o|e']; cbn; [|done].
    intros [= Hs <-]. cbn. by rewrite Hs.
Qed.

Lemma verify_loop_active fuel clock deadline i (n : nat) w w' :
  (n < 3)%nat -> take n (answers (w_log w)) = replicate n active_answer ->
  verify_loop fuel clock deadline i (Z.of_nat n) w = (Ok tt, w') ->
  take 3 (answers (w_log w')) = replicate 3 active_answer.
Proof.
  revert i n w. induction fuel as [|fuel IH]; intros i n w Hn Ha; cbn [verify_loop]; [done|].
  destruct (clock i <? deadline); [|done].
  intros ([] & w1 & H1 & H2)%io_bind_Ok_inv; [|by apply (IH (S i) 0%nat w1 ltac:(lia) eq_refl)].
  apply is_active_true in H1.
  assert (take (S n) (answers (w_log w1)) = replicate (S n) active_answer) as Ha1
    by (rewrite H1; cbn; by rewrite Ha).
  destruct (Z.of_nat n + 1 =? 3) eqn:E.
  - injection H2 as <-. apply Z.eqb_eq in E. by replace 3%nat with (S n) by lia.
  - apply Z.eqb_neq in E. replace (Z.of_nat n + 1) with (Z.of_nat (S n)) in H2 by lia.
    eapply (IH (S i) (S n) w1); [lia|done|done].
Qed.

Lemma reload_and_verify_spec w r w' :
  reload_and_verify w = (r, w') ->
  exists new, w' = logged w new /\
  match r with
  | Ok _ => live_disk (w_log w') = Some (w_fs w) /\
      take 3 (answers (w_log w')) = replicate 3 active_answer
  | Err _ => live_disk (w_log w') = Some (w_fs w) \/ live_disk (w_log w') = live_disk (w_log w)
  end.
Proof.
  intros [([] & w1 & H1 & H2)|(e & H1 & ->)]%io_bind_inv;
    apply reload_or_restart_spec in H1 as (l1 & -> & L1); [|eauto].
  pose proof H2 as Hq. apply verify_loop_quiet in Hq as (l2 & -> & L2).
  exists (l2 ++ l1). rewrite logged_app in *. split; [done|]. destruct r as [[]|]; [|left; congruence].
  split; [congruence|]. by apply (verify_loop_active _ _ _ _ 0%nat) in H2; [|lia|].
Qed.

(** A reload reported as verified really loaded the files on disk, and the
    server stayed up: the latest successful reload of the run saw the disk as it
    is now, the disk was not changed, and the last three answers of systemctl
    are three consecutive reports that the service is active. *)
Theorem reload_verified_is_live w w' :
  reload_and_verify w = (Ok tt, w') ->
  w_fs w' = w_fs w /\ live_disk (w_log w') = Some (w_fs w) /\
  take 3 (answers (w_log w')) = replicate 3 active_answer.
Proof. intros (new & -> & Hl & Ha)%reload_and_verify_spec. done. Qed.

(** *** The loop ends *)

(** [thread::sleep] sleeps at least as long as it is told to. *)
Definition sleeps (clock : nat -> Z) : Prop :=
  0 <= settle mgr /\ clock 0%nat <= clock 1%nat /\
  forall i, clock (S i) + settle mgr <= clock (S (S i)).

Lemma sleeps_by clock i : sleeps clock -> clock 0%nat + Z.of_nat i * settle mgr <= clock (S i).
Proof.
  intros (Hp & H0 & Hs). induction i as [|i IH]; [lia|]. specialize (Hs i). rewrite Nat2Z.inj_succ. nia.
Qed.

Lemma verify_loop_fuel clock fuel extra i n :
  sleeps clock -> (11 <= fuel + i)%nat -> forall w,
  verify_loop (S fuel + extra) clock (clock 0%nat + settle mgr * 10) i n w =
  verify_loop (S fuel) clock (clock 0%nat + settle mgr * 10) i n w.
Proof.
  intros Hs. revert i n. induction fuel as [|fuel IH]; intros i n Hi w; cbn [plus verify_loop].
  - destruct i as [|i]; [lia|]. pose proof (sleeps_by clock i Hs). destruct Hs as (Hp & _).
    destruct (clock (S i) <? _) eqn:E; [|done]. apply Z.ltb_lt in E. nia.
  - destruct (clock i <? _); [|done]. apply io_bind_ext; [done|]. intros [] w1.
    + destruct (n + 1 =? 3); [done|]. apply (IH (S i)); lia.
    + apply (IH (S i)); lia.
Qed.

(** The wait for the service is bounded.  As the loop sleeps between two
    looks at the clock, no further round is possible after the tenth: allowing
    the loop more rounds never changes what it returns, so the eleven of the
    model are all the rounds the code can make. *)
Theorem verify_rounds_bounded clock extra w :
  sleeps clock ->
  verify_loop (11 + extra) clock (clock 0%nat + settle mgr * 10) 1 0 w =
  verify_loop 11 clock (clock 0%nat + settle mgr * 10) 1 0 w.
Proof. intros Hs. by apply (verify_loop_fuel clock 10). Qed.
End Manager.

(** ** Concrete runs *)
Module ServiceDemo.
Definition clock : Clock := {| wall := fun _ => 150; instants := fun _ i => 300 * Z.of_nat i |}.
Definition quiet : world := calm_world ∅.
Definition reloaded : world := snd (reload_and_verify (C := clock) manager_default quiet).
End ServiceDemo.

Section ServiceWitnesses.
Import ServiceDemo.

Lemma reload_verified_is_live_witness :
  live_disk manager_default (w_log reloaded) = Some ∅ /\
  take 3 (answers (w_log reloaded)) = replicate 3 (active_answer manager_default).
Proof.
  refine (proj2 (reload_verified_is_live (C := clock) manager_default quiet reloaded _)).
  refine (run_of_fst (reload_and_verify (C := clock) manager_default) quiet (Ok tt) _).
  vm_compute. reflexivity.
Defined.

Lemma verify_rounds_bounded_witness :
  verify_loop manager_default 50 (fun i => 300 * Z.of_nat i) 3000 1 0 quiet =
  verify_loop manager_default 11 (fun i => 300 * Z.of_nat i) 3000 1 0 quiet.
Proof.
  apply (verify_rounds_bounded manager_default (fun i => 300 * Z.of_nat i) 39 quiet).
  split; [|split]; cbn [settle manager_default manager_new]; [lia|lia|]. intros i. lia.
Defined.
End ServiceWitnesses.
