(* ===== verification/Anyhow.v ===== *)
(** * apps/admin: errors and the wall clock

    [anyhow::Error] as main.rs builds it: a cause under the contexts attached to
    it on the way up, with the text it is printed as. *)

From stdpp Require Import pretty.
From S2P Require Import Prelude Bytes Io Fs Model Service.

(** ** Errors ([anyhow::Error]): a cause under the contexts attached to it *)
Inductive Cause :=
  | Bail (text : string)
  | FromIo (e : io_error)
  | FromCompat (e : CompatError)
  (** the running server could not be reloaded; [recovered]: it runs the previous configuration *)
  | ReloadFailed (reload_err : string) (recovered : bool)
  | HandshakeFailed (recovered : bool)
  | CommitFailed (save_error : CompatError) (rolled_back : bool)
  (** a rotation of [what] failed; what became of the files and of the two services *)
  | RotationFailed (what reason : string) (files_restored singbox_recovered subscription_recovered : bool)
  (** a restore failed; [recovery]: the errors of the rollback, none if it restored and reloaded everything *)
  | RestoreFailed (stage reason : string) (recovery : list string).
Record anyhow := { contexts : list string; cause : Cause }.
Definition error (c : Cause) : anyhow := {| contexts := []; cause := c |}.
Definition bail (text : string) : anyhow := error (Bail text).
Definition with_context (c : string) (e : anyhow) : anyhow :=
  {| contexts := c :: contexts e; cause := cause e |}.

(** The text of a failed publication, by what became of the running server. *)
Definition recovery_text (recovered : bool) : string :=
  if recovered
  then "Previous working config was restored and the service was reloaded back to it successfully — the server is running the PREVIOUS configuration now."
  else "Attempted to restore the previous config but that ALSO failed to reload — the service may be in a broken state. Manual intervention required: check `systemctl status sing-box` and `journalctl -u sing-box`.".
(** [Display] of [CompatError] *)
Definition compat_text (e : CompatError) : string :=
  match e with
  | CompatError.Io m => "io error: " +:+ m
  | CompatError.Parse m => "parse error: " +:+ m
  | CompatError.ConfigValidationFailed m => "config validation failed: " +:+ m
  | CompatError.WrongTransportForEndpoint => "endpoint's public_parameters do not match the requested transport"
  | CompatError.UserNotFound => "user not found"
  | CompatError.UnsupportedSchema what found max_supported =>
      what +:+ " schema version " +:+ pretty found +:+ " is newer than this vpn-admin supports (max " +:+
      pretty max_supported +:+ ") — refusing to load it: an older binary cannot safely assume it still understands every field. Upgrade vpn-admin, or restore a compatible backup."
  end.
(** [Display] of the cause; of a failed rotation the advice to the operator is
    abridged. *)
Definition cause_text (c : Cause) : string :=
  match c with
  | Bail text => text
  | FromIo e => message e
  | FromCompat e => compat_text e
  | ReloadFailed reload_err recovered =>
      "sing-box reload failed after applying the new config (" +:+ reload_err +:+
      "). The requested change did NOT take effect on the running server. " +:+ recovery_text recovered
  | HandshakeFailed recovered =>
      "sing-box reloaded and stayed active, but a real REALITY handshake self-test against the just-applied config FAILED — a real Hiddify client using this same key material would be rejected identically. The requested change did NOT take effect safely. " +:+
      recovery_text recovered
  | CommitFailed save_error rolled_back =>
      "authorization config was loaded, but users.json could not be committed (" +:+ compat_text save_error +:+ "). " +:+
      (if rolled_back
       then "The previous authorization config was restored and reloaded successfully."
       else "ROLLBACK ALSO FAILED; running authorization may not match users.json. Run `vpn-admin render-config` and `vpn-admin doctor --protocol` immediately.")
  | RotationFailed what reason files_restored singbox_recovered subscription_recovered =>
      let flag (b : bool) := if b then "true" else "false" in
      if files_restored && singbox_recovered && subscription_recovered
      then what +:+ " rotation FAILED (" +:+ reason +:+
        "). Previous state was restored and both services were verified healthy on it — no client-visible change occurred."
      else what +:+ " rotation FAILED (" +:+ reason +:+ "). ROLLBACK ALSO FAILED (files_restored=" +:+
        flag files_restored +:+ ", sing-box_recovered=" +:+ flag singbox_recovered +:+
        ", subscription_recovered=" +:+ flag subscription_recovered +:+
        "). The server may be in a broken/inconsistent state. Manual intervention required."
  | RestoreFailed stage reason recovery =>
      "restore FAILED while " +:+ stage +:+ " (" +:+ reason +:+ "). " +:+
      match recovery with
      | [] => "Rollback restored and reloaded the complete previous state."
      | _ => "ROLLBACK ALSO FAILED (" +:+ String.concat "; " recovery +:+
             "); deployment may be inconsistent and needs manual recovery from .rotate-bak files."
      end
  end.
(** [{e}] of an [anyhow::Error]: the outermost context, else the cause. *)
Definition anyhow_text (e : anyhow) : string := default (cause_text (cause e)) (head (contexts e)).

(** [{e:#}]: every context, then the cause. *)
Definition anyhow_chain (e : anyhow) : string := String.concat ": " (contexts e ++ [cause_text (cause e)]).

(** [?] on the errors of the libraries *)
Definition from_io {A : Type} (m : IO io_error A) : IO anyhow A := io_map_err (fun e => error (FromIo e)) m.
Definition from_compat {A : Type} (m : IO CompatError A) : IO anyhow A :=
  io_map_err (fun e => error (FromCompat e)) m.
Definition context {A : Type} (c : string) (m : IO anyhow A) : IO anyhow A := io_map_err (with_context c) m.

(** [UnixSeconds::now().0 as i64] *)
Definition io_now {C : Clock} {E : Type} : IO E Z := fun w => (Ok (wall (w_ops w + length (w_log w))), w).
