(* ===== verification/Selftest.v ===== *)
(** * apps/admin: the handshake self-tests

    Models the harness with which main.rs dials the deployment's own listeners:
    a throwaway sing-box client is started on a configuration in a temporary
    file, its local SOCKS port is polled and asked for the subscription
    service's health page, and the client is killed again
    ([run_reality_client_selftest], [run_hysteria2_client_selftest],
    [socks5_http_get_succeeds]); for REALITY the server's journal is consulted
    before and after.

    What the harness meets, the local port, the temporary file, the client
    process and the peer behind its SOCKS port, is the class [SelfTestEnv].  The
    temporary file is not part of the disk of the other components; what is done
    to it and to the client is the list of events of a run. *)

From stdpp Require Import pretty.
From Stdlib Require Import Strings.Byte.
From S2P Require Import Prelude Bytes Io Serde Fs Model Render Server Deployment Service Anyhow.

(** ** The SOCKS probe *)

(** The peer of a TCP connection with timeouts: which writes it takes, all it
    has sent by the time it has received some bytes, and whether it then closes
    its side in time. *)
Record Peer := {
  p_timeouts_set : bool;
  p_takes : nat -> bool;
  p_sends : bytes -> bytes;
  p_closes : bytes -> bool
}.
Record TcpStream := { t_sent : bytes; t_writes : nat; t_read : nat }.

Section Probe.
Context (peer : Peer).

(** [Write::write_all], [Read::read_exact] and [Read::read_to_end]; [None] is
    every error. *)
Definition tcp_write_all (b : bytes) (s : TcpStream) : option TcpStream :=
  if p_takes peer (t_writes s)
  then Some {| t_sent := t_sent s ++ b; t_writes := S (t_writes s); t_read := t_read s |} else None.
Definition tcp_read_exact (n : nat) (s : TcpStream) : option (bytes * TcpStream) :=
  let available := drop (t_read s) (p_sends peer (t_sent s)) in
  if (n <=? length available)%nat
  then Some (take n available, {| t_sent := t_sent s; t_writes := t_writes s; t_read := t_read s + n |}) else None.
Definition tcp_read_to_end (s : TcpStream) : option bytes :=
  if p_closes peer (t_sent s) then Some (drop (t_read s) (p_sends peer (t_sent s))) else None.

Definition socks_greeting : bytes := [x05; x01; x00].
Definition socks_connect (host_bytes : bytes) (port : Z) : bytes :=
  [x05; x01; x00; x03; byte_of (Z.of_nat (length host_bytes))] ++ host_bytes ++
  [byte_of (Z.shiftr port 8); byte_of (Z.land port 255)].
Definition http_request (target_host target_path : string) : bytes :=
  as_bytes ("GET " +:+ target_path +:+ " HTTP/1.0" +:+ crlf +:+ "Host: " +:+ target_host +:+ crlf +:+
    "Connection: close" +:+ crlf +:+ crlf).

(** How many bytes of the reply follow its head. *)
Definition trailing_len (atyp : byte) (s : TcpStream) : option (nat * TcpStream) :=
  match atyp with
  | x01 => Some (6%nat, s)
  | x04 => Some (18%nat, s)
  | x03 => '(len, s) ← tcp_read_exact 1 s; Some ((Z.to_nat (byte_val (hd x00 len)) + 2)%nat, s)
  | _ => None
  end.

(** Everything up to the response, with the stream it was read from. *)
Definition socks5_http_exchange (target_host : string) (target_port : Z) (target_path : string)
    : option (bytes * TcpStream) :=
  if negb (p_timeouts_set peer) then None else
  s ← tcp_write_all socks_greeting {| t_sent := []; t_writes := 0; t_read := 0 |};
  '(resp, s) ← tcp_read_exact 2 s;
  if negb (bool_decide (resp = [x05; x00])) then None else
  let host_bytes := as_bytes target_host in
  if bool_decide (host_bytes = []) || (255 <? length host_bytes)%nat then None else
  s ← tcp_write_all (socks_connect host_bytes target_port) s;
  '(head, s) ← tcp_read_exact 4 s;
  if negb (bool_decide (head !! 0%nat = Some x05)) || negb (bool_decide (head !! 1%nat = Some x00)) then None else
  '(n, s) ← trailing_len (default x00 (head !! 3%nat)) s;
  '(_, s) ← tcp_read_exact n s;
  s ← tcp_write_all (http_request target_host target_path) s;
  response ← tcp_read_to_end s;
  Some (response, s).
Definition http_ok (response : bytes) : bool :=
  starts_with_bytes (as_bytes "HTTP/1.0 200") response || starts_with_bytes (as_bytes "HTTP/1.1 200") response.
End Probe.

(** [None]: nothing accepts a connection on the local port. *)
Definition socks5_http_get_succeeds (peer : option Peer) (target_host : string) (target_port : Z)
    (target_path : string) : bool :=
  match peer ≫= fun p => socks5_http_exchange p target_host target_port target_path with
  | Some (response, _) => http_ok response
  | None => false
  end.

(** ** The throwaway client *)

(** A running client: whether its port answers the i-th time it is tried, the
    readings of the clock meanwhile, who is behind the port, and what it writes
    to its standard error. *)
Record Client := {
  cl_reachable : nat -> bool;
  cl_clock : nat -> Z;  (* milliseconds *)
  cl_peer : option Peer;
  cl_stderr : bytes
}.
Record Bench := {
  b_bind : result io_error unit;
  b_local_addr : result io_error Z;
  b_temp : result io_error path;
  b_write : result io_error unit;
  b_spawn : list string -> bytes -> result io_error Client
}.
(** What a self-test meets that starts when [n] commands have run. *)
Class SelfTestEnv := { bench : nat -> Bench }.

Inductive Event :=
  | TempCreated (p : path) | TempWritten (p : path) (data : bytes) | TempRemoved (p : path)
  | ClientStarted (argv : list string) | ClientKilled | ClientReaped.

(** The loop that polls the local port; reading 0 of the clock set the deadline. *)
Fixpoint client_binds (fuel : nat) (reachable : nat -> bool) (clock : nat -> Z) (deadline : Z) (i : nat) : bool :=
  match fuel with
  | O => false
  | S k =>
    if reachable i then true
    else if deadline <=? clock (S i) then false
    else client_binds k reachable clock deadline (S i)
  end.
(** Each round sleeps for 150 ms of the 3 s, see [client_binds_fuel]. *)
Definition client_bound (c : Client) : bool :=
  client_binds 22 (cl_reachable c) (cl_clock c) (cl_clock c 0%nat + 3000) 0.

Section Harness.
Context {JV : Json json}.

(** The contexts under which the steps of the set-up fail. *)
Record Contexts := { reserving : string; creating : string; writing : string; spawning : string }.
Definition step_failed (c : string) (e : io_error) : anyhow := with_context c (error (FromIo e)).

Definition reserve_port (b : Bench) (ctx : Contexts) : result anyhow Z :=
  match b_bind b with
  | Err e => Err (step_failed (reserving ctx) e)
  | Ok _ => map_err (fun e => error (FromIo e)) (b_local_addr b)
  end.

(** From the temporary file to the dead client: whether the health page came
    back through it, and what the client wrote to its standard error.  The
    temporary file is removed when the function returns, on every path. *)
Definition run_client (b : Bench) (ctx : Contexts) (binary : string) (client_config : json) (health_port : Z)
    : result anyhow (bool * string) * list Event :=
  match b_temp b with
  | Err e => (Err (step_failed (creating ctx) e), [])
  | Ok tmp =>
    match to_vec_pretty client_config with
    | Err e => (Err (bail e), [TempCreated tmp; TempRemoved tmp])
    | Ok data =>
      match b_write b with
      | Err e => (Err (step_failed (writing ctx) e), [TempCreated tmp; TempRemoved tmp])
      | Ok _ =>
        let argv := [binary; "run"; "-c"; path_str tmp] in
        match b_spawn b argv data with
        | Err e => (Err (step_failed (spawning ctx) e), [TempCreated tmp; TempWritten tmp data; TempRemoved tmp])
        | Ok client =>
          let relay_ok := client_bound client &&
            socks5_http_get_succeeds (cl_peer client) "127.0.0.1" health_port "/healthz" in
          let captured_stderr := default EmptyString (from_utf8 (cl_stderr client)) in
          (Ok (relay_ok, captured_stderr),
           [TempCreated tmp; TempWritten tmp data; ClientStarted argv; ClientKilled; ClientReaped; TempRemoved tmp])
        end
      end
    end
  end.

Definition mixed_inbound (local_port : Z) : json := JObj [
  ("type", JStr "mixed"); ("tag", JStr "in"); ("listen", JStr "127.0.0.1"); ("listen_port", JNum local_port)].
Definition client_document (local_port : Z) (outbound : json) (final : string) : json := JObj [
  ("log", JObj [("level", JStr "error")]);
  ("inbounds", JArr [mixed_inbound local_port]);
  ("outbounds", JArr [outbound; JObj [("type", JStr "direct"); ("tag", JStr "direct")]]);
  ("route", JObj [("final", JStr final)])].

Definition reality_outbound (reality : RealityServerParams) (test_user : CompatUser) (reality_port : Z) : json := JObj [
  ("type", JStr "vless");
  ("tag", JStr "reality-selftest");
  ("server", JStr "127.0.0.1");
  ("server_port", JNum reality_port);
  ("uuid", JStr (u_vless_uuid test_user));
  ("flow", JStr "xtls-rprx-vision");
  ("tls", JObj [
    ("enabled", JBool true);
    ("server_name", JStr (r_handshake_server reality));
    ("utls", JObj [("enabled", JBool true); ("fingerprint", JStr "chrome")]);
    ("reality", JObj [
      ("enabled", JBool true);
      ("public_key", JStr (r_public_key_hex reality));
      ("short_id", JStr (default EmptyString (head (r_short_ids reality))))])])].

Definition hysteria2_outbound (cfg : DeploymentConfig) (hysteria : Hysteria2ServerParams) (test_user : CompatUser)
    (hysteria_port : Z) : json :=
  let outbound := JObj [
    ("type", JStr "hysteria2");
    ("tag", JStr "hysteria2-selftest");
    ("server", JStr "127.0.0.1");
    ("server_port", JNum hysteria_port);
    ("password", JStr (expose (u_hysteria2_password test_user)));
    ("tls", JObj [
      ("enabled", JBool true);
      ("server_name", JStr (public_host cfg));
      ("insecure", JBool true)])] in
  match h_obfs_password hysteria with
  | Some pw => jset "obfs" (JObj [("type", JStr "salamander"); ("password", JStr (expose pw))]) outbound
  | None => outbound
  end.

(** ** The journal *)
Definition cursor_prefix : bytes := as_bytes "-- cursor: ".
Definition singbox_journal_cursor {E : Type} : IO E (option string) :=
  io_try (run_command ["journalctl"; "-u"; "sing-box"; "-n"; "0"; "--show-cursor"; "--no-pager"; "-q"]) (fun r =>
    io_ret match r with
    | Ok output =>
      if success output
      then str_of_bytes <$> head (omap (strip_prefix_bytes cursor_prefix)
             (lines_bytes (as_bytes (from_utf8_lossy (stdout output)))))
      else None
    | Err _ => None
    end).

Definition journal_has_local_reality_rejection (text : string) : bool :=
  existsb (fun line =>
    contains_bytes (as_bytes "processed invalid connection") line &&
    (contains_bytes (as_bytes "127.0.0.1") line || contains_bytes (as_bytes "[::1]") line))
  (lines_bytes (as_bytes text)).

Definition server_journal_shows_local_processed_invalid_connection_after {E : Type} (cursor : option string) : IO E bool :=
  match cursor with
  | None => io_ret false
  | Some cursor =>
    io_try (run_command ["journalctl"; "-u"; "sing-box"; "--after-cursor"; cursor; "--no-pager"; "-q"]) (fun r =>
      io_ret match r with
      | Ok o => success o && journal_has_local_reality_rejection (from_utf8_lossy (stdout o))
      | Err _ => false
      end)
  end.

Definition reality_selftest_stderr_or_journal_indicates_rejection (captured_stderr : string) (journal_hit : bool) : bool :=
  str_contains "reality verification failed" captured_stderr
  || str_contains "processed invalid connection" captured_stderr
  || journal_hit.

(** ** The self-tests *)
Inductive RealitySelfTestOutcome := Pass | HandshakeRejected | Inconclusive.
Inductive Hysteria2SelfTestOutcome := H2Pass | H2Inconclusive.

Context {S : SelfTestEnv}.
(** What the machine offers now. *)
Definition io_bench {E : Type} : IO E Bench := fun w => (Ok (bench (length (w_log w))), w).

Definition reality_contexts : Contexts := {|
  reserving := "reserving a local port for the throwaway client";
  creating := "creating throwaway client config file";
  writing := "writing throwaway client config";
  spawning := "spawning throwaway sing-box client" |}.
Definition hysteria2_contexts : Contexts := {|
  reserving := "reserving a local port for the throwaway Hysteria2 client";
  creating := "creating throwaway Hysteria2 client config file";
  writing := "writing throwaway Hysteria2 client config";
  spawning := "spawning throwaway sing-box Hysteria2 client" |}.

(** One client, from the local port to its end. *)
Definition dial_through (ctx : Contexts) (cfg : DeploymentConfig) (config : Z -> json) (b : Bench)
    : result anyhow (bool * string) * list Event :=
  match reserve_port b ctx with
  | Err e => (Err e, [])
  | Ok local_port =>
      run_client b ctx (singbox_binary cfg) (config local_port) (subscription_listen_port (subscription cfg))
  end.

Definition reality_client (cfg : DeploymentConfig) (reality : RealityServerParams) (test_user : CompatUser)
    (reality_port : Z) : Bench -> result anyhow (bool * string) * list Event :=
  dial_through reality_contexts cfg (fun local_port =>
    client_document local_port (reality_outbound reality test_user reality_port) "reality-selftest").
Definition hysteria2_client (cfg : DeploymentConfig) (hysteria : Hysteria2ServerParams) (test_user : CompatUser)
    (hysteria_port : Z) : Bench -> result anyhow (bool * string) * list Event :=
  dial_through hysteria2_contexts cfg (fun local_port =>
    client_document local_port (hysteria2_outbound cfg hysteria test_user hysteria_port) "hysteria2-selftest").

Definition run_reality_client_selftest (cfg : DeploymentConfig) (reality : RealityServerParams)
    (test_user : CompatUser) (reality_port : Z) : IO anyhow RealitySelfTestOutcome :=
  do journal_cursor <- singbox_journal_cursor;
  do b <- io_bench;
  do '(relay_ok, captured_stderr) <- io_lift (reality_client cfg reality test_user reality_port b).1;
  if (relay_ok : bool) then io_ret Pass else
  do journal_hit <- server_journal_shows_local_processed_invalid_connection_after journal_cursor;
  io_ret (if reality_selftest_stderr_or_journal_indicates_rejection captured_stderr journal_hit
          then HandshakeRejected else Inconclusive).

Definition run_hysteria2_client_selftest (cfg : DeploymentConfig) (hysteria : Hysteria2ServerParams)
    (test_user : CompatUser) (hysteria_port : Z) : IO anyhow Hysteria2SelfTestOutcome :=
  do b <- io_bench;
  do '(relay_ok, _) <- io_lift (hysteria2_client cfg hysteria test_user hysteria_port b).1;
  io_ret (if (relay_ok : bool) then H2Pass else H2Inconclusive).
End Harness.

(** ** Facts: the machine *)

(** The poll gives the client three seconds and no more: as it sleeps for 150 ms
    between two looks at the clock, more rounds never change what it returns. *)
Definition naps (clock : nat -> Z) : Prop :=
  clock 0%nat <= clock 1%nat /\ forall i, clock (S i) + 150 <= clock (S (S i)).
Lemma naps_by clock i : naps clock -> clock 0%nat + Z.of_nat i * 150 <= clock (S i).
Proof. intros [H0 Hs]. induction i as [|i IH]; [lia|]. specialize (Hs i). lia. Qed.

Lemma client_binds_fuel clock reachable fuel extra i :
  naps clock -> (21 <= fuel + i)%nat ->
  client_binds (S fuel + extra) reachable clock (clock 0%nat + 3000) i =
  client_binds (S fuel) reachable clock (clock 0%nat + 3000) i.
Proof.
  intros Hs. revert i. induction fuel as [|fuel IH]; intros i Hi; cbn [plus client_binds].
  - destruct (reachable i); [done|]. pose proof (naps_by clock i Hs).
    by rewrite (proj2 (Z.leb_le _ _)) by lia.
  - destruct (reachable i); [done|]. destruct (_ <=? _); [done|]. apply (IH (S i)). lia.
Qed.
Lemma client_binds_reachable fuel reachable clock deadline i :
  client_binds fuel reachable clock deadline i = true -> exists j, (i <= j)%nat /\ reachable j = true.
Proof.
  revert i. induction fuel as [|fuel IH]; intros i; [done|]. cbn.
  destruct (reachable i) eqn:E; [by exists i|]. destruct (_ <=? _); [done|].
  intros (j & Hj & Hr)%IH. exists j. split; [lia|done].
Qed.

(** Whatever fails, nothing is left behind: a client that was started is killed
    and reaped, and then the temporary file, if there is one, is removed, the
    file being there and written as long as the client runs. *)
Inductive tidy : list Event -> Prop :=
  | tidy_nothing : tidy []
  | tidy_unused tmp : tidy [TempCreated tmp; TempRemoved tmp]
  | tidy_unstarted tmp data : tidy [TempCreated tmp; TempWritten tmp data; TempRemoved tmp]
  | tidy_run tmp data binary : tidy [TempCreated tmp; TempWritten tmp data;
      ClientStarted [binary; "run"; "-c"; path_str tmp]; ClientKilled; ClientReaped; TempRemoved tmp].

Section HarnessFacts.
Context {JV : Json json}.

Lemma dial_through_tidy ctx cfg config b : tidy (dial_through ctx cfg config b).2.
Proof.
  unfold dial_through, run_client. destruct (reserve_port b ctx); [|constructor].
  destruct (b_temp b); [|constructor]. destruct (to_vec_pretty _); [|constructor].
  destruct (b_write b); [|constructor]. destruct (b_spawn _ _ _); constructor.
Qed.

(** What a client that relayed the health page did. *)
Definition relayed (ctx : Contexts) (cfg : DeploymentConfig) (config : Z -> json) (b : Bench) : Prop :=
  exists local_port tmp data client peer response s,
    reserve_port b ctx = Ok local_port /\ to_vec_pretty (config local_port) = Ok data /\
    b_spawn b [singbox_binary cfg; "run"; "-c"; path_str tmp] data = Ok client /\
    (exists i, cl_reachable client i = true) /\ cl_peer client = Some peer /\
    socks5_http_exchange peer "127.0.0.1" (subscription_listen_port (subscription cfg)) "/healthz" = Some (response, s) /\
    http_ok response = true.

Lemma dial_through_relays ctx cfg config b captured :
  (dial_through ctx cfg config b).1 = Ok (true, captured) -> relayed ctx cfg config b.
Proof.
  unfold dial_through, run_client. destruct (reserve_port b ctx) as [port|] eqn:Ep; [|done].
  destruct (b_temp b) as [tmp|]; [|done]. destruct (to_vec_pretty _) as [data|] eqn:Ed; [|done].
  destruct (b_write b); [|done]. destruct (b_spawn _ _ _) as [client|] eqn:Es; [|done].
  intros [= [Hb Hs]%andb_true_iff _]. unfold socks5_http_get_succeeds in Hs.
  apply client_binds_reachable in Hb as (i & _ & Hi).
  destruct (cl_peer client) as [peer|] eqn:Epeer; [|done]. cbn in Hs.
  destruct (socks5_http_exchange _ _ _ _) as [[response s]|] eqn:Ex; [|done].
  by exists port, tmp, data, client, peer, response, s; split_and!; eauto.
Qed.
End HarnessFacts.

(** ** Facts: the conversation *)

(** A reply that grants the request: its head, an address of one of the three
    kinds, and a port. *)
Inductive granted : bytes -> Prop :=
  | granted_v4 rsv tail : length tail = 6%nat -> granted ([x05; x00; rsv; x01] ++ tail)
  | granted_v6 rsv tail : length tail = 18%nat -> granted ([x05; x00; rsv; x04] ++ tail)
  | granted_domain rsv len tail : length tail = (Z.to_nat (byte_val len) + 2)%nat ->
      granted ([x05; x00; rsv; x03; len] ++ tail).

(** A peer never takes back what it sent. *)
Definition sends_on (peer : Peer) : Prop :=
  forall a b, p_sends peer a `prefix_of` p_sends peer (a ++ b).

Section ProbeFacts.
Context (peer : Peer) (Hpeer : sends_on peer).

(** The bytes read so far are the first that the peer sent. *)
Definition has_read (got : bytes) (s : TcpStream) : Prop :=
  t_read s = length got /\ got `prefix_of` p_sends peer (t_sent s).

Lemma write_has_read b s s' got :
  tcp_write_all peer b s = Some s' -> has_read got s -> has_read got s' /\ t_sent s' = t_sent s ++ b.
Proof.
  unfold tcp_write_all. destruct (p_takes _ _); [|done]. intros [= <-] [Hn Hp]. split; [|done].
  split; [done|]. cbn. etrans; [exact Hp|apply Hpeer].
Qed.
Lemma read_has_read n s x s' got :
  tcp_read_exact peer n s = Some (x, s') -> has_read got s ->
  has_read (got ++ x) s' /\ length x = n /\ t_sent s' = t_sent s.
Proof.
  unfold tcp_read_exact. destruct (Nat.leb_spec n (length (drop (t_read s) (p_sends peer (t_sent s))))) as [Hl|]; [|done].
  intros [= <- <-] [Hn [rest Hp]]. rewrite Hp, Hn, drop_app_length in *. split; [|split; [|done]].
  - split; cbn; [rewrite length_app, length_take; lia|]. rewrite Hp.
    exists (drop n rest). by rewrite <-app_assoc, take_drop.
  - rewrite length_take. lia.
Qed.
Lemma end_has_read s x got :
  tcp_read_to_end peer s = Some x -> has_read got s -> p_sends peer (t_sent s) = got ++ x.
Proof.
  unfold tcp_read_to_end. destruct (p_closes _ _); [|done]. intros [= <-] [Hn [rest Hp]].
  by rewrite Hp, Hn, drop_app_length.
Qed.

Lemma trailing_has_read atyp s n s' rsv got tail s2 :
  trailing_len peer atyp s = Some (n, s') -> tcp_read_exact peer n s' = Some (tail, s2) ->
  has_read (got ++ [x05; x00; rsv; atyp]) s ->
  exists g, granted g /\ has_read (got ++ g) s2 /\ t_sent s2 = t_sent s.
Proof.
  intros Hn Ht Hr. destruct atyp; try done; cbn in Hn.
  - injection Hn as <- <-. destruct (read_has_read _ _ _ _ _ Ht Hr) as (Hr2 & Hl & Hs).
    rewrite <-app_assoc in Hr2. by eexists; split; [by apply granted_v4|].
  - apply bind_Some in Hn as ([len s1] & Hlen & [= <- <-]).
    destruct (read_has_read _ _ _ _ _ Hlen Hr) as (Hr1 & Hl1 & Hs1). destruct len as [|len []]; try done.
    destruct (read_has_read _ _ _ _ _ Ht Hr1) as (Hr2 & Hl2 & Hs2). rewrite <-!app_assoc in Hr2.
    eexists. split; [by apply (granted_domain rsv len tail)|]. split; [exact Hr2|]. by rewrite Hs2.
  - injection Hn as <- <-. destruct (read_has_read _ _ _ _ _ Ht Hr) as (Hr2 & Hl & Hs).
    rewrite <-app_assoc in Hr2. by eexists; split; [by apply granted_v6|].
Qed.

(** The probe sends a greeting, one CONNECT request for the target and, only
    after the request was granted in full, the HTTP request; what it takes for
    the response is all that the peer sent after its grant. *)
Lemma exchange_spec host port target response s :
  socks5_http_exchange peer host port target = Some (response, s) ->
  (0 < length (as_bytes host) <= 255)%nat /\
  t_sent s = socks_greeting ++ socks_connect (as_bytes host) port ++ http_request host target /\
  exists g, granted g /\ p_sends peer (t_sent s) = [x05; x00] ++ g ++ response.
Proof.
  unfold socks5_http_exchange. destruct (p_timeouts_set peer); [|done]. cbn [negb].
  intros (s1 & H1 & H)%bind_Some. apply bind_Some in H as ([resp s2] & H2 & H).
  destruct (write_has_read _ _ _ [] H1) as [R1 S1]; [by split; [|apply prefix_nil]|].
  destruct (read_has_read _ _ _ _ _ H2 R1) as (R2 & _ & S2).
  case_bool_decide as Eresp; [|done]. subst resp. cbn [negb] in H.
  destruct (bool_decide (as_bytes host = [])) eqn:Eh; [done|]. apply bool_decide_eq_false in Eh.
  destruct (Nat.ltb_spec 255 (length (as_bytes host))); [done|]. cbn [orb] in H.
  apply bind_Some in H as (s3 & H3 & H). apply bind_Some in H as ([head s4] & H4 & H).
  destruct (write_has_read _ _ _ _ H3 R2) as [R3 S3]. destruct (read_has_read _ _ _ _ _ H4 R3) as (R4 & L4 & S4).
  destruct head as [|h0 [|h1 [|rsv [|atyp []]]]]; try done. cbn in H.
  do 2 (case_bool_decide as E; [injection E as ->|by rewrite ?orb_true_r in H]). cbn in H.
  apply bind_Some in H as ([n s5] & H5 & H). apply bind_Some in H as ([tail s6] & H6 & H).
  destruct (trailing_has_read _ _ _ _ _ _ _ _ H5 H6 R4) as (g & Hg & R6 & S6).
  apply bind_Some in H as (s7 & H7 & H). apply bind_Some in H as (x & H8 & [= -> ->]).
  destruct (write_has_read _ _ _ _ H7 R6) as [R7 S7]. pose proof (end_has_read _ _ _ H8 R7) as He.
  split; [destruct (as_bytes host); [done|cbn in *; lia]|]. split.
  - by rewrite S7, S6, S4, S3, S2, S1, <-!app_assoc.
  - exists g. by rewrite He, <-app_assoc.
Qed.
End ProbeFacts.

(** ** Facts: the self-tests *)
Definition is_journal (argv : list string) : Prop := head argv = Some "journalctl".

Section SelftestFacts.
Context {JV : Json json} {S : SelfTestEnv}.

Lemma commands_cursor {E : Type} : commands is_journal (singbox_journal_cursor (E := E)).
Proof. apply commands_try; [by apply commands_run|]. intros. apply commands_ret. Qed.
Lemma commands_journal {E : Type} cursor :
  commands is_journal (server_journal_shows_local_processed_invalid_connection_after (E := E) cursor).
Proof.
  destruct cursor; [|apply commands_ret]. apply commands_try; [by apply commands_run|]. intros. apply commands_ret.
Qed.
Lemma commands_bench {E : Type} P : commands P (io_bench (E := E)).
Proof. intros w r w' [= <- <-]. exists []. by rewrite logged_nil. Qed.
Lemma commands_lift {E A : Type} P (x : result E A) : commands P (io_lift x).
Proof. intros w r w' [= <- <-]. exists []. by rewrite logged_nil. Qed.
Hint Resolve commands_cursor commands_journal commands_bench commands_lift commands_ret : core.

(** A self-test reads the journal and changes nothing on the disk. *)
Lemma commands_reality_selftest cfg reality u port :
  commands is_journal (run_reality_client_selftest cfg reality u port).
Proof.
  apply commands_bind; [done|]. intros cursor. apply commands_bind; [done|]. intros b.
  apply commands_bind; [done|]. intros [[] captured]; [done|]. apply commands_bind; [done|]. done.
Qed.
Lemma commands_hysteria2_selftest cfg hysteria u port :
  commands is_journal (run_hysteria2_client_selftest cfg hysteria u port).
Proof.
  apply commands_bind; [done|]. intros b. apply commands_bind; [done|]. intros [relay captured]. apply commands_ret.
Qed.

Lemma cursor_total {E : Type} w : exists c w', singbox_journal_cursor (E := E) w = (Ok c, w').
Proof. unfold singbox_journal_cursor, io_try. destruct (run_command _ w) as [? w']. eauto. Qed.

(** The evidence for a rejection: the client said so, or the journal was marked
    before the test and shows a rejected local connection after it. *)
Definition rejection_seen (captured : string) (marked : option string) (w' : world) : Prop :=
  str_contains "reality verification failed" captured = true \/
  str_contains "processed invalid connection" captured = true \/
  exists cursor f out, marked = Some cursor /\
    head (w_log w') = Some (["journalctl"; "-u"; "sing-box"; "--after-cursor"; cursor; "--no-pager"; "-q"], f, Ok out) /\
    success out = true /\ journal_has_local_reality_rejection (from_utf8_lossy (stdout out)) = true.

Lemma journal_spec {E : Type} marked w r w' :
  server_journal_shows_local_processed_invalid_connection_after (E := E) marked w = (r, w') ->
  exists hit, r = Ok hit /\ (hit = true -> exists cursor f out, marked = Some cursor /\
    head (w_log w') = Some (["journalctl"; "-u"; "sing-box"; "--after-cursor"; cursor; "--no-pager"; "-q"], f, Ok out) /\
    success out = true /\ journal_has_local_reality_rejection (from_utf8_lossy (stdout out)) = true).
Proof.
  destruct marked as [cursor|]; cbn; [|intros [= <- <-]; by exists false].
  unfold io_try, run_command. intros [= <- <-]. eexists. split; [done|].
  destruct (w_run _ _ _ _) as [out|] eqn:Eo; [|done]. intros [Hs Hj]%andb_true_iff.
  exists cursor, (w_fs w), out. split; [done|]. by split.
Qed.

Lemma reality_selftest_spec cfg reality u port w r w' :
  run_reality_client_selftest cfg reality u port w = (r, w') ->
  exists n marked,
  match r with
  | Ok Pass => exists captured, (reality_client cfg reality u port (bench n)).1 = Ok (true, captured)
  | Ok HandshakeRejected => exists captured,
      (reality_client cfg reality u port (bench n)).1 = Ok (false, captured) /\ rejection_seen captured marked w'
  | Ok Inconclusive => exists captured, (reality_client cfg reality u port (bench n)).1 = Ok (false, captured)
  | Err e => (reality_client cfg reality u port (bench n)).1 = Err e
  end.
Proof.
  unfold run_reality_client_selftest, io_bind at 1. destruct (cursor_total (E := anyhow) w) as (cursor & w1 & ->).
  intros Hr. exists (length (w_log w1)), cursor. revert Hr.
  unfold io_bind at 1, io_bench, io_bind at 1, io_lift. destruct (reality_client _ _ _ _ _).1 as [[[] captured]|e] eqn:E.
  - intros [= <- <-]. by exists captured.
  - unfold io_bind. destruct (server_journal_shows_local_processed_invalid_connection_after _ _) as [h w2] eqn:Ej.
    destruct (journal_spec _ _ _ _ Ej) as (hit & -> & Hhit). intros [= <- <-].
    destruct (reality_selftest_stderr_or_journal_indicates_rejection captured hit) eqn:Ei; [|by eauto].
    exists captured. split; [done|]. unfold reality_selftest_stderr_or_journal_indicates_rejection in Ei.
    apply orb_true_iff in Ei as [[?|?]%orb_true_iff|?]; [by left|by right; left|right; right]. by apply Hhit.
  - by intros [= <- <-].
Qed.

Lemma hysteria2_selftest_spec cfg hysteria u port w r w' :
  run_hysteria2_client_selftest cfg hysteria u port w = (r, w') ->
  w' = w /\ exists n,
  match r with
  | Ok o => exists captured, (hysteria2_client cfg hysteria u port (bench n)).1 =
      Ok (match o with H2Pass => true | H2Inconclusive => false end, captured)
  | Err e => (hysteria2_client cfg hysteria u port (bench n)).1 = Err e
  end.
Proof.
  unfold run_hysteria2_client_selftest, io_bind, io_bench, io_lift. cbn.
  destruct (hysteria2_client _ _ _ _ _).1 as [[[] captured]|e] eqn:E; intros [= <- <-]; (split; [done|]); eauto.
Qed.
End SelftestFacts.

(** ** What a verdict means *)

(** The health page came back through the peer: having received the greeting,
    the request for the local service and the HTTP request, it has sent its
    choice of method, a grant and a response whose status is 200. *)
Definition page_came_back (peer : Peer) (port : Z) : Prop :=
  exists g response, granted g /\ http_ok response = true /\
    p_sends peer (socks_greeting ++ socks_connect (as_bytes "127.0.0.1") port ++ http_request "127.0.0.1" "/healthz") =
    [x05; x00] ++ g ++ response.
(** A client started on the document for its local port answered on that port,
    and the page came back through it. *)
Definition client_relayed `{Json json} (ctx : Contexts) (cfg : DeploymentConfig) (config : Z -> json) (b : Bench) : Prop :=
  exists local_port tmp data client peer,
    reserve_port b ctx = Ok local_port /\ to_vec_pretty (config local_port) = Ok data /\
    b_spawn b [singbox_binary cfg; "run"; "-c"; path_str tmp] data = Ok client /\
    (exists i, cl_reachable client i = true) /\ cl_peer client = Some peer /\
    (sends_on peer -> page_came_back peer (subscription_listen_port (subscription cfg))).
Lemma relayed_page `{Json json} ctx cfg config b : relayed ctx cfg config b -> client_relayed ctx cfg config b.
Proof.
  intros (local_port & tmp & data & client & peer & response & s & H1 & H2 & H3 & H4 & H5 & H6 & H7).
  exists local_port, tmp, data, client, peer. split_and!; try done. intros Hp.
  destruct (exchange_spec peer Hp _ _ _ _ _ H6) as (_ & Hs & g & Hg & Hr). exists g, response. by rewrite <-Hs.
Qed.

(** C22: A verdict of the REALITY self-test rests on what it says.  It passes only
    if a client started on a document with the deployment's current key and the
    user's credential opened its local port, granted the connection and then
    delivered a response with status 200; it reports a rejection only if that
    did not happen and the client's own log, or the server's journal after the
    mark set before the test, shows one from this host; an error is one of
    setting the test up.  In every case the client that was started is killed
    and reaped and its file removed, the disk is unchanged, and the only
    commands run are queries of the journal. *)
Theorem selftest_verdict_sound `{Json json, SelfTestEnv} cfg reality u port w r w' :
  run_reality_client_selftest cfg reality u port w = (r, w') ->
  (exists new, w' = logged w new /\ Forall (fun e => is_journal e.1.1) new) /\
  exists n marked, let test := reality_client cfg reality u port (bench n) in tidy test.2 /\
  match r with
  | Ok Pass => client_relayed reality_contexts cfg (fun local_port =>
      client_document local_port (reality_outbound reality u port) "reality-selftest") (bench n)
  | Ok HandshakeRejected => exists captured, test.1 = Ok (false, captured) /\ rejection_seen captured marked w'
  | Ok Inconclusive => exists captured, test.1 = Ok (false, captured)
  | Err e => test.1 = Err e
  end.
Proof.
  intros Hr. split.
  - destruct (commands_reality_selftest _ _ _ _ _ _ _ Hr) as (new & -> & Hn). exists new. split; [done|].
    eapply Forall_impl; [exact Hn|]. by intros e [].
  - destruct (reality_selftest_spec _ _ _ _ _ _ _ Hr) as (n & marked & Hs). exists n, marked.
    split; [apply dial_through_tidy|]. destruct r as [[]|e]; try exact Hs.
    destruct Hs as [captured Hs]. by apply relayed_page, dial_through_relays with captured.
Qed.

(** ** Facts: who the clients pretend to be *)

(** The client of a self-test with a user that the server's configuration counts
    as active dials an inbound of that configuration with a credential, a short
    id and an obfuscation that it admits. *)
Lemma reality_outbound_admitted {B64 : Base64Url} {X : X25519} users reality hysteria ports now u :
  u ∈ users -> Model.is_active u now = true -> r_short_ids reality <> [] -> key_shared (r_public_key_hex reality) reality ->
  vless_admits (render_singbox_server_config users reality hysteria ports now)
    (reality_outbound reality u (vless_reality_port ports)).
Proof.
  intros Hu Ha Hs Hk. exists (vless_inbound (active_users users now) reality ports).
  split; [apply list_elem_of_here|]. split.
  - do 3 (split; [done|]). split; [|split; [done|]].
    + exists (vless_user u). split; [|done]. apply list_elem_of_fmap. exists u. split; [done|]. by apply list_elem_of_filter.
    + destruct (r_short_ids reality) as [|sid rest] eqn:E; [done|]. exists (JStr sid). cbn. rewrite E.
      split; [done|]. apply list_elem_of_here.
  - by exists (expose (r_private_key_hex reality)), (r_public_key_hex reality).
Qed.
Lemma hysteria2_outbound_admitted cfg users reality hysteria ports now u :
  u ∈ users -> Model.is_active u now = true ->
  hysteria_admits (render_singbox_server_config users reality hysteria ports now)
    (hysteria2_outbound cfg hysteria u (hysteria2_port ports)).
Proof.
  intros Hu Ha. exists (hysteria_inbound (active_users users now) hysteria ports).
  split; [apply list_elem_of_further, list_elem_of_here|].
  rewrite !hysteria_inbound_get, hysteria_inbound_obfs by (vm_compute; set_solver). unfold hysteria2_outbound.
  destruct (h_obfs_password hysteria) as [pw|]; cbn; (do 3 (split; [done|])); (split; [|done]); exists (hysteria_user u);
    (split; [|done]); apply list_elem_of_fmap; exists u; (split; [done|]); by apply list_elem_of_filter.
Qed.

(** ** A client that gets through *)
Module SelftestDemo.
(** A peer that grants the request for 127.0.0.1 and answers like a web server. *)
Definition peer : Peer := {|
  p_timeouts_set := true;
  p_takes _ := true;
  p_sends sent :=
    let n := length sent in
    (if (3 <=? n)%nat then [x05; x00] else []) ++
    (if (19 <=? n)%nat then [x05; x00; x00; x01] ++ repeat x00 6 else []) ++
    (if (20 <=? n)%nat then as_bytes "HTTP/1.0 200 OK" else []);
  p_closes _ := true |}.
Definition client : Client := {|
  cl_reachable i := (2 <=? i)%nat; cl_clock i := 150 * Z.of_nat i; cl_peer := Some peer; cl_stderr := [] |}.
Definition passing : Bench := {|
  b_bind := Ok tt; b_local_addr := Ok 40000; b_temp := Ok ["tmp"; ".tmpAb12Cd"]; b_write := Ok tt;
  b_spawn _ _ := Ok client |}.
(** A client whose server refuses it, and says so. *)
Definition refusing : Bench := {|
  b_bind := Ok tt; b_local_addr := Ok 40000; b_temp := Ok ["tmp"; ".tmpAb12Cd"]; b_write := Ok tt;
  b_spawn _ _ := Ok {| cl_reachable _ := true; cl_clock _ := 0; cl_peer := None;
                       cl_stderr := as_bytes "ERROR reality verification failed" |} |}.
Definition env : SelfTestEnv := {| bench _ := passing |}.

Lemma peer_sends_on : sends_on peer.
Proof.
  intros a b. cbn [p_sends peer]. rewrite length_app.
  destruct (Nat.leb_spec 3 (length a)), (Nat.leb_spec 19 (length a)), (Nat.leb_spec 20 (length a)),
    (Nat.leb_spec 3 (length a + length b)), (Nat.leb_spec 19 (length a + length b)),
    (Nat.leb_spec 20 (length a + length b)); try lia;
    rewrite ?app_nil_r; try reflexivity; try apply prefix_nil; rewrite ?app_assoc; (eexists; rewrite <-?app_assoc; reflexivity).
Qed.
End SelftestDemo.

Section SelftestWitness.
Import SelftestDemo.
#[local] Instance any_json : Json json := {|
  to_vec _ := Ok (as_bytes "{}"); to_vec_pretty _ := Ok (as_bytes "{}"); from_slice _ := Err "not read" |}.
#[local] Existing Instance env.
Definition tried_user : CompatUser := Build_CompatUser "a1" "alice" true "uuid-a" (MkSecret "pw") "00ff" 100 (Some 200).
Definition tried_cfg : DeploymentConfig := Build_DeploymentConfig 1 "vpn.example.com" "sub.example.com"
  (Build_RealitySection 443 "www.example.com" 443) (Build_Hysteria2Section 8443 None None)
  (Build_SubscriptionSection 8090 8443) None "/s" "/sb".
Definition tried_params : RealityServerParams :=
  {| r_private_key_hex := MkSecret "private"; r_public_key_hex := "public"; r_short_ids := ["01ab"];
     r_handshake_server := "www.example.com"; r_handshake_port := 443 |}.
Definition tried := run_reality_client_selftest tried_cfg tried_params tried_user 443
  (World ∅ [] 0 (fun _ => None) (Proc 42 18 0 0) (fun _ _ _ => Err enoent) []).

Lemma selftest_verdict_sound_witness :
  fst tried = Ok Pass /\ sends_on peer /\ page_came_back peer 8090.
Proof.
  assert (fst tried = Ok Pass) as Hp by (vm_compute; reflexivity).
  split; [exact Hp|]. split; [exact peer_sends_on|].
  destruct (proj2 (selftest_verdict_sound tried_cfg tried_params tried_user 443 _ (Ok Pass) (snd tried)
    (run_of_fst _ _ _ Hp))) as (n & marked & _ & port & tmp & data & c & q & _ & _ & Hc & _ & Hq & Hpage).
  injection Hc as <-. injection Hq as <-. exact (Hpage peer_sends_on).
Defined.
End SelftestWitness.
