(* ===== verification/Admin.v ===== *)
(** * apps/admin: publishing an authorization change

    Models the part of main.rs through which every change of the user store
    passes: reading the key material, rendering the server configuration,
    swapping it in, reloading the server and rolling back when that fails
    ([render_and_apply_singbox_config]), and saving the users only after the
    server runs with them ([apply_users_and_save]).

    What the program prints is not modelled; a command returns the data that its
    messages are made of.  The environment variable that allows offline
    changes is a parameter; the handshake self-test is that of Selftest. *)

From stdpp Require Import pretty.
From Stdlib Require Import Strings.Byte.
From S2P Require Import Prelude Bytes Io Serde Fs Model Store Render Server Deployment Service Anyhow Selftest.

Inductive HandshakeVerification :=
  | Ran (o : RealitySelfTestOutcome)
  | NotRun (reason : string).

(** What the program meets outside of itself. *)
Class AdminEnv := {
  offline_mutation_allowed : bool;
  getgrnam : string -> option Z;
  selftest_env :: SelfTestEnv
}.

(** ** Small files *)
Definition write_secret_file (p : path) (contents : string) : IO anyhow unit :=
  from_io (open_truncate 384 p) ;;
  from_io (file_write_all p (as_bytes contents)) ;;
  from_io (file_sync_all p).

(** Best effort. *)
Definition fsync_dir (d : path) : IO anyhow unit :=
  io_try (file_open d) (fun r =>
    match r with Ok _ => io_try (file_sync_all d) (fun _ => io_ret tt) | Err _ => io_ret tt end).

Definition install_rotated_key_file (target : path) (contents : string) : IO anyhow unit :=
  let tmp_path := sibling target EmptyString ".rotate-tmp" in
  write_secret_file tmp_path contents ;;
  io_try (fs_metadata target) (fun r =>
    match r with
    | Ok m => from_io (fs_set_mode (mode m) tmp_path)
    | Err _ => io_ret tt
    end) ;;
  from_compat (preserve_ownership_before_rename tmp_path target) ;;
  from_io (fs_rename tmp_path target).

(** [apply_restored_file_policy]: mode 0640 and, for root, owner root and the
    service's group. *)
Definition apply_restored_file_policy {Env : AdminEnv} (p : path) (group : string) : IO anyhow unit :=
  context ("setting restored-file mode on " +:+ path_debug p) (from_io (fs_set_mode 416 p)) ;;
  do pr <- io_proc;
  if euid pr =? 0 then
    match getgrnam group with
    | None => io_err (bail ("required service group " +:+ quoted group +:+ " does not exist"))
    | Some gid => context ("setting root:" +:+ group +:+ " ownership on " +:+ path_debug p) (from_io (fs_chown 0 gid p))
    end
  else io_ret tt.

(** ** Key material *)
Section Params.
Context {HexI : Hex} {B64 : Base64Url} {X : X25519}.

Definition read_trimmed (p : path) : IO io_error string :=
  do s <- fs_read_to_string p; io_ret (trim s).

Definition load_reality_params (cfg : DeploymentConfig) : IO anyhow RealityServerParams :=
  do private_key_hex <- context "reality private key missing — run `vpn-admin init` first"
    (from_io (read_trimmed (reality_private_key_file cfg)));
  do public_key_hex <- from_io (read_trimmed (reality_public_key_file cfg));
  context "REALITY private.key/public.key coherence check failed"
    (io_lift (map_err bail (validate_reality_keypair private_key_hex public_key_hex))) ;;
  do short_id <- from_io (read_trimmed (reality_dir cfg ++ ["short_id.txt"]));
  io_ret {|
    r_private_key_hex := MkSecret private_key_hex;
    r_public_key_hex := public_key_hex;
    r_short_ids := [short_id];
    r_handshake_server := handshake_server (reality cfg);
    r_handshake_port := handshake_port (reality cfg) |}.

Definition load_hysteria_params (cfg : DeploymentConfig) : IO anyhow Hysteria2ServerParams :=
  let masquerade_dir := hysteria_dir cfg ++ ["masquerade"] in
  io_try (fs_read_to_string (hysteria_obfs_password_file cfg)) (fun r =>
    let obfs_password :=
      match r with
      | Ok s => let s := trim s in
          if String.eqb s EmptyString then None else Some (MkSecret s)
      | Err _ => None
      end in
    do masq <- path_exists masquerade_dir;
    io_ret {|
      h_tls_cert_path := path_str (hysteria_dir cfg ++ ["cert.pem"]);
      h_tls_key_path := path_str (hysteria_dir cfg ++ ["key.pem"]);
      h_obfs_password := obfs_password;
      h_masquerade_dir_path := if masq then Some (path_str masquerade_dir) else None;
      h_up_mbps := up_mbps (hysteria2 cfg);
      h_down_mbps := down_mbps (hysteria2 cfg) |}).
End Params.

(** ** The stamp of the configuration last verified live *)
Definition applied_config_stamp_path (target : path) : path := with_extension target "applied.sha256".

Section Stamp.
Context {HexI : Hex} {Sha : Sha256} {JV : Json json}.

(** [serde_json::to_string] yields UTF-8, so its text is its bytes. *)
Definition rendered_config_fingerprint (doc : json) : result anyhow string :=
  canonical ← map_err bail (to_vec doc);
  Ok (hash_token (str_of_bytes canonical)).

Definition commit_applied_config_stamp (target : path) (fingerprint : string) : IO anyhow unit :=
  do pr <- io_proc;
  let stamp := applied_config_stamp_path target in
  let tmp := with_extension stamp ("tmp." +:+ pretty (pid pr)) in
  write_secret_file tmp fingerprint ;;
  from_io (fs_rename tmp stamp) ;;
  match parent stamp with Some d => fsync_dir d | None => io_ret tt end.
End Stamp.

(** ** Rendering and applying *)
Section Apply.
Context {C : Clock} {Env : AdminEnv}.
Context {HexI : Hex} {Sha : Sha256} {B64 : Base64Url} {X : X25519} {JV : Json json}.

Definition mgr : CompatibilityServiceManager := manager_default.

Definition verify_reality_handshake_or_warn (cfg : DeploymentConfig) (users : list CompatUser)
    (params : RealityServerParams) (reality_port : Z) : IO anyhow HandshakeVerification :=
  do ex <- path_exists (pathbuf (singbox_binary cfg));
  if negb ex then io_ret (NotRun ("no sing-box binary at " +:+ path_debug (pathbuf (singbox_binary cfg)))) else
  do now <- io_now;
  match List.find (fun u => Model.is_active u now) users with
  | None => io_ret (NotRun "no enabled, unexpired VLESS user to test with")
  | Some test_user =>
    io_try (run_reality_client_selftest cfg params test_user reality_port) (fun verdict =>
      io_ret match verdict with
      | Ok outcome => Ran outcome
      | Err e => NotRun ("self-test harness failed: " +:+ anyhow_chain e)
      end)
  end.

(** Put the backup back and reload; whether the server runs it again. *)
Definition restore_previous (target : path) : IO anyhow bool :=
  let backup := config_backup_path target in
  do ex <- path_exists backup;
  do restored <- (if ex then io_try (fs_copy backup target) (fun r => io_ret (is_ok r)) else io_ret false);
  if (restored : bool) then io_try (reload_and_verify mgr) (fun r => io_ret (is_ok r)) else io_ret false.

(** From the swapped configuration to a verified server. *)
Definition go_live (cfg : DeploymentConfig) (users : list CompatUser) (params : RealityServerParams)
    (reality_port : Z) (target : path) (fingerprint : string) : IO anyhow bool :=
  io_try (reload_and_verify mgr) (fun r =>
    match r with
    | Err reload_err =>
      do recovered <- restore_previous target;
      io_err (error (ReloadFailed reload_err recovered))
    | Ok _ =>
      do verification <- verify_reality_handshake_or_warn cfg users params reality_port;
      match verification with
      | Ran HandshakeRejected =>
        do recovered <- restore_previous target;
        io_err (error (HandshakeFailed recovered))
      | _ =>
        context "recording the config version verified live" (commit_applied_config_stamp target fingerprint) ;;
        io_ret true
      end
    end).

(** The file already holds the document, and the stamp says it was verified. *)
Definition already_current (doc : json) (target : path) (fingerprint : string) : IO anyhow bool :=
  do target_already_matches <- io_try (fs_read target) (fun r =>
    io_ret match r with
    | Ok data => match from_slice data with Ok current => json_eqb current doc | Err _ => false end
    | Err _ => false
    end);
  do applied_stamp_matches <- io_try (fs_read_to_string (applied_config_stamp_path target)) (fun r =>
    io_ret match r with Ok stamp => String.eqb (trim stamp) fingerprint | Err _ => false end);
  io_ret (target_already_matches && applied_stamp_matches).

Definition apply_rendered (cfg : DeploymentConfig) (users : list CompatUser) (params : RealityServerParams)
    (reality_port : Z) (doc : json) (fingerprint : string) : IO anyhow bool :=
  let target := singbox_config_file cfg in
  context "applying sing-box config"
    (from_compat (singbox_apply (pathbuf (singbox_binary cfg)) doc target)) ;;
  do available <- is_available mgr;
  if negb available then io_ret false else
  do installed <- is_unit_installed mgr;
  if negb installed then io_ret false else
  go_live cfg users params reality_port target fingerprint.

Definition and_also (a : bool) (m : IO anyhow bool) : IO anyhow bool := if a then m else io_ret false.

Definition apply_document (cfg : DeploymentConfig) (users : list CompatUser) (params : RealityServerParams)
    (reality_port : Z) (doc : json) (fingerprint : string) (require_live_apply : bool) : IO anyhow bool :=
  let target := singbox_config_file cfg in
  do ex <- path_exists (pathbuf (singbox_binary cfg));
  if negb ex then
    if require_live_apply && negb offline_mutation_allowed
    then io_err (bail ("refusing to commit an authorization mutation: sing-box binary not found at " +:+
      path_debug (pathbuf (singbox_binary cfg)) +:+
      ", so the candidate config cannot be validated or loaded. For an intentional offline/dev-only mutation set VPN1_ALLOW_OFFLINE_MUTATION=1 explicitly."))
    else io_ret false
  else
  do available <- is_available mgr;
  do service_available <- and_also available (is_unit_installed mgr);
  if require_live_apply && negb service_available && negb offline_mutation_allowed
  then io_err (bail "refusing to commit an authorization mutation: systemctl/sing-box.service is not available, so vpn-admin cannot prove the running authorization state changed. For an intentional offline/dev-only mutation set VPN1_ALLOW_OFFLINE_MUTATION=1.")
  else
  do matches <- already_current doc target fingerprint;
  do current <- and_also (matches && service_available) (Service.is_active mgr);
  if (current : bool) then io_ret true
  else apply_rendered cfg users params reality_port doc fingerprint.

Definition render_and_apply_singbox_config (cfg : DeploymentConfig) (users : list CompatUser)
    (require_live_apply : bool) : IO anyhow bool :=
  io_try (load_reality_params cfg) (fun r =>
    match r with
    | Err e =>
      if require_live_apply && negb offline_mutation_allowed
      then io_err (with_context
        "refusing to commit an authorization mutation without a complete, coherent REALITY keyset; run `vpn-admin init` first" e)
      else io_ret false
    | Ok params =>
      do hysteria <- load_hysteria_params cfg;
      let ports := {| vless_reality_port := reality_listen_port (reality cfg);
                      hysteria2_port := hysteria2_listen_port (hysteria2 cfg) |} in
      do now <- io_now;
      let doc := render_singbox_server_config users params hysteria ports now in
      do fingerprint <- io_lift (rendered_config_fingerprint doc);
      apply_document cfg users params (vless_reality_port ports) doc fingerprint require_live_apply
    end).

(** ** Commands *)
Context {JU : Json UsersFile} {JL : Json (list CompatUser)}.

Definition regenerate_singbox_config (cfg : DeploymentConfig) (require_live_apply : bool) : IO anyhow bool :=
  do users <- from_compat (load_users (users_file cfg));
  render_and_apply_singbox_config cfg users require_live_apply.

Definition cmd_render_config (cfg : DeploymentConfig) (require_applied : bool) : IO anyhow unit :=
  do applied <- regenerate_singbox_config cfg false;
  if negb applied && require_applied
  then io_err (bail "reconciliation was attempted (the rendered sing-box config differs from what's live) but could not be fully applied — see the warning(s) above for the specific cause. Expired/disabled users' authorization may still be live on the running server. This is not a transient no-op; investigate before the next scheduled reconciliation.")
  else io_ret tt.

Definition apply_users_and_save (cfg : DeploymentConfig) (previous_users users : list CompatUser) : IO anyhow bool :=
  do went_live <- render_and_apply_singbox_config cfg users true;
  io_try (save_users_atomic (users_file cfg) users) (fun r =>
    match r with
    | Err save_error =>
      io_try (render_and_apply_singbox_config cfg previous_users true) (fun rollback =>
        io_err (error (CommitFailed save_error (is_ok rollback))))
    | Ok _ => io_ret went_live
    end).

Definition subscription_url (cfg : DeploymentConfig) (token : string) : string :=
  "https://" +:+ subscription_host cfg +:+ ":" +:+ pretty (public_port (subscription cfg)) +:+
  "/sub/" +:+ token +:+ "?format=hiddify".
Definition subscription_url_singbox (cfg : DeploymentConfig) (token : string) : string :=
  "https://" +:+ subscription_host cfg +:+ ":" +:+ pretty (public_port (subscription cfg)) +:+
  "/sub/" +:+ token +:+ "?format=singbox".

(** [QrCode::new] of the qrcode crate: whether the data fits. *)
Context (qr_fits : string -> bool).
Definition print_qr (data : string) : IO anyhow unit :=
  if qr_fits data then io_ret tt else io_err (with_context "encoding QR code" (bail "data too long")).

(** The first of the drawn identifiers that no user has; [None]: the draws ran out. *)
Fixpoint fresh_user_id (users : list CompatUser) (draws : list bytes) : option string :=
  match draws with
  | [] => None
  | entropy :: draws =>
    let id := generate_user_id entropy in
    if existsb (fun u => String.eqb (u_id u) id) users then fresh_user_id users draws else Some id
  end.

(** The random bytes one creation draws. *)
Record Entropy := { id_draws : list bytes; token_entropy : bytes; uuid_entropy : bytes; password_entropy : bytes }.

(** The reported identifier and subscription URLs. *)
Record Created := { created_id : string; created_url : string; created_url_singbox : string }.

Definition new_user (id name : string) (e : Entropy) (now : Z) (expires_at : option Z) : CompatUser := {|
  u_id := id;
  u_name := name;
  u_enabled := true;
  u_vless_uuid := generate_uuid_v4 (uuid_entropy e);
  u_hysteria2_password := MkSecret (generate_hysteria2_password (password_entropy e));
  u_subscription_token_hash_hex := hash_token (generate_subscription_token (token_entropy e));
  u_created_at := now;
  u_expires_at := expires_at |}.

Definition cmd_user_create (cfg : DeploymentConfig) (name : string) (expires_at : option Z) (qr json_output : bool)
    (e : Entropy) : IO anyhow (option Created) :=
  do users <- from_compat (load_users (users_file cfg));
  match fresh_user_id users (id_draws e) with
  | None => io_ret None
  | Some id =>
    let token := generate_subscription_token (token_entropy e) in
    do now <- io_now;
    apply_users_and_save cfg users (users ++ [new_user id name e now expires_at]) ;;
    let url := subscription_url cfg token in
    let report := {| created_id := id; created_url := url;
                     created_url_singbox := subscription_url_singbox cfg token |} in
    if json_output then io_ret (Some report) else
    (if qr then print_qr url else io_ret tt) ;;
    io_ret (Some report)
  end.

Definition cmd_user_list (cfg : DeploymentConfig) : IO anyhow (list (string * string * bool)) :=
  do users <- from_compat (load_users (users_file cfg));
  io_ret ((fun u => (u_id u, u_name u, u_enabled u)) <$> users).

(** [find_user_mut] and the mutation through it: the first user with that identifier. *)
Fixpoint update_user (id : string) (mutate : CompatUser -> CompatUser) (users : list CompatUser)
    : option (list CompatUser) :=
  match users with
  | [] => None
  | u :: rest =>
    if String.eqb (u_id u) id then Some (mutate u :: rest)
    else cons u <$> update_user id mutate rest
  end.
Definition find_user_mut (id : string) (mutate : CompatUser -> CompatUser) (users : list CompatUser)
    : result anyhow (list CompatUser) :=
  ok_or (update_user id mutate users) (bail ("no such user: " +:+ id)).

Definition set_enabled (b : bool) (u : CompatUser) : CompatUser :=
  Build_CompatUser (u_id u) (u_name u) b (u_vless_uuid u) (u_hysteria2_password u)
    (u_subscription_token_hash_hex u) (u_created_at u) (u_expires_at u).
Definition set_uuid (v : string) (u : CompatUser) : CompatUser :=
  Build_CompatUser (u_id u) (u_name u) (u_enabled u) v (u_hysteria2_password u)
    (u_subscription_token_hash_hex u) (u_created_at u) (u_expires_at u).
Definition set_password (pw : SecretString) (u : CompatUser) : CompatUser :=
  Build_CompatUser (u_id u) (u_name u) (u_enabled u) (u_vless_uuid u) pw
    (u_subscription_token_hash_hex u) (u_created_at u) (u_expires_at u).
Definition set_token_hash (h : string) (u : CompatUser) : CompatUser :=
  Build_CompatUser (u_id u) (u_name u) (u_enabled u) (u_vless_uuid u) (u_hysteria2_password u)
    h (u_created_at u) (u_expires_at u).

(** Mutate one user, publish, and report whether it went live; the body that
    [cmd_user_set_enabled] and [rotate_and_apply] share. *)
Definition mutate_and_apply (cfg : DeploymentConfig) (id : string) (mutate : CompatUser -> CompatUser)
    : IO anyhow bool :=
  do users <- from_compat (load_users (users_file cfg));
  do changed <- io_lift (find_user_mut id mutate users);
  apply_users_and_save cfg users changed.

Definition cmd_user_set_enabled (cfg : DeploymentConfig) (id : string) (enabled : bool) : IO anyhow bool :=
  mutate_and_apply cfg id (set_enabled enabled).
Definition cmd_user_rotate_vless (cfg : DeploymentConfig) (id : string) (uuid16 : bytes) : IO anyhow bool :=
  mutate_and_apply cfg id (set_uuid (generate_uuid_v4 uuid16)).
Definition cmd_user_rotate_hysteria (cfg : DeploymentConfig) (id : string) (pw24 : bytes) : IO anyhow bool :=
  mutate_and_apply cfg id (set_password (MkSecret (generate_hysteria2_password pw24))).
Definition cmd_user_rotate_credentials (cfg : DeploymentConfig) (id : string) (uuid16 pw24 : bytes) : IO anyhow bool :=
  mutate_and_apply cfg id (fun u => set_password (MkSecret (generate_hysteria2_password pw24))
    (set_uuid (generate_uuid_v4 uuid16) u)).

(** The new subscription URL. *)
Definition cmd_user_rotate_token (cfg : DeploymentConfig) (id : string) (qr : bool) (entropy20 : bytes)
    : IO anyhow string :=
  do users <- from_compat (load_users (users_file cfg));
  let token := generate_subscription_token entropy20 in
  do changed <- io_lift (find_user_mut id (set_token_hash (hash_token token)) users);
  from_compat (save_users_atomic (users_file cfg) changed) ;;
  let url := subscription_url cfg token in
  (if qr then print_qr url else io_ret tt) ;;
  io_ret url.
Definition cmd_user_qr (cfg : DeploymentConfig) (id : string) (entropy20 : bytes) : IO anyhow string :=
  cmd_user_rotate_token cfg id true entropy20.

Definition cmd_user_remove (cfg : DeploymentConfig) (id : string) : IO anyhow bool :=
  do users <- from_compat (load_users (users_file cfg));
  let kept := List.filter (fun u => negb (String.eqb (u_id u) id)) users in
  if (length kept =? length users)%nat then io_err (bail ("no such user: " +:+ id))
  else apply_users_and_save cfg users kept.

Definition cmd_user_subscription (cfg : DeploymentConfig) (id : string) : IO anyhow CompatUser :=
  do users <- from_compat (load_users (users_file cfg));
  io_lift (ok_or (List.find (fun u => String.eqb (u_id u) id) users) (bail ("no such user: " +:+ id))).

(** Each endpoint's label and URI. *)
Fixpoint links_of (user : CompatUser) (eps : list CompatEndpoint) (qr : bool) : IO anyhow (list (string * string)) :=
  match eps with
  | [] => io_ret []
  | ep :: rest =>
    do uri <- from_compat (io_lift (render_endpoint_uri user ep));
    (if qr then print_qr uri else io_ret tt) ;;
    do more <- links_of user rest qr;
    io_ret ((ep_label ep, uri) :: more)
  end.
Definition cmd_user_links (cfg : DeploymentConfig) (id : string) (qr : bool) : IO anyhow (list (string * string)) :=
  do users <- from_compat (load_users (users_file cfg));
  do user <- io_lift (ok_or (List.find (fun u => String.eqb (u_id u) id) users) (bail ("no such user: " +:+ id)));
  do params <- load_reality_params cfg;
  do hysteria <- load_hysteria_params cfg;
  let short_id := default EmptyString (head (r_short_ids params)) in
  links_of user (standard_endpoints (public_host cfg) (reality_listen_port (reality cfg))
    (hysteria2_listen_port (hysteria2 cfg)) (r_public_key_hex params) short_id
    (r_handshake_server params) (expose <$> h_obfs_password hysteria)) qr.
End Apply.

(** ** What publishing touches *)

Definition singbox_dir (cfg : DeploymentConfig) : path := pathbuf (state_dir cfg) ++ ["sing-box"].
(** Neither in the sing-box directory nor above it. *)
Definition outside (cfg : DeploymentConfig) (q : path) : Prop :=
  ~ singbox_dir cfg `prefix_of` q /\ ~ q `prefix_of` singbox_dir cfg.

Lemma outside_ne cfg q n : outside cfg q -> singbox_dir cfg ++ [n] <> q.
Proof. intros [Ho _] <-. apply Ho. by eexists. Qed.

Lemma users_file_outside cfg : outside cfg (users_file cfg).
Proof.
  unfold outside, users_file, singbox_dir. split; intros [k Hk]; rewrite <-app_assoc in Hk;
    by apply app_inv_head in Hk.
Qed.

Lemma singbox_config_file_eq cfg : singbox_config_file cfg = singbox_dir cfg ++ ["config.json"].
Proof. unfold singbox_config_file, singbox_dir. by rewrite <-app_assoc. Qed.
Lemma config_sibling_eq cfg dflt s :
  sibling (singbox_config_file cfg) dflt s = singbox_dir cfg ++ ["config.json" +:+ s].
Proof. by rewrite singbox_config_file_eq, sibling_snoc. Qed.
Lemma with_extension_snoc d n e : with_extension (d ++ [n]) e = d ++ [file_stem n +:+ "." +:+ e].
Proof. unfold with_extension, with_file_name. by rewrite file_name_app, removelast_last. Qed.
Lemma stamp_path_eq cfg : applied_config_stamp_path (singbox_config_file cfg) = singbox_dir cfg ++ ["config.applied.sha256"].
Proof. unfold applied_config_stamp_path. by rewrite singbox_config_file_eq, with_extension_snoc. Qed.
Lemma config_file_ne_nil cfg : singbox_config_file cfg <> [].
Proof. unfold singbox_config_file. by destruct (pathbuf (state_dir cfg)). Qed.

Section ApplyFacts.
Context {C : Clock} {Env : AdminEnv}.
Context {HexI : Hex} {Sha : Sha256} {B64 : Base64Url} {X : X25519} {JV : Json json}.

Lemma keeps_now {E : Type} q : keeps q (@io_now _ E).
Proof. intros w r w' [= <- <-]. split; [done|]. exists []. split; [apply extends_refl|done]. Qed.
Lemma keeps_io_fun {E A : Type} q (m : world -> IO E A) :
  (forall w0, keeps q (m w0)) -> keeps q (fun w => m w w).
Proof. intros Hm w r w' Hr. by apply (Hm w) in Hr. Qed.
Lemma keeps_probe {E : Type} q m args test : keeps q (probe (E := E) m args test).
Proof. apply (commands_keeps (fun _ => True)), commands_probe. done. Qed.
Lemma keeps_verify_loop q m fuel clock deadline i n : keeps q (verify_loop m fuel clock deadline i n).
Proof.
  intros w r w' (new & -> & _)%verify_loop_quiet. split; [done|]. exists []. split; [|done].
  split_and!; try done. by apply suffix_app_r.
Qed.
Lemma keeps_reload_and_verify q m : keeps q (reload_and_verify m).
Proof.
  intros w r w' (new & -> & _)%reload_and_verify_spec. split; [done|]. exists []. split; [|done].
  split_and!; try done. by apply suffix_app_r.
Qed.
Hint Resolve keeps_now keeps_probe keeps_reload_and_verify : fs.

Lemma keeps_write_secret q p s : p <> q -> keeps q (write_secret_file p s).
Proof. intros. unfold write_secret_file, from_io. solve_keeps. Qed.

(** Parameters that load have one key pair. *)
Lemma loaded_key_shared cfg w params w' :
  load_reality_params cfg w = (Ok params, w') -> key_shared (r_public_key_hex params) params.
Proof.
  intros H. apply io_bind_Ok_inv in H as (priv & w1 & _ & H).
  apply io_bind_Ok_inv in H as (pub & w2 & H2%io_map_err_Ok_inv & H).
  apply io_bind_Ok_inv in H2 as (s & w3 & _ & [= <- _]).
  apply io_bind_Ok_inv in H as (u & w4 & H4%io_map_err_Ok_inv & H). injection H4 as H4 _.
  apply io_bind_Ok_inv in H as (sid & w5 & _ & [= <- _]). unfold key_shared. cbn.
  apply map_err_Ok_inv in H4. unfold validate_reality_keypair in H4. inv_result. rewrite trim_idem in *.
  by case_bool_decide; subst.
Qed.
Lemma keeps_load_reality q cfg : keeps q (load_reality_params cfg).
Proof. unfold load_reality_params, context, from_io, read_trimmed. solve_keeps. Qed.
Lemma keeps_load_hysteria q cfg : keeps q (load_hysteria_params cfg).
Proof. unfold load_hysteria_params. solve_keeps. Qed.
Lemma keeps_handshake q cfg users params port : keeps q (verify_reality_handshake_or_warn cfg users params port).
Proof.
  unfold verify_reality_handshake_or_warn. solve_keeps.
  all: eapply commands_keeps, commands_reality_selftest.
Qed.
Lemma keeps_already q doc target fp : keeps q (already_current doc target fp).
Proof. unfold already_current. solve_keeps. Qed.
Hint Resolve keeps_write_secret keeps_load_reality keeps_load_hysteria keeps_handshake keeps_already : fs.

Lemma keeps_singbox_apply q bin doc target :
  q <> target -> ~ q `prefix_of` removelast target \/ target = [] ->
  (forall s, sibling target "config.json" s <> q) -> keeps q (singbox_apply bin doc target).
Proof.
  intros Hq Hd Hs. unfold singbox_apply, apply_config_atomically.
  apply keeps_bind; [solve_keeps|]. intros pr. apply keeps_bind; [|intros; solve_keeps].
  apply keeps_stage_config; [| |done]; intros ->; by eapply Hs.
Qed.

Lemma keeps_stamp q cfg fp : outside cfg q -> keeps q (commit_applied_config_stamp (singbox_config_file cfg) fp).
Proof.
  intros Ho. unfold commit_applied_config_stamp, from_io, fsync_dir. rewrite stamp_path_eq.
  apply keeps_bind; [solve_keeps|]. intros pr. rewrite with_extension_snoc.
  pose proof (outside_ne cfg q "config.applied.sha256" Ho) as H1.
  pose proof (outside_ne cfg q (file_stem "config.applied.sha256" +:+ "." +:+ "tmp." +:+ pretty (pid pr)) Ho) as H2.
  solve_keeps.
Qed.

Lemma keeps_restore q target : q <> target -> keeps q (restore_previous target).
Proof. intros. unfold restore_previous. solve_keeps. Qed.
Hint Resolve keeps_stamp keeps_restore : fs.

Lemma keeps_apply_rendered q cfg users params port doc fp :
  outside cfg q -> keeps q (apply_rendered cfg users params port doc fp).
Proof.
  intros Ho. assert (singbox_config_file cfg <> q) as Hne
    by (rewrite singbox_config_file_eq; by apply outside_ne).
  unfold apply_rendered, go_live, context, from_compat, is_available, is_unit_installed.
  apply keeps_bind; [|intros; solve_keeps].
  do 2 apply keeps_map_err. apply keeps_singbox_apply; [done| |].
  - left. rewrite singbox_config_file_eq, removelast_last. apply Ho.
  - intros s. rewrite config_sibling_eq. by apply outside_ne.
Qed.
Hint Resolve keeps_apply_rendered : fs.

Lemma keeps_apply_document q cfg users params port doc fp live :
  outside cfg q -> keeps q (apply_document cfg users params port doc fp live).
Proof.
  intros Ho. unfold apply_document, and_also, is_available, is_unit_installed, Service.is_active. solve_keeps.
Qed.
Hint Resolve keeps_apply_document : fs.

(** Publishing touches nothing outside the sing-box directory. *)
Lemma keeps_render_and_apply q cfg users live :
  outside cfg q -> keeps q (render_and_apply_singbox_config cfg users live).
Proof. intros Ho. unfold render_and_apply_singbox_config. solve_keeps. Qed.

(** ** What a publication establishes *)

(** The configuration in place is [doc], sing-box accepted it, and the running
    server loaded it. *)
Definition published (cfg : DeploymentConfig) (doc : json) (w' : world) : Prop :=
  exists data mt tmp f, to_vec_pretty doc = Ok data /\
    w_fs w' !! singbox_config_file cfg = Some (File mt data) /\
    accepted_by_singbox (pathbuf (singbox_binary cfg)) tmp data w' /\
    live_disk mgr (w_log w') = Some f /\ f !! singbox_config_file cfg = Some (File mt data).

(** The configuration found in place was [doc], stamped as verified, and the
    server answered that it is active. *)
Definition already_live (cfg : DeploymentConfig) (doc : json) (fp : string) (w w' : world) : Prop :=
  (exists mt data current, w_fs w !! singbox_config_file cfg = Some (File mt data) /\
     from_slice data = Ok current /\ json_eqb current doc = true) /\
  (exists mt data stamp, w_fs w !! applied_config_stamp_path (singbox_config_file cfg) = Some (File mt data) /\
     from_utf8 data = Some stamp /\ trim stamp = fp) /\
  w_fs w' !! singbox_config_file cfg = w_fs w !! singbox_config_file cfg /\
  head (answers (w_log w')) = Some (active_answer mgr).

(** The previous configuration [old] is back in place and loaded. *)
Definition restored (cfg : DeploymentConfig) (old : bytes) (w' : world) : Prop :=
  exists mt f, w_fs w' !! singbox_config_file cfg = Some (File mt old) /\
    live_disk mgr (w_log w') = Some f /\ f !! singbox_config_file cfg = Some (File mt old).

Lemma restore_previous_true cfg w w' mb old :
  let target := singbox_config_file cfg in
  w_fs w !! config_backup_path target = Some (File mb old) ->
  restore_previous target w = (Ok true, w') -> restored cfg old w'.
Proof.
  intros target Hb Hr. unfold restore_previous in Hr. fold target in Hr.
  apply io_bind_Ok_inv in Hr as (ex & w1 & [= <- <-] & Hr).
  rewrite (exists_at_Some _ _ _ Hb) in Hr.
  apply io_bind_Ok_inv in Hr as (b & w2 & Hc & Hr). destruct b; [|done].
  apply io_try_inv in Hc as ([[]|] & w3 & Hc & Hret); [|done]. injection Hret as <-.
  eapply fs_copy_Ok_inv in Hc as (mt & E); [|done]. subst w3.
  apply io_try_inv in Hr as ([[]|] & w4 & Hv & Hret); [|done]. injection Hret as <-.
  apply reload_and_verify_spec in Hv as (new & -> & Hl & _). cbn in Hl. unfold restored. fold target.
  exists mt, (<[target:=File mt old]> (w_fs w)). split; [|split]; cbn; [by rewrite lookup_insert_eq|done|].
  by rewrite lookup_insert_eq.
Qed.

Lemma handshake_runs cfg users params port w r w' :
  verify_reality_handshake_or_warn cfg users params port w = (r, w') ->
  exists new v, w' = logged w new /\ live_disk mgr (w_log w') = live_disk mgr (w_log w) /\ r = Ok v.
Proof.
  unfold verify_reality_handshake_or_warn, io_bind, path_exists, io_gets, io_now. cbn.
  destruct (exists_at _ _); cbn; [|intros [= <- <-]; eexists [], _; by rewrite logged_nil].
  destruct (List.find _ users) as [u|]; [|intros [= <- <-]; eexists [], _; by rewrite logged_nil].
  intros (x & w1 & (new & -> & HF)%commands_reality_selftest & [= <- <-])%io_try_inv. eexists new, _. split; [done|].
  split; [|done]. apply live_disk_app. eapply Forall_impl; [exact HF|]. intros e [Hj _] E. by rewrite E in Hj.
Qed.

Lemma stamp_tmp_ne cfg (n : Z) :
  singbox_config_file cfg <> with_extension (applied_config_stamp_path (singbox_config_file cfg)) ("tmp." +:+ pretty n).
Proof.
  rewrite stamp_path_eq, with_extension_snoc, singbox_config_file_eq. intros [=]%(app_inv_head (singbox_dir cfg)).
Qed.
Lemma stamp_ne cfg : singbox_config_file cfg <> applied_config_stamp_path (singbox_config_file cfg).
Proof. rewrite stamp_path_eq, singbox_config_file_eq. by intros [=]%(app_inv_head (singbox_dir cfg)). Qed.

Lemma runs_stamp P target fp : runs P (commit_applied_config_stamp target fp).
Proof. unfold commit_applied_config_stamp, write_secret_file, from_io, fsync_dir. solve_runs. Qed.

(** Writing the stamp changes neither the configuration nor what is live. *)
Lemma stamp_keeps_config cfg fp w r w' :
  commit_applied_config_stamp (singbox_config_file cfg) fp w = (r, w') ->
  w_fs w' !! singbox_config_file cfg = w_fs w !! singbox_config_file cfg /\ w_log w' = w_log w.
Proof.
  intros Hr. split.
  - eapply keeps_final; [|exact Hr]. unfold commit_applied_config_stamp, from_io, fsync_dir.
    apply keeps_bind; [solve_keeps|]. intros pr.
    pose proof (stamp_tmp_ne cfg (pid pr)). pose proof (stamp_ne cfg). solve_keeps.
  - apply (runs_stamp (fun _ => False)) in Hr as ([|e new] & -> & HF); [done|]. by inversion HF.
Qed.

(** *** Steps that reload nothing *)
Definition quiet {E A : Type} (m : IO E A) : Prop := runs (not_reload mgr) m.

Lemma quiet_live {E A : Type} (m : IO E A) w r w' :
  quiet m -> m w = (r, w') -> live_disk mgr (w_log w') = live_disk mgr (w_log w).
Proof. intros Hq (new & -> & HF)%Hq. by apply live_disk_app. Qed.

Lemma quiet_probe {E : Type} args test : args <> reload_args mgr -> quiet (probe (E := E) mgr args test).
Proof.
  intros Hne w r w' Hr. apply (commands_probe mgr (not_reload mgr)) in Hr as (new & -> & HF); [|by intros [=]].
  exists new. split; [done|]. eapply Forall_impl; [exact HF|]. by intros ? [].
Qed.
Lemma quiet_load_reality cfg : quiet (load_reality_params cfg).
Proof. unfold quiet, load_reality_params, context, from_io, read_trimmed. solve_runs. Qed.
Lemma quiet_load_hysteria cfg : quiet (load_hysteria_params cfg).
Proof. unfold quiet, load_hysteria_params. solve_runs. Qed.
Lemma quiet_already doc target fp : quiet (already_current doc target fp).
Proof. unfold quiet, already_current. solve_runs. Qed.
Lemma quiet_singbox_apply bin doc target : quiet (singbox_apply bin doc target).
Proof.
  unfold quiet, singbox_apply, apply_config_atomically, stage_config, write_config_file_mode_0640, write_file_mode,
    set_file_mode_0640, preserve_ownership_before_rename, compat_io, fsync_parent_dir, singbox_validate.
  solve_runs. intros [=].
Qed.

(** *** From the swap to the end *)

(** What the failures of a publication leave behind; [w] is the world before. *)
Definition failed (cfg : DeploymentConfig) (doc : json) (c : Cause) (w w' : world) : Prop :=
  match c with
  | ReloadFailed _ true | HandshakeFailed true =>
      forall mt old, w_fs w !! singbox_config_file cfg = Some (File mt old) -> restored cfg old w'
  | ReloadFailed _ false | HandshakeFailed false => True
  | _ => published cfg doc w' \/
      (w_fs w' !! singbox_config_file cfg = w_fs w !! singbox_config_file cfg /\
       live_disk mgr (w_log w') = live_disk mgr (w_log w))
  end.

(** The configuration was swapped, and is not live yet. *)
Definition swapped_in (cfg : DeploymentConfig) (doc : json) (w w1 : world) : Prop :=
  (exists data mt tmp, to_vec_pretty doc = Ok data /\
     w_fs w1 !! singbox_config_file cfg = Some (File mt data) /\
     accepted_by_singbox (pathbuf (singbox_binary cfg)) tmp data w1) /\
  backed_up w w1 (singbox_config_file cfg).

Lemma swapped_logged cfg doc w w1 new : swapped_in cfg doc w w1 -> swapped_in cfg doc w (logged w1 new).
Proof.
  intros [(data & mt & tmp & ? & ? & Hacc) Hb]. split; [|exact Hb]. exists data, mt, tmp.
  split; [done|]. split; [done|]. eapply accepted_suffix; [|done]. cbn. by apply suffix_app_r.
Qed.

Lemma published_intro cfg doc w w1 w' :
  swapped_in cfg doc w w1 -> live_disk mgr (w_log w1) = Some (w_fs w1) ->
  w_fs w' !! singbox_config_file cfg = w_fs w1 !! singbox_config_file cfg -> w_log w' = w_log w1 ->
  published cfg doc w'.
Proof.
  intros [(data & mt & tmp & Hd & Hf & Hacc) _] Hl Ef El. exists data, mt, tmp, (w_fs w1).
  rewrite Ef, El. split_and!; try done. eapply accepted_suffix; [|done]. by rewrite El.
Qed.

Lemma restore_previous_total target w r w' : restore_previous target w = (r, w') -> exists b, r = Ok b.
Proof.
  unfold restore_previous, io_bind, io_try, path_exists, io_gets. cbn.
  destruct (exists_at _ _); cbn; [|intros [= <- <-]; eauto].
  destruct (fs_copy _ _ w) as [[] w1]; cbn; [|intros [= <- <-]; eauto].
  destruct (reload_and_verify mgr w1) as [[] w2]; intros [= <- <-]; eauto.
Qed.

(** Rolling back: the reported [recovered] is the truth. *)
Lemma rollback_step cfg (F : bool -> Cause) w w1 (r : result anyhow bool) w' :
  backed_up w w1 (singbox_config_file cfg) ->
  (do recovered <- restore_previous (singbox_config_file cfg); io_err (error (F recovered))) w1 = (r, w') ->
  exists b, r = Err (error (F b)) /\ (b = true ->
    forall mt old, w_fs w !! singbox_config_file cfg = Some (File mt old) -> restored cfg old w').
Proof.
  intros Hb [(b & w2 & Hr & [= <- <-])|(e & Hr & ->)]%io_bind_inv;
    destruct (restore_previous_total _ _ _ _ Hr) as [b' Eb]; [|done].
  exists b. split; [done|]. intros -> mt old Hold. destruct (Hb mt old Hold) as [mb Hmb].
  by eapply restore_previous_true.
Qed.

(** Which errors a computation can end in. *)
Definition fails_with {E A : Type} (P : E -> Prop) (m : IO E A) : Prop :=
  forall w e w', m w = (Err e, w') -> P e.
Lemma fails_bind {E A B : Type} P (m : IO E A) (k : A -> IO E B) :
  fails_with P m -> (forall a, fails_with P (k a)) -> fails_with P (io_bind m k).
Proof.
  intros Hm Hk w e w' [(a & w1 & _ & H1)|(e' & H1 & [= ->])]%io_bind_inv; [by eapply Hk|by eapply Hm].
Qed.
Lemma fails_from_io {A : Type} (m : IO io_error A) :
  fails_with (fun e => exists x, cause e = FromIo x) (from_io m).
Proof. intros w e w' ([] & _ & [= ->])%io_map_err_inv. cbn. eauto. Qed.
Lemma fails_never {E A : Type} P (m : IO E A) : (forall w, is_ok (fst (m w)) = true) -> fails_with P m.
Proof. intros Hm w e w' Hr. specialize (Hm w). by rewrite Hr in Hm. Qed.

Lemma stamp_errors target fp w e w' :
  commit_applied_config_stamp target fp w = (Err e, w') -> exists x, cause e = FromIo x.
Proof.
  apply (fails_bind (fun e => exists x, cause e = FromIo x)); [by apply fails_never|]. intros pr.
  unfold write_secret_file. repeat (apply fails_bind; [|intros []]); auto using fails_from_io.
  destruct (parent _); apply fails_never; [|done]. intros w0. unfold fsync_dir, io_try.
  destruct (file_open _ w0) as [[] w2]; [|done]. by destruct (file_sync_all _ w2).
Qed.

Lemma stamp_step cfg doc fp w w1 r w' :
  swapped_in cfg doc w w1 -> live_disk mgr (w_log w1) = Some (w_fs w1) ->
  (context "recording the config version verified live"
     (commit_applied_config_stamp (singbox_config_file cfg) fp) ;; io_ret true) w1 = (r, w') ->
  match r with
  | Ok b => b = true /\ published cfg doc w'
  | Err e => failed cfg doc (cause e) w w'
  end.
Proof.
  intros Hsw Hl Hr.
  assert (exists r0 w2, commit_applied_config_stamp (singbox_config_file cfg) fp w1 = (r0, w2) /\
    r = match r0 with Ok _ => Ok true | Err e => Err (with_context "recording the config version verified live" e) end /\
    w' = w2) as (r0 & w2 & Hc & -> & ->).
  { unfold io_bind, context, io_map_err in Hr. destruct (commit_applied_config_stamp _ _ w1) as [[] w2];
      injection Hr as <- <-; eauto. }
  destruct (stamp_keeps_config _ _ _ _ _ Hc) as [Ef El].
  assert (published cfg doc w2) as Hp by by eapply published_intro.
  destruct r0 as [[]|e]; [done|]. cbn.
  destruct (stamp_errors _ _ _ _ _ Hc) as [x Hx].
  unfold failed. rewrite Hx. by left.
Qed.

Lemma go_live_spec cfg users params port doc fp w w1 r w' :
  swapped_in cfg doc w w1 ->
  go_live cfg users params port (singbox_config_file cfg) fp w1 = (r, w') ->
  match r with
  | Ok b => b = true /\ published cfg doc w'
  | Err e => failed cfg doc (cause e) w w'
  end.
Proof.
  intros Hsw (rv & w2 & Hv & Hr)%io_try_inv.
  apply reload_and_verify_spec in Hv as (new & -> & Hv). apply (swapped_logged _ _ _ _ new) in Hsw.
  destruct rv as [[]|err].
  - apply io_bind_inv in Hr as [(v & w3 & Hh & Hr)|(e & Hh & ->)];
      apply handshake_runs in Hh as (new2 & v' & -> & Hsame & Ev); [|done].
    destruct Hv as [Hl _]. apply (swapped_logged _ _ _ _ new2) in Hsw. rewrite <-Hsame in Hl. destruct v as [[]|]; try (by eapply stamp_step).
    apply (rollback_step cfg HandshakeFailed w) in Hr as (b & -> & Hb); [|apply Hsw].
    destruct b; [exact (Hb eq_refl)|done].
  - apply (rollback_step cfg (ReloadFailed err) w) in Hr as (b & -> & Hb); [|apply Hsw].
    destruct b; [exact (Hb eq_refl)|done].
Qed.

(** The outcome of a publication of [doc] that started in [w]. *)
Definition outcome (cfg : DeploymentConfig) (doc : json) (fp : string) (r : result anyhow bool) (w w' : world) : Prop :=
  match r with
  | Ok true => published cfg doc w' \/ already_live cfg doc fp w w'
  | Ok false => live_disk mgr (w_log w') = live_disk mgr (w_log w)
  | Err e => failed cfg doc (cause e) w w'
  end.

(** Steps before the swap that leave the configuration and the server alone. *)
Definition inert (cfg : DeploymentConfig) (w w1 : world) : Prop :=
  w_fs w1 = w_fs w /\ live_disk mgr (w_log w1) = live_disk mgr (w_log w).

Lemma inert_refl cfg w : inert cfg w w.
Proof. done. Qed.
Lemma inert_trans cfg w w1 w2 : inert cfg w w1 -> inert cfg w1 w2 -> inert cfg w w2.
Proof. intros [] []. split; congruence. Qed.

(** A probe answers, changes nothing, and goes on. *)
Lemma probe_step {B : Type} args test (k : bool -> IO anyhow B) w r w' :
  args <> reload_args mgr -> (do b <- probe mgr args test; k b) w = (r, w') ->
  exists b new, probe (E := anyhow) mgr args test w = (Ok b, logged w new) /\ k b (logged w new) = (r, w') /\
    live_disk mgr (w_log (logged w new)) = live_disk mgr (w_log w).
Proof.
  intros Hne. unfold io_bind. destruct (probe mgr args test w) as [[b|e] w1] eqn:Hp.
  - intros Hr. pose proof Hp as Hq. apply probe_quiet in Hq as (new & -> & Hl); [|done]. eauto 6.
  - unfold probe, io_try in Hp. by destruct (run mgr args w).
Qed.

Lemma outcome_inert cfg doc fp r w w1 w' :
  inert cfg w w1 -> outcome cfg doc fp r w1 w' -> outcome cfg doc fp r w w'.
Proof.
  intros [Ef El]. unfold outcome, failed, already_live. rewrite Ef, El.
  destruct r as [[]|e]; [done..|]. done.
Qed.

Lemma apply_rendered_spec cfg users params port doc fp w r w' :
  apply_rendered cfg users params port doc fp w = (r, w') ->
  match r with
  | Ok true => published cfg doc w'
  | Ok false => live_disk mgr (w_log w') = live_disk mgr (w_log w)
  | Err e => failed cfg doc (cause e) w w'
  end.
Proof.
  intros Hr. apply io_bind_inv in Hr as [([] & w1 & H1 & Hr)|(e & H1 & ->)].
  2:{ apply io_map_err_inv in H1 as (r1 & H1 & Er). apply io_map_err_inv in H1 as (r2 & H1 & ->).
      destruct r2; [done|]. injection Er as ->. cbn. right. split.
      - by destruct (apply_config_spec _ _ _ _ _ _ (config_file_ne_nil cfg) H1) as (new & _ & ? & _).
      - by eapply quiet_live; [apply quiet_singbox_apply|]. }
  do 2 apply io_map_err_Ok_inv in H1.
  assert (live_disk mgr (w_log w1) = live_disk mgr (w_log w)) as Hl
    by (by eapply quiet_live; [apply quiet_singbox_apply|]).
  assert (swapped_in cfg doc w w1) as Hsw.
  { destruct (apply_config_spec _ _ _ _ _ _ (config_file_ne_nil cfg) H1) as
      (new & _ & data & mt & tmp & Hd & Hf & _ & Hacc & Hb). split; [|done]. eauto 6. }
  apply probe_step in Hr as (b & new & _ & Hr & L2); [|done].
  destruct b; cbn [negb] in Hr; [|injection Hr as <- <-; congruence].
  apply probe_step in Hr as (b & new' & _ & Hr & L3); [|done].
  destruct b; cbn [negb] in Hr; [|injection Hr as <- <-; congruence].
  apply (go_live_spec _ _ _ _ doc _ w) in Hr; [|by do 2 apply swapped_logged].
  destruct r as [b|]; [|done]. destruct Hr as [-> Hp]. done.
Qed.

Lemma already_current_true doc target fp w r w' :
  already_current doc target fp w = (r, w') ->
  w_fs w' = w_fs w /\ w_log w' = w_log w /\ exists b, r = Ok b /\ (b = true ->
    (exists mt data current, w_fs w !! target = Some (File mt data) /\
       from_slice data = Ok current /\ json_eqb current doc = true) /\
    (exists mt data stamp, w_fs w !! applied_config_stamp_path target = Some (File mt data) /\
       from_utf8 data = Some stamp /\ trim stamp = fp)).
Proof.
  unfold already_current, io_bind, io_try.
  destruct (fs_read target w) as [r1 w1] eqn:H1. apply fs_read_inv in H1 as [-> H1]. cbn.
  destruct (fs_read_to_string _ _) as [r2 w2] eqn:H2. apply fs_read_to_string_inv in H2 as [-> H2]. cbn in *.
  intros [= <- <-]. split; [done|]. split; [done|]. eexists. split; [done|]. intros [Hm Hs]%andb_prop. split.
  - destruct r1 as [data|]; [|done]. destruct H1 as [mt Hf]. destruct (from_slice data) eqn:Ej; [|done]. eauto 6.
  - destruct r2 as [stamp|]; [|done]. destruct H2 as (mt & d & Hf & Hu). apply String.eqb_eq in Hs. eauto 6.
Qed.

Lemma is_active_step {B : Type} a (k : bool -> IO anyhow B) w r w' :
  (do current <- and_also a (Service.is_active mgr); k current) w = (r, w') ->
  exists b new, k b (logged w new) = (r, w') /\
    live_disk mgr (w_log (logged w new)) = live_disk mgr (w_log w) /\
    (b = true -> a = true /\ head (answers (w_log (logged w new))) = Some (active_answer mgr)).
Proof.
  destruct a; cbn [and_also].
  - intros (b & new & Hp & Hk & Hl)%probe_step; [|done]. exists b, new. split; [done|]. split; [done|].
    intros ->. split; [done|]. by rewrite (is_active_true mgr _ _ Hp).
  - intros Hk. exists false, []. rewrite logged_nil. done.
Qed.

Lemma unit_step {B : Type} a (k : bool -> IO anyhow B) w r w' :
  (do installed <- and_also a (is_unit_installed mgr); k installed) w = (r, w') ->
  exists b new, k b (logged w new) = (r, w') /\
    live_disk mgr (w_log (logged w new)) = live_disk mgr (w_log w).
Proof.
  destruct a; cbn [and_also].
  - intros (b & new & _ & Hk & Hl)%probe_step; [|done]. eauto.
  - intros Hk. exists false, []. by rewrite logged_nil.
Qed.

Lemma apply_document_spec cfg users params port doc fp require_live w r w' :
  apply_document cfg users params port doc fp require_live w = (r, w') -> outcome cfg doc fp r w w'.
Proof.
  unfold apply_document. intros Hr. apply io_bind_inv in Hr as [(ex & w0 & [= <- <-] & Hr)|(e & [=] & _)].
  destruct (exists_at _ _); cbn [negb] in Hr.
  2:{ destruct (require_live && _); injection Hr as <- <-; [by right|done]. }
  apply probe_step in Hr as (av & l1 & _ & Hr & L1); [|done].
  apply unit_step in Hr as (sa & l2 & Hr & L2).
  assert (inert cfg w (logged (logged w l1) l2)) as Hin by (split; [done|exact (eq_trans L2 L1)]).
  destruct (require_live && _ && _).
  { injection Hr as <- <-. right. exact (conj eq_refl (eq_trans L2 L1)). }
  apply io_bind_inv in Hr as [(m & w3 & H3 & Hr)|(e & H3 & ->)];
    apply already_current_true in H3 as (E3 & L3 & b & Eb & H3); [|done]. injection Eb as <-.
  assert (inert cfg w w3) as Hin3 by (destruct Hin; split; congruence).
  apply is_active_step in Hr as (cur & l4 & Hr & L4 & Hcur).
  assert (inert cfg w (logged w3 l4)) as Hin4 by (destruct Hin3 as [E5 L5]; exact (conj E5 (eq_trans L4 L5))).
  destruct cur.
  - injection Hr as <- <-. destruct (Hcur eq_refl) as [[-> _]%andb_prop Hans]. destruct (H3 eq_refl) as [Hd Hs].
    right. destruct Hin4 as [Ef _]. split_and!; [exact Hd|exact Hs|by rewrite Ef|done].
  - apply (outcome_inert _ _ _ _ _ _ _ Hin4). apply apply_rendered_spec in Hr.
    unfold outcome. destruct r as [[]|]; [by left|done..].
Qed.

Lemma inert_of {E A : Type} cfg (m : IO E A) w r w' :
  (forall q, keeps q m) -> quiet m -> m w = (r, w') -> inert cfg w w'.
Proof.
  intros Hk Hq Hr. split; [|by eapply quiet_live]. apply map_eq. intros q. by eapply keeps_final; [apply Hk|].
Qed.

(** The document rendered for [users] from the deployment's key material. *)
Definition ports_of (cfg : DeploymentConfig) : ServerPorts :=
  {| vless_reality_port := reality_listen_port (reality cfg);
     hysteria2_port := hysteria2_listen_port (hysteria2 cfg) |}.
Definition is_live (cfg : DeploymentConfig) (doc : json) (w w' : world) : Prop :=
  published cfg doc w' \/ exists fp, rendered_config_fingerprint doc = Ok fp /\ already_live cfg doc fp w w'.

Lemma load_reality_errors cfg w e w' :
  load_reality_params cfg w = (Err e, w') -> (exists t, cause e = Bail t) \/ (exists x, cause e = FromIo x).
Proof.
  set (P := fun e => (exists t, cause e = Bail t) \/ (exists x, cause e = FromIo x)).
  apply (fails_bind P).
  { intros w0 e0 w1 (r0 & (r1 & H1 & ->)%io_map_err_inv & E0)%io_map_err_inv. destruct r1; [done|].
    injection E0 as ->. right. cbn. eauto. }
  intros pk. apply (fails_bind P). { intros ??? Hx%fails_from_io. by right. }
  intros pb. apply (fails_bind P).
  { intros w0 e0 w1 (r0 & [= <- <-] & E0)%io_map_err_inv. destruct (validate_reality_keypair _ _); [done|].
    injection E0 as ->. left. cbn. eauto. }
  intros []. apply (fails_bind P). { intros ??? Hx%fails_from_io. by right. }
  intros sid. by apply fails_never.
Qed.

Lemma render_and_apply_spec cfg users require_live w r w' :
  render_and_apply_singbox_config cfg users require_live w = (r, w') ->
  match r with
  | Ok true => exists params hysteria now,
      is_live cfg (server_config params hysteria (ports_of cfg) users now) w w'
  | Ok false => live_disk mgr (w_log w') = live_disk mgr (w_log w)
  | Err e => exists doc, failed cfg doc (cause e) w w'
  end.
Proof.
  intros (rp & w1 & H1 & Hr)%io_try_inv. pose proof H1 as Hin.
  apply (inert_of cfg) in Hin as [E1 L1]; [|intros; apply keeps_load_reality|apply quiet_load_reality].
  destruct rp as [params|e].
  2:{ destruct (require_live && _); injection Hr as <- <-; [|done]. exists JNull.
      destruct (load_reality_errors _ _ _ _ H1) as [[t Et]|[x Ex]]; unfold failed; cbn.
      - rewrite Et. right. split; [by rewrite E1|done].
      - rewrite Ex. right. split; [by rewrite E1|done]. }
  apply io_bind_inv in Hr as [(hysteria & w2 & H2 & Hr)|(e & H2 & ->)].
  2:{ exfalso. revert H2. unfold load_hysteria_params, io_try. by destruct (fs_read_to_string _ w1). }
  apply (inert_of cfg) in H2 as [E2 L2]; [|intros; apply keeps_load_hysteria|apply quiet_load_hysteria].
  apply io_bind_inv in Hr as [(now & w3 & [= <- <-] & Hr)|(e & [=] & _)].
  set (now := wall _) in Hr.
  change (render_singbox_server_config _ _ _ _ _) with (server_config params hysteria (ports_of cfg) users now) in Hr.
  set (doc := server_config _ _ _ _ _) in Hr. cbv zeta in Hr.
  assert (inert cfg w w2) as Hin by (split; congruence).
  apply io_bind_inv in Hr as [(fp & w3 & [= Hfp <-] & Hr)|(e & [= Hfp <-] & ->)].
  - apply apply_document_spec, (outcome_inert _ _ _ _ _ _ _ Hin) in Hr.
    destruct r as [[]|e]; [|done|by exists doc].
    exists params, hysteria, now. fold doc. destruct Hr as [Hp|Ha]; [by left|right; eauto].
  - exists doc. unfold rendered_config_fingerprint in Hfp. destruct (to_vec doc); [done|].
    injection Hfp as <-. right. destruct Hin as [-> ->]. done.
Qed.

(** C3: A publication says what the running server does.  If
    [render_and_apply_singbox_config] returns [Ok(true)], the configuration
    rendered from exactly these users is in place and either sing-box accepted
    it and the server loaded it in this run, or it was found in place, stamped
    as verified, with the server active.  [Ok(false)] means that no reload
    happened.  A failure reported as recovered has put the previous
    configuration back and loaded it; any failure other than a failed reload or
    handshake leaves configuration and server alone, except one that comes
    after the new configuration is live (recording the stamp). *)
Theorem publish_outcome cfg users require_live w r w' :
  render_and_apply_singbox_config cfg users require_live w = (r, w') ->
  match r with
  | Ok true => exists params hysteria now,
      is_live cfg (server_config params hysteria (ports_of cfg) users now) w w'
  | Ok false => live_disk mgr (w_log w') = live_disk mgr (w_log w)
  | Err e =>
    match cause e with
    | ReloadFailed _ true | HandshakeFailed true =>
        forall mt old, w_fs w !! singbox_config_file cfg = Some (File mt old) -> restored cfg old w'
    | ReloadFailed _ false | HandshakeFailed false => True
    | _ => (exists doc, published cfg doc w') \/
        (w_fs w' !! singbox_config_file cfg = w_fs w !! singbox_config_file cfg /\
         live_disk mgr (w_log w') = live_disk mgr (w_log w))
    end
  end.
Proof.
  intros Hr%render_and_apply_spec. destruct r as [[]|e]; [done..|].
  destruct Hr as [doc Hf]. unfold failed in Hf.
  destruct (cause e) as [| | |? []|[]| | |]; try done; destruct Hf; eauto.
Qed.

Section Commands.
Context {JU : Json UsersFile} {JL : Json (list CompatUser)} {JUL : JsonLaws UsersFile}.

Lemma config_outside_users cfg : ~ singbox_config_file cfg `prefix_of` removelast (users_file cfg).
Proof.
  unfold singbox_config_file, users_file. rewrite removelast_app by done. intros [k Hk].
  rewrite <-app_assoc in Hk. by apply app_inv_head in Hk.
Qed.

Lemma keeps_save_users q p users :
  p <> q -> removelast p <> q -> ~ q `prefix_of` removelast p -> (forall n, tmp_sibling_path n p <> q) ->
  keeps q (save_users_atomic p users).
Proof.
  intros Hp Hd Hpre Ht. unfold save_users_atomic, write_file_mode_0640, set_dir_mode_0750, fs_set_mode.
  apply keeps_bind; [solve_keeps|]. intros pr. specialize (Ht (pid pr)). destruct p as [|c p]; cbn [parent]; solve_keeps.
Qed.
Lemma keeps_config_save cfg users : keeps (singbox_config_file cfg) (save_users_atomic (users_file cfg) users).
Proof.
  apply keeps_save_users.
  - unfold users_file, singbox_config_file. by intros ?%app_inv_head.
  - unfold users_file, singbox_config_file. rewrite removelast_app by done. by intros ?%app_inv_head.
  - apply config_outside_users.
  - intros n. unfold tmp_sibling_path, users_file, singbox_config_file.
    change ["users"; "users.json"] with (["users"] ++ ["users.json"]). rewrite app_assoc, sibling_snoc.
    rewrite <-app_assoc. by intros ?%app_inv_head.
Qed.
Lemma runs_save_users P p users : runs P (save_users_atomic p users).
Proof.
  unfold save_users_atomic, write_file_mode_0640, write_file_mode, set_dir_mode_0750, preserve_ownership_before_rename,
    compat_io, fsync_parent_dir. destruct (parent p); solve_runs.
Qed.

Lemma apply_users_spec cfg previous users w r w' :
  apply_users_and_save cfg previous users w = (r, w') ->
  match r with
  | Ok live => exists w1, render_and_apply_singbox_config cfg users true w = (Ok live, w1) /\
      w_log w' = w_log w1 /\
      w_fs w' !! singbox_config_file cfg = w_fs w1 !! singbox_config_file cfg /\
      exists mt json, w_fs w' !! users_file cfg = Some (File mt json) /\ stored users json
  | Err e => w_fs w' !! users_file cfg = w_fs w !! users_file cfg
  end.
Proof.
  assert (forall us w0 r0 w1, render_and_apply_singbox_config cfg us true w0 = (r0, w1) ->
    w_fs w1 !! users_file cfg = w_fs w0 !! users_file cfg) as Hk.
  { intros us w0 r0 w1 H1. eapply keeps_final; [|exact H1]. apply keeps_render_and_apply, users_file_outside. }
  intros [(live & w1 & H1 & Hr)|(e & H1 & ->)]%io_bind_inv; [|by eapply Hk].
  apply io_try_inv in Hr as (rs & w2 & H2 & Hr). pose proof H2 as Hsp.
  apply save_users_spec in Hsp as (new & _ & Hsp). destruct rs as [[]|e].
  - injection Hr as <- <-. exists w1. split; [done|]. split; [|split].
    + apply (runs_save_users (fun _ => False)) in H2 as ([|x l] & -> & HF); [done|]. by inversion HF.
    + by eapply keeps_final; [apply keeps_config_save|].
    + destruct Hsp as (mt & json & Hf & Hst & _). eauto.
  - apply io_try_inv in Hr as (rr & w3 & H3 & [= <- <-]). destruct Hsp as [Es _].
    rewrite (Hk _ _ _ _ H3), Es. by eapply Hk.
Qed.

Lemma is_live_transport cfg doc w w1 w' :
  w_log w' = w_log w1 -> w_fs w' !! singbox_config_file cfg = w_fs w1 !! singbox_config_file cfg ->
  is_live cfg doc w w1 -> is_live cfg doc w w'.
Proof.
  intros El Ef [(data & mt & tmp & f & ? & ? & Hacc & ? & ?)|(fp & Hfp & ? & ? & ? & ?)]; [left|right].
  - exists data, mt, tmp, f. rewrite Ef, El. split_and!; try done. eapply accepted_suffix; [|done]. by rewrite El.
  - exists fp. split; [done|]. unfold already_live. rewrite Ef, El. done.
Qed.

(** C2: A change of the users is all or nothing, and reaches the server first.
    If [apply_users_and_save] fails, for whatever reason and at whatever point,
    users.json is what it was.  If it returns [Ok(live)], users.json holds
    exactly the new users and, when [live], the configuration rendered from
    them is the one in place and running. *)
Theorem mutation_all_or_nothing cfg previous users w r w' :
  apply_users_and_save cfg previous users w = (r, w') ->
  match r with
  | Ok live =>
      (exists mt json, w_fs w' !! users_file cfg = Some (File mt json) /\ stored users json) /\
      (live = true -> exists params hysteria now,
         is_live cfg (server_config params hysteria (ports_of cfg) users now) w w')
  | Err e => w_fs w' !! users_file cfg = w_fs w !! users_file cfg
  end.
Proof.
  intros Hr%apply_users_spec. destruct r as [live|]; [|done].
  destruct Hr as (w1 & H1 & El & Ef & Hst). split; [done|]. intros ->.
  apply render_and_apply_spec in H1 as (params & hysteria & now & H1). exists params, hysteria, now.
  by eapply is_live_transport.
Qed.

Lemma update_user_elem id f users changed v :
  update_user id f users = Some changed -> v ∈ changed ->
  (v ∈ users /\ (NoDup (u_id <$> users) -> u_id v <> id)) \/ (exists u, u ∈ users /\ u_id u = id /\ v = f u).
Proof.
  revert changed. induction users as [|u users IH]; intros changed Hu Hv; [done|]. cbn in Hu.
  destruct (String.eqb_spec (u_id u) id) as [Heq|Hne].
  - injection Hu as <-. apply elem_of_cons in Hv as [->|Hv].
    + right. exists u. split; [apply list_elem_of_here|done].
    + left. split; [by apply list_elem_of_further|]. cbn. intros [Hn _]%NoDup_cons Hv'. apply Hn.
      apply list_elem_of_fmap. exists v. split; [congruence|done].
  - apply fmap_Some in Hu as (rest & Hrest & ->). apply elem_of_cons in Hv as [->|Hv].
    + left. split; [apply list_elem_of_here|done].
    + destruct (IH _ Hrest Hv) as [[? Hid]|(u' & ? & ? & ->)].
      * left. split; [by apply list_elem_of_further|]. cbn. intros [_ Hnd]%NoDup_cons. by apply Hid.
      * right. exists u'. split; [by apply list_elem_of_further|done].
Qed.

(** C1: Disabling a user locks them out of the running server.  If
    [cmd_user_set_enabled id false] reports success with the change live, then
    the stored users are the old ones with this user disabled, the
    configuration in place and running was rendered from them, and, with
    identifiers unique and no credential shared, no endpoint of this
    deployment takes the user's credentials any more, over Hysteria2 or, with
    whatever public key, over REALITY. *)
Theorem disabled_user_locked_out cfg id w w' :
  cmd_user_set_enabled cfg id false w = (Ok true, w') ->
  exists users changed params hysteria now w1,
    fst (load_users (users_file cfg) w) = Ok users /\
    update_user id (set_enabled false) users = Some changed /\
    (exists mt json, w_fs w' !! users_file cfg = Some (File mt json) /\ stored changed json) /\
    is_live cfg (server_config params hysteria (ports_of cfg) changed now) w1 w' /\
    forall u host public_key short_id ep,
      NoDup (u_id <$> users) -> u ∈ users -> u_id u = id ->
      (forall v, v ∈ users -> u_vless_uuid v = u_vless_uuid u \/
         expose (u_hysteria2_password v) = expose (u_hysteria2_password u) -> v = u) ->
      short_id ∈ r_short_ids params ->
      ep ∈ deployed_endpoints host public_key short_id params hysteria (ports_of cfg) ->
      ~ match ep_transport ep with
        | VlessReality => vless_recognizes (server_config params hysteria (ports_of cfg) changed now) (client_outbound u ep)
        | Hysteria2 => hysteria_admits (server_config params hysteria (ports_of cfg) changed now) (client_outbound u ep)
        end.
Proof.
  intros (users & w1 & Hl%io_map_err_Ok_inv & Hr)%io_bind_Ok_inv.
  apply io_bind_Ok_inv in Hr as (changed & w2 & [= Hu <-] & Hr). apply ok_or_Ok_inv in Hu.
  apply apply_users_spec in Hr as (w3 & Hr & El & Ef & Hst).
  apply render_and_apply_spec in Hr as (params & hysteria & now & Hlive).
  exists users, changed, params, hysteria, now, w1. split; [by rewrite Hl|]. split; [done|]. split; [done|].
  split; [by eapply is_live_transport|].
  intros u host public_key short_id ep Hnd Hin Hid Huniq Hsid Hep.
  assert (forall v, v ∈ changed -> Model.is_active v now = true ->
    u_vless_uuid v <> u_vless_uuid u /\ expose (u_hysteria2_password v) <> expose (u_hysteria2_password u)) as Hno.
  { intros v Hv Ha. destruct (update_user_elem _ _ _ _ _ Hu Hv) as [[Hv' Hne]|(u' & _ & _ & ->)]; [|done].
    specialize (Hne Hnd). split; intros E; apply Hne; rewrite (Huniq v Hv'); auto. }
  destruct (ep_transport ep) eqn:Et.
  - rewrite (vless_recognizes_iff host public_key short_id) by done. intros (v & Hv & Ha & E). by destruct (Hno v Hv Ha).
  - rewrite (hysteria_admits_iff host public_key short_id) by done. intros (v & Hv & Ha & E). by destruct (Hno v Hv Ha).
Qed.
End Commands.
End ApplyFacts.

(** ** Concrete runs *)
Module AdminDemo.
Import StoreDemo RenderDemo ServerDemo ServiceDemo DeploymentDemo.
#[export] Instance sha : Sha256 := Build_Sha256 (fun m => m).
#[export] Instance clock : Clock := ServiceDemo.clock.
(** The self-test passes. *)
#[export] Instance env : AdminEnv := Build_AdminEnv false (fun _ => Some 7) SelftestDemo.env.
Definition cfg : DeploymentConfig := Build_DeploymentConfig 1 "vpn.example.com" "sub.example.com"
  (Build_RealitySection 443 "www.example.com" 443) (Build_Hysteria2Section 8443 None None)
  (Build_SubscriptionSection 8090 8443) None "/s" "/sb".
Definition public_key : string := default EmptyString (ok (derive_reality_public_key RenderDemo.private_key)).
Definition dir_meta : meta := Meta 493 0 0.
Definition file (s : string) : node := File (Meta 416 0 0) (as_bytes s).
Definition state : fs :=
  <[["s"] := Dir dir_meta]> (<[["s"; "users"] := Dir dir_meta]> (<[["s"; "reality"] := Dir dir_meta]>
  (<[["s"; "sing-box"] := Dir dir_meta]> (<[["sb"] := file "binary"]>
  (<[["s"; "reality"; "private.key"] := file RenderDemo.private_key]>
  (<[["s"; "reality"; "public.key"] := file public_key]>
  (<[["s"; "reality"; "short_id.txt"] := file "01ab"]>
  (<[["s"; "sing-box"; "config.json"] := file "old"]>
  (<[["s"; "users"; "users.json"] := File (Meta 416 0 7) (default [] (ok (to_vec_pretty (envelope [alice; bob]))))]> ∅))))))))).
(** A machine on which systemctl knows the service and every command succeeds. *)
Definition machine (fault : nat -> option fault) : world :=
  World state [] 0 fault (Proc 42 18 0 0) (fun _ _ _ => Ok (Output true (as_bytes "loaded") [])) [].
Definition wadm : world := machine (fun _ => None).
Definition disabled := cmd_user_set_enabled cfg "a1" false wadm.
Definition rendered := render_and_apply_singbox_config cfg [alice] true wadm.
Definition saved := apply_users_and_save cfg [alice; bob] [bob] wadm.
Definition config_of (f : fs) : option node := f !! ["s"; "sing-box"; "config.json"].

(** The disk fills up when the stamp is written. *)
Definition full_disk : world := machine (fun n =>
  if (n =? 18)%nat then Some (Fault (IoError OtherKind (Some 28) "No space left on device") 0) else None).
Definition unstamped := cmd_user_set_enabled cfg "a1" false full_disk.

(** systemctl stops answering between the first check and the reload. *)
Definition flapping : world := World state [] 0 (fun _ => None) (Proc 42 18 0 0)
  (fun n _ _ => Ok (Output (n <? 3)%nat (as_bytes "loaded") [])) [].
Definition unloaded := cmd_user_set_enabled cfg "a1" false flapping.
End AdminDemo.

Section AdminWitnesses.
Import StoreDemo RenderDemo ServerDemo ServiceDemo DeploymentDemo AdminDemo.

Lemma disabled_run : cmd_user_set_enabled cfg "a1" false wadm = (Ok true, snd disabled).
Proof.
  refine (run_of_fst (cmd_user_set_enabled cfg "a1" false) wadm (Ok true) _). vm_compute. reflexivity.
Qed.

(** A failure to record the stamp is reported as a failure of the change, which
    is then not saved, but the server already runs with it: here the command
    to disable a user fails, users.json is untouched, and the server has loaded
    the new configuration. *)
Example stamp_failure_diverges :
  is_ok (fst unstamped) = false /\
  fst (load_users (users_file cfg) (snd unstamped)) = Ok [alice; bob] /\
  config_of <$> live_disk mgr (w_log (snd unstamped)) = Some (Some (file "{}")) /\
  config_of state = Some (file "old").
Proof. split_and!; vm_compute; reflexivity. Qed.

(** A change can be saved without being live, with no offline override: if
    systemctl stops answering after the first check, disabling a user returns
    [Ok(false)], users.json is changed, and no reload has happened. *)
Example unloaded_change_saved :
  fst unloaded = Ok false /\ live_disk mgr (w_log (snd unloaded)) = None /\
  fst (load_users (users_file cfg) (snd unloaded)) = Ok [set_enabled false alice; bob].
Proof. split_and!; vm_compute; reflexivity. Qed.

Lemma publish_outcome_witness :
  exists params hysteria now,
    is_live cfg (server_config params hysteria (ports_of cfg) [alice] now) wadm (snd rendered).
Proof.
  refine (publish_outcome cfg [alice] true wadm (Ok true) (snd rendered) _).
  refine (run_of_fst (render_and_apply_singbox_config cfg [alice] true) wadm (Ok true) _). vm_compute. reflexivity.
Defined.

Lemma mutation_all_or_nothing_witness :
  exists mt json, w_fs (snd saved) !! users_file cfg = Some (File mt json) /\ stored [bob] json.
Proof.
  refine (proj1 (mutation_all_or_nothing cfg [alice; bob] [bob] wadm (Ok true) (snd saved) _)).
  refine (run_of_fst (apply_users_and_save cfg [alice; bob] [bob]) wadm (Ok true) _). vm_compute. reflexivity.
Defined.

Lemma disabled_user_locked_out_witness :
  exists users changed, update_user "a1" (set_enabled false) users = Some changed /\
    exists mt json, w_fs (snd disabled) !! users_file cfg = Some (File mt json) /\ stored changed json.
Proof.
  destruct (disabled_user_locked_out cfg "a1" wadm (snd disabled) disabled_run)
    as (users & changed & params & hysteria & now & w1 & _ & Hu & Hst & _).
  exists users, changed. split; [exact Hu|exact Hst].
Defined.
End AdminWitnesses.
