(* ===== verification/Rotate.v ===== *)
(** * apps/admin: rotating key material

    Models the rotations of main.rs: the transaction backups beside the key
    files, the validated candidate, the installation of new key material with
    the configuration rendered from it, the reload of both services, and the
    rollback that every later failure triggers ([cmd_reality_rotate],
    [cmd_hysteria_obfs_rotate]); and [cmd_init], which creates the first keys. *)

From stdpp Require Import pretty.
From Stdlib Require Import Strings.Byte.
From S2P Require Import Prelude Bytes Io Serde Fs Model Store Render Server Deployment Service Anyhow Selftest Admin.

(** [line.strip_prefix("field:").or_else(|| line.strip_prefix("field "))] *)
Definition field_of_line (field : string) (line : bytes) : option bytes :=
  match strip_prefix_bytes (as_bytes (field +:+ ":")) line with
  | Some rest => Some rest
  | None => strip_prefix_bytes (as_bytes (field +:+ " ")) line
  end.
Definition extract_field (text field : string) : option string :=
  head (omap (fun line => (fun v => str_of_bytes (trim_bytes v)) <$> field_of_line field (trim_bytes line))
    (lines_bytes (as_bytes text))).

(** ** Transaction backups *)
Definition rotate_backup_path (p : path) : path := sibling p EmptyString ".rotate-bak".

Definition backup_for_rotate (src : path) : IO anyhow (option path) :=
  let bak := rotate_backup_path src in
  do stale <- path_exists bak;
  if (stale : bool) then io_err (bail ("refusing to overwrite stale transaction backup " +:+ path_debug bak +:+
    "; recover or remove it after verifying the live file before retrying")) else
  do ex <- path_exists src;
  if negb ex then io_ret None else
  from_io (file_open src) ;;
  context ("creating transaction backup " +:+ path_debug bak) (from_io (open_create_new 384 bak)) ;;
  context ("backing up " +:+ path_debug src +:+ " to " +:+ path_debug bak) (from_io (io_copy src bak)) ;;
  from_io (file_sync_all bak) ;;
  do meta <- from_io (fs_metadata src);
  from_io (fs_set_mode (mode meta) bak) ;;
  io_try (fs_chown (uid meta) (gid meta) bak) (fun _ => io_ret (Some bak)).

Definition restore_from_rotate_backup (dst : path) : IO anyhow unit :=
  let bak := rotate_backup_path dst in
  do ex <- path_exists bak;
  if negb ex then io_ret tt else
  context ("atomically restoring " +:+ path_debug dst +:+ " from backup " +:+ path_debug bak)
    (from_io (fs_rename bak dst)) ;;
  match parent dst with Some d => fsync_dir d | None => io_ret tt end.

Definition remove_rotate_backup (p : path) : IO anyhow unit :=
  io_try (fs_remove_file (rotate_backup_path p)) (fun _ => io_ret tt).

Fixpoint remove_all (paths : list path) : IO anyhow unit :=
  match paths with
  | [] => io_ret tt
  | p :: rest => io_try (fs_remove_file p) (fun _ => remove_all rest)
  end.

(** Back up every path, or none; which of them existed. *)
Fixpoint prepare_backups (refusal : string) (paths prepared : list path) (existed : list bool) : IO anyhow (list bool) :=
  match paths with
  | [] => io_ret existed
  | p :: rest =>
    io_try (backup_for_rotate p) (fun r =>
      match r with
      | Ok (Some b) => prepare_backups refusal rest (prepared ++ [b]) (existed ++ [true])
      | Ok None => prepare_backups refusal rest prepared (existed ++ [false])
      | Err e => remove_all prepared ;; io_err (with_context refusal e)
      end)
  end.

(** Put a file back, or remove it where there was none. *)
Definition restore_or_remove (p : path) (did_exist : bool) : IO anyhow unit :=
  if did_exist then restore_from_rotate_backup p
  else io_try (fs_remove_file p) (fun r =>
    match r with
    | Ok _ => io_ret tt
    | Err e => if decide (kind e = NotFound) then io_ret tt else io_err (error (FromIo e))
    end).
Fixpoint restore_files (files : list (path * bool)) : IO anyhow bool :=
  match files with
  | [] => io_ret true
  | (p, did_exist) :: rest =>
    io_try (restore_or_remove p did_exist) (fun r =>
      do ok <- restore_files rest;
      io_ret (is_ok r && ok))
  end.

Section Rotate.
Context {C : Clock} {Env : AdminEnv}.
Context {HexI : Hex} {Sha : Sha256} {B64 : Base64Url} {X : X25519} {JV : Json json}.
Context {JU : Json UsersFile} {JL : Json (list CompatUser)}.

Definition generate_reality_keypair (cfg : DeploymentConfig) (entropy4 : bytes)
    : IO anyhow (string * string * string) :=
  let bin := pathbuf (singbox_binary cfg) in
  do output <- context ("running " +:+ path_debug bin +:+ " generate reality-keypair (is sing-box installed at this path?)")
    (from_io (run_command [path_str bin; "generate"; "reality-keypair"]));
  if negb (success output)
  then io_err (bail ("sing-box generate reality-keypair failed: " +:+ from_utf8_lossy (stderr output))) else
  let text := from_utf8_lossy (stdout output) in
  do private_key <- io_lift (ok_or (extract_field text "PrivateKey") (bail "could not parse PrivateKey from sing-box output"));
  do public_key <- io_lift (ok_or (extract_field text "PublicKey") (bail "could not parse PublicKey from sing-box output"));
  context "sing-box generated an incoherent REALITY keypair"
    (io_lift (map_err bail (validate_reality_keypair private_key public_key))) ;;
  io_ret (private_key, public_key, generate_short_id entropy4).

Definition write_config_for_validation (p : path) (doc : json) : IO anyhow unit :=
  (match parent p with Some d => from_io (create_dir_all d) | None => io_ret tt end) ;;
  do data <- io_lift (map_err bail (to_vec_pretty doc));
  from_io (fs_write p data).

(** Have sing-box check the candidate in a file of its own, which is removed again. *)
Definition check_candidate (cfg : DeploymentConfig) (doc : json) (tmp_validate : path) : IO anyhow unit :=
  io_try (write_config_for_validation tmp_validate doc) (fun r =>
    match r with
    | Err e => io_try (fs_remove_file tmp_validate) (fun _ =>
        io_err (with_context "failed to stage candidate config; live state was not changed" e))
    | Ok _ =>
      io_try (singbox_validate (pathbuf (singbox_binary cfg)) tmp_validate) (fun v =>
        io_try (fs_remove_file tmp_validate) (fun _ =>
          match v with
          | Ok _ => io_ret tt
          | Err e => io_err (with_context
              "candidate config failed sing-box check; live state and transaction backups were not changed"
              (error (FromCompat e)))
          end))
    end).

Definition singbox_mgr : CompatibilityServiceManager := manager_default.
Definition sub_mgr : CompatibilityServiceManager := manager_new "vpn-subscription".

Definition controllable (m : CompatibilityServiceManager) : IO anyhow bool :=
  do a <- is_available m; and_also a (is_unit_installed m).

(** [!available || !installed || reload_and_verify().is_ok()] *)
Definition recovered (m : CompatibilityServiceManager) : IO anyhow bool :=
  do c <- controllable m;
  if (c : bool) then io_try (reload_and_verify m) (fun r => io_ret (is_ok r)) else io_ret true.

Definition require_controllable (refusal : string) : IO anyhow unit :=
  if offline_mutation_allowed then io_ret tt else
  do s <- controllable singbox_mgr;
  do both <- and_also s (controllable sub_mgr);
  if (both : bool) then io_ret tt else io_err (bail refusal).

(** The rollback closure: files, then the configuration if it was applied, then
    both services; it always ends in the error that reports what it achieved. *)
Definition restore_config (cfg : DeploymentConfig) : IO anyhow bool :=
  let target := singbox_config_file cfg in
  do ex <- path_exists (config_backup_path target);
  if (ex : bool) then io_try (fs_copy (config_backup_path target) target) (fun r => io_ret (is_ok r))
  else io_ret false.
Definition rollback {A : Type} (cfg : DeploymentConfig) (what : string) (files : list (path * bool))
    (config_applied : bool) (reason : string) : IO anyhow A :=
  do files_ok <- restore_files files;
  do config_ok <- (if config_applied then restore_config cfg else io_ret true);
  do singbox_recovered <- recovered singbox_mgr;
  do sub_recovered <- recovered sub_mgr;
  io_err (error (RotationFailed what reason (files_ok && config_ok) singbox_recovered sub_recovered)).

(** Install [contents] at [p], or run [on_err]. *)
Definition install_or (p : path) (contents : string) (on_err : string -> IO anyhow unit) : IO anyhow unit :=
  io_try (install_rotated_key_file p contents) (fun r =>
    match r with Ok _ => io_ret tt | Err e => on_err (anyhow_text e) end).

(** Reload a service that is there, or run [on_err]; whether it was reloaded. *)
Definition reload_or (m : CompatibilityServiceManager) (on_err : string -> IO anyhow bool) : IO anyhow bool :=
  do c <- controllable m;
  if (c : bool) then io_try (reload_and_verify m) (fun r =>
    match r with Ok _ => io_ret true | Err e => on_err e end)
  else io_ret false.

(** From the new key material on disk to both services running with it; whether
    each was reloaded. *)
Definition apply_candidate (cfg : DeploymentConfig) (what : string) (files : list (path * bool)) (doc : json)
    : IO anyhow (bool * bool) :=
  io_try (singbox_apply (pathbuf (singbox_binary cfg)) doc (singbox_config_file cfg)) (fun r =>
    match r with
    | Err e => rollback cfg what files false ("failed to apply candidate config: " +:+ compat_text e)
    | Ok _ =>
      do singbox_reloaded_live <- reload_or singbox_mgr
        (fun e => rollback cfg what files true ("sing-box reload failed: " +:+ e));
      do sub_restarted_live <- reload_or sub_mgr
        (fun e => rollback cfg what files true ("subscription service restart failed: " +:+ e));
      io_ret (singbox_reloaded_live, sub_restarted_live)
    end).

Definition reality_key_files (cfg : DeploymentConfig) : list path :=
  [reality_private_key_file cfg; reality_public_key_file cfg; reality_dir cfg ++ ["short_id.txt"]].

Definition candidate_params (cfg : DeploymentConfig) (private_key public_key short_id : string) : RealityServerParams := {|
  r_private_key_hex := MkSecret private_key;
  r_public_key_hex := public_key;
  r_short_ids := [short_id];
  r_handshake_server := handshake_server (reality cfg);
  r_handshake_port := handshake_port (reality cfg) |}.

(** From the backups on: install, apply, verify, commit. *)
Definition rotate_keyset (cfg : DeploymentConfig) (users : list CompatUser) (params : RealityServerParams)
    (private_key public_key short_id : string) (doc : json) (files : list (path * bool))
    : IO anyhow (bool * HandshakeVerification) :=
  let what := "REALITY" in
  install_or (reality_private_key_file cfg) private_key
    (fun e => rollback cfg what files false ("failed to install new private key: " +:+ e)) ;;
  install_or (reality_public_key_file cfg) public_key
    (fun e => rollback cfg what files false ("failed to install new public key: " +:+ e)) ;;
  install_or (reality_dir cfg ++ ["short_id.txt"]) short_id
    (fun e => rollback cfg what files false ("failed to install new short_id: " +:+ e)) ;;
  do reloaded <- apply_candidate cfg what files doc;
  let live := fst reloaded && snd reloaded in
  do verification <- (if live
    then verify_reality_handshake_or_warn cfg users params (reality_listen_port (reality cfg))
    else io_ret (NotRun "sing-box/vpn-subscription were not both confirmed live-reloaded"));
  match verification with
  | Ran HandshakeRejected => rollback cfg what files true
      "new REALITY key material failed a real handshake self-test — a real Hiddify client using this same key material would be rejected identically"
  | _ =>
    remove_rotate_backup (reality_private_key_file cfg) ;;
    remove_rotate_backup (reality_public_key_file cfg) ;;
    remove_rotate_backup (reality_dir cfg ++ ["short_id.txt"]) ;;
    io_ret (live, verification)
  end.

(** The candidate: new keys and the configuration rendered with them, checked
    by sing-box before anything live is touched. *)
Record Candidate := {
  cand_users : list CompatUser;
  cand_params : RealityServerParams;
  cand_private : string;
  cand_public : string;
  cand_short_id : string;
  cand_doc : json
}.
Definition rotation_candidate (cfg : DeploymentConfig) (entropy4 : bytes) : IO anyhow Candidate :=
  let bin := pathbuf (singbox_binary cfg) in
  do ex <- path_exists bin;
  if negb ex then io_err (bail ("cannot safely rotate: sing-box binary not found at " +:+ path_debug bin +:+
    " — rotation requires validating the candidate config with the real binary before installing new key material (never rotate blind).")) else
  do keys <- generate_reality_keypair cfg entropy4;
  let '(candidate_priv, candidate_pub, candidate_sid) := keys in
  let candidate_reality := candidate_params cfg candidate_priv candidate_pub candidate_sid in
  do users <- from_compat (load_users (users_file cfg));
  do hysteria <- load_hysteria_params cfg;
  do now <- io_now;
  let candidate_doc := render_singbox_server_config users candidate_reality hysteria (ports_of cfg) now in
  check_candidate cfg candidate_doc (with_extension (singbox_config_file cfg) "rotate-candidate.json") ;;
  require_controllable "refusing REALITY rotation: both sing-box.service and vpn-subscription.service must be installed and controllable so the key change can be committed atomically" ;;
  io_ret {| cand_users := users; cand_params := candidate_reality; cand_private := candidate_priv;
            cand_public := candidate_pub; cand_short_id := candidate_sid; cand_doc := candidate_doc |}.

Definition cmd_reality_rotate (cfg : DeploymentConfig) (entropy4 : bytes) : IO anyhow (bool * HandshakeVerification) :=
  do c <- rotation_candidate cfg entropy4;
  do existed <- prepare_backups "failed to prepare complete REALITY rotation backup; live state was not changed"
    (reality_key_files cfg) [] [];
  rotate_keyset cfg (cand_users c) (cand_params c) (cand_private c) (cand_public c) (cand_short_id c) (cand_doc c)
    (zip (reality_key_files cfg) existed).

(** ** The obfuscation password *)
Definition with_obfs (h : Hysteria2ServerParams) (pw : SecretString) : Hysteria2ServerParams :=
  Build_Hysteria2ServerParams (h_tls_cert_path h) (h_tls_key_path h) (Some pw) (h_masquerade_dir_path h)
    (h_up_mbps h) (h_down_mbps h).

Definition rotate_obfs_file (cfg : DeploymentConfig) (candidate_password : string) (doc : json)
    (existed : bool) (backup : option path) : IO anyhow bool :=
  let obfs_path := hysteria_obfs_password_file cfg in
  let what := "Hysteria2 obfuscation" in
  let files := [(obfs_path, existed)] in
  install_or obfs_path candidate_password (fun e =>
    (match backup with Some b => io_try (fs_remove_file b) (fun _ => io_ret tt) | None => io_ret tt end) ;;
    io_err (bail ("failed to install new obfuscation password: " +:+ e +:+ "; live state was not changed"))) ;;
  (if existed then io_ret tt else
   io_try (apply_restored_file_policy obfs_path "vpn-subscription") (fun r =>
     match r with
     | Ok _ => io_ret tt
     | Err e => rollback cfg what files false
         ("failed to set ownership/permissions on new obfuscation password file: " +:+ anyhow_text e)
     end)) ;;
  do reloaded <- apply_candidate cfg what files doc;
  remove_rotate_backup obfs_path ;;
  io_ret (fst reloaded && snd reloaded).

Definition cmd_hysteria_obfs_rotate (cfg : DeploymentConfig) (entropy24 : bytes) : IO anyhow bool :=
  let bin := pathbuf (singbox_binary cfg) in
  let obfs_path := hysteria_obfs_password_file cfg in
  do ex <- path_exists bin;
  if negb ex then io_err (bail ("cannot safely enable/rotate Hysteria2 obfuscation: sing-box binary not found at " +:+
    path_debug bin +:+ " — this requires validating the candidate config with the real binary before installing new material (never rotate blind).")) else
  from_io (create_dir_all (reality_dir cfg)) ;;
  let candidate_password := generate_hysteria2_obfs_password entropy24 in
  do params <- context "loading current REALITY parameters (required to render a candidate config)" (load_reality_params cfg);
  do hysteria <- load_hysteria_params cfg;
  let candidate_hysteria := with_obfs hysteria (MkSecret candidate_password) in
  do users <- from_compat (load_users (users_file cfg));
  do now <- io_now;
  let candidate_doc := render_singbox_server_config users params candidate_hysteria (ports_of cfg) now in
  check_candidate cfg candidate_doc (with_extension (singbox_config_file cfg) "obfs-rotate-candidate.json") ;;
  require_controllable "refusing Hysteria2 obfuscation rotation: both sing-box.service and vpn-subscription.service must be installed and controllable so the change can be committed atomically" ;;
  do existed <- path_exists obfs_path;
  do backup <- context "failed to prepare obfs-password rotation backup; live state was not changed" (backup_for_rotate obfs_path);
  rotate_obfs_file cfg candidate_password candidate_doc existed backup.

(** ** Initialisation *)
Inductive InitReport :=
  | KeyAlreadyPresent
  | Rotated (live : bool) (v : HandshakeVerification)
  | KeysGenerated.

Definition generate_first_keys (cfg : DeploymentConfig) (entropy4 entropy24 : bytes) : IO anyhow InitReport :=
  let pub_path := reality_public_key_file cfg in
  let sid_path := reality_dir cfg ++ ["short_id.txt"] in
  let obfs_path := hysteria_obfs_password_file cfg in
  let set_0640 (p : path) := context ("setting mode 0640 on " +:+ path_debug p) (from_io (fs_set_mode 416 p)) in
  do keys <- generate_reality_keypair cfg entropy4;
  let '(private_key, public_key, short_id) := keys in
  install_rotated_key_file (reality_private_key_file cfg) private_key ;;
  install_rotated_key_file pub_path public_key ;;
  install_rotated_key_file sid_path short_id ;;
  set_0640 pub_path ;;
  set_0640 sid_path ;;
  fsync_dir (reality_dir cfg) ;;
  install_rotated_key_file obfs_path (generate_hysteria2_obfs_password entropy24) ;;
  set_0640 obfs_path ;;
  fsync_dir (reality_dir cfg) ;;
  io_ret KeysGenerated.

Definition cmd_init (cfg : DeploymentConfig) (rotate : bool) (entropy4 entropy24 : bytes) : IO anyhow InitReport :=
  from_io (create_dir_all (reality_dir cfg)) ;;
  from_io (create_dir_all (hysteria_dir cfg)) ;;
  from_io (create_dir_all (removelast (users_file cfg))) ;;
  let sid_path := reality_dir cfg ++ ["short_id.txt"] in
  do deployment_exists <- path_exists (singbox_config_file cfg);
  do have_priv <- path_exists (reality_private_key_file cfg);
  if (have_priv : bool) then
    if negb rotate then
      do have_pub <- path_exists (reality_public_key_file cfg);
      do have_sid <- path_exists sid_path;
      if negb have_pub || negb have_sid then
        io_err (bail ("REALITY key material at " +:+ path_debug (reality_dir cfg) +:+
          " is incomplete: private.key exists but " +:+
          (match (have_pub : bool), (have_sid : bool) with
           | false, false => "public.key and short_id.txt are both missing"
           | false, true => "public.key is missing"
           | _, _ => "short_id.txt is missing"
           end) +:+ ". This is a partially-written keyset (an interrupted `init`), not a healthy deployment, and the public half cannot be recovered from the private half here. Re-run with `--rotate` to generate a fresh, coherent keypair — note that this invalidates every existing client's configuration and they must re-import their subscription."))
      else io_ret KeyAlreadyPresent
    else do r <- cmd_reality_rotate cfg entropy4; io_ret (Rotated (fst r) (snd r))
  else if (deployment_exists : bool) then do r <- cmd_reality_rotate cfg entropy4; io_ret (Rotated (fst r) (snd r))
  else generate_first_keys cfg entropy4 entropy24.
End Rotate.

(** ** What each step leaves alone *)

Lemma keeps_install q p contents :
  p <> q -> sibling p EmptyString ".rotate-tmp" <> q -> keeps q (install_rotated_key_file p contents).
Proof.
  intros. unfold install_rotated_key_file, write_secret_file, from_io, from_compat, fs_set_mode. solve_keeps.
Qed.
Lemma keeps_backup_for_rotate q p : rotate_backup_path p <> q -> keeps q (backup_for_rotate p).
Proof. intros. unfold backup_for_rotate, context, from_io, fs_set_mode, fs_chown. solve_keeps. Qed.
Lemma keeps_restore_or_remove q p b :
  p <> q -> rotate_backup_path p <> q -> keeps q (restore_or_remove p b).
Proof.
  intros. unfold restore_or_remove, restore_from_rotate_backup, context, from_io, fsync_dir.
  solve_keeps.
Qed.
Lemma keeps_remove_all q paths : q ∉ paths -> keeps q (remove_all paths).
Proof.
  induction paths as [|p paths IH]; intros Hq; cbn [remove_all]; [solve_keeps|].
  apply not_elem_of_cons in Hq as [Hp Hq]. apply keeps_try; [solve_keeps|]. intros. by apply IH.
Qed.
#[export] Hint Resolve keeps_install keeps_backup_for_rotate keeps_restore_or_remove keeps_remove_all : fs.

Lemma keeps_restore_files q files :
  (forall p b, (p, b) ∈ files -> p <> q /\ rotate_backup_path p <> q) -> keeps q (restore_files files).
Proof.
  induction files as [|[p b] files IH]; intros Hf; cbn [restore_files]; [solve_keeps|].
  destruct (Hf p b (list_elem_of_here _ _)). apply keeps_try; [by apply keeps_restore_or_remove|].
  intros. apply keeps_bind; [|intros; solve_keeps]. apply IH. intros p' b' Hin. apply (Hf p' b').
  by apply list_elem_of_further.
Qed.

(** ** Backups and restoration *)

(** The file at [p] has the contents it had in [w], or is absent as it was. *)
Definition same_contents (w w' : world) (p : path) : Prop :=
  match w_fs w !! p with
  | Some (File _ d) => exists mt, w_fs w' !! p = Some (File mt d)
  | n => w_fs w' !! p = n
  end.

(** The backups from which the contents of [w] can be restored are in place. *)
Definition armed (w wk : world) (files : list (path * bool)) : Prop :=
  forall p b, (p, b) ∈ files ->
    match w_fs w !! p with
    | Some (File _ d) => b = true /\ exists mb, w_fs wk !! rotate_backup_path p = Some (File mb d)
    | Some (Dir _) => False
    | None => b = false
    end.

(** No path is the backup of another, and no two share a backup. *)
Definition separate (paths : list path) : Prop :=
  NoDup paths /\ forall p p', p ∈ paths -> p' ∈ paths ->
    rotate_backup_path p <> p' /\ (p <> p' -> rotate_backup_path p <> rotate_backup_path p').

Lemma separate_cons p paths : separate (p :: paths) -> separate paths.
Proof.
  intros [[_ Hn]%NoDup_cons Hs]. split; [done|]. intros q q' Hq Hq'. apply Hs; by apply list_elem_of_further.
Qed.

Lemma rotate_backup_ne p : rotate_backup_path p <> p.
Proof. by apply sibling_ne. Qed.

Lemma open_create_new_Ok m p w u w' :
  open_create_new m p w = (Ok u, w') -> exists mt, w' = push_fs (<[p := File mt []]> (w_fs w)) w.
Proof.
  intros (s & H & ->)%syscall_Ok_inv. destruct (w_fs w !! p); [done|].
  destruct (has_parent _ _); simplify_eq; eauto.
Qed.

(** Changing the metadata of a file, or failing to, keeps its contents. *)
Lemma update_meta_contents g p w r w' mt d :
  w_fs w !! p = Some (File mt d) -> update_meta g p w = (r, w') -> exists mt', w_fs w' !! p = Some (File mt' d).
Proof.
  intros Hp Hr. destruct r as [u|e].
  - apply update_meta_Ok_inv in Hr as (n & Hn & ->). simplify_eq. cbn. rewrite lookup_insert_eq. eauto.
  - apply syscall_Err_inv in Hr as (s & -> & [->|[k ->]]); cbn; eauto.
Qed.

Lemma backup_for_rotate_spec p w r w' :
  backup_for_rotate p w = (Ok r, w') ->
  match r with
  | None => w_fs w !! p = None /\ w_fs w' = w_fs w
  | Some b => b = rotate_backup_path p /\ exists mt mb d,
      w_fs w !! p = Some (File mt d) /\ w_fs w' !! b = Some (File mb d)
  end.
Proof.
  unfold backup_for_rotate. set (bak := rotate_backup_path p).
  assert (bak <> p) as Hne by apply rotate_backup_ne.
  intros Hr. apply io_bind_Ok_inv in Hr as (st & w0 & [= <- <-] & Hr). destruct (exists_at _ bak); [done|].
  apply io_bind_Ok_inv in Hr as (ex & w0 & [= <- <-] & Hr). unfold exists_at in Hr.
  destruct (w_fs w !! p) as [n|] eqn:Hp; cbn in Hr; [|by injection Hr as <- <-].
  apply io_bind_Ok_inv in Hr as ([] & w1 & H1%io_map_err_Ok_inv & Hr).
  apply io_bind_Ok_inv in Hr as ([] & w2 & H2%io_map_err_Ok_inv%io_map_err_Ok_inv & Hr).
  apply io_bind_Ok_inv in Hr as ([] & w3 & H3%io_map_err_Ok_inv%io_map_err_Ok_inv & Hr).
  apply io_bind_Ok_inv in Hr as ([] & w4 & H4%io_map_err_Ok_inv & Hr).
  apply io_bind_Ok_inv in Hr as (m & w5 & H5%io_map_err_Ok_inv & Hr).
  apply io_bind_Ok_inv in Hr as ([] & w6 & H6%io_map_err_Ok_inv & Hr).
  apply io_try_inv in Hr as (rc & w7 & H7 & [= <- <-]).
  apply open_create_new_Ok in H2 as [m2 ->].
  assert (w_fs w1 !! p = Some n) as Hp1.
  { rewrite <-Hp. eapply keeps_final; [|exact H1]. apply keeps_file_open. }
  apply io_bind_Ok_inv in H3 as (d & w2 & ((mt & Hd) & ->)%fs_read_Ok_inv & H3). cbn in Hd.
  rewrite lookup_insert_ne, Hp1 in Hd by done. injection Hd as ->.
  eapply file_write_all_Ok_inv in H3; [|cbn; apply lookup_insert_eq]. subst w3.
  apply file_sync_all_Ok_inv in H4 as ->. apply fs_metadata_Ok_inv in H5 as [_ ->].
  eapply update_meta_contents in H6 as [m6 H6]; [|cbn; apply lookup_insert_eq].
  eapply update_meta_contents in H7 as [m7 H7]; [|exact H6].
  split; [done|]. exists mt, m7, d. done.
Qed.

Lemma armed_step {E A : Type} w wk wk' files (m : IO E A) r :
  (forall p b, (p, b) ∈ files -> keeps (rotate_backup_path p) m) -> m wk = (r, wk') ->
  armed w wk files -> armed w wk' files.
Proof.
  intros Hk Hr Ha p b Hin. specialize (Ha p b Hin).
  destruct (w_fs w !! p) as [[]|]; [|done..]. destruct Ha as [-> [mb Hb]]. split; [done|]. exists mb.
  rewrite <-Hb. eapply keeps_final; [by eapply Hk|done].
Qed.

Lemma armed_eq w w1 wk files :
  (forall p b, (p, b) ∈ files -> w_fs w1 !! p = w_fs w !! p) -> armed w1 wk files -> armed w wk files.
Proof. intros He Ha p b Hin. specialize (Ha p b Hin). by rewrite (He p b Hin) in Ha. Qed.

Lemma prepare_backups_spec refusal paths prepared existed w ex w' :
  separate paths -> prepare_backups refusal paths prepared existed w = (Ok ex, w') ->
  exists ex', ex = existed ++ ex' /\ length ex' = length paths /\ armed w w' (zip paths ex') /\
    forall q, q ∉ rotate_backup_path <$> paths -> w_fs w' !! q = w_fs w !! q.
Proof.
  revert prepared existed w. induction paths as [|p paths IH]; intros prepared existed w Hsep Hr; cbn in Hr.
  { injection Hr as <- <-. exists []. rewrite app_nil_r. split_and!; [done..| |done]. intros ? ? ?%not_elem_of_nil. done. }
  apply io_try_inv in Hr as (rb & w1 & Hb & Hr).
  assert (forall q, q <> rotate_backup_path p -> w_fs w1 !! q = w_fs w !! q) as Hk.
  { intros q Hq. eapply keeps_final; [|exact Hb]. by apply keeps_backup_for_rotate. }
  destruct rb as [o|e]; [|by apply io_bind_Ok_inv in Hr as (? & ? & _ & ?)].
  apply backup_for_rotate_spec in Hb.
  assert (exists prepared' b, prepare_backups refusal paths prepared' (existed ++ [b]) w1 = (Ok ex, w') /\
    match w_fs w !! p with
    | Some (File _ d) => b = true /\ exists mb, w_fs w1 !! rotate_backup_path p = Some (File mb d)
    | Some (Dir _) => False
    | None => b = false
    end) as (prepared' & b & Hr' & Hfile).
  { destruct o as [bk|].
    - destruct Hb as (-> & mt & mb & d & Hp & Hb). exists (prepared ++ [rotate_backup_path p]), true.
      rewrite Hp. eauto.
    - destruct Hb as [Hp _]. exists prepared, false. by rewrite Hp. }
  pose proof Hsep as [[Hnp _]%NoDup_cons Hs].
  apply IH in Hr' as (ex' & -> & Hlen & Ha & Hoth); [|by apply (separate_cons p)].
  assert (forall q, q ∈ paths -> w_fs w1 !! q = w_fs w !! q) as Hin1.
  { intros q Hq. apply Hk. intros ->. by destruct (Hs p (rotate_backup_path p)) as [[] _];
      [apply list_elem_of_here|by apply list_elem_of_further|]. }
  exists (b :: ex'). rewrite <-app_assoc. split; [done|]. split; [cbn; lia|]. split.
  - intros q c Hin. cbn in Hin. apply elem_of_cons in Hin as [[= -> ->]|Hin].
    + rewrite Hoth; [done|]. intros (q & Hq & Hqin)%list_elem_of_fmap.
      destruct (Hs p q) as [_ Hd]; [apply list_elem_of_here|by apply list_elem_of_further|].
      apply Hd; [|done]. intros ->. done.
    + specialize (Ha q c Hin). apply elem_of_zip_l in Hin. by rewrite Hin1 in Ha.
  - intros q Hq. cbn in Hq. apply not_elem_of_cons in Hq as [Hq1 Hq2]. rewrite Hoth by done. by apply Hk.
Qed.

(** Only a missing file makes a call report that it is missing. *)
Definition honest_faults (w : world) : Prop :=
  forall n ft, w_fault w n = Some ft -> kind (fault_error ft) <> NotFound.

Lemma restore_or_remove_spec w wk p b w' :
  honest_faults wk -> armed w wk [(p, b)] -> restore_or_remove p b wk = (Ok tt, w') -> same_contents w w' p.
Proof.
  intros Hh Ha. specialize (Ha p b (list_elem_of_here _ _)). unfold same_contents, restore_or_remove.
  destruct (w_fs w !! p) as [[mt d|]|] eqn:Hp; [|done|].
  - destruct Ha as [-> [mb Hb]]. unfold restore_from_rotate_backup.
    intros Hr. apply io_bind_Ok_inv in Hr as (ex & w0 & [= <- <-] & Hr).
    rewrite (exists_at_Some _ _ _ Hb) in Hr. cbn [negb] in Hr.
    apply io_bind_Ok_inv in Hr as ([] & w1 & H1%io_map_err_Ok_inv%io_map_err_Ok_inv & Hr).
    apply fs_rename_Ok_inv in H1 as (n & Hn & ->). rewrite Hb in Hn. injection Hn as <-. exists mb.
    eapply (keeps_final p) in Hr as [-> _]; [cbn; by rewrite lookup_insert_eq|].
    unfold fsync_dir. destruct (parent p); solve_keeps.
  - subst b. intros (r & w1 & H1 & Hr)%io_try_inv. destruct r as [[]|e].
    + injection Hr as <-. apply syscall_Ok_inv in H1 as (s & Hs & ->).
      destruct (w_fs wk !! p) as [[]|]; simplify_eq. cbn. apply lookup_delete_eq.
    + destruct (decide (kind e = NotFound)) as [He|]; [|done]. injection Hr as <-.
      unfold fs_remove_file, syscall in H1. destruct (w_fault wk (w_ops wk)) as [ft|] eqn:Ef.
      { injection H1 as <- _. by apply Hh in Ef. }
      destruct (w_fs wk !! p) as [[]|] eqn:Ep; simplify_eq; done.
Qed.

Lemma fresh_path p : exists q, p <> q /\ rotate_backup_path p <> q.
Proof.
  exists (p ++ [""; ""]). split; intros H%(f_equal length); rewrite length_app in H; cbn in H; [lia|].
  unfold rotate_backup_path, sibling, with_file_name in H. rewrite length_app in H. cbn in H.
  assert (length (removelast p) <= length p)%nat; [|lia]. clear H.
  induction p as [|a [|b p] IH]; cbn in *; lia.
Qed.

Lemma honest_restore w p b r w' : honest_faults w -> restore_or_remove p b w = (r, w') -> honest_faults w'.
Proof.
  intros Hh Hr. destruct (fresh_path p) as (q & Hq1 & Hq2).
  eapply (keeps_final q) in Hr as (_ & Ef & _); [|by apply keeps_restore_or_remove].
  unfold honest_faults. by rewrite Ef.
Qed.

Lemma restore_files_spec w files wk w' :
  honest_faults wk -> separate files.*1 -> armed w wk files -> restore_files files wk = (Ok true, w') ->
  forall p b, (p, b) ∈ files -> same_contents w w' p.
Proof.
  revert wk. induction files as [|[p b] files IH]; intros wk Hh Hsep Ha Hr q c Hq; [by apply not_elem_of_nil in Hq|].
  cbn in Hr. apply io_try_inv in Hr as (r1 & w1 & H1 & Hr).
  apply io_bind_Ok_inv in Hr as (ok & w2 & H2 & [= Hb <-]). apply andb_prop in Hb as [Hr1 ->].
  destruct r1 as [[]|]; [|done]. pose proof Hsep as [[Hnp _]%NoDup_cons Hs]. cbn in Hnp, Hs.
  assert (forall p', p' ∈ files.*1 -> p <> p' /\ rotate_backup_path p <> p' /\
    p <> rotate_backup_path p' /\ rotate_backup_path p <> rotate_backup_path p') as Hd.
  { intros p' Hp'. assert (p <> p') as Hne by (intros ->; done).
    destruct (Hs p p') as [? Hb']; [apply list_elem_of_here|by apply list_elem_of_further|].
    destruct (Hs p' p) as [? _]; [by apply list_elem_of_further|apply list_elem_of_here|]. split_and!; auto. }
  assert (forall p' c', (p', c') ∈ files -> p' ∈ files.*1) as Hfst
    by (intros p' c' Hin; apply list_elem_of_fmap; by exists (p', c')).
  assert (honest_faults w1) as Hh1 by by eapply honest_restore.
  assert (armed w w1 files) as Ha1.
  { eapply armed_step; [|exact H1|]; [|intros p' c' Hin; apply Ha; by apply list_elem_of_further].
    intros p' c' Hin%Hfst. apply Hd in Hin as (? & ? & ? & ?). by apply keeps_restore_or_remove. }
  apply elem_of_cons in Hq as [[= -> ->]|Hq].
  - assert (same_contents w w1 p) as Hsame.
    { eapply restore_or_remove_spec; [exact Hh| |exact H1]. intros p' c' [= -> ->]%list_elem_of_singleton.
      apply Ha, list_elem_of_here. }
    assert (w_fs w2 !! p = w_fs w1 !! p) as E2.
    { eapply keeps_final; [|exact H2]. apply keeps_restore_files. intros p' c' Hin%Hfst.
      apply Hd in Hin as (? & ? & ? & ?). done. }
    unfold same_contents in *. by rewrite E2.
  - eapply IH; [exact Hh1|by apply (separate_cons p)|exact Ha1|exact H2|exact Hq].
Qed.

(** ** Where the files are *)
Lemma reality_outside cfg n : outside cfg (reality_dir cfg ++ [n]).
Proof.
  unfold outside, reality_dir, singbox_dir. rewrite <-app_assoc. split; intros [k Hk];
    rewrite <-app_assoc in Hk; by apply app_inv_head in Hk.
Qed.
Lemma outside_ne_config cfg q : outside cfg q -> singbox_config_file cfg <> q.
Proof. intros Ho. rewrite singbox_config_file_eq. by apply outside_ne. Qed.
Lemma outside_ne_config_backup cfg q : outside cfg q -> config_backup_path (singbox_config_file cfg) <> q.
Proof. intros Ho. unfold config_backup_path. rewrite config_sibling_eq. by apply outside_ne. Qed.

(** The files of a rotation, all directly in the key directory. *)
Definition in_key_dir (cfg : DeploymentConfig) (files : list (path * bool)) : Prop :=
  forall p b, (p, b) ∈ files -> exists n, p = reality_dir cfg ++ [n].

Section RotateFacts.
Context {C : Clock} {Env : AdminEnv}.
Context {HexI : Hex} {Sha : Sha256} {B64 : Base64Url} {X : X25519} {JV : Json json}.
Context {JU : Json UsersFile} {JL : Json (list CompatUser)}.
Context (cfg : DeploymentConfig) (what : string) (files : list (path * bool)).
Context (Hdir : in_key_dir cfg files) (Hsep : separate files.*1).

Let target := singbox_config_file cfg.

Lemma files_outside p b : (p, b) ∈ files -> outside cfg p /\ outside cfg (rotate_backup_path p).
Proof.
  intros [n ->]%Hdir. unfold rotate_backup_path. rewrite sibling_snoc.
  split; apply reality_outside.
Qed.

Lemma keeps_controllable q m : keeps q (controllable m).
Proof.
  unfold controllable, and_also, is_available, is_unit_installed.
  apply keeps_bind; [apply keeps_probe|]. intros []; [apply keeps_probe|solve_keeps].
Qed.
Lemma keeps_recovered q m : keeps q (recovered m).
Proof.
  unfold recovered. apply keeps_bind; [apply keeps_controllable|]. intros []; [|solve_keeps].
  apply keeps_try; [apply keeps_reload_and_verify|intros; solve_keeps].
Qed.
Hint Resolve keeps_controllable keeps_recovered keeps_reload_and_verify : fs.

Lemma probe_total m args test w : exists b w1, probe (E := anyhow) m args test w = (Ok b, w1).
Proof. unfold probe, io_try. destruct (run m args w) as [[] w1]; by do 2 eexists. Qed.
Lemma controllable_total m w : exists b, fst (controllable m w) = Ok b.
Proof.
  unfold controllable, is_available, is_unit_installed, io_bind.
  destruct (probe_total m ["--version"] success w) as (b & w1 & ->). destruct b; cbn [and_also]; [|by eexists].
  edestruct (probe_total m) as (b & w2 & ->). by eexists.
Qed.
Lemma recovered_total m w : exists b, fst (recovered m w) = Ok b.
Proof.
  unfold recovered, io_bind. destruct (controllable m w) as [r w1] eqn:E.
  destruct (controllable_total m w) as [b Hb]. rewrite E in Hb. cbn in Hb. subst r.
  destruct b; [|by eexists]. unfold io_try. destruct (reload_and_verify m w1) as [[] w2]; by eexists.
Qed.
Lemma restore_files_total fl w : exists b, fst (restore_files fl w) = Ok b.
Proof.
  revert w. induction fl as [|[p b] fl IH]; intros w; [by eexists|]. cbn. unfold io_try, io_bind.
  destruct (restore_or_remove p b w) as [r w1]. destruct (IH w1) as [b' Hb].
  destruct (restore_files fl w1) as [r2 w2]. cbn in Hb. subst r2. by eexists.
Qed.
Lemma fs_copy_source a b w u w1 : fs_copy a b w = (Ok u, w1) -> exists m d, w_fs w !! a = Some (File m d).
Proof.
  intros (f' & H & _)%syscall_Ok_inv. destruct (w_fs w !! a) as [[m d|m]|]; [by eauto| |done].
  by destruct (w_fs w !! b) as [[]|].
Qed.
Lemma restore_config_spec w r w' :
  restore_config cfg w = (r, w') -> exists b, r = Ok b /\
    (b = true -> exists mb old mt, w_fs w !! config_backup_path target = Some (File mb old) /\
       w_fs w' !! target = Some (File mt old)).
Proof.
  unfold restore_config, io_bind, path_exists, io_gets. cbn. fold target.
  destruct (exists_at _ _) eqn:Ex; [|intros [= <- <-]; by eexists].
  intros (rc & w1 & Hc & [= <- <-])%io_try_inv. eexists. split; [done|]. intros Hok.
  destruct rc; [|done]. destruct (fs_copy_source _ _ _ _ _ Hc) as (mb & old & Hb).
  eapply fs_copy_Ok_inv in Hc as (mt & E); [|done]. subst w1. cbn.
  rewrite lookup_insert_eq. eauto.
Qed.

(** What the rollback owes to the configuration it found: its contents.  Where
    there was none, [restore_config] may have copied an older backup there. *)
Definition given_back (w w' : world) : Prop :=
  match w_fs w !! target with
  | Some (File _ old) => exists mt, w_fs w' !! target = Some (File mt old)
  | Some (Dir m) => w_fs w' !! target = Some (Dir m)
  | None => w_fs w' !! target = None \/
      exists mb old mt, w_fs w !! config_backup_path target = Some (File mb old) /\ w_fs w' !! target = Some (File mt old)
  end.
(** The copy from which it is given back. *)
Definition saved (w wk : world) : Prop :=
  match w_fs w !! target with
  | Some (File _ old) => exists mb, w_fs wk !! config_backup_path target = Some (File mb old)
  | Some (Dir _) => False
  | None => w_fs wk !! config_backup_path target = w_fs w !! config_backup_path target
  end.

(** What a failed rotation that reports its files restored has restored. *)
Definition undone (w : world) (e : anyhow) (w' : world) : Prop :=
  exists reason fl sb sub, cause e = RotationFailed what reason fl sb sub /\ (fl = true ->
    (forall p b, (p, b) ∈ files -> same_contents w w' p) /\ given_back w w').

(** Everything needed to undo the rotation is in place. *)
Definition undoable (applied : bool) (w wk : world) : Prop :=
  armed w wk files /\ honest_faults wk /\
  if applied then saved w wk else w_fs wk !! target = w_fs w !! target.
(** And, before the configuration is swapped, an older copy is what it was. *)
Definition ready (applied : bool) (w wk : world) : Prop :=
  undoable applied w wk /\
  (applied = false -> w_fs wk !! config_backup_path target = w_fs w !! config_backup_path target).

Lemma honest_keeps {E A : Type} q (m : IO E A) w r w' :
  keeps q m -> m w = (r, w') -> honest_faults w -> honest_faults w'.
Proof. intros Hk Hr Hh. destruct (keeps_final _ _ _ _ _ Hk Hr) as (_ & Ef & _). unfold honest_faults. by rewrite Ef. Qed.

Lemma recovered_step {A : Type} m (k : bool -> IO anyhow A) w r w' :
  (do b <- recovered m; k b) w = (r, w') ->
  exists b w1, k b w1 = (r, w') /\ forall q, w_fs w1 !! q = w_fs w !! q.
Proof.
  unfold io_bind. destruct (recovered m w) as [r1 w1] eqn:E. destruct (recovered_total m w) as [b Hb].
  rewrite E in Hb. cbn in Hb. subst r1. intros Hk. exists b, w1. split; [done|]. intros q.
  by eapply keeps_final; [apply keeps_recovered|].
Qed.

Lemma rollback_undoes {A : Type} applied reason w wk (r : result anyhow A) w' :
  undoable applied w wk -> rollback cfg what files applied reason wk = (r, w') ->
  exists e, r = Err e /\ undone w e w'.
Proof.
  intros (Ha & Hh & Hc). unfold rollback. unfold io_bind at 1.
  destruct (restore_files files wk) as [r1 w1] eqn:E1.
  destruct (restore_files_total files wk) as [fo Hfo]. rewrite E1 in Hfo. cbn in Hfo. subst r1.
  assert (forall q, ~ outside cfg q -> w_fs w1 !! q = w_fs wk !! q) as Hk1.
  { intros q Hq. eapply keeps_final; [|exact E1]. apply keeps_restore_files. intros p b Hin.
    destruct (files_outside p b Hin). split; intros <-; done. }
  assert (~ outside cfg target) as Ht by (intros Ho; by apply (outside_ne_config cfg target Ho)).
  assert (~ outside cfg (config_backup_path target)) as Htb by (intros Ho; by apply (outside_ne_config_backup cfg _ Ho)).
  intros Hr. apply io_bind_inv in Hr as [(co & w2 & H2 & Hr)|(e & H2 & ->)].
  2:{ exfalso. destruct applied; [|done]. by apply restore_config_spec in H2 as (b & ? & _). }
  apply recovered_step in Hr as (sb & w3 & Hr & K3). apply recovered_step in Hr as (sub & w4 & Hr & K4).
  injection Hr as <- <-. eexists. split; [done|]. exists reason, (fo && co), sb, sub. split; [done|].
  intros [-> ->]%andb_prop. split.
  - intros p b Hin. assert (w_fs w4 !! p = w_fs w1 !! p) as E4.
    { rewrite K4, K3. eapply keeps_final; [|exact H2]. destruct (files_outside p b Hin) as [Ho _].
      pose proof (outside_ne_config cfg p Ho). unfold restore_config. destruct applied; solve_keeps. }
    pose proof (restore_files_spec w files wk w1 Hh Hsep Ha E1 p b Hin) as Hs.
    unfold same_contents in *. by rewrite E4.
  - unfold given_back. rewrite K4, K3. destruct applied.
    + apply restore_config_spec in H2 as (b & [= <-] & H2). destruct (H2 eq_refl) as (mb & old & mt & Hb & Hn).
      rewrite Hk1 in Hb by done. unfold saved in Hc.
      destruct (w_fs w !! target) as [[m o|m]|]; [|done|right; rewrite <-Hc; by eauto].
      destruct Hc as [mb' Hc]. rewrite Hc in Hb. injection Hb as _ ->. eauto.
    + injection H2 as <-. rewrite Hk1, Hc by done.
      destruct (w_fs w !! target) as [[m o|m]|]; [eauto|done|by left].
Qed.

(** A step that touches neither the backups nor the configuration. *)
Lemma ready_step {E A : Type} applied (m : IO E A) w wk r wk' :
  (forall p b, (p, b) ∈ files -> keeps (rotate_backup_path p) m) ->
  keeps target m -> keeps (config_backup_path target) m ->
  m wk = (r, wk') -> ready applied w wk -> ready applied w wk'.
Proof.
  intros Hk Kt Kb Hr [(Ha & Hh & Hc) Ho].
  destruct (keeps_final _ _ _ _ _ Kt Hr) as [Et _]. destruct (keeps_final _ _ _ _ _ Kb Hr) as [Eb _].
  split; [|by rewrite Eb]. split; [by eapply armed_step|]. split; [by eapply honest_keeps|].
  destruct applied; [|by rewrite Et]. unfold saved in *. by rewrite Eb.
Qed.

Lemma install_or_step p n contents reason w wk r wk' :
  p = reality_dir cfg ++ [n] -> (forall q b, (q, b) ∈ files -> rotate_backup_path q <> p /\
    rotate_backup_path q <> sibling p EmptyString ".rotate-tmp") ->
  ready false w wk ->
  install_or p contents (fun e => rollback cfg what files false (reason e)) wk = (r, wk') ->
  match r with
  | Ok _ => ready false w wk' /\ install_rotated_key_file p contents wk = (Ok tt, wk')
  | Err e => undone w e wk'
  end.
Proof.
  intros -> Hq Hrd (ri & w1 & Hi & Hr)%io_try_inv.
  assert (ready false w w1) as Hrd1.
  { eapply ready_step; [| | |exact Hi|exact Hrd].
    - intros q b [? ?]%Hq. by apply keeps_install.
    - apply keeps_install; [symmetry; apply outside_ne_config, reality_outside|].
      rewrite sibling_snoc. symmetry. apply outside_ne_config, reality_outside.
    - apply keeps_install; [symmetry; apply outside_ne_config_backup, reality_outside|].
      rewrite sibling_snoc. symmetry. apply outside_ne_config_backup, reality_outside. }
  destruct ri as [[]|e].
  - injection Hr as <- <-. done.
  - destruct Hrd1 as [Hrd1 _]. apply (rollback_undoes _ _ w) in Hr as (e' & -> & Hu); done.
Qed.

(** The candidate configuration is in place and was accepted. *)
Definition in_place (doc : json) (w' : world) : Prop :=
  exists data mt tmp, to_vec_pretty doc = Ok data /\ w_fs w' !! target = Some (File mt data) /\
    accepted_by_singbox (pathbuf (singbox_binary cfg)) tmp data w'.
(** The running server loaded the configuration that is in place. *)
Definition loaded (w' : world) : Prop :=
  exists f, live_disk mgr (w_log w') = Some f /\ f !! target = w_fs w' !! target.

Lemma in_place_logged doc w new : in_place doc w -> in_place doc (logged w new).
Proof.
  intros (data & mt & tmp & ? & ? & Hacc). exists data, mt, tmp. split; [done|]. split; [done|].
  eapply accepted_suffix; [|done]. cbn. by apply suffix_app_r.
Qed.

Lemma ready_logged applied w wk new : ready applied w wk -> ready applied w (logged wk new).
Proof. done. Qed.

Lemma controllable_step {A : Type} m (k : bool -> IO anyhow A) w r w' :
  (do c <- controllable m; k c) w = (r, w') ->
  exists b new, k b (logged w new) = (r, w') /\ Forall (fun e => not_reload mgr e.1.1) new.
Proof.
  assert (forall args test, systemctl_binary m :: args <> systemctl_binary mgr :: reload_args mgr ->
    commands (E := anyhow) (not_reload mgr) (probe m args test)) as Hp
    by (intros; by apply commands_probe).
  assert (commands (not_reload mgr) (controllable m)) as Hc.
  { unfold controllable, and_also, is_available, is_unit_installed. apply commands_bind; [apply Hp; by intros [=]|].
    intros []; [apply Hp; by intros [=]|apply commands_ret]. }
  unfold io_bind. destruct (controllable m w) as [r1 w1] eqn:E. destruct (controllable_total m w) as [b Hb].
  rewrite E in Hb. cbn in Hb. subst r1. apply Hc in E as (new & -> & HF). intros Hk. exists b, new.
  split; [done|]. eapply Forall_impl; [exact HF|]. by intros ? [].
Qed.

Lemma reload_or_step m reason w wk r wk' :
  ready true w wk -> reload_or m (fun e => rollback cfg what files true (reason e)) wk = (r, wk') ->
  match r with
  | Err e => undone w e wk'
  | Ok b => exists new, wk' = logged wk new /\ (b = true -> m = mgr -> loaded wk') /\
      (m = sub_mgr -> loaded wk -> loaded wk')
  end.
Proof.
  intros Hrd (b & new & Hr & HF)%controllable_step. destruct b.
  - apply io_try_inv in Hr as (rv & w1 & Hv & Hr).
    assert (m = sub_mgr -> live_disk mgr (w_log w1) = live_disk mgr (w_log (logged wk new))) as Hsub.
    { intros ->. apply (commands_reload_and_verify sub_mgr (not_reload mgr)) in Hv as (l & -> & Hl);
        [|by intros [=]..]. apply live_disk_app. eapply Forall_impl; [exact Hl|]. by intros ? []. }
    apply reload_and_verify_spec in Hv as (new' & -> & Hv). destruct rv as [[]|e].
    + injection Hr as <- <-. exists (new' ++ new). rewrite logged_app in *. split; [done|]. split.
      * intros _ ->. destruct Hv as [Hl _]. exists (w_fs wk). done.
      * intros Hm (f & Hf & Ht). exists f. split; [|done]. rewrite (Hsub Hm), <-Hf. by apply live_disk_app.
    + destruct Hrd as [Hrd _]. by apply (rollback_undoes _ _ w) in Hr as (e' & -> & Hu).
  - injection Hr as <- <-. exists new. split; [done|]. split; [done|].
    intros _ (f & Hf & Ht). exists f. split; [|done]. rewrite <-Hf. by apply live_disk_app.
Qed.

Lemma keeps_config_apply q doc :
  outside cfg q -> keeps q (singbox_apply (pathbuf (singbox_binary cfg)) doc target).
Proof.
  intros Ho. apply keeps_singbox_apply.
  - intros E. by apply (outside_ne_config cfg _ Ho).
  - left. unfold target. rewrite singbox_config_file_eq, removelast_last. apply Ho.
  - intros s. unfold target. rewrite config_sibling_eq. by apply outside_ne.
Qed.

Lemma ready_apply doc w wk r wk' :
  ready false w wk -> singbox_apply (pathbuf (singbox_binary cfg)) doc target wk = (r, wk') ->
  match r with Ok _ => ready true w wk' /\ in_place doc wk' | Err _ => undoable false w wk' end.
Proof.
  intros [(Ha & Hh & Hct) Hcb] Hr. specialize (Hcb eq_refl).
  assert (armed w wk' files) as Ha'.
  { eapply armed_step; [|exact Hr|exact Ha]. intros p b Hin. destruct (files_outside p b Hin) as [_ Ho].
    by apply keeps_config_apply. }
  pose proof Hr as Hrun.
  apply apply_config_spec in Hr as (new & (_ & Ef & _) & Hr); [|apply config_file_ne_nil].
  assert (honest_faults wk') as Hh' by (unfold honest_faults; by rewrite Ef).
  destruct r as [[]|e].
  - apply apply_config_absent in Hrun; [|apply config_file_ne_nil].
    destruct Hr as (data & mt & tmp & Hd & Ht & _ & Hacc & Hb). split; [|by exists data, mt, tmp].
    split; [|done]. split; [done|]. split; [done|]. unfold saved, older_copy, backed_up in *. fold target in Hrun, Hb. rewrite Hct in Hrun, Hb.
    destruct (w_fs w !! target) as [[m old|m]|]; [by apply (Hb m old)|done|by rewrite Hrun, Hcb].
  - destruct Hr as [Et _]. split; [done|]. split; [done|]. by rewrite Et.
Qed.

Lemma apply_candidate_spec doc w wk r wk' :
  ready false w wk -> apply_candidate cfg what files doc wk = (r, wk') ->
  match r with
  | Err e => undone w e wk'
  | Ok (sb, _) => ready true w wk' /\ in_place doc wk' /\ (sb = true -> loaded wk') /\
      forall q, outside cfg q -> w_fs wk' !! q = w_fs wk !! q
  end.
Proof.
  intros Hrd (ra & w1 & H1 & Hr)%io_try_inv.
  assert (forall q, outside cfg q -> w_fs w1 !! q = w_fs wk !! q) as Hout.
  { intros q Ho. eapply keeps_final; [|exact H1]. by apply keeps_config_apply. }
  apply (ready_apply doc w) in H1; [|done].
  destruct ra as [[]|e].
  2:{ by apply (rollback_undoes _ _ w) in Hr as (e' & -> & Hu). }
  destruct H1 as [Hrd1 Hin].
  apply io_bind_inv in Hr as [(sb & w2 & H2 & Hr)|(e & H2 & ->)]; apply (reload_or_step _ _ w) in H2; [|done..].
  destruct H2 as (l2 & -> & Hl2 & _).
  apply io_bind_inv in Hr as [(sub & w3 & H3 & Hr)|(e & H3 & ->)]; apply (reload_or_step _ _ w) in H3; [|done..].
  destruct H3 as (l3 & -> & _ & Hl3). injection Hr as <- <-.
  split; [done|]. split; [by do 2 apply in_place_logged|]. split; [|exact Hout].
  intros ->. apply Hl3; [done|]. by apply Hl2.
Qed.
End RotateFacts.

(** ** Installing a key file *)
Lemma install_Ok_inv p contents w w' :
  install_rotated_key_file p contents w = (Ok tt, w') ->
  exists mt, w_fs w' !! p = Some (File mt (as_bytes contents)).
Proof.
  unfold install_rotated_key_file. set (tmp := sibling _ _ _).
  intros ([] & w1 & Hw & Hr)%io_bind_Ok_inv. unfold write_secret_file in Hw.
  apply io_bind_Ok_inv in Hw as ([] & w2 & H2%io_map_err_Ok_inv & Hw).
  apply io_bind_Ok_inv in Hw as ([] & w3 & H3%io_map_err_Ok_inv & H4%io_map_err_Ok_inv).
  apply open_truncate_Ok_inv in H2 as (mt & -> & _).
  eapply file_write_all_Ok_inv in H3; [|apply lookup_insert_eq]. subst w3.
  apply file_sync_all_Ok_inv in H4 as ->.
  apply io_bind_Ok_inv in Hr as ([] & w5 & H5 & Hr).
  assert (exists m5, w_fs w5 !! tmp = Some (File m5 (as_bytes contents))) as [m5 Ht5].
  { apply io_try_inv in H5 as (rm & w6 & H6 & H5).
    assert (w_fs w6 !! tmp = Some (File mt (as_bytes contents))) as Ht6.
    { eapply (keeps_final tmp) in H6 as [-> _]; [|apply keeps_fs_metadata]. cbn. by rewrite lookup_insert_eq. }
    destruct rm; [|injection H5 as <-; eauto]. apply io_map_err_Ok_inv in H5.
    by eapply update_meta_contents in H5. }
  apply io_bind_Ok_inv in Hr as ([] & w7 & H7%io_map_err_Ok_inv & H8%io_map_err_Ok_inv).
  destruct (preserve_ownership_Ok_inv _ _ _ _ _ _ Ht5 H7) as (u & g & Ht7 & _).
  apply fs_rename_Ok_inv in H8 as (n & Hn & ->). rewrite Ht7 in Hn. injection Hn as <-.
  cbn. rewrite lookup_insert_eq. eauto.
Qed.

(** ** The REALITY keyset *)
Definition key_names : list string := ["private.key"; "public.key"; "short_id.txt"].

Lemma key_files_eq cfg : reality_key_files cfg = (fun n => reality_dir cfg ++ [n]) <$> key_names.
Proof. done. Qed.

Lemma key_file_elem cfg p : p ∈ reality_key_files cfg -> exists n, n ∈ key_names /\ p = reality_dir cfg ++ [n].
Proof. rewrite key_files_eq. intros (n & -> & Hn)%list_elem_of_fmap. eauto. Qed.

(** Two names of the set differ by more than the suffixes that are added to them. *)
Lemma key_names_apart n n' : n ∈ key_names -> n' ∈ key_names ->
  n +:+ ".rotate-bak" <> n' /\ n +:+ ".rotate-bak" <> n' +:+ ".rotate-tmp" /\ n <> n' +:+ ".rotate-tmp" /\
  (n <> n' -> n +:+ ".rotate-bak" <> n' +:+ ".rotate-bak").
Proof.
  unfold key_names. rewrite !elem_of_cons. intros Hn Hn'.
  repeat match goal with
  | H : _ ∈ [] |- _ => by apply not_elem_of_nil in H
  | H : _ \/ _ |- _ => destruct H as [->|H]
  end; (split_and!; [discriminate..|]); try done; intros _; discriminate.
Qed.

Lemma snoc_ne (d : path) a b : a <> b -> d ++ [a] <> d ++ [b].
Proof. by intros Hne [= ?]%app_inv_head. Qed.

Lemma key_files_separate cfg : separate (reality_key_files cfg).
Proof.
  split.
  - rewrite key_files_eq. apply NoDup_fmap; [intros a b [= ->]%app_inv_head; done|].
    repeat constructor; rewrite ?elem_of_cons; intros Hx;
      repeat (destruct Hx as [Hx|Hx]; [discriminate|]); by apply not_elem_of_nil in Hx.
  - intros p p' (n & Hn & ->)%key_file_elem (n' & Hn' & ->)%key_file_elem.
    unfold rotate_backup_path. rewrite !sibling_snoc.
    destruct (key_names_apart n n' Hn Hn') as (H1 & _ & _ & H2).
    split; [by apply snoc_ne|]. intros Hne. apply snoc_ne, H2. intros ->. done.
Qed.

Section Keyset.
Context {C : Clock} {Env : AdminEnv}.
Context {HexI : Hex} {Sha : Sha256} {B64 : Base64Url} {X : X25519} {JV : Json json}.
Context {JU : Json UsersFile} {JL : Json (list CompatUser)}.
Context (cfg : DeploymentConfig) (existed : list bool) (Hlen : length existed = 3%nat).

Let files := zip (reality_key_files cfg) existed.
Let target := singbox_config_file cfg.

Lemma keyset_fst : files.*1 = reality_key_files cfg.
Proof. unfold files. apply fst_zip. rewrite Hlen. cbn. lia. Qed.
Lemma keyset_elem p b : (p, b) ∈ files -> exists n, n ∈ key_names /\ p = reality_dir cfg ++ [n].
Proof. intros Hin. by apply key_file_elem, (elem_of_zip_l _ _ _ _ Hin). Qed.
Lemma keyset_dir : in_key_dir cfg files.
Proof. intros p b (n & _ & ->)%keyset_elem. eauto. Qed.
Lemma keyset_separate : separate files.*1.
Proof. rewrite keyset_fst. apply key_files_separate. Qed.

Lemma install_key_step n contents reason w wk r wk' :
  n ∈ key_names -> ready cfg files false w wk ->
  install_or (reality_dir cfg ++ [n]) contents (fun e => rollback cfg "REALITY" files false (reason e)) wk = (r, wk') ->
  match r with
  | Ok _ => ready cfg files false w wk' /\
      (exists mt, w_fs wk' !! (reality_dir cfg ++ [n]) = Some (File mt (as_bytes contents))) /\
      forall n', n' ∈ key_names -> n' <> n -> w_fs wk' !! (reality_dir cfg ++ [n']) = w_fs wk !! (reality_dir cfg ++ [n'])
  | Err e => undone cfg "REALITY" files w e wk'
  end.
Proof.
  intros Hn Hrd Hr.
  apply (install_or_step cfg "REALITY" files keyset_dir keyset_separate _ n contents reason w) in Hr; [|done| |done].
  2:{ intros q b (m & Hm & ->)%keyset_elem. unfold rotate_backup_path. rewrite !sibling_snoc.
      destruct (key_names_apart m n Hm Hn) as (? & ? & _). split; by apply snoc_ne. }
  destruct r as [[]|]; [|done]. destruct Hr as [Hrd' Hi]. split; [done|]. split; [by apply install_Ok_inv in Hi|].
  intros n' Hn' Hne. eapply keeps_final; [|exact Hi]. apply keeps_install; [by apply snoc_ne, not_eq_sym|].
  rewrite sibling_snoc. destruct (key_names_apart n' n Hn' Hn) as (_ & _ & ? & _). by apply snoc_ne, not_eq_sym.
Qed.

Lemma keeps_remove_backup q p : rotate_backup_path p <> q -> keeps q (remove_rotate_backup p).
Proof. intros. unfold remove_rotate_backup. solve_keeps. Qed.

(** Discarding the backups leaves key files, configuration and log alone. *)
Lemma commit_keeps q (a : bool * HandshakeVerification) w r w' :
  (forall n, n ∈ key_names -> rotate_backup_path (reality_dir cfg ++ [n]) <> q) ->
  (remove_rotate_backup (reality_private_key_file cfg) ;; remove_rotate_backup (reality_public_key_file cfg) ;;
   remove_rotate_backup (reality_dir cfg ++ ["short_id.txt"]) ;; io_ret a) w = (r, w') ->
  w_fs w' !! q = w_fs w !! q /\ w_log w' = w_log w /\ r = Ok a.
Proof.
  intros Hq Hr. split; [|split].
  - eapply keeps_final; [|exact Hr]. repeat (apply keeps_bind; [|intros _]); [..|solve_keeps];
      apply keeps_remove_backup, Hq; set_solver.
  - assert (runs (fun _ => False) (remove_rotate_backup (reality_private_key_file cfg) ;;
      remove_rotate_backup (reality_public_key_file cfg) ;;
      remove_rotate_backup (reality_dir cfg ++ ["short_id.txt"]) ;; io_ret a)) as Hs
      by (unfold remove_rotate_backup; solve_runs).
    apply Hs in Hr as ([|x l] & -> & HF); [done|]. by inversion HF.
  - revert Hr. unfold remove_rotate_backup, io_bind, io_try, io_ret.
    repeat (match goal with |- context [fs_remove_file ?p ?w] => destruct (fs_remove_file p w) end; cbn).
    by intros [= <- _].
Qed.

(** The three key files hold these contents. *)
Definition keys_on_disk (private_key public_key short_id : string) (w' : world) : Prop :=
  (exists mt, w_fs w' !! reality_private_key_file cfg = Some (File mt (as_bytes private_key))) /\
  (exists mt, w_fs w' !! reality_public_key_file cfg = Some (File mt (as_bytes public_key))) /\
  (exists mt, w_fs w' !! (reality_dir cfg ++ ["short_id.txt"]) = Some (File mt (as_bytes short_id))).

Lemma keys_on_disk_eq a b c w w' :
  (forall n, n ∈ key_names -> w_fs w' !! (reality_dir cfg ++ [n]) = w_fs w !! (reality_dir cfg ++ [n])) ->
  keys_on_disk a b c w -> keys_on_disk a b c w'.
Proof.
  unfold keys_on_disk, reality_private_key_file, reality_public_key_file. intros Hk.
  rewrite !Hk by set_solver. done.
Qed.

Lemma rotate_keyset_spec users params private_key public_key short_id doc w wk r w' :
  ready cfg files false w wk ->
  rotate_keyset cfg users params private_key public_key short_id doc files wk = (r, w') ->
  match r with
  | Err e => undone cfg "REALITY" files w e w'
  | Ok (live, _) => in_place cfg doc w' /\ (live = true -> loaded cfg w') /\
      keys_on_disk private_key public_key short_id w'
  end.
Proof.
  intros Hrd Hr. unfold rotate_keyset in Hr. cbv zeta in Hr.
  apply io_bind_inv in Hr as [([] & w1 & H1 & Hr)|(e & H1 & ->)];
    (apply (install_key_step "private.key" _ _ w) in H1; [|set_solver|done]); [|done].
  destruct H1 as (Hrd1 & K1 & O1).
  apply io_bind_inv in Hr as [([] & w2 & H2 & Hr)|(e & H2 & ->)];
    (apply (install_key_step "public.key" _ _ w) in H2; [|set_solver|done]); [|done].
  destruct H2 as (Hrd2 & K2 & O2).
  apply io_bind_inv in Hr as [([] & w3 & H3 & Hr)|(e & H3 & ->)];
    (apply (install_key_step "short_id.txt" _ _ w) in H3; [|set_solver|done]); [|done].
  destruct H3 as (Hrd3 & K3 & O3).
  assert (keys_on_disk private_key public_key short_id w3) as Hkeys.
  { unfold keys_on_disk, reality_private_key_file, reality_public_key_file.
    rewrite (O3 "private.key"), (O2 "private.key"), (O3 "public.key") by (set_solver || done). done. }
  apply io_bind_inv in Hr as [([sb sub] & w4 & H4 & Hr)|(e & H4 & ->)];
    (apply (apply_candidate_spec cfg "REALITY" files keyset_dir keyset_separate doc w) in H4; [|done]); [|done].
  destruct H4 as (Hrd4 & Hin & Hload & Hout).
  assert (keys_on_disk private_key public_key short_id w4) as Hkeys4
    by (eapply keys_on_disk_eq; [|exact Hkeys]; intros; apply Hout, reality_outside).
  cbn [fst snd] in Hr.
  assert (sb && sub = true -> loaded cfg w4) as Hlive by (intros [-> _]%andb_prop; by apply Hload).
  revert Hlive Hr. generalize (sb && sub). intros live Hlive Hr.
  apply io_bind_inv in Hr as [(v & w5 & H5 & Hr)|(e & H5 & ->)].
  2:{ destruct live; [|done]. by apply handshake_runs in H5 as (new & v & _ & _ & Ev). }
  assert (exists new, w5 = logged w4 new /\ live_disk mgr (w_log w5) = live_disk mgr (w_log w4)) as (new & -> & Hsame).
  { destruct live; [apply handshake_runs in H5 as (new & v' & ? & ? & _); eauto|].
    injection H5 as _ <-. exists []. by rewrite logged_nil. }
  apply (ready_logged _ _ _ _ _ new) in Hrd4. apply (in_place_logged _ _ _ new) in Hin.
  assert (live = true -> loaded cfg (logged w4 new)) as Hlive5
    by (intros (f & Hf & Hft)%Hlive; exists f; by rewrite Hsame).
  change (keys_on_disk private_key public_key short_id (logged w4 new)) in Hkeys4. clear Hlive Hload Hout H5.
  revert Hrd4 Hin Hlive5 Hkeys4 Hr. generalize (logged w4 new). intros w5 Hrd4 Hin Hlive Hkeys4 Hr.
  assert ((remove_rotate_backup (reality_private_key_file cfg) ;; remove_rotate_backup (reality_public_key_file cfg) ;;
     remove_rotate_backup (reality_dir cfg ++ ["short_id.txt"]) ;; io_ret (live, v)) w5 = (r, w') \/
    exists reason, rollback cfg "REALITY" files true reason w5 = (r, w')) as [Hc|[reason Hroll]]
    by (destruct v as [[]|]; [left|right; eexists|left|left]; exact Hr).
  - assert (forall q, (forall n, n ∈ key_names -> rotate_backup_path (reality_dir cfg ++ [n]) <> q) ->
      w_fs w' !! q = w_fs w5 !! q /\ w_log w' = w_log w5 /\ r = Ok (live, v)) as Hck
      by (intros q Hq; by eapply commit_keeps).
    assert (w_fs w' !! target = w_fs w5 !! target /\ w_log w' = w_log w5 /\ r = Ok (live, v)) as (Et & El & ->).
    { apply Hck. intros n _. unfold rotate_backup_path. rewrite sibling_snoc. symmetry.
      apply outside_ne_config, reality_outside. }
    unfold target in Et. split_and!.
    + destruct Hin as (data & mt & tmp & Hd & Hf & Hacc). exists data, mt, tmp. split; [done|].
      split; [by rewrite Et|]. eapply accepted_suffix; [|done]. by rewrite El.
    + intros (f & Hf & Hft)%Hlive. exists f. by rewrite El, Et.
    + eapply keys_on_disk_eq; [|exact Hkeys4]. intros n Hn. apply Hck. intros n' Hn'.
      unfold rotate_backup_path. rewrite sibling_snoc. apply snoc_ne. by destruct (key_names_apart n' n Hn' Hn).
  - destruct Hrd4 as [Hrd4 _].
    by apply (rollback_undoes cfg "REALITY" files keyset_dir keyset_separate _ _ w) in Hroll as (e & -> & Hu).
Qed.
End Keyset.

(** ** The whole rotation *)
Section RotateTheorems.
Context {C : Clock} {Env : AdminEnv}.
Context {HexI : Hex} {Sha : Sha256} {B64 : Base64Url} {X : X25519} {JV : Json json}.
Context {JU : Json UsersFile} {JL : Json (list CompatUser)}.

Lemma unchanged_same w w' p : w_fs w' !! p = w_fs w !! p -> same_contents w w' p.
Proof. unfold same_contents. intros ->. destruct (w_fs w !! p) as [[]|]; eauto. Qed.

Lemma keeps_check_candidate q cfg doc tmp :
  tmp <> q -> ~ q `prefix_of` removelast tmp -> tmp <> [] -> keeps q (check_candidate cfg doc tmp).
Proof.
  intros Hq Hd Hn. unfold check_candidate, write_config_for_validation, from_io.
  destruct tmp as [|c tmp]; [done|]. cbn [parent]. solve_keeps.
Qed.

Hint Resolve keeps_now keeps_probe keeps_load_hysteria keeps_controllable keeps_check_candidate : fs.

(** Neither a key file nor the configuration is touched before the backups are made. *)
Lemma keeps_candidate q cfg entropy4 :
  outside cfg q \/ q = singbox_config_file cfg \/ q = config_backup_path (singbox_config_file cfg) ->
  keeps q (rotation_candidate cfg entropy4).
Proof.
  intros Hq. unfold rotation_candidate, generate_reality_keypair, require_controllable, context, from_io, from_compat, load_users.
  set (tmp := with_extension (singbox_config_file cfg) "rotate-candidate.json").
  assert (tmp = singbox_dir cfg ++ ["config.rotate-candidate.json"]) as Etmp
    by (unfold tmp; by rewrite singbox_config_file_eq, with_extension_snoc).
  assert (tmp <> q /\ ~ q `prefix_of` removelast tmp /\ tmp <> []) as (H1 & H2 & H3).
  { assert (forall n, n <> "config.rotate-candidate.json" -> q = singbox_dir cfg ++ [n] ->
      tmp <> q /\ ~ q `prefix_of` removelast tmp /\ tmp <> []) as Hn.
    { intros n Hn ->. rewrite Etmp, removelast_last. split; [by apply snoc_ne, not_eq_sym|]. split; [|by destruct (singbox_dir cfg)].
      intros [k Hk]. apply (f_equal length) in Hk. rewrite !length_app in Hk. cbn in Hk. lia. }
    destruct Hq as [Ho|[->| ->]].
    - rewrite Etmp, removelast_last. split; [by apply outside_ne|]. split; [apply Ho|]. by destruct (singbox_dir cfg).
    - by apply (Hn "config.json"); [|apply singbox_config_file_eq].
    - by apply (Hn "config.json.bak"); [|unfold config_backup_path; rewrite config_sibling_eq]. }
  clearbody tmp. unfold and_also. solve_keeps.
Qed.

Lemma candidate_spec cfg entropy4 w c w' :
  rotation_candidate cfg entropy4 w = (Ok c, w') ->
  validate_reality_keypair (cand_private c) (cand_public c) = Ok tt /\
  cand_short_id c = generate_short_id entropy4 /\
  exists hysteria now, cand_doc c = server_config
    (candidate_params cfg (cand_private c) (cand_public c) (cand_short_id c)) hysteria (ports_of cfg) (cand_users c) now.
Proof.
  intros Hr. apply io_bind_Ok_inv in Hr as (ex & w0 & _ & Hr). destruct (negb ex); [done|].
  apply io_bind_Ok_inv in Hr as ([[priv pub] sid] & w1 & Hk & Hr).
  apply io_bind_Ok_inv in Hr as (users & w2 & _ & Hr). apply io_bind_Ok_inv in Hr as (hysteria & w3 & _ & Hr).
  apply io_bind_Ok_inv in Hr as (now & w4 & _ & Hr). apply io_bind_Ok_inv in Hr as ([] & w5 & _ & Hr).
  apply io_bind_Ok_inv in Hr as ([] & w6 & _ & [= <- _]). cbn.
  apply io_bind_Ok_inv in Hk as (o & w7 & _ & Hk). destruct (negb (success o)); [done|].
  apply io_bind_Ok_inv in Hk as (pr & w8 & _ & Hk). apply io_bind_Ok_inv in Hk as (pu & w9 & _ & Hk).
  apply io_bind_Ok_inv in Hk as ([] & w10 & Hv%io_map_err_Ok_inv & [= <- <- <- _]).
  injection Hv as Hv _. apply map_err_Ok_inv in Hv. split; [done|]. split; [done|]. eauto.
Qed.

Lemma prepare_leaves refusal q paths prepared existed w r w' :
  q ∉ rotate_backup_path <$> paths -> q ∉ prepared ->
  prepare_backups refusal paths prepared existed w = (r, w') ->
  w_fs w' !! q = w_fs w !! q /\ w_fault w' = w_fault w.
Proof.
  revert prepared existed w. induction paths as [|p paths IH]; intros prepared existed w Hq Hp Hr; cbn in Hr.
  { by injection Hr as <- <-. }
  cbn in Hq. apply not_elem_of_cons in Hq as [Hq1 Hq2].
  apply io_try_inv in Hr as (rb & w1 & Hb & Hr). pose proof Hb as Hk.
  eapply (keeps_final q) in Hk as (E1 & F1 & _); [|by apply keeps_backup_for_rotate, not_eq_sym].
  rewrite <-E1, <-F1. destruct rb as [[b|]|e].
  - apply backup_for_rotate_spec in Hb as [-> _]. eapply IH; [done| |exact Hr].
    rewrite not_elem_of_app, list_elem_of_singleton. done.
  - by eapply IH.
  - eapply (keeps_final q) in Hr as (? & ? & _); [done|]. solve_keeps.
Qed.

(** What a rotation finds: the key files, the configuration and its older copy. *)
Definition found (cfg : DeploymentConfig) (q : path) : Prop :=
  q ∈ reality_key_files cfg \/ q = singbox_config_file cfg \/ q = config_backup_path (singbox_config_file cfg).
Lemma key_or_config_not_backup cfg q :
  found cfg q -> q ∉ rotate_backup_path <$> reality_key_files cfg.
Proof.
  intros Hq (p & Hp & (n & Hn & ->)%key_file_elem)%list_elem_of_fmap. unfold rotate_backup_path in Hp.
  rewrite sibling_snoc in Hp. destruct Hq as [(n' & Hn' & ->)%key_file_elem|[->| ->]].
  - destruct (key_names_apart n n' Hn Hn') as (Hne & _). by apply (snoc_ne (reality_dir cfg)) in Hne.
  - by apply (outside_ne_config cfg _ (reality_outside cfg _)) in Hp.
  - by apply (outside_ne_config_backup cfg _ (reality_outside cfg _)) in Hp.
Qed.

(** What the rotation owes to the files it found: their contents. *)
Definition kept (cfg : DeploymentConfig) (w w' : world) : Prop :=
  (forall p, p ∈ reality_key_files cfg -> same_contents w w' p) /\ given_back cfg w w'.

Lemma rotate_spec cfg entropy4 w r w' :
  honest_faults w -> cmd_reality_rotate cfg entropy4 w = (r, w') ->
  match r with
  | Err e => (forall q, found cfg q -> w_fs w' !! q = w_fs w !! q) \/
      exists reason fl sb sub, cause e = RotationFailed "REALITY" reason fl sb sub /\ (fl = true -> kept cfg w w')
  | Ok (live, _) => exists private_key public_key users hysteria now,
      let short_id := generate_short_id entropy4 in
      validate_reality_keypair private_key public_key = Ok tt /\
      keys_on_disk cfg private_key public_key short_id w' /\
      in_place cfg (server_config (candidate_params cfg private_key public_key short_id) hysteria (ports_of cfg) users now) w' /\
      (live = true -> loaded cfg w')
  end.
Proof.
  intros Hh Hr.
  assert (forall q, found cfg q -> keeps q (rotation_candidate cfg entropy4)) as Kc.
  { intros q [(n & _ & ->)%key_file_elem|Hq]; apply keeps_candidate; [left; apply reality_outside|by right]. }
  apply io_bind_inv in Hr as [(c & w1 & Hc & Hr)|(e & Hc & ->)].
  2:{ left. intros q Hq. by eapply keeps_final; [apply Kc|]. }
  assert (forall q, found cfg q -> w_fs w1 !! q = w_fs w !! q) as K1
    by (intros q Hq; by eapply keeps_final; [apply Kc|]).
  assert (w_fault w1 = w_fault w) as F1 by (by eapply keeps_final; [apply (Kc (singbox_config_file cfg)); right; by left|]).
  apply candidate_spec in Hc as (Hv & Hsid & hysteria & now & Hdoc).
  apply io_bind_inv in Hr as [(ex & w2 & H2 & Hr)|(e & H2 & ->)].
  2:{ left. intros q Hq. rewrite <-K1 by done. eapply prepare_leaves; [| |exact H2].
      - by apply key_or_config_not_backup.
      - apply not_elem_of_nil. }
  assert (forall q, found cfg q -> w_fs w2 !! q = w_fs w !! q) as K2.
  { intros q Hq. rewrite <-K1 by done. eapply prepare_leaves; [| |exact H2].
    - by apply key_or_config_not_backup.
    - apply not_elem_of_nil. }
  assert (w_fault w2 = w_fault w1) as F2.
  { eapply (prepare_leaves _ (singbox_config_file cfg)); [| |exact H2].
    - apply key_or_config_not_backup. right. by left.
    - apply not_elem_of_nil. }
  apply prepare_backups_spec in H2 as (ex' & -> & Hlen & Ha & _); [|apply key_files_separate]. cbn [app] in Hr.
  assert (length ex' = 3%nat) as Hlen3 by done.
  assert (ready cfg (zip (reality_key_files cfg) ex') false w w2) as Hrd.
  { split; [split; [|split]|].
    - eapply armed_eq; [|exact Ha]. intros p b Hin%elem_of_zip_l. apply K1. by left.
    - unfold honest_faults. by rewrite F2, F1.
    - apply K2. right. by left.
    - intros _. apply K2. right. by right. }
  apply (rotate_keyset_spec cfg ex' Hlen3 _ _ _ _ _ _ w) in Hr; [|done]. destruct r as [[live v]|e].
  - destruct Hr as (Hin & Hload & Hkeys). rewrite Hsid in *.
    exists (cand_private c), (cand_public c), (cand_users c), hysteria, now. cbn zeta. rewrite <-Hdoc. done.
  - right. destruct Hr as (reason & fl & sb & sub & Hcause & Hr). exists reason, fl, sb, sub. split; [done|].
    intros [Hf Hcfg]%Hr. split; [|done]. intros p Hp.
    rewrite <-(keyset_fst cfg ex' Hlen3) in Hp. apply list_elem_of_fmap in Hp as ([p' b] & -> & Hin). by eapply Hf.
Qed.

Lemma untouched_given_back cfg w w' : w_fs w' !! singbox_config_file cfg = w_fs w !! singbox_config_file cfg -> given_back cfg w w'.
Proof. unfold given_back. intros ->. destruct (w_fs w !! singbox_config_file cfg) as [[]|]; eauto. Qed.

(** C10: A failed key rotation gives back what it found.  If rotating the REALITY
    keys fails before the new material is installed, the key files, the server's
    configuration and its older copy are untouched; if it fails later and
    reports the files as restored, every key file has its old contents, or is
    absent as before, and a configuration that was there has its old contents.
    Where there was no configuration before, there is none after, or the
    rollback has copied the contents of an older config.json.bak there and
    reports it as restored all the same.  Contents only: owner and mode of a
    restored file are not claimed.  This is so for every pattern of failing
    calls in which only a missing file is reported missing. *)
Theorem failed_rotation_restores cfg entropy4 w e w' :
  honest_faults w ->
  cmd_reality_rotate cfg entropy4 w = (Err e, w') ->
  match cause e with
  | RotationFailed _ _ files_restored _ _ => files_restored = true -> kept cfg w w'
  | _ => forall q, found cfg q -> w_fs w' !! q = w_fs w !! q
  end.
Proof.
  intros Hh [Hun|(reason & fl & sb & sub & -> & Hk)]%rotate_spec; [|done|done].
  assert (kept cfg w w') as Hkept.
  { split; [intros p Hp; apply unchanged_same, Hun; by left|]. apply untouched_given_back, Hun. right. by left. }
  by destruct (cause e).
Qed.

(** C11: A successful key rotation leaves no split brain.  The three key files hold
    one coherent key pair and short id, the server's configuration in place was
    accepted by sing-box and rendered with exactly that key material, and, when
    the rotation reports both services reloaded, it is the configuration that
    the running server loaded. *)
Theorem rotation_consistent cfg entropy4 w live v w' :
  honest_faults w ->
  cmd_reality_rotate cfg entropy4 w = (Ok (live, v), w') ->
  exists private_key public_key users hysteria now,
    let short_id := generate_short_id entropy4 in
    validate_reality_keypair private_key public_key = Ok tt /\
    keys_on_disk cfg private_key public_key short_id w' /\
    in_place cfg (server_config (candidate_params cfg private_key public_key short_id) hysteria (ports_of cfg) users now) w' /\
    (live = true -> loaded cfg w').
Proof. by intros Hh Hr%rotate_spec. Qed.

End RotateTheorems.

(** ** Concrete runs *)
Module RotateDemo.
Import StoreDemo RenderDemo ServerDemo ServiceDemo DeploymentDemo AdminDemo.
(** A sing-box that prints a new key pair, on a machine whose services answer;
    [reload n] is whether the n-th command succeeds. *)
Definition new_private : string := hex_encode (repeat "n"%byte 32).
Definition new_public : string := default EmptyString (ok (derive_reality_public_key new_private)).
Definition keypair_output : bytes :=
  as_bytes ("PrivateKey: " +:+ new_private +:+ newline +:+ "PublicKey: " +:+ new_public +:+ newline).
Definition rotating (reload : nat -> bool) : world :=
  World state [] 0 (fun _ => None) (Proc 42 18 0 0)
    (fun n argv _ => Ok match argv with
       | [_; "generate"; _] => Output true keypair_output []
       | _ => Output (reload n) (as_bytes "loaded") []
       end) [].
Definition entropy : bytes := [x01; x02; x03; x04].
Definition good := cmd_reality_rotate cfg entropy (rotating (fun _ => true)).
(** The first reload of the server fails; the rollback's succeeds. *)
Definition bad := cmd_reality_rotate cfg entropy (rotating (fun n => negb (n =? 9)%nat)).

(** The same failure on a machine without a configuration, but with a copy of an
    older one: the rollback reports the files as restored, and the older copy is
    the server's configuration now. *)
Definition no_config (reload : nat -> bool) : world :=
  let w := rotating reload in
  World (<[["s"; "sing-box"; "config.json.bak"] := file "stale"]> (delete ["s"; "sing-box"; "config.json"] (w_fs w)))
    [] 0 (w_fault w) (w_proc w) (w_run w) [].
Definition bad_stale := cmd_reality_rotate cfg entropy (no_config (fun n => negb (n =? 9)%nat)).
Example stale_backup_installed :
  match fst bad_stale with
  | Err e => match cause e with RotationFailed _ _ files_restored _ _ => files_restored = true | _ => False end
  | Ok _ => False
  end /\
  w_fs (no_config (fun n => negb (n =? 9)%nat)) !! singbox_config_file cfg = None /\
  (fun n => match n with File _ d => d | Dir _ => [] end) <$> (w_fs (snd bad_stale) !! singbox_config_file cfg) = Some (as_bytes "stale").
Proof. vm_compute. done. Qed.

(** The disk fills up while the first backup is written, and has room again later. *)
Definition with_faults (fault : nat -> option fault) (w : world) : world :=
  World (w_fs w) [] 0 fault (w_proc w) (w_run w) [].
Definition interrupted := cmd_reality_rotate cfg entropy (with_faults (fun n =>
  if (n =? 9)%nat then Some (Fault (IoError OtherKind (Some 28) "No space left on device") 0) else None)
  (rotating (fun _ => true))).
Definition retried := cmd_reality_rotate cfg entropy (with_faults (fun _ => None) (snd interrupted)).
End RotateDemo.

Section RotateWitnesses.
Import StoreDemo RenderDemo ServerDemo ServiceDemo DeploymentDemo AdminDemo RotateDemo.

(** A backup that could not be completed is left behind, and every later rotation
    refuses to start because of it. *)
Example partial_backup_blocks_rotation :
  is_ok (fst interrupted) = false /\
  exists_at (w_fs (snd interrupted)) (rotate_backup_path (reality_private_key_file cfg)) = true /\
  is_ok (fst retried) = false.
Proof. split_and!; vm_compute; reflexivity. Qed.

Lemma failed_rotation_restores_witness :
  kept cfg (rotating (fun n => negb (n =? 9)%nat)) (snd bad).
Proof.
  refine (failed_rotation_restores cfg entropy (rotating (fun n => negb (n =? 9)%nat))
    (error (RotationFailed "REALITY" "sing-box reload failed: systemctl reload-or-restart sing-box failed: " true true true))
    (snd bad) _ _ eq_refl).
  - intros n ft. discriminate.
  - refine (run_of_fst (cmd_reality_rotate cfg entropy) (rotating (fun n => negb (n =? 9)%nat))
      (Err (error (RotationFailed _ _ true true true))) _).
    vm_compute. reflexivity.
Defined.

Lemma rotation_consistent_witness :
  exists private_key public_key, validate_reality_keypair private_key public_key = Ok tt /\
    keys_on_disk cfg private_key public_key (generate_short_id entropy) (snd good).
Proof.
  destruct (rotation_consistent cfg entropy (rotating (fun _ => true)) true (Ran Pass) (snd good))
    as (priv & pub & users & hysteria & now & Hv & Hk & _).
  - intros n ft. discriminate.
  - refine (run_of_fst (cmd_reality_rotate cfg entropy) (rotating (fun _ => true)) (Ok (true, Ran Pass)) _).
    vm_compute. reflexivity.
  - exists priv, pub. split; [exact Hv|exact Hk].
Defined.
End RotateWitnesses.
