(* ===== verification/Backup.v ===== *)
(** * apps/admin: backup and restore

    Models the end of main.rs: the manifest of a backup, staging and writing
    it, the validation of an archive before anything of it is used, and the
    restore transaction with its rollback.  The [tar] crate is the class [Tar];
    the private staging directory is an argument, and its removal at the end is
    left out. *)

From stdpp Require Import pretty.
From Stdlib Require Import Strings.Byte.
From S2P Require Import Prelude Bytes Io Serde Fs Model Store Render Server Deployment Service Anyhow Selftest Admin Rotate.

(** ** The manifest *)
Definition BACKUP_MANIFEST : list (path * (DeploymentConfig -> path)) := [
  (["users"; "users.json"], users_file);
  (["reality"; "private.key"], reality_private_key_file);
  (["reality"; "public.key"], reality_public_key_file);
  (["reality"; "short_id.txt"], fun cfg => reality_dir cfg ++ ["short_id.txt"]);
  (["hysteria"; "cert.pem"], fun cfg => hysteria_dir cfg ++ ["cert.pem"]);
  (["hysteria"; "key.pem"], fun cfg => hysteria_dir cfg ++ ["key.pem"]);
  (["reality"; "hysteria_obfs_password.txt"], hysteria_obfs_password_file)].

Definition path_eqb (a b : path) : bool := bool_decide (a = b).
Definition is_allowed_backup_path (p : path) : bool :=
  path_eqb p ["deployment.toml"] ||
  existsb (fun '(rel, _) => path_eqb p rel ||
    match parent rel with
    | Some par => negb (path_eqb par []) && path_eqb p par
    | None => false
    end) BACKUP_MANIFEST.

(** ** Archives *)
(** [std::path::Component] *)
Inductive Component := CurDir | Normal (part : string) | ParentDir | RootDir | Prefix.
Inductive EntryType := RegularFile | Directory | OtherEntry.
Record Entry := {
  entry_path : result io_error (list Component);
  entry_type : EntryType;
  entry_size : Z;
  entry_data : bytes
}.
(** The [tar] crate: the entries of an archive, unpacking one below a directory
    ([false] if it would escape it), and the archive of a directory. *)
Class Tar := {
  tar_entries : bytes -> result io_error (list (result io_error Entry));
  tar_unpack_in : Entry -> path -> IO io_error bool;
  tar_build : fs -> path -> result io_error bytes
}.
(** Unpacking stays below the directory. *)
Class TarLaws `{Tar} := {
  unpack_below e dir q : ~ dir `prefix_of` q -> keeps q (tar_unpack_in e dir)
}.

(** What [{path:?}] shows of a raw path. *)
Definition component_str (c : Component) : string :=
  match c with CurDir => "." | Normal p => p | ParentDir => ".." | RootDir => "/" | Prefix => "" end.
Definition raw_debug (cs : list Component) : string := quoted (String.concat "/" (component_str <$> cs)).

Fixpoint normalize (cs : list Component) : option path :=
  match cs with
  | [] => Some []
  | CurDir :: cs => normalize cs
  | Normal part :: cs => cons part <$> normalize cs
  | _ => None
  end.
Definition normalized_archive_path (cs : list Component) : result anyhow path :=
  ok_or (normalize cs) (bail ("backup archive contains unsafe path " +:+ raw_debug cs)).

Definition MAX_ENTRIES : Z := 32.
Definition MAX_ENTRY_BYTES : Z := 32 * 1024 * 1024.
Definition MAX_TOTAL_BYTES : Z := 64 * 1024 * 1024.

Definition relative_debug (p : path) : string := quoted (String.concat "/" p).

Section Archive.
Context `{Tar}.

(** The checks on one entry's header: the path to extract, or none for the root
    entry, with the new totals. *)
Definition check_entry (entry : Entry) (seen : gset (list string)) (total_bytes : Z)
    : result anyhow (option (path * Z)) :=
  raw_path ← map_err (fun e => with_context "reading backup entry path" (error (FromIo e))) (entry_path entry);
  p ← normalized_archive_path raw_path;
  if bool_decide (p = []) then
    match entry_type entry with
    | Directory => Ok None
    | _ => Err (bail "backup archive root entry is not a directory")
    end
  else if bool_decide (p ∈ seen) then Err (bail ("backup archive contains duplicate entry " +:+ relative_debug p))
  else if negb (is_allowed_backup_path p) then Err (bail ("backup archive contains unexpected entry " +:+ relative_debug p))
  else match entry_type entry with
  | OtherEntry => Err (bail ("backup archive entry " +:+ relative_debug p +:+
      " is not a regular file or directory; links and special files (symlink, hard link, FIFO, device) are forbidden"))
  | _ =>
    if MAX_ENTRY_BYTES <? entry_size entry
    then Err (bail ("backup archive entry " +:+ relative_debug p +:+ " is too large (" +:+ pretty (entry_size entry) +:+ " bytes)"))
    else
    total_bytes ← ok_or (checked_add u64_max total_bytes (entry_size entry)) (bail "backup archive size overflow");
    if MAX_TOTAL_BYTES <? total_bytes
    then Err (bail ("backup archive expands beyond " +:+ pretty MAX_TOTAL_BYTES +:+ " bytes"))
    else Ok (Some (p, total_bytes))
  end.

Fixpoint extract_entries (es : list (result io_error Entry)) (dir : path) (seen : gset (list string))
    (total_bytes count : Z) : IO anyhow unit :=
  match es with
  | [] => io_ret tt
  | e :: es =>
    do entry <- context "reading backup archive entry" (from_io (io_lift e));
    let count := count + 1 in
    if MAX_ENTRIES <? count
    then io_err (bail ("backup archive contains more than " +:+ pretty MAX_ENTRIES +:+ " entries")) else
    do checked <- io_lift (check_entry entry seen total_bytes);
    match checked with
    | None => extract_entries es dir seen total_bytes count
    | Some (p, total_bytes) =>
      do inside <- context ("extracting backup entry " +:+ relative_debug p) (from_io (tar_unpack_in entry dir));
      if (inside : bool) then extract_entries es dir ({[p]} ∪ seen) total_bytes count
      else io_err (bail ("backup entry " +:+ relative_debug p +:+ " would escape the staging directory"))
    end
  end.

Definition extract_validated_backup (archive_path dir : path) : IO anyhow unit :=
  do data <- context ("opening backup archive " +:+ path_debug archive_path) (from_io (fs_read archive_path));
  do entries <- context "reading backup archive headers" (from_io (io_lift (tar_entries data)));
  extract_entries entries dir ∅ 0 0.

(** ** Backup *)
Definition copy_if_exists (src dst : path) : IO anyhow unit :=
  do ex <- path_exists src;
  if negb ex then io_ret tt else
  (match parent dst with Some d => from_io (create_dir_all d) | None => io_ret tt end) ;;
  from_io (fs_copy src dst).
Fixpoint copy_manifest (cfg : DeploymentConfig) (dir : path) (l : list (path * (DeploymentConfig -> path))) : IO anyhow unit :=
  match l with
  | [] => io_ret tt
  | (rel, accessor) :: l => copy_if_exists (accessor cfg) (dir ++ rel) ;; copy_manifest cfg dir l
  end.
Definition stage_backup_contents (cfg : DeploymentConfig) (config_path dir : path) : IO anyhow unit :=
  copy_if_exists config_path (dir ++ ["deployment.toml"]) ;;
  copy_manifest cfg dir BACKUP_MANIFEST.

(** Write the archive of [staging] to the new file [dest]. *)
Definition write_archive (staging dest : path) : IO anyhow unit :=
  do built <- io_gets (fun f => tar_build f staging);
  do data <- context "writing backup archive contents" (from_io (io_lift built));
  context "finishing backup archive" (from_io (file_write_all dest data)) ;;
  context "syncing backup archive" (from_io (file_sync_all dest)).
Definition cmd_backup (cfg : DeploymentConfig) (config_path staging dest : path) : IO anyhow unit :=
  stage_backup_contents cfg config_path staging ;;
  context ("securely creating backup " +:+ path_debug dest +:+ " (destination must not already exist)")
    (from_io (open_create_new 384 dest)) ;;
  io_try (write_archive staging dest) (fun r =>
    match r with
    | Ok _ => io_ret tt
    | Err e => io_try (fs_remove_file dest) (fun _ => io_err e)
    end).
End Archive.

(** ** Restore *)
(** [{e:#}] of an [anyhow::Error]: the contexts, outermost first, and the cause. *)
Definition anyhow_chain (e : anyhow) : string := String.concat ": " (contexts e ++ [cause_text (cause e)]).

Definition rel_str (rel : path) : string := String.concat "/" rel.

(** The manifest without users.json: the path in the archive and the live file. *)
Definition restore_targets (cfg : DeploymentConfig) : list (path * path) :=
  (fun '(rel, accessor) => (rel, accessor cfg)) <$>
    filter (fun x => x.1 <> ["users"; "users.json"]) BACKUP_MANIFEST.

Definition restored_group (rel : path) : string :=
  if bool_decide (rel ∈ [["reality"; "public.key"]; ["reality"; "short_id.txt"]; ["reality"; "hysteria_obfs_password.txt"]])
  then "vpn-subscription" else "sing-box".

Section Restore.
Context {C : Clock} {Env : AdminEnv} {T : Tar}.
Context {HexI : Hex} {Sha : Sha256} {B64 : Base64Url} {X : X25519} {JV : Json json}.
Context {JU : Json UsersFile} {JL : Json (list CompatUser)}.

(** What is checked of the staged files before anything live is touched; the
    users of the archive. *)
Definition validate_staged (staging : path) : IO anyhow (list CompatUser) :=
  do has_users <- path_exists (staging ++ ["users"; "users.json"]);
  if negb has_users then io_err (bail "archive does not contain users/users.json — refusing to restore") else
  do data <- context "reading restored users.json" (from_io (fs_read (staging ++ ["users"; "users.json"])));
  do restored_users <- context "restored users.json is not valid — refusing to restore"
    (from_compat (io_lift (parse_users_bytes data)));
  do has_private <- path_exists (staging ++ ["reality"; "private.key"]);
  if negb has_private then io_err (bail "archive does not contain reality/private.key — refusing to restore") else
  do has_public <- path_exists (staging ++ ["reality"; "public.key"]);
  let partial (required : string) := bail ("archive contains reality/private.key but not " +:+ required +:+
    " — refusing to restore a partial REALITY keyset, which would leave the server enforcing one key while the subscription service advertises another") in
  if negb has_public then io_err (partial "reality/public.key") else
  do has_short_id <- path_exists (staging ++ ["reality"; "short_id.txt"]);
  if negb has_short_id then io_err (partial "reality/short_id.txt") else
  do restored_private <- context "reading restored REALITY private key"
    (from_io (fs_read_to_string (staging ++ ["reality"; "private.key"])));
  do restored_public <- context "reading restored REALITY public key"
    (from_io (fs_read_to_string (staging ++ ["reality"; "public.key"])));
  context "restored REALITY private/public keys do not form one X25519 keypair — refusing to install a split keyset"
    (io_lift (map_err bail (validate_reality_keypair (trim restored_private) (trim restored_public)))) ;;
  do has_cert <- path_exists (staging ++ ["hysteria"; "cert.pem"]);
  do has_key <- path_exists (staging ++ ["hysteria"; "key.pem"]);
  if xorb has_cert has_key
  then io_err (bail "archive contains only one half of the Hysteria2 TLS pair — refusing to restore a mismatched certificate/key")
  else io_ret restored_users.

(** Restore each file, going on after a failure; the failures. *)
Fixpoint restore_reporting (files : list (path * bool)) : IO anyhow (list string) :=
  match files with
  | [] => io_ret []
  | (dest, did_exist) :: rest =>
    io_try (restore_or_remove dest did_exist) (fun r =>
      do errors <- restore_reporting rest;
      io_ret (match r with
              | Ok _ => errors
              | Err e => ("restore " +:+ path_debug dest +:+ ": " +:+ anyhow_text e) :: errors
              end))
  end.

(** The rollback closure: files, the server's authorization, the subscription
    service; the errors met. *)
Definition rollback_restore (cfg : DeploymentConfig) (files : list (path * bool)) : IO anyhow (list string) :=
  do file_errors <- restore_reporting files;
  do config_errors <- io_try (regenerate_singbox_config cfg true) (fun r =>
    io_ret (match r with
            | Ok _ => []
            | Err e => ["reload previous sing-box authorization: " +:+ anyhow_chain e]
            end));
  do c <- controllable sub_mgr;
  do sub_errors <- (if (c : bool)
    then io_try (reload_and_verify sub_mgr) (fun r =>
      io_ret (match r with Ok _ => [] | Err e => ["restart previous subscription state: " +:+ e] end))
    else io_ret (if offline_mutation_allowed then [] else ["vpn-subscription.service unavailable during rollback"]));
  io_ret (file_errors ++ config_errors ++ sub_errors).

Definition fail_restore {A : Type} (cfg : DeploymentConfig) (files : list (path * bool)) (stage reason : string) : IO anyhow A :=
  do recovery <- rollback_restore cfg files;
  io_err (error (RestoreFailed stage reason recovery)).

Fixpoint install_staged (staging : path) (targets : list (path * path)) : IO anyhow unit :=
  match targets with
  | [] => io_ret tt
  | (rel, dest) :: rest =>
    do ex <- path_exists (staging ++ rel);
    if negb ex then install_staged staging rest else
    do contents <- context ("reading " +:+ rel_str rel +:+ " from the backup archive") (from_io (fs_read (staging ++ rel)));
    do text <- io_lift (ok_or (from_utf8 contents)
      (with_context (rel_str rel +:+ " in the backup archive is not valid UTF-8") (bail "invalid utf-8 sequence")));
    context ("installing restored " +:+ rel_str rel) (install_rotated_key_file dest text) ;;
    apply_restored_file_policy dest (restored_group rel) ;;
    install_staged staging rest
  end.
Definition install_all (cfg : DeploymentConfig) (staging : path) (restored_users : list CompatUser) : IO anyhow unit :=
  from_compat (save_users_atomic (users_file cfg) restored_users) ;;
  apply_restored_file_policy (users_file cfg) "vpn-subscription" ;;
  install_staged staging (restore_targets cfg) ;;
  fsync_dir (reality_dir cfg) ;;
  fsync_dir (hysteria_dir cfg).

Fixpoint remove_backups (files : list (path * bool)) : IO anyhow unit :=
  match files with
  | [] => io_ret tt
  | (dest, existed) :: rest => (if (existed : bool) then remove_rotate_backup dest else io_ret tt) ;; remove_backups rest
  end.

(** From the backups on: install, publish, restart, commit. *)
Definition restore_transaction (cfg : DeploymentConfig) (staging : path) (restored_users : list CompatUser)
    (files : list (path * bool)) : IO anyhow unit :=
  io_try (install_all cfg staging restored_users) (fun r =>
    match r with
    | Ok _ => io_ret tt
    | Err e => fail_restore cfg files "installing staged state" (anyhow_chain e)
    end) ;;
  io_try (regenerate_singbox_config cfg true) (fun r =>
    match r with
    | Ok _ => io_ret tt
    | Err e => fail_restore cfg files "applying restored authorization" (anyhow_chain e)
    end) ;;
  reload_or sub_mgr (fun e => fail_restore cfg files "restarting vpn-subscription" e) ;;
  remove_backups files.

Definition cmd_restore (cfg : DeploymentConfig) (staging archive : path) : IO anyhow nat :=
  context "validating and extracting backup archive" (extract_validated_backup archive staging) ;;
  do restored_users <- validate_staged staging;
  require_controllable "refusing restore: both sing-box.service and vpn-subscription.service must be installed and controllable so restored authorization/key state can be committed atomically. VPN1_ALLOW_OFFLINE_MUTATION=1 is only for explicit offline recovery." ;;
  from_io (create_dir_all (reality_dir cfg)) ;;
  from_io (create_dir_all (hysteria_dir cfg)) ;;
  from_io (create_dir_all (removelast (users_file cfg))) ;;
  let targets := (restore_targets cfg).*2 in
  do users_backup <- backup_for_rotate (users_file cfg);
  do existed <- prepare_backups "failed to prepare the complete restore transaction; live state was not changed"
    targets (option_list users_backup) [];
  restore_transaction cfg staging restored_users
    (zip targets existed ++ [(users_file cfg, bool_decide (is_Some users_backup))]) ;;
  io_ret (length restored_users).
End Restore.

(** ** The validation of an archive *)

(** The entry may be extracted, to [p] below the staging directory: it is the
    root directory, or a file or directory of the manifest. *)
Definition admitted (entry : Entry) (p : path) : Prop :=
  (exists raw, entry_path entry = Ok raw /\ normalize raw = Some p) /\
  (if bool_decide (p = []) then entry_type entry = Directory
   else is_allowed_backup_path p = true /\ entry_type entry <> OtherEntry /\ entry_size entry <= MAX_ENTRY_BYTES).

(** What an entry that is extracted to [p] counts towards the total. *)
Definition counted (entry : Entry) (p : path) : Z := if bool_decide (p = []) then 0 else entry_size entry.
Definition total_size (entries : list Entry) (ps : list path) : Z := foldr Z.add 0 (zip_with counted entries ps).

(** The entries of an acceptable archive and where they go. *)
Definition acceptable (entries : list Entry) (ps : list path) : Prop :=
  Forall2 admitted entries ps /\ NoDup (filter (fun p => p <> []) ps) /\
  Z.of_nat (length entries) <= MAX_ENTRIES /\ total_size entries ps <= MAX_TOTAL_BYTES.

Section ArchiveFacts.
Context `{Tar}.

Lemma check_entry_inv entry seen total o :
  check_entry entry seen total = Ok o ->
  exists p, admitted entry p /\
    match o with
    | None => p = []
    | Some (p', total') => p' = p /\ p <> [] /\ p ∉ seen /\ total' = total + entry_size entry /\ total' <= MAX_TOTAL_BYTES
    end.
Proof.
  unfold check_entry, admitted. destruct (entry_path entry) as [raw|e]; [|done]. cbn.
  unfold normalized_archive_path. destruct (normalize raw) as [p|] eqn:En; [|done]. cbn.
  intros Hc. exists p. split.
  - split; [by exists raw|]. case_bool_decide as Hp; [by destruct (entry_type entry)|].
    case_bool_decide; [done|]. destruct (is_allowed_backup_path p); [|done]. cbn in Hc. split; [done|].
    destruct (entry_type entry); [| |done]; (split; [done|]);
      destruct (Z.ltb_spec MAX_ENTRY_BYTES (entry_size entry)); done || lia.
  - case_bool_decide as Hp; [by destruct (entry_type entry); simplify_eq|].
    case_bool_decide as Hs; [done|]. destruct (negb (is_allowed_backup_path p)); [done|].
    assert ((if MAX_ENTRY_BYTES <? entry_size entry then Err (bail ("backup archive entry " +:+ relative_debug p +:+
      " is too large (" +:+ pretty (entry_size entry) +:+ " bytes)")) else
      total' ← ok_or (checked_add u64_max total (entry_size entry)) (bail "backup archive size overflow");
      if MAX_TOTAL_BYTES <? total' then Err (bail ("backup archive expands beyond " +:+ pretty MAX_TOTAL_BYTES +:+ " bytes"))
      else Ok (Some (p, total'))) = Ok o) as Hc' by (by destruct (entry_type entry)).
    destruct (MAX_ENTRY_BYTES <? entry_size entry); [done|]. unfold checked_add in Hc'.
    destruct (_ <=? u64_max); [|done]. cbn in Hc'.
    destruct (Z.ltb_spec MAX_TOTAL_BYTES (total + entry_size entry)); [done|]. injection Hc' as <-. done.
Qed.

Lemma extract_entries_spec es dir seen total count w w' :
  total <= MAX_TOTAL_BYTES -> count <= MAX_ENTRIES ->
  extract_entries es dir seen total count w = (Ok tt, w') ->
  exists entries ps, es = Ok <$> entries /\ Forall2 admitted entries ps /\
    NoDup (filter (fun p => p <> []) ps) /\ (forall p, p ∈ ps -> p <> [] -> p ∉ seen) /\
    count + Z.of_nat (length entries) <= MAX_ENTRIES /\ total + total_size entries ps <= MAX_TOTAL_BYTES.
Proof.
  revert seen total count w. induction es as [|e es IH]; intros seen total count w Ht Hc Hr.
  { exists [], []. split_and!; cbn; try done; try lia; [constructor|by intros p Hp%not_elem_of_nil]. }
  cbn [extract_entries] in Hr. apply io_bind_Ok_inv in Hr as (entry & w1 & H1%io_map_err_Ok_inv%io_map_err_Ok_inv & Hr).
  injection H1 as -> <-. destruct (Z.ltb_spec MAX_ENTRIES (count + 1)) as [|Hcount]; [done|].
  apply io_bind_Ok_inv in Hr as (o & w1 & [= Ho <-] & Hr).
  apply check_entry_inv in Ho as (p & Hadm & Ho). destruct o as [[p' total']|].
  - destruct Ho as (-> & Hne & Hseen & -> & Htot).
    apply io_bind_Ok_inv in Hr as (inside & w2 & _ & Hr). destruct inside; [|done].
    apply IH in Hr as (entries & ps & -> & HF & Hnd & Hps & Hcnt & Hsum); [|lia..].
    exists (entry :: entries), (p :: ps). split; [done|]. split; [by constructor|].
    assert (total_size (entry :: entries) (p :: ps) = entry_size entry + total_size entries ps) as ->.
    { unfold total_size. cbn. unfold counted at 1. by rewrite bool_decide_false. }
    split_and!; [| |cbn [length]; lia|lia].
    + rewrite filter_cons_True by done. constructor; [|done]. intros [_ Hin]%list_elem_of_filter.
      apply (Hps p Hin Hne). set_solver.
    + intros q [->|Hq]%elem_of_cons Hq'; [done|]. specialize (Hps q Hq Hq'). set_solver.
  - subst p. apply IH in Hr as (entries & ps & -> & HF & Hnd & Hps & Hcnt & Hsum); [|lia..].
    exists (entry :: entries), ([] :: ps). split; [done|]. split; [by constructor|].
    assert (total_size (entry :: entries) ([] :: ps) = total_size entries ps) as -> by done.
    split_and!; [by rewrite filter_cons_False by auto| |cbn [length]; lia|lia].
    intros q [->|Hq]%elem_of_cons Hq'; [done|]. by apply Hps.
Qed.

Context `{!TarLaws}.

(** Extraction writes below the staging directory only. *)
Lemma keeps_extract_entries q es dir seen total count :
  ~ dir `prefix_of` q -> keeps q (extract_entries es dir seen total count).
Proof.
  intros Hq. revert seen total count. induction es as [|e es IH]; intros seen total count;
    cbn [extract_entries]; [solve_keeps|]. unfold context, from_io.
  apply keeps_bind; [solve_keeps|]. intros entry. apply keeps_if; [solve_keeps|].
  apply keeps_bind; [solve_keeps|]. intros [[p t]|]; [|apply IH].
  apply keeps_bind; [do 2 apply keeps_map_err; by apply unpack_below|]. intros []; [apply IH|solve_keeps].
Qed.
Lemma keeps_extract q archive dir : ~ dir `prefix_of` q -> keeps q (extract_validated_backup archive dir).
Proof.
  intros Hq. unfold extract_validated_backup, context, from_io.
  apply keeps_bind; [solve_keeps|]. intros data. apply keeps_bind; [solve_keeps|]. intros es.
  by apply keeps_extract_entries.
Qed.

Lemma extract_Ok_inv archive dir w w' :
  extract_validated_backup archive dir w = (Ok tt, w') ->
  exists mt data entries ps, w_fs w !! archive = Some (File mt data) /\
    tar_entries data = Ok (Ok <$> entries) /\ acceptable entries ps.
Proof.
  intros (data & w1 & H1 & Hr)%io_bind_Ok_inv. do 2 apply io_map_err_Ok_inv in H1.
  apply fs_read_Ok_inv in H1 as [[mt Hd] ->].
  apply io_bind_Ok_inv in Hr as (es & w2 & H2 & Hr). do 2 apply io_map_err_Ok_inv in H2. injection H2 as He <-.
  apply extract_entries_spec in Hr as (entries & ps & -> & ? & ? & _ & ? & ?); [|done..].
  exists mt, data, entries, ps. by split_and!.
Qed.

(** C36: Only an acceptable archive is extracted, and only into the staging
    directory.  If [extract_validated_backup] succeeds, the archive has at most
    32 entries, each is the root directory or a file or directory of the backup
    manifest under a relative path without parent steps, no path occurs twice,
    no entry is over 32 MiB and together they stay within 64 MiB; and
    whatever the archive holds and whatever fails, nothing outside the staging
    directory changes. *)
Theorem archive_validated archive dir w r w' :
  extract_validated_backup archive dir w = (r, w') ->
  (forall q, ~ dir `prefix_of` q -> w_fs w' !! q = w_fs w !! q) /\
  (r = Ok tt -> exists mt data entries ps, w_fs w !! archive = Some (File mt data) /\
     tar_entries data = Ok (Ok <$> entries) /\ acceptable entries ps).
Proof.
  intros Hr. split; [|intros ->; by eapply extract_Ok_inv].
  intros q Hq. eapply keeps_final; [|exact Hr]. by apply keeps_extract.
Qed.
End ArchiveFacts.

(** ** What a backup writes *)
Section BackupFacts.
Context `{Tar}.
Context (cfg : DeploymentConfig) (config_path staging dest : path).

Lemma keeps_copy_if_exists q src dst :
  dst <> q -> ~ q `prefix_of` removelast dst -> keeps q (copy_if_exists src dst).
Proof. intros. unfold copy_if_exists, from_io. destruct dst; cbn [parent]; solve_keeps. Qed.

(** Staging writes the files of the manifest and the directories they need. *)
Definition staged_at (q : path) : Prop :=
  q `prefix_of` staging \/ exists p, is_allowed_backup_path p = true /\ q = staging ++ p.

Lemma prefix_snoc_inv (q d : path) n : q `prefix_of` d ++ [n] -> q = d ++ [n] \/ q `prefix_of` d.
Proof.
  intros [k Hk]. destruct (decide (k = [])) as [->|Hne]; [left; by rewrite app_nil_r in Hk|right].
  destruct (path_snoc k Hne) as (k' & n' & ->). rewrite app_assoc in Hk. apply app_inj_tail in Hk as [-> _].
  by exists k'.
Qed.

Lemma keeps_staging q rel :
  ~ staged_at q -> is_allowed_backup_path rel = true ->
  (match rel with [_] => True | [d; _] => is_allowed_backup_path [d] = true | _ => False end) ->
  forall src, keeps q (copy_if_exists src (staging ++ rel)).
Proof.
  intros Hq Hrel Hd src. apply keeps_copy_if_exists.
  - intros <-. apply Hq. right. by exists rel.
  - destruct rel as [|d [|n [|]]]; [done| | |done]; intros Hp; apply Hq.
    + rewrite removelast_last in Hp. by left.
    + change [d; n] with ([d] ++ [n]) in Hp. rewrite app_assoc, removelast_last in Hp.
      apply prefix_snoc_inv in Hp as [->|Hp]; [right; by exists [d]|by left].
Qed.

Lemma keeps_stage q : ~ staged_at q -> keeps q (stage_backup_contents cfg config_path staging).
Proof.
  intros Hq. unfold stage_backup_contents. cbn [copy_manifest BACKUP_MANIFEST].
  repeat (apply keeps_bind; [apply keeps_staging; (done || reflexivity)|intros]). solve_keeps.
Qed.

Lemma keeps_backup_dest q : q <> dest -> ~ staged_at q -> keeps q (cmd_backup cfg config_path staging dest).
Proof.
  intros Hd Hq. unfold cmd_backup, write_archive, context, from_io.
  apply keeps_bind; [by apply keeps_stage|]. intros. solve_keeps.
Qed.

Lemma stage_proc w r w1 : stage_backup_contents cfg config_path staging w = (r, w1) -> w_proc w1 = w_proc w.
Proof.
  intros Hr. eapply (keeps_final (staging ++ [""; ""; ""])); [|exact Hr]. apply keeps_stage.
  intros [[k Hk]|(p & Hp & Hq)].
  - rewrite <-app_assoc in Hk. apply (f_equal length) in Hk. rewrite !length_app in Hk. cbn in Hk. lia.
  - apply app_inv_head in Hq as <-. done.
Qed.

(** The archive is written into the file that was just created. *)
Lemma write_archive_Ok_inv w w' mt :
  w_fs w !! dest = Some (File mt []) -> write_archive staging dest w = (Ok tt, w') ->
  exists data, tar_build (w_fs w) staging = Ok data /\ w_fs w' !! dest = Some (File mt data).
Proof.
  intros Hd (built & w1 & [= <- <-] & Hr)%io_bind_Ok_inv.
  apply io_bind_Ok_inv in Hr as (data & w1 & H1 & Hr). do 2 apply io_map_err_Ok_inv in H1. injection H1 as Hb <-.
  apply io_bind_Ok_inv in Hr as ([] & w2 & H2 & H3). do 2 apply io_map_err_Ok_inv in H2. do 2 apply io_map_err_Ok_inv in H3.
  eapply file_write_all_Ok_inv in H2; [|exact Hd]. subst w2. apply file_sync_all_Ok_inv in H3 as ->.
  exists data. split; [done|]. cbn. apply lookup_insert_eq.
Qed.

(** A backup is a new, private file, and agrees with what a restore accepts.
    Whatever fails, [cmd_backup] changes no file but its destination and the
    staged copies, and all staged copies are at paths that the validation of an
    archive allows.  A destination that already exists is refused
    and left as it is.  After a success the destination is a new file of mode
    0600 less the umask, holding the archive of the staging directory. *)
Theorem backup_creates_new w r w' :
  cmd_backup cfg config_path staging dest w = (r, w') ->
  (forall q, q <> dest -> ~ staged_at q -> w_fs w' !! q = w_fs w !! q) /\
  (~ staged_at dest -> forall n, w_fs w !! dest = Some n -> is_ok r = false /\ w_fs w' !! dest = Some n) /\
  (r = Ok tt -> exists f mt data, tar_build f staging = Ok data /\
     w_fs w' !! dest = Some (File mt data) /\ mode mt = Z.land 384 (Z.lnot (umask (w_proc w)))).
Proof.
  intros Hr. split; [|split].
  - intros q Hd Hq. eapply keeps_final; [|exact Hr]. by apply keeps_backup_dest.
  - intros Hst n Hn. apply io_bind_inv in Hr as [([] & w1 & H1 & Hr)|(e & H1 & ->)];
      (eapply (keeps_final dest) in H1 as [E1 _]; [|by apply keeps_stage]); [|by rewrite E1].
    rewrite Hn in E1.
    apply io_bind_inv in Hr as [([] & w2 & H2 & Hr)|(e & H2 & ->)].
    + do 2 apply io_map_err_Ok_inv in H2. apply syscall_Ok_inv in H2 as (s & Hs & _). by rewrite E1 in Hs.
    + apply io_map_err_inv in H2 as (r1 & (r2 & H2 & _)%io_map_err_inv & _). split; [done|].
      destruct r2 as [u|e2]; [apply syscall_Ok_inv in H2 as (s & Hs & _); by rewrite E1 in Hs|].
      apply syscall_Err_inv in H2 as (s & -> & [->|[k ->]]); done.
  - intros ->. apply io_bind_Ok_inv in Hr as ([] & w1 & H1%stage_proc & Hr).
    apply io_bind_Ok_inv in Hr as ([] & w2 & H2 & Hr). do 2 apply io_map_err_Ok_inv in H2.
    apply syscall_Ok_inv in H2 as (s & Hs & ->). destruct (w_fs w1 !! dest); [done|].
    destruct (has_parent _ _); [|done]. injection Hs as <-.
    apply io_try_inv in Hr as (ra & w3 & H3 & Hr). destruct ra as [[]|e]; [|by apply io_try_inv in Hr as (? & ? & _ & ?)].
    injection Hr as <-. eapply write_archive_Ok_inv in H3 as (data & Hb & Hd); [|cbn; apply lookup_insert_eq].
    eexists _, _, data. split; [exact Hb|]. split; [exact Hd|]. cbn. by rewrite H1.
Qed.
End BackupFacts.

(** ** Where the live files are *)

Notation root cfg := (pathbuf (state_dir cfg)).

(** The files a restore replaces. *)
Definition live_files (cfg : DeploymentConfig) : list path := (restore_targets cfg).*2 ++ [users_file cfg].

Definition live_names : list (string * string) := [
  ("reality", "private.key"); ("reality", "public.key"); ("reality", "short_id.txt");
  ("hysteria", "cert.pem"); ("hysteria", "key.pem"); ("reality", "hysteria_obfs_password.txt");
  ("users", "users.json")].

Definition at_root (cfg : DeploymentConfig) (x : string * string) : path := root cfg ++ [x.1; x.2].

Lemma at_root_eq cfg d n : (root cfg ++ [d]) ++ [n] = at_root cfg (d, n).
Proof. by rewrite <-app_assoc. Qed.
Lemma restore_targets_eq cfg :
  restore_targets cfg = (fun '(rel, accessor) => (rel, accessor cfg)) <$> tail BACKUP_MANIFEST.
Proof. unfold restore_targets. f_equal. Qed.
Lemma live_files_eq cfg : live_files cfg = at_root cfg <$> live_names.
Proof.
  unfold live_files. rewrite restore_targets_eq. cbn.
  unfold reality_private_key_file, reality_public_key_file, hysteria_obfs_password_file, reality_dir, hysteria_dir, users_file.
  by rewrite !at_root_eq.
Qed.
Lemma at_root_inj cfg x y : at_root cfg x = at_root cfg y -> x = y.
Proof. destruct x, y. unfold at_root. cbn. by intros [= -> ->]%app_inv_head. Qed.
Lemma at_root_sibling cfg x dflt s : sibling (at_root cfg x) dflt s = at_root cfg (x.1, x.2 +:+ s).
Proof. destruct x as [d n]. cbn [fst snd]. rewrite <-!at_root_eq. by rewrite sibling_snoc. Qed.

Lemma live_file_elem cfg p : p ∈ live_files cfg -> exists x, x ∈ live_names /\ p = at_root cfg x.
Proof. rewrite live_files_eq. intros (x & -> & Hx)%list_elem_of_fmap. eauto. Qed.

Definition bak (x : string * string) := (x.1, x.2 +:+ ".rotate-bak").
Definition tmp (x : string * string) := (x.1, x.2 +:+ ".rotate-tmp").

(** The names that are added do not collide with the live ones or each other. *)
Lemma live_names_apart x y : x ∈ live_names -> y ∈ live_names ->
  bak x <> y /\ tmp x <> y /\ bak x <> tmp y /\ (x <> y -> bak x <> bak y).
Proof.
  set (P := fun x => Forall (fun y => bak x <> y /\ tmp x <> y /\ bak x <> tmp y /\ (x <> y -> bak x <> bak y)) live_names).
  intros Hx Hy. assert (Forall P live_names) as HP by (apply (bool_decide_unpack _); vm_compute; exact I).
  rewrite Forall_forall in HP. specialize (HP x Hx). unfold P in HP. rewrite Forall_forall in HP. by apply HP.
Qed.

Lemma backup_at_root cfg x : rotate_backup_path (at_root cfg x) = at_root cfg (bak x).
Proof. apply at_root_sibling. Qed.
Lemma tmp_at_root cfg x : sibling (at_root cfg x) EmptyString ".rotate-tmp" = at_root cfg (tmp x).
Proof. apply at_root_sibling. Qed.

Lemma at_root_ne cfg x y : x <> y -> at_root cfg x <> at_root cfg y.
Proof. by intros Hne ?%at_root_inj. Qed.

Lemma live_separate cfg : separate (live_files cfg).
Proof.
  split.
  - rewrite live_files_eq. apply NoDup_fmap; [intros ??; apply at_root_inj|].
    apply (bool_decide_unpack _). vm_compute. exact I.
  - intros p p' (x & Hx & ->)%live_file_elem (y & Hy & ->)%live_file_elem. rewrite !backup_at_root.
    destruct (live_names_apart x y Hx Hy) as (H1 & _ & _ & H2). split; [by apply at_root_ne|].
    intros Hne. apply at_root_ne, H2. by intros ->.
Qed.

(** A name directly in one of the three directories is none of sing-box's files. *)
Lemma at_root_outside cfg x : x.1 <> "sing-box" -> outside cfg (at_root cfg x).
Proof.
  intros Hx. unfold outside, singbox_dir, at_root. split; intros [k Hk]; rewrite <-!app_assoc in Hk;
    apply app_inv_head in Hk; cbn in Hk; congruence.
Qed.
Lemma live_dir_ne x : x ∈ live_names -> x.1 <> "sing-box".
Proof.
  assert (Forall (fun x => x.1 <> "sing-box") live_names) as HF by (apply (bool_decide_unpack _); vm_compute; exact I).
  rewrite Forall_forall in HF. apply HF.
Qed.

(** Neither path is above the other. *)
Definition apart (a b : path) : Prop := ~ a `prefix_of` b /\ ~ b `prefix_of` a.

Lemma apart_not_above a b l : apart a b -> ~ a `prefix_of` b ++ l.
Proof.
  intros [H1 H2] Hp. destruct (prefix_weak_total a b (b ++ l)); [done|by exists l|done..].
Qed.
Lemma apart_ne a b k l : apart a b -> a ++ k <> b ++ l.
Proof. intros Ha E. apply (apart_not_above a b l Ha). exists k. done. Qed.

Lemma users_file_root cfg : users_file cfg = at_root cfg ("users", "users.json").
Proof. done. Qed.

Lemma users_name_live : ("users", "users.json") ∈ live_names.
Proof. apply (bool_decide_unpack _). vm_compute. exact I. Qed.

(** The temporary file of the users is none of the other files. *)
Lemma users_tmp_ne cfg x (n : Z) : x ∈ live_names ->
  tmp_sibling_path n (users_file cfg) <> at_root cfg x /\ tmp_sibling_path n (users_file cfg) <> at_root cfg (bak x).
Proof.
  intros Hx. unfold tmp_sibling_path. rewrite users_file_root, at_root_sibling.
  assert (Forall (fun x => forall n : Z, ("users", "users.json" +:+ ".tmp." +:+ pretty n) <> x /\
    ("users", "users.json" +:+ ".tmp." +:+ pretty n) <> bak x) live_names) as HF
    by (repeat constructor; by intros [=]).
  rewrite Forall_forall in HF. destruct (HF x Hx n). split; by apply at_root_ne.
Qed.

(** No step of the installation writes to [q]. *)
Definition untouched (cfg : DeploymentConfig) (q : path) : Prop :=
  (forall x, x ∈ live_names -> at_root cfg x <> q /\ at_root cfg (tmp x) <> q) /\
  ~ q `prefix_of` root cfg ++ ["users"] /\
  (forall n, tmp_sibling_path n (users_file cfg) <> q).

Lemma at_root_not_above cfg x (d : string) : ~ at_root cfg x `prefix_of` root cfg ++ [d].
Proof. unfold at_root. intros [k Hk]. apply (f_equal length) in Hk. rewrite !length_app in Hk. cbn in Hk. lia. Qed.

Lemma untouched_backup cfg x : x ∈ live_names -> untouched cfg (rotate_backup_path (at_root cfg x)).
Proof.
  intros Hx. rewrite backup_at_root. split_and!.
  - intros y Hy. destruct (live_names_apart x y Hx Hy) as (H1 & _ & H3 & _).
    split; apply at_root_ne; by apply not_eq_sym.
  - apply at_root_not_above.
  - intros n. by apply users_tmp_ne.
Qed.

Lemma untouched_staging cfg staging rel : apart staging (root cfg) -> untouched cfg (staging ++ rel).
Proof.
  intros Ha. assert (forall l, root cfg ++ l <> staging ++ rel) as Hne.
  { intros l E. by apply (apart_ne staging (root cfg) rel l Ha). }
  split_and!.
  - intros x _. split; apply Hne.
  - intros [k Hk]. rewrite <-app_assoc in Hk. by apply (apart_ne staging (root cfg) (rel ++ k) ["users"] Ha).
  - intros n. unfold tmp_sibling_path. rewrite users_file_root, at_root_sibling. apply Hne.
Qed.

Section RestoreFacts.
Context {C : Clock} {Env : AdminEnv} {T : Tar} {TL : TarLaws}.
Context {HexI : Hex} {Sha : Sha256} {B64 : Base64Url} {X : X25519} {JV : Json json}.
Context {JU : Json UsersFile} {JL : Json (list CompatUser)}.
Context (cfg : DeploymentConfig).

Lemma keeps_policy q p group : p <> q -> keeps q (apply_restored_file_policy p group).
Proof. intros. unfold apply_restored_file_policy, context, from_io, fs_set_mode, fs_chown. solve_keeps. Qed.
Lemma keeps_fsync_dir q d : keeps q (fsync_dir d).
Proof. unfold fsync_dir. solve_keeps. Qed.
Lemma keeps_regenerate q : outside cfg q -> keeps q (regenerate_singbox_config cfg true).
Proof.
  intros Ho. unfold regenerate_singbox_config, from_compat, load_users.
  apply keeps_bind; [solve_keeps|]. intros. by apply keeps_render_and_apply.
Qed.
Lemma keeps_validate_staged q staging : keeps q (validate_staged staging).
Proof. unfold validate_staged, context, from_io, from_compat. solve_keeps. Qed.
Hint Resolve keeps_policy keeps_fsync_dir keeps_regenerate keeps_validate_staged
  keeps_controllable keeps_reload_and_verify : fs.

Lemma keeps_install_staged q staging targets :
  (forall rel dest, (rel, dest) ∈ targets -> dest <> q /\ sibling dest EmptyString ".rotate-tmp" <> q) ->
  keeps q (install_staged staging targets).
Proof.
  induction targets as [|[rel dest] targets IH]; intros Hq; cbn [install_staged]; [solve_keeps|].
  destruct (Hq rel dest (list_elem_of_here _ _)).
  assert (keeps q (install_staged staging targets)) as Hrest.
  { apply IH. intros rel' dest' Hin. apply (Hq rel' dest'). by apply list_elem_of_further. }
  unfold context, from_io. solve_keeps.
Qed.

Lemma target_live rel dest : (rel, dest) ∈ restore_targets cfg -> dest ∈ live_files cfg.
Proof.
  intros Hin. unfold live_files. apply elem_of_app. left. apply list_elem_of_fmap. by exists (rel, dest).
Qed.

Lemma keeps_users_save q users :
  users_file cfg <> q -> ~ q `prefix_of` root cfg ++ ["users"] ->
  (forall n, tmp_sibling_path n (users_file cfg) <> q) -> keeps q (save_users_atomic (users_file cfg) users).
Proof.
  intros Hu Hp Ht. assert (removelast (users_file cfg) = root cfg ++ ["users"]) as E
    by (unfold users_file; by rewrite removelast_app).
  apply keeps_save_users; [done| | |done]; rewrite E; [|done]. intros <-. by apply Hp.
Qed.

Lemma keeps_install_all q staging users : untouched cfg q -> keeps q (install_all cfg staging users).
Proof.
  intros (Hl & Hp & Ht). destruct (Hl _ users_name_live) as [Hu _].
  unfold install_all, from_compat. apply keeps_bind; [apply keeps_map_err; by apply keeps_users_save|intros].
  apply keeps_bind; [solve_keeps|intros]. apply keeps_bind; [|intros; solve_keeps].
  apply keeps_install_staged. intros rel dest (x & Hx & ->)%target_live%live_file_elem.
  rewrite tmp_at_root. by apply Hl.
Qed.

(** *** The rollback *)

Lemma restore_reporting_files files w :
  exists errors w', restore_reporting files w = (Ok errors, w') /\
    restore_files files w = (Ok (bool_decide (errors = [])), w').
Proof.
  revert w. induction files as [|[p b] files IH]; intros w; [by exists [], w|]. cbn. unfold io_try, io_bind.
  destruct (restore_or_remove p b w) as [r w1]. destruct (IH w1) as (errors & w2 & -> & ->).
  destruct r as [u|e]; eexists _, w2; (split; [done|]); done.
Qed.

(** The backups of the transaction that started in [w] are in place. *)
Definition recoverable (files : list (path * bool)) (w wk : world) : Prop :=
  files.*1 = live_files cfg /\ armed w wk files /\ honest_faults wk.

Lemma file_live (files : list (path * bool)) p b : files.*1 = live_files cfg -> (p, b) ∈ files -> p ∈ live_files cfg.
Proof. intros <- Hin. apply list_elem_of_fmap. by exists (p, b). Qed.

Lemma recoverable_step {E A : Type} files (m : IO E A) w wk r wk' :
  (forall x, x ∈ live_names -> keeps (rotate_backup_path (at_root cfg x)) m) ->
  m wk = (r, wk') -> recoverable files w wk -> recoverable files w wk'.
Proof.
  intros Hk Hr (Hf & Ha & Hh). split; [done|]. split.
  - eapply armed_step; [|exact Hr|exact Ha]. intros p b Hin.
    apply (file_live _ _ _ Hf) in Hin. apply live_file_elem in Hin as (x & Hx & ->). by apply Hk.
  - eapply honest_keeps; [|exact Hr|exact Hh]. apply (Hk ("users", "users.json")), users_name_live.
Qed.

(** What a failed restore reports, and what that means for the live files. *)
Definition gave_back (w : world) (e : anyhow) (w' : world) : Prop :=
  exists stage reason recovery, cause e = RestoreFailed stage reason recovery /\
    (recovery = [] -> forall p, p ∈ live_files cfg -> same_contents w w' p).

Lemma fail_restore_gives_back {A : Type} files stage reason w wk (r : result anyhow A) w' :
  recoverable files w wk -> fail_restore cfg files stage reason wk = (r, w') ->
  exists e, r = Err e /\ gave_back w e w'.
Proof.
  intros (Hf & Ha & Hh) Hr. unfold fail_restore, rollback_restore in Hr.
  destruct (restore_reporting_files files wk) as (errors & w1 & Hrep & Hres).
  unfold io_bind at 1 2 in Hr. rewrite Hrep in Hr. unfold io_bind, io_try in Hr.
  destruct (regenerate_singbox_config cfg true w1) as [rg w2] eqn:Hg. cbn in Hr.
  destruct (controllable sub_mgr w2) as [rc w3] eqn:Hc.
  destruct (controllable_total sub_mgr w2) as [c Hct]. rewrite Hc in Hct. cbn in Hct. subst rc.
  assert (exists sub w4, r = Err (error (RestoreFailed stage reason (errors ++
      (match rg with Ok _ => [] | Err e => ["reload previous sing-box authorization: " +:+ anyhow_chain e] end) ++ sub))) /\
      w' = w4 /\ forall q, w_fs w4 !! q = w_fs w3 !! q) as (sub & w4 & -> & -> & K4).
  { destruct c; [destruct (reload_and_verify sub_mgr w3) as [rv w4] eqn:Hv|]; injection Hr as <- <-;
      (eexists _, _; split; [done|]; split; [done|]); [|done].
    intros q. by eapply keeps_final; [apply keeps_reload_and_verify|]. }
  eexists. split; [done|]. eexists stage, reason, _. split; [done|].
  intros [-> _]%app_eq_nil p Hp. rewrite <-Hf in Hp. apply list_elem_of_fmap in Hp as ([p' b] & -> & Hin). cbn.
  assert (same_contents w w1 p') as Hs.
  { eapply restore_files_spec; [exact Hh| |exact Ha|exact Hres|exact Hin]. rewrite Hf. apply live_separate. }
  assert (w_fs w4 !! p' = w_fs w1 !! p') as E4; [|unfold same_contents in *; by rewrite E4].
  rewrite K4. assert (w_fs w3 !! p' = w_fs w2 !! p') as -> by (eapply keeps_final; [apply keeps_controllable|exact Hc]).
  eapply keeps_final; [|exact Hg]. apply keeps_regenerate.
  apply (file_live _ _ _ Hf) in Hin. apply live_file_elem in Hin as (x & Hx & ->).
  by apply at_root_outside, live_dir_ne.
Qed.

(** *** The installation *)

Lemma policy_contents p group w r w' mt d :
  w_fs w !! p = Some (File mt d) -> apply_restored_file_policy p group w = (r, w') ->
  exists mt', w_fs w' !! p = Some (File mt' d).
Proof.
  intros Hp Hr. apply io_bind_inv in Hr as [([] & w1 & H1 & Hr)|(e & H1 & ->)];
    apply io_map_err_inv in H1 as (r1 & (r2 & H1 & _)%io_map_err_inv & _);
    eapply update_meta_contents in H1 as [m1 H1]; [|exact Hp| |exact Hp]; [|by eexists].
  apply io_bind_inv in Hr as [(pr & w2 & [= <- <-] & Hr)|(e & [=] & _)].
  destruct (euid _ =? 0); [|injection Hr as <- <-; by eexists].
  destruct (getgrnam group); [|injection Hr as <- <-; by eexists].
  apply io_map_err_inv in Hr as (r3 & (r4 & Hr & _)%io_map_err_inv & _).
  by eapply update_meta_contents in Hr.
Qed.

(** What the installation of a file of the archive leaves at its destination;
    [ws]: the staged files, [w]: the world before. *)
Definition installed (staging : path) (ws w w' : world) (rel dest : path) : Prop :=
  match w_fs ws !! (staging ++ rel) with
  | Some (File _ d) => exists mt, w_fs w' !! dest = Some (File mt d)
  | Some (Dir _) => False
  | None => w_fs w' !! dest = w_fs w !! dest
  end.

(** One file: present in the archive, or skipped. *)
Lemma install_one_inv staging rel dest rest w w' :
  install_staged staging ((rel, dest) :: rest) w = (Ok tt, w') ->
  exists w1, install_staged staging rest w1 = (Ok tt, w') /\ installed staging w w w1 rel dest /\
    (forall q, dest <> q -> sibling dest EmptyString ".rotate-tmp" <> q -> w_fs w1 !! q = w_fs w !! q).
Proof.
  intros Hr. cbn [install_staged] in Hr. apply io_bind_Ok_inv in Hr as (ex & w0 & [= <- <-] & Hr).
  unfold exists_at in Hr. unfold installed. destruct (w_fs w !! (staging ++ rel)) as [n|] eqn:En; cbn in Hr; [|by exists w].
  apply io_bind_Ok_inv in Hr as (d & w1 & H1 & Hr). do 2 apply io_map_err_Ok_inv in H1.
  apply fs_read_Ok_inv in H1 as [[mt Hd] ->]. rewrite En in Hd. injection Hd as ->.
  apply io_bind_Ok_inv in Hr as (text & w2 & [= Ht <-] & Hr). apply ok_or_Ok_inv, from_utf8_Some in Ht as [_ Ht].
  apply io_bind_Ok_inv in Hr as ([] & w3 & H3%io_map_err_Ok_inv & Hr).
  apply io_bind_Ok_inv in Hr as ([] & w4 & H4 & Hr). exists w4. split; [done|].
  split.
  - apply install_Ok_inv in H3 as [m3 H3]. rewrite Ht in H3. by eapply policy_contents.
  - intros q Hq1 Hq2. transitivity (w_fs w3 !! q).
    + by eapply keeps_final; [apply keeps_policy|exact H4].
    + eapply keeps_final in H3 as [-> _]; [|by apply keeps_install]. done.
Qed.

Lemma install_staged_spec staging targets w w' :
  NoDup targets.*2 ->
  (forall rel dest rel' dest', (rel, dest) ∈ targets -> (rel', dest') ∈ targets ->
     sibling dest EmptyString ".rotate-tmp" <> dest' /\ dest <> staging ++ rel' /\
     sibling dest EmptyString ".rotate-tmp" <> staging ++ rel') ->
  install_staged staging targets w = (Ok tt, w') ->
  forall rel dest, (rel, dest) ∈ targets -> installed staging w w w' rel dest.
Proof.
  revert w. induction targets as [|[rel0 dest0] targets IH]; intros w Hnd Hs Hr rel dest Hin;
    [by apply not_elem_of_nil in Hin|].
  apply install_one_inv in Hr as (w1 & Hr & H1 & K1). apply NoDup_cons in Hnd as [Hn Hnd]. cbn in Hn.
  assert (forall rel' dest', (rel', dest') ∈ targets -> dest' ∈ targets.*2) as Hsnd
    by (intros rel' dest' Hi; apply list_elem_of_fmap; by exists (rel', dest')).
  assert (forall rel' dest', (rel', dest') ∈ targets -> (rel', dest') ∈ (rel0, dest0) :: targets) as Hfur
    by (intros; by apply list_elem_of_further).
  apply elem_of_cons in Hin as [[= -> ->]|Hin].
  - assert (w_fs w' !! dest0 = w_fs w1 !! dest0) as E1.
    { eapply keeps_final; [|exact Hr]. apply keeps_install_staged. intros rel' dest' Hi.
      destruct (Hs rel' dest' rel0 dest0 (Hfur _ _ Hi) (list_elem_of_here _ _)) as [? _].
      split; [|done]. intros ->. by apply Hn, (Hsnd rel'). }
    unfold installed in *. by rewrite E1.
  - destruct (Hs rel0 dest0 rel dest (list_elem_of_here _ _) (Hfur _ _ Hin)) as (Hd1 & Hd2 & Hd3).
    assert (installed staging w1 w1 w' rel dest) as Hi.
    { apply IH; [done| |done|done]. intros rel1 dest1 rel2 dest2 ? ?. apply (Hs rel1 dest1); by apply Hfur. }
    unfold installed in *. rewrite K1 in Hi by done.
    rewrite (K1 dest) in Hi; [done| |done]. intros ->. by apply Hn, (Hsnd rel).
Qed.

Lemma remove_backups_spec files w r w' :
  remove_backups files w = (r, w') -> files.*1 = live_files cfg ->
  r = Ok tt /\ forall p, p ∈ live_files cfg -> w_fs w' !! p = w_fs w !! p.
Proof.
  intros Hr Hf. assert (forall p b, (p, b) ∈ files -> p ∈ live_files cfg) as Hl by (intros; by eapply file_live).
  clear Hf. revert w Hr. induction files as [|[p b] files IH]; intros w Hr; [by injection Hr as <- <-|].
  assert (exists w1, remove_backups files w1 = (r, w') /\ forall q, rotate_backup_path p <> q -> w_fs w1 !! q = w_fs w !! q)
    as (w1 & Hr1 & K1).
  { destruct b; [|by exists w]. unfold remove_backups, remove_rotate_backup, io_bind, io_try in Hr.
    fold remove_backups in Hr. destruct (fs_remove_file _ w) as [rr w1] eqn:E. exists w1. split; [done|].
    intros q Hq. by eapply keeps_final; [apply keeps_fs_remove_file|exact E]. }
  apply IH in Hr1 as [-> Hk]; [|intros p' b' Hin; apply (Hl p' b'); by apply list_elem_of_further].
  split; [done|]. intros q Hq. rewrite Hk by done. apply K1.
  apply (live_separate cfg); [|done]. apply (Hl p b), list_elem_of_here.
Qed.

(** *** The transaction *)
Lemma live_outside p : p ∈ live_files cfg -> outside cfg p.
Proof. intros (x & Hx & ->)%live_file_elem. by apply at_root_outside, live_dir_ne. Qed.
Lemma backup_outside x : x ∈ live_names -> outside cfg (rotate_backup_path (at_root cfg x)).
Proof. intros Hx. rewrite backup_at_root. apply at_root_outside. by apply live_dir_ne in Hx. Qed.

Lemma transaction_spec staging users files w wk r w' :
  recoverable files w wk -> restore_transaction cfg staging users files wk = (r, w') ->
  match r with
  | Err e => gave_back w e w'
  | Ok _ => exists w1, install_all cfg staging users wk = (Ok tt, w1) /\
      forall p, p ∈ live_files cfg -> w_fs w' !! p = w_fs w1 !! p
  end.
Proof.
  intros Hrec Hr. apply io_bind_inv in Hr as [(u1 & w1 & H1 & Hr)|(e & H1 & ->)];
    apply io_try_inv in H1 as (r1 & w1' & H1 & Hk1);
    assert (recoverable files w w1') as Hrec1
      by (eapply recoverable_step; [|exact H1|exact Hrec]; intros x Hx; by apply keeps_install_all, untouched_backup);
    destruct r1 as [[]|e1]; try (by injection Hk1);
    try (by apply (fail_restore_gives_back _ _ _ w) in Hk1 as (e' & He & Hg); [simplify_eq|]).
  injection Hk1 as _ <-.
  apply io_bind_inv in Hr as [(u2 & w2 & H2 & Hr)|(e & H2 & ->)];
    apply io_try_inv in H2 as (r2 & w2' & H2 & Hk2);
    assert (recoverable files w w2') as Hrec2
      by (eapply recoverable_step; [|exact H2|exact Hrec1]; intros x Hx; by apply keeps_regenerate, backup_outside);
    destruct r2 as [live|e2]; try (by injection Hk2);
    try (by apply (fail_restore_gives_back _ _ _ w) in Hk2 as (e' & He & Hg); [simplify_eq|]).
  injection Hk2 as _ <-.
  assert (forall p, p ∈ live_files cfg -> w_fs w2' !! p = w_fs w1' !! p) as K2.
  { intros p Hp. eapply keeps_final; [|exact H2]. by apply keeps_regenerate, live_outside. }
  destruct Hrec as (Hf & _ & _).
  assert (forall new rv w4, reload_and_verify sub_mgr (logged w2' new) = (rv, w4) -> recoverable files w w4) as Hrec4.
  { intros new rv w4 Hv. eapply recoverable_step; [|exact Hv|]; [intros; apply keeps_reload_and_verify|exact Hrec2]. }
  apply io_bind_inv in Hr as [(b & w3 & H3 & Hr)|(e & H3 & ->)];
    apply controllable_step in H3 as (c & new & H3 & _); (destruct c; [|try (by injection H3)]).
  - apply io_try_inv in H3 as (rv & w4 & Hv & H3). destruct rv as [[]|e].
    + injection H3 as _ <-. apply remove_backups_spec in Hr as [-> K3]; [|done].
      exists w1'. split; [done|]. intros p Hp. rewrite K3 by done.
      assert (w_fs w4 !! p = w_fs (logged w2' new) !! p) as ->
        by (eapply keeps_final; [apply keeps_reload_and_verify|exact Hv]).
      by apply K2.
    + by apply (fail_restore_gives_back _ _ _ w) in H3 as (e' & He & Hg); [simplify_eq|by eapply Hrec4].
  - injection H3 as _ <-. apply remove_backups_spec in Hr as [-> K3]; [|done].
    exists w1'. split; [done|]. intros p Hp. rewrite K3 by done. by apply K2.
  - apply io_try_inv in H3 as (rv & w4 & Hv & H3). destruct rv as [[]|e3]; [by injection H3|].
    by apply (fail_restore_gives_back _ _ _ w) in H3 as (e' & He & Hg); [simplify_eq|by eapply Hrec4].
Qed.

(** *** Before the transaction *)
Definition restore_preamble (staging archive : path) : IO anyhow (list CompatUser) :=
  context "validating and extracting backup archive" (extract_validated_backup archive staging) ;;
  do restored_users <- validate_staged staging;
  require_controllable "refusing restore: both sing-box.service and vpn-subscription.service must be installed and controllable so restored authorization/key state can be committed atomically. VPN1_ALLOW_OFFLINE_MUTATION=1 is only for explicit offline recovery." ;;
  from_io (create_dir_all (reality_dir cfg)) ;;
  from_io (create_dir_all (hysteria_dir cfg)) ;;
  from_io (create_dir_all (removelast (users_file cfg))) ;;
  io_ret restored_users.

Definition restore_backups : IO anyhow (list (path * bool)) :=
  do users_backup <- backup_for_rotate (users_file cfg);
  do existed <- prepare_backups "failed to prepare the complete restore transaction; live state was not changed"
    (restore_targets cfg).*2 (option_list users_backup) [];
  io_ret (zip (restore_targets cfg).*2 existed ++ [(users_file cfg, bool_decide (is_Some users_backup))]).

Lemma cmd_restore_phases staging archive w :
  cmd_restore cfg staging archive w =
  (do users <- restore_preamble staging archive;
   do files <- restore_backups;
   restore_transaction cfg staging users files ;;
   io_ret (length users)) w.
Proof.
  unfold cmd_restore, restore_preamble, restore_backups. cbv zeta. unfold io_bind, io_ret.
  destruct (context _ _ w) as [[] w1]; [|done]. destruct (validate_staged staging w1) as [[] w2]; [|done].
  destruct (require_controllable _ w2) as [[] w3]; [|done]. destruct (from_io _ w3) as [[] w4]; [|done].
  destruct (from_io _ w4) as [[] w5]; [|done]. destruct (from_io _ w5) as [[] w6]; [|done].
  destruct (backup_for_rotate (users_file cfg) w6) as [[] w7]; [|done]. by destruct (prepare_backups _ _ _ _ w7) as [[] w8].
Qed.

Lemma keeps_preamble q staging archive :
  ~ staging `prefix_of` q -> (forall d, ~ q `prefix_of` root cfg ++ [d]) -> keeps q (restore_preamble staging archive).
Proof.
  intros Hq Hd. unfold restore_preamble, require_controllable, context, from_io, reality_dir, hysteria_dir.
  assert (removelast (users_file cfg) = root cfg ++ ["users"]) as ->
    by (unfold users_file; by rewrite removelast_app).
  apply keeps_bind; [apply keeps_map_err; by apply keeps_extract|]. intros. unfold and_also. solve_keeps.
Qed.

Lemma users_not_target : users_file cfg ∉ (restore_targets cfg).*2.
Proof.
  destruct (live_separate cfg) as [Hnd _]. unfold live_files in Hnd. apply NoDup_app in Hnd as (_ & Hd & _).
  intros Hin. apply (Hd _ Hin), list_elem_of_singleton. done.
Qed.

Lemma targets_separate : separate (restore_targets cfg).*2.
Proof.
  destruct (live_separate cfg) as [Hnd Hs]. unfold live_files in *. split; [by apply NoDup_app in Hnd as [? _]|].
  intros p p' Hp Hp'. apply Hs; apply elem_of_app; by left.
Qed.

Lemma users_live : users_file cfg ∈ live_files cfg.
Proof. unfold live_files. apply elem_of_app. right. by apply list_elem_of_singleton. Qed.

(** Making the backups leaves the live files alone; afterwards everything is
    recoverable. *)
Lemma restore_backups_spec w r w' :
  restore_backups w = (r, w') ->
  (forall p, p ∈ live_files cfg -> w_fs w' !! p = w_fs w !! p) /\ w_fault w' = w_fault w /\
  (forall files, r = Ok files -> honest_faults w -> recoverable files w w').
Proof.
  intros Hr. assert (forall p, p ∈ live_files cfg -> keeps p (backup_for_rotate (users_file cfg))) as Kb.
  { intros p Hp. apply keeps_backup_for_rotate. apply (live_separate cfg); [apply users_live|done]. }
  apply io_bind_inv in Hr as [(ub & w1 & H1 & Hr)|(e & H1 & ->)].
  2:{ split; [intros p Hp; by eapply keeps_final; [by apply Kb|]|]. split; [|done].
      by eapply keeps_final; [apply (Kb _ users_live)|]. }
  assert (forall p, p ∈ live_files cfg -> w_fs w1 !! p = w_fs w !! p) as K1
    by (intros p Hp; by eapply keeps_final; [by apply Kb|]).
  assert (w_fault w1 = w_fault w) as F1 by (by eapply keeps_final; [apply (Kb _ users_live)|]).
  apply backup_for_rotate_spec in H1.
  assert (option_list ub ⊆ [rotate_backup_path (users_file cfg)]) as Hub.
  { destruct ub as [b|]; [|by intros ? ?%not_elem_of_nil]. by destruct H1 as [-> _]. }
  assert (exists r2, prepare_backups "failed to prepare the complete restore transaction; live state was not changed"
    (restore_targets cfg).*2 (option_list ub) [] w1 = (r2, w') /\
    r = (ex ← r2; Ok (zip (restore_targets cfg).*2 ex ++ [(users_file cfg, bool_decide (is_Some ub))])))
    as (r2 & H2 & ->).
  { unfold io_bind in Hr. destruct (prepare_backups _ _ _ _ w1) as [[] w2]; injection Hr as <- <-; eauto. }
  clear Hr.
  assert (forall p, p ∈ live_files cfg -> w_fs w' !! p = w_fs w1 !! p /\ w_fault w' = w_fault w1) as K2.
  { intros p Hp. destruct (live_separate cfg) as [_ Hs]. eapply prepare_leaves; [| |exact H2].
    - intros (p' & -> & Hp')%list_elem_of_fmap. destruct (Hs p' (rotate_backup_path p')) as [[] _]; [|done..].
      unfold live_files. apply elem_of_app. by left.
    - intros Hin%Hub%list_elem_of_singleton. subst p. by destruct (Hs (users_file cfg) _ users_live Hp) as [[] _]. }
  split; [intros p Hp; rewrite (proj1 (K2 p Hp)); by apply K1|].
  destruct (K2 _ users_live) as [_ F2]. split; [congruence|]. intros files Hok Hh. destruct r2 as [ex|]; [|done].
  assert (files = zip (restore_targets cfg).*2 ex ++ [(users_file cfg, bool_decide (is_Some ub))]) as ->
    by (by injection Hok).
  clear Hok. apply prepare_backups_spec in H2 as (ex' & -> & Hlen & Ha & Hoth); [|apply targets_separate].
  cbn [app]. split; [|split].
  - rewrite fmap_app, fst_zip by lia. done.
  - intros p b [Hin|[= -> ->]%list_elem_of_singleton]%elem_of_app.
    + specialize (Ha p b Hin). apply elem_of_zip_l in Hin. rewrite K1 in Ha; [done|].
      unfold live_files. apply elem_of_app. by left.
    + assert (w_fs w' !! rotate_backup_path (users_file cfg) = w_fs w1 !! rotate_backup_path (users_file cfg)) as ->.
      { apply Hoth. intros (p' & Hp & Hp')%list_elem_of_fmap. destruct (live_separate cfg) as [_ Hs].
        apply (Hs (users_file cfg) p'); [apply users_live| | |done].
        - unfold live_files. apply elem_of_app. by left.
        - intros Heq. apply users_not_target. by rewrite Heq. }
      destruct ub as [b|].
      * destruct H1 as (-> & mt & mb & d & Hp & Hb). rewrite Hp. eauto.
      * destruct H1 as [-> _]. done.
  - unfold honest_faults. by rewrite F2, F1.
Qed.

(** *** The whole restore *)
Lemma live_kept_before staging archive p :
  apart staging (root cfg) -> p ∈ live_files cfg -> keeps p (restore_preamble staging archive).
Proof.
  intros Ha (x & Hx & ->)%live_file_elem. apply keeps_preamble; [by apply apart_not_above|].
  intros d. apply at_root_not_above.
Qed.

Lemma staging_kept staging rel w r w' :
  apart staging (root cfg) -> restore_backups w = (r, w') ->
  w_fs w' !! (staging ++ rel) = w_fs w !! (staging ++ rel).
Proof.
  intros Hap Hr. assert (forall p, p ∈ live_files cfg -> rotate_backup_path p <> staging ++ rel) as Hne.
  { intros p (x & Hx & ->)%live_file_elem. rewrite backup_at_root. intros E.
    by apply (apart_ne staging (root cfg) rel [(bak x).1; (bak x).2] Hap). }
  apply io_bind_inv in Hr as [(ub & w1 & H1 & Hr)|(e & H1 & ->)]; pose proof H1 as Hk;
    (eapply (keeps_final (staging ++ rel)) in Hk as [K1 _]; [|apply keeps_backup_for_rotate, Hne, users_live]); [|done].
  rewrite <-K1. apply backup_for_rotate_spec in H1.
  assert (staging ++ rel ∉ rotate_backup_path <$> (restore_targets cfg).*2) as Hn1.
  { intros (p & Hp & Hin)%list_elem_of_fmap. apply (Hne p); [|done]. unfold live_files. apply elem_of_app. by left. }
  assert (staging ++ rel ∉ option_list ub) as Hn2.
  { destruct ub as [b|]; [|apply not_elem_of_nil]. destruct H1 as [-> _]. cbn. rewrite list_elem_of_singleton.
    apply not_eq_sym, Hne, users_live. }
  apply io_bind_inv in Hr as [(ex & w2 & H2 & Hr)|(e & H2 & ->)]; [injection Hr as _ <-|];
    by eapply prepare_leaves in H2 as [-> _].
Qed.

Lemma restore_spec staging archive w r w' :
  apart staging (root cfg) -> honest_faults w -> cmd_restore cfg staging archive w = (r, w') ->
  match r with
  | Err e => (forall p, p ∈ live_files cfg -> w_fs w' !! p = w_fs w !! p) \/ gave_back w e w'
  | Ok n => exists users w0 w1 w2, restore_preamble staging archive w = (Ok users, w0) /\ n = length users /\
      (forall rel, w_fs w1 !! (staging ++ rel) = w_fs w0 !! (staging ++ rel)) /\
      (forall p, p ∈ live_files cfg -> w_fs w1 !! p = w_fs w !! p) /\
      install_all cfg staging users w1 = (Ok tt, w2) /\
      (forall p, p ∈ live_files cfg -> w_fs w' !! p = w_fs w2 !! p)
  end.
Proof.
  intros Hap Hh. rewrite cmd_restore_phases. intros Hr.
  apply io_bind_inv in Hr as [(users & w0 & H0 & Hr)|(e & H0 & ->)].
  2:{ left. intros p Hp. by eapply keeps_final; [by eapply live_kept_before|]. }
  assert (forall p, p ∈ live_files cfg -> w_fs w0 !! p = w_fs w !! p) as K0
    by (intros p Hp; by eapply keeps_final; [by eapply live_kept_before|]).
  assert (w_fault w0 = w_fault w) as F0
    by (by eapply keeps_final; [eapply live_kept_before; [done|apply users_live]|]).
  apply io_bind_inv in Hr as [(files & w1 & H1 & Hr)|(e & H1 & ->)]; pose proof H1 as H1s;
    apply restore_backups_spec in H1 as (K1 & F1 & Hrec).
  2:{ left. intros p Hp. rewrite K1 by done. by apply K0. }
  assert (forall p, p ∈ live_files cfg -> w_fs w1 !! p = w_fs w !! p) as K1'
    by (intros p Hp; rewrite K1 by done; by apply K0).
  assert (recoverable files w w1) as Hrec'.
  { destruct (Hrec files eq_refl) as (Hf & Ha & Hh1); [unfold honest_faults; by rewrite F0|].
    split; [done|]. split; [|done]. eapply armed_eq; [|exact Ha]. intros p b Hin. apply K0. by eapply file_live. }
  apply io_bind_inv in Hr as [(u & w2 & H2 & Hr)|(e & H2 & ->)]; apply (transaction_spec _ _ _ w) in H2; try done;
    [|by right].
  destruct H2 as (w3 & Hin & K3). injection Hr as <- <-. exists users, w0, w1, w3.
  split_and!; try done. intros rel. by eapply staging_kept.
Qed.

(** C19: A failed restore gives the deployment back.  If [cmd_restore] fails before
    its transaction starts, users.json and every key and certificate file are
    untouched; if it fails later and its rollback reports no error, each of
    them has the contents it had, or is absent as before.  This holds at
    whatever point it fails and for every pattern of failing calls in which only
    a missing file is reported missing; the staging directory is apart from the
    state directory. *)
Theorem failed_restore_gives_back staging archive w e w' :
  apart staging (root cfg) -> honest_faults w ->
  cmd_restore cfg staging archive w = (Err e, w') ->
  match cause e with
  | RestoreFailed _ _ [] => forall p, p ∈ live_files cfg -> same_contents w w' p
  | RestoreFailed _ _ _ => True
  | _ => forall p, p ∈ live_files cfg -> w_fs w' !! p = w_fs w !! p
  end.
Proof.
  intros Hap Hh [Hun|(stage & reason & recovery & -> & Hg)]%restore_spec; [| |done..].
  - destruct (cause e) as [| | | | | | |? ? []]; try done. intros p Hp. by apply unchanged_same, Hun.
  - destruct recovery; [by apply Hg|done].
Qed.

Lemma preamble_Ok_inv staging archive w users w0 :
  apart staging (root cfg) -> restore_preamble staging archive w = (Ok users, w0) ->
  exists w1 w2, extract_validated_backup archive staging w = (Ok tt, w1) /\
    validate_staged staging w1 = (Ok users, w2) /\
    forall rel, w_fs w0 !! (staging ++ rel) = w_fs w1 !! (staging ++ rel).
Proof.
  intros Hap ([] & w1 & H1%io_map_err_Ok_inv & Hr)%io_bind_Ok_inv.
  apply io_bind_Ok_inv in Hr as (us & w2 & H2 & Hr). exists w1, w2. split; [done|].
  assert (us = users) as ->.
  { do 4 apply io_bind_Ok_inv in Hr as (? & ? & _ & Hr). by injection Hr. }
  split; [done|]. intros rel. assert (forall d, ~ staging ++ rel `prefix_of` root cfg ++ [d]) as Hd.
  { intros d [k Hk]. rewrite <-app_assoc in Hk. by apply (apart_ne staging (root cfg) (rel ++ k) [d] Hap). }
  transitivity (w_fs w2 !! (staging ++ rel)); [|by eapply keeps_final; [apply keeps_validate_staged|exact H2]].
  eapply keeps_final; [|exact Hr]. unfold require_controllable, from_io, reality_dir, hysteria_dir, and_also.
  assert (removelast (users_file cfg) = root cfg ++ ["users"]) as -> by (unfold users_file; by rewrite removelast_app).
  solve_keeps.
Qed.

(** What validation has seen in the staged files. *)
Lemma validate_staged_Ok_inv staging w users w' :
  validate_staged staging w = (Ok users, w') ->
  (exists mt data, w_fs w !! (staging ++ ["users"; "users.json"]) = Some (File mt data) /\ parse_users_bytes data = Ok users) /\
  exists m1 m2 private public,
    w_fs w !! (staging ++ ["reality"; "private.key"]) = Some (File m1 (as_bytes private)) /\
    w_fs w !! (staging ++ ["reality"; "public.key"]) = Some (File m2 (as_bytes public)) /\
    validate_reality_keypair (trim private) (trim public) = Ok tt /\
    is_Some (w_fs w !! (staging ++ ["reality"; "short_id.txt"])).
Proof.
  intros Hr. apply io_bind_Ok_inv in Hr as (ex & w0 & [= <- <-] & Hr). destruct (exists_at _ _); [cbn [negb] in Hr|done].
  apply io_bind_Ok_inv in Hr as (data & w1 & H1 & Hr). do 2 apply io_map_err_Ok_inv in H1.
  apply fs_read_Ok_inv in H1 as [[mt Hd] ->].
  apply io_bind_Ok_inv in Hr as (us & w1 & H1 & Hr). do 2 apply io_map_err_Ok_inv in H1. injection H1 as Hp <-.
  apply io_bind_Ok_inv in Hr as (ex & w0 & [= <- <-] & Hr). destruct (exists_at _ _); [cbn [negb] in Hr|done].
  apply io_bind_Ok_inv in Hr as (ex & w0 & [= <- <-] & Hr). cbv zeta in Hr. destruct (exists_at _ _); [cbn [negb] in Hr|done].
  apply io_bind_Ok_inv in Hr as (ex & w0 & [= <- <-] & Hr). destruct (exists_at _ _) eqn:Hsid; [cbn [negb] in Hr|done].
  apply io_bind_Ok_inv in Hr as (private & w1 & H1 & Hr). do 2 apply io_map_err_Ok_inv in H1.
  apply fs_read_to_string_inv in H1 as (-> & m1 & d1 & Hf1 & [_ <-]%from_utf8_Some).
  apply io_bind_Ok_inv in Hr as (public & w1 & H1 & Hr). do 2 apply io_map_err_Ok_inv in H1.
  apply fs_read_to_string_inv in H1 as (-> & m2 & d2 & Hf2 & [_ <-]%from_utf8_Some).
  apply io_bind_Ok_inv in Hr as ([] & w1 & H1%io_map_err_Ok_inv & Hr). injection H1 as Hv <-. apply map_err_Ok_inv in Hv.
  do 2 (apply io_bind_Ok_inv in Hr as (? & w0 & [= <- <-] & Hr)). destruct (xorb _ _); [done|]. injection Hr as -> _.
  split; [by exists mt, data|]. exists m1, m2, private, public. split_and!; try done.
  apply bool_decide_eq_true in Hsid. done.
Qed.

Context {JUL : JsonLaws UsersFile}.

Lemma install_all_spec staging users w w' :
  apart staging (root cfg) -> install_all cfg staging users w = (Ok tt, w') ->
  (exists mt json, w_fs w' !! users_file cfg = Some (File mt json) /\ stored users json) /\
  forall rel dest, (rel, dest) ∈ restore_targets cfg -> installed staging w w w' rel dest.
Proof.
  intros Hap ([] & w1 & H1%io_map_err_Ok_inv & Hr)%io_bind_Ok_inv.
  apply io_bind_Ok_inv in Hr as ([] & w2 & H2 & Hr). apply io_bind_Ok_inv in Hr as ([] & w3 & H3 & Hr).
  assert (forall q, w_fs w' !! q = w_fs w3 !! q) as K4
    by (intros q; eapply keeps_final; [|exact Hr]; solve_keeps).
  assert (forall q, users_file cfg <> q -> ~ q `prefix_of` root cfg ++ ["users"] ->
    (forall n, tmp_sibling_path n (users_file cfg) <> q) -> w_fs w2 !! q = w_fs w !! q) as K2.
  { intros q Hq Hp Ht. transitivity (w_fs w1 !! q); [by eapply keeps_final; [apply keeps_policy|exact H2]|].
    eapply keeps_final; [by apply keeps_users_save|exact H1]. }
  apply save_users_spec in H1 as (_ & _ & mt & json & Hu & Hst & _).
  eapply policy_contents in H2 as [m2 Hu2]; [|exact Hu]. split.
  - exists m2, json. split; [|done]. rewrite K4, <-Hu2. eapply keeps_final; [|exact H3].
    apply keeps_install_staged. intros rel dest Hin. split.
    + intros ->. by apply users_not_target, list_elem_of_fmap; exists (rel, users_file cfg).
    + apply target_live, live_file_elem in Hin as (x & Hx & ->). rewrite tmp_at_root, users_file_root.
      by apply at_root_ne, live_names_apart, users_name_live.
  - assert (forall rel dest, (rel, dest) ∈ restore_targets cfg -> installed staging w2 w2 w3 rel dest) as Hi.
    { apply install_staged_spec; [apply targets_separate| |done].
      intros rel dest rel' dest' (x & Hx & ->)%target_live%live_file_elem (y & Hy & ->)%target_live%live_file_elem.
      rewrite tmp_at_root. destruct (untouched_staging cfg staging rel' Hap) as [Hst' _].
      split; [by apply at_root_ne, live_names_apart|by apply Hst']. }
    intros rel dest Hin. specialize (Hi rel dest Hin). unfold installed in *.
    destruct (untouched_staging cfg staging rel Hap) as (Hl & Hp & Ht).
    rewrite K2 in Hi; [|apply (Hl _ users_name_live)|done..]. rewrite K4.
    assert (w_fs w2 !! dest = w_fs w !! dest) as <-; [|done].
    pose proof Hin as (x & Hx & ->)%target_live%live_file_elem. apply K2.
    + intros E. by apply users_not_target; rewrite E; apply list_elem_of_fmap; exists (rel, at_root cfg x).
    + apply at_root_not_above.
    + intros n. by apply users_tmp_ne.
Qed.

(** C20: A successful restore installs what the archive holds.  The archive passed
    the validation; users.json holds exactly the users of the archive; every
    other file of the manifest that the archive contains has its contents in
    place, and one that it does not contain is left as it was; and the REALITY
    private and public key in place form one key pair. *)
Theorem restore_installs_archive staging archive w n w' :
  apart staging (root cfg) -> honest_faults w ->
  cmd_restore cfg staging archive w = (Ok n, w') ->
  exists w1 users mt data, extract_validated_backup archive staging w = (Ok tt, w1) /\
    w_fs w1 !! (staging ++ ["users"; "users.json"]) = Some (File mt data) /\ parse_users_bytes data = Ok users /\
    n = length users /\
    (exists mt' json, w_fs w' !! users_file cfg = Some (File mt' json) /\ stored users json) /\
    (forall rel dest, (rel, dest) ∈ restore_targets cfg -> installed staging w1 w w' rel dest) /\
    (exists m1 m2 private public,
       w_fs w' !! reality_private_key_file cfg = Some (File m1 (as_bytes private)) /\
       w_fs w' !! reality_public_key_file cfg = Some (File m2 (as_bytes public)) /\
       validate_reality_keypair (trim private) (trim public) = Ok tt).
Proof.
  intros Hap Hh (users & w0 & wk & w2 & Hpre & -> & Ks & K1 & Hin & K2)%restore_spec; [|done..].
  apply preamble_Ok_inv in Hpre as (w1 & w1' & Hx & Hv & Kp); [|done].
  apply validate_staged_Ok_inv in Hv as ((mt & data & Hd & Hparse) & m1 & m2 & private & public & Hpr & Hpb & Hkp & _).
  apply install_all_spec in Hin as [Hu Hi]; [|done].
  assert (forall rel dest, (rel, dest) ∈ restore_targets cfg -> installed staging w1 w w' rel dest) as Hall.
  { intros rel dest Hin. pose proof (target_live _ _ Hin) as Hl. specialize (Hi rel dest Hin). unfold installed in *.
    by rewrite Ks, Kp, <-K2, K1 in Hi by done. }
  exists w1, users, mt, data. split_and!; try done.
  - destruct Hu as (mu & json & Hu & Hst). exists mu, json. rewrite K2 by apply users_live. done.
  - assert (installed staging w1 w w' ["reality"; "private.key"] (reality_private_key_file cfg)) as H1.
    { apply Hall. rewrite restore_targets_eq. cbn. rewrite !elem_of_cons. auto. }
    assert (installed staging w1 w w' ["reality"; "public.key"] (reality_public_key_file cfg)) as H2.
    { apply Hall. rewrite restore_targets_eq. cbn. rewrite !elem_of_cons. auto. }
    unfold installed in H1, H2. rewrite Hpr in H1. rewrite Hpb in H2. destruct H1 as [m1' H1], H2 as [m2' H2].
    exists m1', m2', private, public. done.
Qed.
End RestoreFacts.

(** ** Concrete runs *)
Module BackupDemo.
Import StoreDemo RenderDemo ServerDemo ServiceDemo DeploymentDemo AdminDemo RotateDemo.
Definition dir_entry (p : path) : Entry := Build_Entry (Ok (Normal <$> p)) Directory 0 [].
Definition file_entry (p : path) (d : bytes) : Entry :=
  Build_Entry (Ok (CurDir :: (Normal <$> p))) RegularFile (Z.of_nat (length d)) d.
(** A new key pair and one user. *)
Definition entries : list Entry := [
  Build_Entry (Ok [CurDir]) Directory 0 [];
  dir_entry ["users"]; file_entry ["users"; "users.json"] (default [] (ok (to_vec_pretty (envelope [bob]))));
  dir_entry ["reality"]; file_entry ["reality"; "private.key"] (as_bytes new_private);
  file_entry ["reality"; "public.key"] (as_bytes new_public); file_entry ["reality"; "short_id.txt"] (as_bytes "beef")].
Definition hostile : list Entry := [Build_Entry (Ok [ParentDir; Normal "etc"]) RegularFile 0 []].

Definition node_of (e : Entry) : node :=
  match entry_type e with Directory => Dir dir_meta | _ => File (Meta 420 0 0) (entry_data e) end.
#[export] Instance tar : Tar := {
  tar_entries d := if bool_decide (d = as_bytes "good") then Ok (Ok <$> entries)
    else if bool_decide (d = as_bytes "hostile") then Ok (Ok <$> hostile)
    else Err (io_error_new InvalidData "not an archive");
  tar_unpack_in e dir := match entry_path e with
    | Ok raw => match normalize raw with
      | Some p => syscall no_tear (fun f => Ok (true, <[dir ++ p := node_of e]> f))
      | None => io_ret false
      end
    | Err er => io_err er
    end;
  tar_build _ _ := Ok (as_bytes "good")
}.
#[export] Instance tar_laws : TarLaws.
Proof.
  constructor. intros e dir q Hq. cbn. destruct (entry_path e) as [raw|]; [|apply keeps_err].
  destruct (normalize raw) as [p|]; [|apply keeps_ret].
  apply (keeps_syscall q no_tear (fun _ => _)); [done|]. intros _ s a s' [= <- <-].
  apply lookup_insert_ne. intros <-. apply Hq. by exists p.
Qed.

Definition disk : fs := <[["t"] := Dir dir_meta]> (<[["a.tar"] := file "good"]> (<[["b.tar"] := file "hostile"]> state)).
Definition on_disk (reload : nat -> bool) : world :=
  World disk [] 0 (fun _ => None) (Proc 42 18 0 0) (fun n _ _ => Ok (Output (reload n) (as_bytes "loaded") [])) [].
Definition extracted := extract_validated_backup ["a.tar"] ["t"] (on_disk (fun _ => true)).
Definition backed := cmd_backup cfg ["s"; "deployment.toml"] ["t"] ["new.tar"] (on_disk (fun _ => true)).
Definition restored_run := cmd_restore cfg ["t"] ["a.tar"] (on_disk (fun _ => true)).
(** The first reload of the server fails; the rollback's succeeds. *)
Definition failing : world := on_disk (fun n => negb (n =? 9)%nat).
Definition failed_run := cmd_restore cfg ["t"] ["a.tar"] failing.
Definition refused_run := cmd_restore cfg ["t"] ["b.tar"] (on_disk (fun _ => true)).
End BackupDemo.

Section BackupWitnesses.
Import StoreDemo RenderDemo ServerDemo ServiceDemo DeploymentDemo AdminDemo RotateDemo BackupDemo.

(** An archive with a path that leaves the staging directory is refused. *)
Example hostile_archive_refused :
  is_ok (fst refused_run) = false /\ w_fs (snd refused_run) !! ["etc"] = None.
Proof. split; vm_compute; reflexivity. Qed.

Lemma staging_apart : apart ["t"] (pathbuf (state_dir cfg)).
Proof. split; intros [k Hk]; discriminate. Qed.

Lemma archive_validated_witness :
  exists mt data es ps, w_fs (on_disk (fun _ => true)) !! ["a.tar"] = Some (File mt data) /\
    tar_entries data = Ok (Ok <$> es) /\ acceptable es ps.
Proof.
  refine (proj2 (archive_validated ["a.tar"] ["t"] (on_disk (fun _ => true)) (Ok tt) (snd extracted) _) eq_refl).
  refine (run_of_fst (extract_validated_backup ["a.tar"] ["t"]) (on_disk (fun _ => true)) (Ok tt) _).
  vm_compute. reflexivity.
Defined.

Lemma backup_creates_new_witness :
  exists f mt data, tar_build f ["t"] = Ok data /\ w_fs (snd backed) !! ["new.tar"] = Some (File mt data) /\
    mode mt = Z.land 384 (Z.lnot 18).
Proof.
  refine (proj2 (proj2 (backup_creates_new cfg ["s"; "deployment.toml"] ["t"] ["new.tar"] (on_disk (fun _ => true))
    (Ok tt) (snd backed) _)) eq_refl).
  refine (run_of_fst (cmd_backup cfg ["s"; "deployment.toml"] ["t"] ["new.tar"]) (on_disk (fun _ => true)) (Ok tt) _).
  vm_compute. reflexivity.
Defined.

Lemma failed_restore_gives_back_witness : Forall (same_contents failing (snd failed_run)) (live_files cfg).
Proof.
  assert (exists s r, fst failed_run = Err (error (RestoreFailed s r []))) as (s & r & E)
    by (do 2 eexists; vm_compute; reflexivity).
  apply Forall_forall.
  refine (failed_restore_gives_back cfg ["t"] ["a.tar"] failing (error (RestoreFailed s r [])) (snd failed_run)
    staging_apart _ _).
  - intros n ft. discriminate.
  - exact (run_of_fst (cmd_restore cfg ["t"] ["a.tar"]) failing _ E).
Defined.

Lemma restore_installs_archive_witness :
  exists users mt json, 1%nat = length users /\
    w_fs (snd restored_run) !! users_file cfg = Some (File mt json) /\ stored users json.
Proof.
  destruct (restore_installs_archive cfg ["t"] ["a.tar"] (on_disk (fun _ => true)) 1 (snd restored_run) staging_apart)
    as (w1 & users & mt & data & _ & _ & _ & Hn & (mt' & json & Hu & Hst) & _).
  - intros n ft. discriminate.
  - refine (run_of_fst (cmd_restore cfg ["t"] ["a.tar"]) (on_disk (fun _ => true)) (Ok 1%nat) _).
    vm_compute. reflexivity.
  - exists users, mt', json. exact (conj Hn (conj Hu Hst)).
Defined.
End BackupWitnesses.
