(* ===== verification/Keytool.v ===== *)
(** * The signing ceremony and the services that load its results

    Models apps/keytool/src/main.rs, the start-up of
    services/rendezvous/src/main.rs and the bundle check of apps/cli/src/main.rs:
    the files that hold the key hierarchy, from the offline root key to the key
    with which the rendezvous service signs bundles.  Command-line parsing and
    printed text are left out; random bytes and the time are arguments. *)

From stdpp Require Import sorting pretty.
From Stdlib Require Import Strings.Byte.
From S2P Require Import Prelude Bytes Io Serde Common Fs Http Crypto Config Fl RateLimiter Rendezvous.

Inductive KeytoolError :=
  | KtIo (e : io_error)
  | KtCrypto (e : CryptoError)
  | KtJson (msg : string)
  | KtHex (msg : string)
  | KtBail (text : string).

Record CertFile := { cf_public_key : PublicKey; cf_cert : KeyCertificate }.

(** ** The order of keys: [sort_by_key(|k| k.0)] and [dedup_by_key(|k| k.0)] *)
Fixpoint bytes_le (a b : bytes) : bool :=
  match a, b with
  | [], _ => true
  | _ :: _, [] => false
  | x :: a, y :: b =>
    if byte_val x <? byte_val y then true
    else if byte_val y <? byte_val x then false
    else bytes_le a b
  end.
Definition key_le (a b : PublicKey) : Prop := bytes_le (key_bytes a) (key_bytes b) = true.
#[export] Instance key_le_dec : RelDecision key_le := fun a b => bool_eq_dec _ _.
Fixpoint dedup_from (k : PublicKey) (l : list PublicKey) : list PublicKey :=
  match l with
  | [] => [k]
  | k' :: l => if decide (k = k') then dedup_from k l else k :: dedup_from k' l
  end.
Definition dedup_keys (l : list PublicKey) : list PublicKey :=
  match l with [] => [] | k :: l => dedup_from k l end.
Definition sort_keys (l : list PublicKey) : list PublicKey := merge_sort key_le l.

(** The subcommands of the tool. *)
Inductive Commands :=
  | RootInit (out_dir : path)
  | ReleaseIssue (root_key out_dir : path)
  | BundleIssue (release_key release_cert out_dir : path)
  | RevokeIssue (release_key release_cert : path) (revoke : list string) (existing : option path) (out : path)
  | VerifyChain (root_pub release_cert : path) (bundle_cert : option path).
(** apps/cli: what is asked for, and what is printed. *)
Inductive CliCommand := Transports | ConfigVerify (bundle_file : path) (root_pub_hex : string) | Diagnostics.
Inductive CliPrint := PrintLine (line : string) | PrintInvalid (e : ConfigError).

Section Keytool.
Context {Ed : Ed25519} {Hx : Hex}.
Context {JS : Json string} {JC : Json CertFile} {JR : Json SignedRevocationList}.

Notation crypto := (io_map_err KtCrypto).
Notation io := (io_map_err KtIo).

Definition write_public_file {A : Type} `{Json A} (p : path) (value : A) : IO KeytoolError unit :=
  do ex <- path_exists p;
  if (ex : bool) then io_err (KtBail ("refusing to overwrite existing file: " +:+ path_debug p)) else
  do data <- io_lift (map_err KtJson (to_vec_pretty value));
  io (fs_write p data).

Definition read_cert_file (p : path) : IO KeytoolError CertFile :=
  do data <- io (fs_read p);
  io_lift (map_err KtJson (from_slice data)).

Definition parse_pubkey_hex (s : string) : result KeytoolError PublicKey := map_err KtCrypto (from_hex s).

(** ** The subcommands *)
Definition root_init (entropy : bytes) (out_dir : path) : IO KeytoolError unit :=
  io (create_dir_all out_dir) ;;
  let root := generate entropy in
  crypto (save_to_file root (out_dir ++ ["root.key"])) ;;
  write_public_file (out_dir ++ ["root.pub"]) (to_hex (public_key root)).

(** A new key certified by [parent], with its certificate file. *)
Definition issue_key (parent : KeyPair) (entropy : bytes) (now : UnixSeconds) (out_dir : path)
    (key_name cert_name : string) : IO KeytoolError unit :=
  io (create_dir_all out_dir) ;;
  let child := generate entropy in
  let cert := issue parent (public_key child) now in
  crypto (save_to_file child (out_dir ++ [key_name])) ;;
  write_public_file (out_dir ++ [cert_name]) {| cf_public_key := public_key child; cf_cert := cert |}.

Definition release_issue (root_key out_dir : path) (entropy : bytes) (now : UnixSeconds) : IO KeytoolError unit :=
  do root <- crypto (load_from_file root_key);
  issue_key root entropy now out_dir "release.key" "release.cert.json".

(** The release key and its certificate file, which must name it. *)
Definition load_release (release_key release_cert : path) : IO KeytoolError (KeyPair * CertFile) :=
  do release <- crypto (load_from_file release_key);
  do release_cert_file <- read_cert_file release_cert;
  if bool_decide (cf_public_key release_cert_file <> public_key release)
  then io_err (KtBail "release-cert does not certify the public key of release-key; wrong file pair?")
  else io_ret (release, release_cert_file).

Definition bundle_issue (release_key release_cert out_dir : path) (entropy : bytes) (now : UnixSeconds)
    : IO KeytoolError unit :=
  do r <- load_release release_key release_cert;
  issue_key (fst r) entropy now out_dir "bundle.key" "bundle.cert.json".

Fixpoint push_keys (keys : list PublicKey) (revoke : list string) : result KeytoolError (list PublicKey) :=
  match revoke with
  | [] => Ok keys
  | hex_key :: revoke => k ← parse_pubkey_hex hex_key; push_keys (keys ++ [k]) revoke
  end.

Definition revoke_issue (release_key release_cert : path) (revoke : list string) (existing : option path)
    (out : path) (now : UnixSeconds) : IO KeytoolError nat :=
  do r <- load_release release_key release_cert;
  do prior <- match existing with
    | Some existing_path =>
      do data <- io (fs_read existing_path);
      do prior <- io_lift (map_err KtJson (from_slice data));
      io_ret (rl_revoked_keys prior)
    | None => io_ret []
    end;
  do keys <- io_lift (push_keys prior revoke);
  let keys := dedup_keys (sort_keys keys) in
  let list := rl_issue (fst r) (cf_cert (snd r)) keys now in
  do ex <- path_exists out;
  if (ex : bool) then io_err (KtBail ("refusing to overwrite existing file: " +:+ path_debug out)) else
  do data <- io_lift (map_err KtJson (to_vec_pretty list));
  io (fs_write out data) ;;
  io_ret (length (rl_revoked_keys list)).

Definition verify_chain (root_pub release_cert : path) (bundle_cert : option path) : IO KeytoolError unit :=
  do data <- io (fs_read root_pub);
  do root_pub_hex <- io_lift (map_err KtJson (from_slice (A := string) data));
  do root_public_key <- io_lift (map_err KtCrypto (from_hex root_pub_hex));
  do release_cert_file <- read_cert_file release_cert;
  io_lift (map_err (fun _ => KtBail "release cert does NOT chain to root")
    (verify_against (cf_cert release_cert_file) root_public_key)) ;;
  match bundle_cert with
  | Some bundle_cert_path =>
    do bundle_cert_file <- read_cert_file bundle_cert_path;
    io_lift (map_err (fun _ => KtBail "bundle cert does NOT chain to release key")
      (verify_against (cf_cert bundle_cert_file) (cf_public_key release_cert_file)))
  | None => io_ret tt
  end.

Definition keytool_main (c : Commands) (entropy : bytes) (now : UnixSeconds) : IO KeytoolError unit :=
  match c with
  | RootInit out_dir => root_init entropy out_dir
  | ReleaseIssue root_key out_dir => release_issue root_key out_dir entropy now
  | BundleIssue release_key release_cert out_dir => bundle_issue release_key release_cert out_dir entropy now
  | RevokeIssue release_key release_cert revoke existing out =>
      revoke_issue release_key release_cert revoke existing out now ;; io_ret tt
  | VerifyChain root_pub release_cert bundle_cert => verify_chain root_pub release_cert bundle_cert
  end.

(** ** services/rendezvous/src/main.rs *)
Context {JPool : Json (list RelayPoolEntry)}.

Record RendezvousArgs := {
  pool_file : path;
  arg_subset_size : nat;
  arg_ttl_secs : Z;
  key_dir : option path;
  release_cert_file : option path;
  revocation_list_file : option path
}.

Definition load_bundle_keys (dir release_cert : path) : IO KeytoolError (KeyPair * KeyCertificate * KeyCertificate) :=
  do bundle_key <- crypto (load_from_file (dir ++ ["bundle.key"]));
  do bundle_cert_file <- read_cert_file (dir ++ ["bundle.cert.json"]);
  if bool_decide (cf_public_key bundle_cert_file <> public_key bundle_key)
  then io_err (KtBail "bundle.cert.json does not certify bundle.key's public key") else
  do release_cert_file <- read_cert_file release_cert;
  io_ret (bundle_key, cf_cert bundle_cert_file, cf_cert release_cert_file).

(** [root release bundle]: the random bytes of an ephemeral hierarchy. *)
Definition start_rendezvous (args : RendezvousArgs) (root release bundle : bytes) (now : UnixSeconds)
    : IO KeytoolError AppState :=
  io_try (fs_read_to_string (pool_file args)) (fun r =>
    let pool_json := match r with Ok s => s | Err _ => "[]" end in
    do pool <- io_lift (map_err KtJson (from_slice (as_bytes pool_json)));
    do keys <- match key_dir args, release_cert_file args with
      | Some dir, Some cert => load_bundle_keys dir cert
      | None, None =>
        let '(root_pub, bundle_key, bundle_cert, release_cert) := dev_key_hierarchy root release bundle now in
        io (fs_write (with_file_name (pool_file args) (default EmptyString (file_name (pool_file args)) +:+ ".root_pub"))
          (as_bytes (hex_encode (key_bytes root_pub)))) ;;
        io_ret (bundle_key, bundle_cert, release_cert)
      | _, _ => io_err (KtBail "--key-dir and --release-cert-file must be given together")
      end;
    do revocations <- match revocation_list_file args with
      | Some p => do b <- io (fs_read p); io_ret (Some b)
      | None => io_ret None
      end;
    io_ret {| bundle_key := fst (fst keys); app_bundle_key_cert := snd (fst keys); app_release_key_cert := snd keys;
              pool := pool; subset_size := arg_subset_size args; ttl_secs := arg_ttl_secs args;
              rate_limiter := limiter_new (20 * fone f64) (5 * fone f64); revocation_list_bytes := revocations |}).

(** ** apps/cli/src/main.rs: [ConfigVerify]; the payload, or why it is invalid *)
Context {JP : Json RelayBundlePayload} {JB : Json SignedBundle}.

Definition config_verify (bundle_file : path) (root_pub_hex : string) (now : UnixSeconds)
    : IO KeytoolError (result ConfigError RelayBundlePayload) :=
  do data <- io (fs_read bundle_file);
  do bundle <- io_lift (map_err KtJson (from_slice data));
  do root_bytes <- io_lift (map_err KtHex (hex_decode (trim root_pub_hex)));
  if negb (length root_bytes =? 32)%nat then io_err (KtBail "root public key must be 32 bytes hex-encoded") else
  io_ret (verify_bundle bundle (MkTrustRoot (MkPublicKey root_bytes)) revocation_empty now).

(** The whole tool: what it prints and its exit status.  [localhost] is the answer
    of the resolver for localhost. *)
Definition vpn_cli_main (c : CliCommand) (localhost : result string unit) (now : UnixSeconds)
    : IO KeytoolError (list CliPrint * Z) :=
  match c with
  | Transports => io_ret ([PrintLine "direct-tls   family A: TCP + TLS 1.3 (rustls)";
      PrintLine "noise-quic   family B: UDP + QUIC (quinn)"], 0)
  | ConfigVerify bundle_file root_pub_hex =>
    do verdict <- config_verify bundle_file root_pub_hex now;
    match verdict with
    | Ok payload => io_ret ([PrintLine ("VALID: schema_version=" +:+ pretty (b_schema_version payload) +:+ ", " +:+
        pretty (Z.of_nat (length (b_endpoints payload))) +:+ " endpoint(s), expires_at=" +:+ pretty (b_expires_at payload))], 0)
    | Err e => io_ret ([PrintInvalid e], 1)
    end
  | Diagnostics => io_ret ([PrintLine ("local DNS resolution: " +:+
      match localhost with
      | Ok _ => "ok"
      | Err e => "FAILED (" +:+ e +:+ ") — possible local network failure, not necessarily censorship"
      end)], 0)
  end.

(** The tool exits successfully from [config-verify] exactly for a bundle that
    verifies under the given root, with no key revoked. *)
Lemma config_verify_exit bundle_file root_pub_hex localhost now w out code w' :
  vpn_cli_main (ConfigVerify bundle_file root_pub_hex) localhost now w = (Ok (out, code), w') ->
  exists b root, from_slice b = Ok root.1 /\ length (key_bytes (root_public_key root.2)) = 32%nat /\
    hex_decode (trim root_pub_hex) = Ok (key_bytes (root_public_key root.2)) /\
    (code = 0 <-> exists p, verify_bundle root.1 root.2 revocation_empty now = Ok p).
Proof.
  intros (v & w1 & Hv & H)%io_bind_Ok_inv. unfold config_verify in Hv.
  apply io_bind_Ok_inv in Hv as (data & w2 & _ & Hv). apply io_bind_Ok_inv in Hv as (b & w3 & Hb & Hv).
  apply io_bind_Ok_inv in Hv as (rb & w4 & Hr & Hv). injection Hb as Hb%map_err_Ok_inv <-.
  injection Hr as Hr%map_err_Ok_inv <-. destruct (Nat.eqb_spec (length rb) 32) as [Hl|]; [|done].
  injection Hv as <- <-. exists data, (b, MkTrustRoot (MkPublicKey rb)). cbn. split_and!; try done.
  destruct (verify_bundle _ _ _ _) as [p|e]; injection H as _ <- _; split; intros ?; [by exists p|done..|].
  by destruct H as [? ?].
Qed.
End Keytool.

(** ** Nothing is overwritten *)

(** Whatever fails, every file and directory that exists keeps its node. *)
Definition preserves {E A : Type} (m : IO E A) : Prop :=
  forall w r w', m w = (r, w') -> forall q n, w_fs w !! q = Some n -> w_fs w' !! q = Some n.

Lemma preserves_keeps {E A : Type} (m : IO E A) : (forall q, keeps q m) -> preserves m.
Proof. intros Hk w r w' Hr q n Hq. rewrite <-Hq. by eapply keeps_final. Qed.
Lemma preserves_bind {E A B : Type} (m : IO E A) (k : A -> IO E B) :
  preserves m -> (forall a, preserves (k a)) -> preserves (io_bind m k).
Proof.
  intros Hm Hk w r w' [(a & w1 & H1 & H2)|(e & H1 & ->)]%io_bind_inv q n Hq.
  - eapply Hk; [done|]. by eapply Hm.
  - by eapply Hm.
Qed.
Lemma preserves_map_err {E F A : Type} (g : E -> F) (m : IO E A) : preserves m -> preserves (io_map_err g m).
Proof. intros Hm w r w' (r0 & H0 & _)%io_map_err_inv. by eapply Hm. Qed.
Lemma preserves_if {E A : Type} (b : bool) (m k : IO E A) : preserves m -> preserves k -> preserves (if b then m else k).
Proof. by destruct b. Qed.

Lemma missing_dirs_preserves f pr pre rest f' q n :
  missing_dirs f pr pre rest = Ok f' -> f !! q = Some n -> f' !! q = Some n.
Proof.
  revert f pre. induction rest as [|c rest IH]; intros f pre Hm Hq; cbn in Hm; [by injection Hm as <-|].
  destruct (f !! (pre ++ [c])) as [[]|] eqn:Ec; [done|by eapply IH|].
  eapply IH; [done|]. rewrite lookup_insert_ne; [done|]. intros E. congruence.
Qed.
Lemma preserves_create_dir_all d : preserves (create_dir_all d).
Proof.
  intros w r w' Hr q n Hq. unfold create_dir_all, syscall in Hr. destruct (w_fault w (w_ops w)).
  { by injection Hr as <- <-. }
  destruct (missing_dirs _ _ _ _) as [f'|] eqn:Em; cbn in Hr; injection Hr as <- <-; [|done].
  by eapply missing_dirs_preserves.
Qed.

(** A computation that only touches one path, on which nothing is. *)
Lemma preserves_new {E A : Type} (m : IO E A) p w r w' :
  w_fs w !! p = None -> (forall q, p <> q -> keeps q m) -> m w = (r, w') ->
  forall q n, w_fs w !! q = Some n -> w_fs w' !! q = Some n.
Proof.
  intros Hp Hk Hr q n Hq. rewrite <-Hq. eapply keeps_final; [|done]. apply Hk. intros ->. congruence.
Qed.

Section NoOverwrite.
Context {Ed : Ed25519} {Hx : Hex}.
Context {JS : Json string} {JC : Json CertFile} {JR : Json SignedRevocationList}.

Lemma preserves_save kp p : preserves (save_to_file kp p).
Proof.
  intros w r w' Hr q n Hq. unfold save_to_file in Hr.
  destruct (w_fs w !! p) as [n0|] eqn:Hp.
  - apply io_bind_inv in Hr as [([] & w1 & H1%io_map_err_Ok_inv & _)|(e & H1 & ->)].
    + apply syscall_Ok_inv in H1 as (s & Hs & _). by rewrite Hp in Hs.
    + apply io_map_err_inv in H1 as (r1 & H1 & _). destruct r1 as [u|e1].
      * apply syscall_Ok_inv in H1 as (s & Hs & _). by rewrite Hp in Hs.
      * apply syscall_Err_inv in H1 as (s & -> & [->|[k ->]]); done.
  - eapply (preserves_new (save_to_file kp p)); [done| |exact Hr|done].
    intros q' Hq'. unfold save_to_file. solve_keeps.
Qed.
Lemma preserves_write_public {A : Type} `{Json A} p (v : A) : preserves (write_public_file p v).
Proof.
  intros w r w' Hr q n Hq. unfold write_public_file in Hr.
  apply io_bind_inv in Hr as [(ex & w1 & [= <- <-] & Hr)|(e & [=] & _)].
  destruct (exists_at (w_fs w) p) eqn:Ex; [by injection Hr as <- <-|].
  eapply (preserves_new _ p); [| |exact Hr|done].
  - apply bool_decide_eq_false in Ex. by apply eq_None_not_Some.
  - intros q' Hq'. solve_keeps.
Qed.
Lemma preserves_load p : preserves (load_from_file p).
Proof. apply preserves_keeps. intros q. unfold load_from_file. solve_keeps. Qed.
Lemma preserves_read_cert p : preserves (read_cert_file p).
Proof. apply preserves_keeps. intros q. unfold read_cert_file. solve_keeps. Qed.
Hint Resolve preserves_save preserves_write_public preserves_load preserves_read_cert preserves_create_dir_all : core.

Lemma preserves_issue_key parent entropy now dir kn cn : preserves (issue_key parent entropy now dir kn cn).
Proof.
  unfold issue_key. apply preserves_bind; [by apply preserves_map_err|]. intros _. cbv zeta.
  apply preserves_bind; [by apply preserves_map_err|]. auto.
Qed.
Lemma preserves_load_release k c : preserves (load_release k c).
Proof. apply preserves_keeps. intros q. unfold load_release, load_from_file, read_cert_file. solve_keeps. Qed.
Hint Resolve preserves_issue_key preserves_load_release : core.

Lemma preserves_keytool c entropy now : preserves (keytool_main c entropy now).
Proof.
  destruct c as [d|k d|k c d|k c revoke existing out|p c b]; cbn [keytool_main].
  - apply preserves_bind; [by apply preserves_map_err|]. intros _. cbv zeta.
    apply preserves_bind; [by apply preserves_map_err|]. auto.
  - apply preserves_bind; [by apply preserves_map_err|]. auto.
  - apply preserves_bind; auto.
  - apply preserves_bind; [|intros; by apply preserves_keeps; intros; apply keeps_ret].
    apply preserves_bind; [done|]. intros rl. apply preserves_bind.
    { apply preserves_keeps. intros q. solve_keeps. }
    intros prior. apply preserves_bind; [by apply preserves_keeps; intros; apply keeps_lift|]. intros keys. cbv zeta.
    intros w r w' Hr q n Hq. apply io_bind_inv in Hr as [(ex & w1 & [= <- <-] & Hr)|(e & [=] & _)].
    destruct (exists_at (w_fs w) out) eqn:Ex; [by injection Hr as <- <-|].
    eapply (preserves_new _ out); [| |exact Hr|done].
    + apply bool_decide_eq_false in Ex. by apply eq_None_not_Some.
    + intros q' Hq'. solve_keeps.
  - apply preserves_keeps. intros q. unfold verify_chain, read_cert_file. solve_keeps.
Qed.

End NoOverwrite.

(** ** What the ceremony leaves behind *)
Section Ceremony.
Context {Ed : Ed25519} {EdL : Ed25519Laws} {Hx : Hex} {HxL : HexLaws}.
Context {JS : Json string} {JSL : JsonLaws string} {JC : Json CertFile} {JCL : JsonLaws CertFile}.
Context {JR : Json SignedRevocationList} {JRL : JsonLaws SignedRevocationList}.
Context {JPool : Json (list RelayPoolEntry)}.

(** [p] holds the certificate file [cf]; the public file of a value. *)
Definition holds {A : Type} `{Json A} (f : fs) (p : path) (a : A) : Prop :=
  exists mt data, f !! p = Some (File mt data) /\ from_slice data = Ok a.
Definition key_at (f : fs) (p : path) (kp : KeyPair) : Prop := exists n, f !! p = Some n /\ key_file_of kp n.

Lemma write_public_Ok_inv {A : Type} `{JsonLaws A} p (v : A) w w' :
  write_public_file p v w = (Ok tt, w') -> holds (w_fs w') p v.
Proof.
  intros (ex & w1 & [= <- <-] & Hr)%io_bind_Ok_inv. destruct (exists_at _ p); [done|].
  apply io_bind_Ok_inv in Hr as (data & w1 & [= Hd <-] & Hr%io_map_err_Ok_inv). apply map_err_Ok_inv in Hd.
  apply fs_write_Ok_inv in Hr as (mt & Hp & _). exists mt, data. split; [done|]. by apply from_to_vec_pretty.
Qed.

Lemma issue_key_Ok_inv parent entropy now dir kn cn w w' :
  kn <> cn -> issue_key parent entropy now dir kn cn w = (Ok tt, w') ->
  key_at (w_fs w') (dir ++ [kn]) (generate entropy) /\
  holds (w_fs w') (dir ++ [cn])
    {| cf_public_key := public_key (generate entropy); cf_cert := issue parent (public_key (generate entropy)) now |}.
Proof.
  intros Hne ([] & w1 & _ & Hr)%io_bind_Ok_inv. cbv zeta in Hr.
  apply io_bind_Ok_inv in Hr as ([] & w2 & H2%io_map_err_Ok_inv & H3).
  split; [|by eapply write_public_Ok_inv].
  apply save_to_file_Ok_inv in H2 as (_ & _ & n & Hn & Hk). exists n. split; [|done].
  exact (preserves_write_public _ _ _ _ _ H3 _ _ Hn).
Qed.

(** Reading changes nothing. *)
Lemma load_key_reads p w r w' : load_from_file p w = (r, w') -> w_fs w' = w_fs w /\ w_fault w' = w_fault w.
Proof.
  intros Hr. assert (forall q, keeps q (load_from_file p)) as Hk by (intros; unfold load_from_file; solve_keeps).
  split; [|by eapply (keeps_final []); [apply Hk|]]. apply map_eq. intros q. by eapply keeps_final; [apply Hk|].
Qed.

(** A key that was loaded from a saved file is the saved key. *)
Lemma load_key_at p kp w k w' :
  key_at (w_fs w) p kp -> length (to_bytes kp) = 32%nat -> load_from_file p w = (Ok k, w') -> k = kp.
Proof.
  intros (n & Hp & mt & -> & Hm) Hl Hr. unfold load_from_file in Hr.
  apply io_bind_Ok_inv in Hr as (m & w1 & H1%io_map_err_Ok_inv & Hr).
  apply fs_metadata_Ok_inv in H1 as [_ ->]. destruct (negb _); [done|].
  apply io_bind_Ok_inv in Hr as (s & w2 & H2%io_map_err_Ok_inv & Hr).
  apply fs_read_to_string_inv in H2 as (-> & mt' & d & Hd & [_ Hs]%from_utf8_Some). cbn in Hd.
  rewrite Hp in Hd. injection Hd as -> <-.
  assert (s = hex_encode (to_bytes kp)) as -> by (rewrite <-(str_of_as_bytes s), Hs; apply str_of_as_bytes).
  rewrite trim_graphic, hex_decode_encode in Hr by apply hex_encode_graphic.
  apply io_bind_Ok_inv in Hr as (b & w3 & [= <- <-] & Hr). rewrite Hl in Hr. injection Hr as <- _.
  by destruct kp as [[]].
Qed.

Lemma read_cert_ok p cf w :
  holds (w_fs w) p cf -> (forall n, w_fault w n = None) -> read_cert_file p w = (Ok cf, push_fs (w_fs w) w).
Proof.
  intros (mt & data & Hp & Hd) Hf. unfold read_cert_file, io_bind, io_map_err.
  rewrite (fs_read_ok _ _ _ _ (Hf _) Hp). cbn. by rewrite Hd.
Qed.

Lemma read_cert_holds p (cf cf' : CertFile) w w' :
  holds (w_fs w) p cf -> read_cert_file p w = (Ok cf', w') -> cf' = cf /\ w_fs w' = w_fs w.
Proof.
  intros (mt & data & Hp & Hd) (d & w1 & H1%io_map_err_Ok_inv & [= H2 <-])%io_bind_Ok_inv.
  apply fs_read_Ok_inv in H1 as [[mt' Hp'] ->]. rewrite Hp in Hp'. injection Hp' as -> ->.
  apply map_err_Ok_inv in H2. rewrite Hd in H2. by injection H2 as ->.
Qed.

Lemma load_key_ok p kp w :
  key_at (w_fs w) p kp -> length (to_bytes kp) = 32%nat -> (forall n, w_fault w n = None) ->
  exists w', load_from_file p w = (Ok kp, w') /\ w_fs w' = w_fs w /\ w_fault w' = w_fault w.
Proof.
  intros (n & Hp & Hk) Hl Hf. destruct (load_from_file p w) as [r w'] eqn:E. exists w'.
  pose proof (load_key_reads _ _ _ _ E) as [? ?]. split; [|done]. f_equal.
  pose proof (load_saved_key kp p w n Hp Hk Hl Hf) as Hr. by rewrite E in Hr.
Qed.

(** The three steps of a ceremony, one after the other. *)
Definition ceremony (d1 d2 d3 : path) (r l b : bytes) (t0 t1 t2 : UnixSeconds) : IO KeytoolError unit :=
  keytool_main (RootInit d1) r t0 ;;
  keytool_main (ReleaseIssue (d1 ++ ["root.key"]) d2) l t1 ;;
  keytool_main (BundleIssue (d2 ++ ["release.key"]) (d2 ++ ["release.cert.json"]) d3) b t2.

(** The hierarchy on disk. *)
Definition hierarchy (f : fs) (d1 d2 d3 : path) (r l b : bytes) (t1 t2 : UnixSeconds) : Prop :=
  holds f (d1 ++ ["root.pub"]) (to_hex (public_key (generate r))) /\
  holds f (d2 ++ ["release.cert.json"])
    {| cf_public_key := public_key (generate l); cf_cert := issue (generate r) (public_key (generate l)) t1 |} /\
  key_at f (d3 ++ ["bundle.key"]) (generate b) /\
  holds f (d3 ++ ["bundle.cert.json"])
    {| cf_public_key := public_key (generate b); cf_cert := issue (generate l) (public_key (generate b)) t2 |}.

Lemma holds_preserved {A : Type} `{Json A} {E B : Type} (m : IO E B) w r w' p (a : A) :
  preserves m -> m w = (r, w') -> holds (w_fs w) p a -> holds (w_fs w') p a.
Proof. intros Hm Hr (mt & d & Hp & Hd). exists mt, d. split; [by eapply Hm|done]. Qed.
Lemma key_preserved {E B : Type} (m : IO E B) w r w' p kp :
  preserves m -> m w = (r, w') -> key_at (w_fs w) p kp -> key_at (w_fs w') p kp.
Proof. intros Hm Hr (n & Hp & Hk). exists n. split; [by eapply Hm|done]. Qed.

Lemma ceremony_hierarchy d1 d2 d3 r l b t0 t1 t2 w w' :
  length r = 32%nat -> length l = 32%nat ->
  ceremony d1 d2 d3 r l b t0 t1 t2 w = (Ok tt, w') -> hierarchy (w_fs w') d1 d2 d3 r l b t1 t2.
Proof.
  intros Lr Ll ([] & w1 & H1 & Hr)%io_bind_Ok_inv. apply io_bind_Ok_inv in Hr as ([] & w2 & H2 & H3).
  cbn [keytool_main] in *.
  apply io_bind_Ok_inv in H1 as ([] & w3 & _ & H1). cbv zeta in H1.
  apply io_bind_Ok_inv in H1 as ([] & w4 & H4%io_map_err_Ok_inv & H1).
  apply save_to_file_Ok_inv in H4 as (_ & _ & n & Hn & Hk).
  assert (key_at (w_fs w1) (d1 ++ ["root.key"]) (generate r)) as Kr
    by (eapply key_preserved; [|exact H1|by exists n]; apply preserves_write_public).
  apply write_public_Ok_inv in H1.
  assert (holds (w_fs w2) (d1 ++ ["root.pub"]) (to_hex (public_key (generate r)))) as P2
    by (eapply holds_preserved; [|exact H2|exact H1];
        exact (preserves_keytool (ReleaseIssue (d1 ++ ["root.key"]) d2) l t1)).
  apply io_bind_Ok_inv in H2 as (k & w5 & H5%io_map_err_Ok_inv & H2).
  apply (load_key_at _ _ _ _ _ Kr) in H5 as ->; [|done].
  apply issue_key_Ok_inv in H2 as [Kl Cl]; [|done].
  pose proof (preserves_keytool (BundleIssue (d2 ++ ["release.key"]) (d2 ++ ["release.cert.json"]) d3) b t2) as Pb.
  apply (holds_preserved _ _ _ _ _ _ Pb H3) in P2 as P3. apply (holds_preserved _ _ _ _ _ _ Pb H3) in Cl as C3.
  apply io_bind_Ok_inv in H3 as ([k cf] & w6 & H6 & H3). cbn [fst] in H3.
  apply io_bind_Ok_inv in H6 as (k' & w7 & H7%io_map_err_Ok_inv & H6).
  pose proof (load_key_reads _ _ _ _ H7) as [E7 _]. apply (load_key_at _ _ _ _ _ Kl) in H7 as ->; [|done].
  apply io_bind_Ok_inv in H6 as (cf' & w8 & H8 & H6). destruct (bool_decide _); [done|]. injection H6 as <- <- <-.
  apply issue_key_Ok_inv in H3 as [Kb Cb]; [|done]. done.
Qed.

(** The files of a ceremony form a chain.  After [root-init], [release-issue]
    and [bundle-issue] have succeeded, in whatever directories, the tool's own
    check of the chain accepts the three public files, and the rendezvous
    service loads from them the bundle key with a certificate by the release key,
    which has a certificate by the root. *)
Theorem ceremony_chain d1 d2 d3 r l b t0 t1 t2 w w' :
  length r = 32%nat -> length l = 32%nat -> length b = 32%nat ->
  ceremony d1 d2 d3 r l b t0 t1 t2 w = (Ok tt, w') ->
  (forall n, w_fault w' n = None) ->
  fst (verify_chain (d1 ++ ["root.pub"]) (d2 ++ ["release.cert.json"]) (Some (d3 ++ ["bundle.cert.json"])) w') = Ok tt /\
  fst (load_bundle_keys d3 (d2 ++ ["release.cert.json"]) w') =
    Ok (generate b, issue (generate l) (public_key (generate b)) t2, issue (generate r) (public_key (generate l)) t1).
Proof.
  intros Lr Ll Lb (Hp & Hc & Hk & Hb)%ceremony_hierarchy Hf; [|done..]. split.
  - destruct Hp as (mt & data & Hp & Hd). unfold verify_chain, io_bind, io_map_err.
    rewrite (fs_read_ok _ _ _ _ (Hf _) Hp). cbn. rewrite Hd. cbn. rewrite from_hex_to_hex. cbn.
    rewrite (read_cert_ok _ _ (push_fs (w_fs w') w') Hc Hf). cbn. rewrite verify_issue. cbn.
    rewrite (read_cert_ok _ _ (push_fs (w_fs w') (push_fs (w_fs w') w')) Hb Hf). cbn. by rewrite verify_issue.
  - unfold load_bundle_keys, io_bind at 1, io_map_err.
    destruct (load_key_ok _ _ _ Hk Lb Hf) as (w1 & -> & E1 & F1). cbn.
    rewrite <-E1 in Hb, Hc. assert (forall n, w_fault w1 n = None) as Hf1 by (by rewrite F1).
    unfold io_bind. rewrite (read_cert_ok _ _ w1 Hb Hf1). cbn. rewrite bool_decide_false by auto.
    by rewrite (read_cert_ok _ _ (push_fs (w_fs w1) w1) Hc Hf1).
Qed.

(** A service that starts from the files of a ceremony is genuine. *)
Lemma started_genuine d1 d2 d3 r l b t1 t2 args x y z t w st w' :
  hierarchy (w_fs w) d1 d2 d3 r l b t1 t2 -> length b = 32%nat ->
  key_dir args = Some d3 -> release_cert_file args = Some (d2 ++ ["release.cert.json"]) ->
  start_rendezvous args x y z t w = (Ok st, w') ->
  genuine st (MkTrustRoot (public_key (generate r))) (public_key (generate l)) /\ bundle_key st = generate b.
Proof.
  intros (_ & Hc & Hk & Hb) Lb Ed1 Ed2 (rp & w1 & H1 & Hr)%io_try_inv.
  assert (w_fs w1 = w_fs w) as E1 by (by apply fs_read_to_string_inv in H1 as [-> _]).
  apply io_bind_Ok_inv in Hr as (pl & w2 & [= _ <-] & Hr). rewrite Ed1, Ed2 in Hr.
  apply io_bind_Ok_inv in Hr as (keys & w3 & Hl & Hr).
  apply io_bind_Ok_inv in Hl as (k & w4 & H4%io_map_err_Ok_inv & Hl).
  pose proof (load_key_reads _ _ _ _ H4) as [E4 _]. apply (load_key_at _ (generate b)) in H4; [|by rewrite E1|done]. subst k.
  apply io_bind_Ok_inv in Hl as (cb & w5 & H5 & Hl).
  apply (read_cert_holds _ _ _ _ _ ltac:(rewrite E4, E1; exact Hb)) in H5 as [-> E5].
  destruct (bool_decide _); [done|]. apply io_bind_Ok_inv in Hl as (cr & w6 & H6 & Hl).
  apply (read_cert_holds _ _ _ _ _ ltac:(rewrite E5, E4, E1; exact Hc)) in H6 as [-> _].
  injection Hl as <- _. apply io_bind_Ok_inv in Hr as (rv & w7 & _ & [= <- _]). cbn.
  split; [|done]. by exists t1, t2, (generate r), (generate l).
Qed.

Context {JP : Json RelayBundlePayload} {JPL : JsonLaws RelayBundlePayload}.
Context {JB : Json SignedBundle} {JBL : JsonLaws SignedBundle}.
Context {R : Type} {Sm : Sampler R} {SmL : SamplerLaws R}.

(** C18: From the ceremony to the client.  A rendezvous service started from the
    files of a successful ceremony issues bundles which every client that pins
    the root key of that ceremony accepts, throughout their life and unless a
    key is revoked; the endpoints are entries of the service's pool. *)
Theorem ceremony_serves_clients d1 d2 d3 r l b t0 t1 t2 w w' args x y z t st w1 ip instant now rng resp st' rng' url rv now' :
  length r = 32%nat -> length l = 32%nat -> length b = 32%nat ->
  ceremony d1 d2 d3 r l b t0 t1 t2 w = (Ok tt, w') ->
  key_dir args = Some d3 -> release_cert_file args = Some (d2 ++ ["release.cert.json"]) ->
  start_rendezvous args x y z t w' = (Ok st, w1) ->
  get_relay_bundle st ip instant now rng = (resp, st', rng') -> status resp = 200 ->
  now <= now' < saturating_add_secs now (ttl_secs st) ->
  contains rv (public_key (generate l)) = false -> contains rv (public_key (generate b)) = false ->
  exists bundle p, http_fetch (fun _ => Ok resp) url = Ok bundle /\
    verify_bundle bundle (MkTrustRoot (public_key (generate r))) rv now' = Ok p /\
    b_endpoints p ⊆+ (descriptor_of <$> pool st).
Proof.
  intros Lr Ll Lb Hcer%ceremony_hierarchy Hd Hc Hst Hg Hs Hn R1 R2; [|done..].
  destruct (started_genuine _ _ _ _ _ _ _ _ _ _ _ _ _ _ _ _ Hcer Lb Hd Hc Hst) as [Hgen Hk].
  destruct (issued_accepted st _ _ ip instant now rng resp st' rng' url rv now' Hg Hs Hgen Hn R1) as (bd & p & H1 & H2 & H3 & _);
    [by rewrite Hk|]. by exists bd, p.
Qed.
End Ceremony.

(** ** Sorting and removing duplicates *)

Lemma bytes_le_total a b : bytes_le a b = true \/ bytes_le b a = true.
Proof.
  revert b. induction a as [|x a IH]; intros [|y b]; cbn; auto.
  destruct (Z.ltb_spec (byte_val x) (byte_val y)), (Z.ltb_spec (byte_val y) (byte_val x)); auto; lia.
Qed.
Lemma bytes_le_trans a b c : bytes_le a b = true -> bytes_le b c = true -> bytes_le a c = true.
Proof.
  revert b c. induction a as [|x a IH]; intros [|y b] [|z c]; cbn; try done.
  destruct (Z.ltb_spec (byte_val x) (byte_val y)), (Z.ltb_spec (byte_val y) (byte_val x)),
    (Z.ltb_spec (byte_val y) (byte_val z)), (Z.ltb_spec (byte_val z) (byte_val y)),
    (Z.ltb_spec (byte_val x) (byte_val z)), (Z.ltb_spec (byte_val z) (byte_val x)); try done; try lia. apply IH.
Qed.
Lemma bytes_le_antisym a b : bytes_le a b = true -> bytes_le b a = true -> a = b.
Proof.
  revert b. induction a as [|x a IH]; intros [|y b]; cbn; try done.
  destruct (Z.ltb_spec (byte_val x) (byte_val y)), (Z.ltb_spec (byte_val y) (byte_val x)); try done; try lia.
  intros Hab Hba. f_equal; [|by apply IH]. rewrite <-(byte_of_val x), <-(byte_of_val y). f_equal. lia.
Qed.
#[export] Instance key_le_total : Total key_le.
Proof. intros a b. apply bytes_le_total. Qed.
#[export] Instance key_le_trans : Transitive key_le.
Proof. intros a b c. apply bytes_le_trans. Qed.
#[export] Instance key_le_antisym : AntiSymm eq key_le.
Proof. intros [a] [b] Hab Hba. f_equal. by apply bytes_le_antisym. Qed.

Lemma dedup_from_elem k l x : x ∈ dedup_from k l <-> x ∈ k :: l.
Proof.
  revert k. induction l as [|k' l IH]; intros k; cbn [dedup_from]; [done|].
  destruct (decide (k = k')) as [->|]; rewrite ?elem_of_cons, IH, ?elem_of_cons; naive_solver.
Qed.
Lemma dedup_keys_elem l x : x ∈ dedup_keys l <-> x ∈ l.
Proof. destruct l; [done|]. apply dedup_from_elem. Qed.

(** The result of removing duplicates from a sorted list has none, and is sorted. *)
Lemma dedup_from_sorted k l :
  StronglySorted key_le (k :: l) -> StronglySorted key_le (dedup_from k l) /\ NoDup (dedup_from k l).
Proof.
  revert k. induction l as [|k' l IH]; intros k Hs; cbn [dedup_from].
  { split; [done|]. apply NoDup_singleton. }
  apply StronglySorted_inv in Hs as [Hs Hk]. destruct (decide (k = k')) as [->|Hne]; [by apply IH|].
  destruct (IH k' Hs) as [H1 H2]. split.
  - constructor; [done|]. rewrite Forall_forall in Hk |- *. intros x Hx%dedup_from_elem. by apply Hk.
  - constructor; [|done]. intros Hx%dedup_from_elem.
    apply elem_of_cons in Hx as [->|Hx]; [done|]. apply Hne. apply StronglySorted_inv in Hs as [_ Hk'].
    rewrite Forall_forall in Hk, Hk'. apply (anti_symm key_le); [apply Hk, list_elem_of_here|by apply Hk'].
Qed.
Lemma dedup_sorted l :
  StronglySorted key_le (dedup_keys (sort_keys l)) /\ NoDup (dedup_keys (sort_keys l)) /\
  forall k, k ∈ dedup_keys (sort_keys l) <-> k ∈ l.
Proof.
  pose proof (StronglySorted_merge_sort key_le l) as Hs. pose proof (merge_sort_Permutation key_le l) as Hp.
  unfold sort_keys. split_and!.
  - destruct (merge_sort key_le l); [constructor|]. by apply dedup_from_sorted.
  - destruct (merge_sort key_le l); [constructor|]. by apply dedup_from_sorted.
  - intros k. by rewrite dedup_keys_elem, Hp.
Qed.

Section Revocation.
Context {Ed : Ed25519} {EdL : Ed25519Laws} {Hx : Hex} {HxL : HexLaws}.
Context {JC : Json CertFile} {JR : Json SignedRevocationList} {JRL : JsonLaws SignedRevocationList}.

Lemma push_keys_inv prior revoke keys :
  push_keys prior revoke = Ok keys -> exists ks, Forall2 (fun s k => from_hex s = Ok k) revoke ks /\ keys = prior ++ ks.
Proof.
  revert prior. induction revoke as [|s revoke IH]; intros prior Hp; cbn in Hp.
  { injection Hp as <-. exists []. by rewrite app_nil_r. }
  unfold parse_pubkey_hex in Hp. destruct (from_hex s) as [k|] eqn:Es; [|done]. cbn in Hp.
  apply IH in Hp as (ks & HF & ->). exists (k :: ks). split; [by constructor|]. by rewrite <-app_assoc.
Qed.

(** The entries carried forward. *)
Definition prior_keys (f : fs) (existing : option path) (prior : list PublicKey) : Prop :=
  match existing with
  | None => prior = []
  | Some p => exists l, holds f p l /\ prior = rl_revoked_keys l
  end.

(** A revocation ceremony revokes what it is asked to.  If the certificate file
    it is given is coherent and chains to the root, the published list
    verifies against that root and revokes exactly the keys of the earlier list and
    those named on the command line, each once, in increasing order. *)
Theorem revocation_ceremony release_key release_cert cf revoke existing out now w n w' root :
  revoke_issue release_key release_cert revoke existing out now w = (Ok n, w') ->
  holds (w_fs w) release_cert cf -> child_key (cf_cert cf) = cf_public_key cf ->
  verify_against (cf_cert cf) (root_public_key root) = Ok tt ->
  exists list rv prior ks, holds (w_fs w') out list /\ rl_verify list root = Ok rv /\
    prior_keys (w_fs w) existing prior /\ Forall2 (fun s k => from_hex s = Ok k) revoke ks /\
    (forall k, contains rv k = true <-> k ∈ prior \/ k ∈ ks) /\
    n = length (rl_revoked_keys list) /\ NoDup (rl_revoked_keys list) /\ StronglySorted key_le (rl_revoked_keys list).
Proof.
  intros Hr Hcf Hco Hv. apply io_bind_Ok_inv in Hr as ([release cf'] & w1 & H1 & Hr).
  apply io_bind_Ok_inv in H1 as (k & w2 & H2%io_map_err_Ok_inv & H1). apply load_key_reads in H2 as [E2 _].
  apply io_bind_Ok_inv in H1 as (cf2 & w3 & H3 & H1).
  apply (read_cert_holds _ cf) in H3 as [-> E3]; [|by rewrite E2]. case_bool_decide as Hpk; [done|].
  injection H1 as -> <- <-.
  apply io_bind_Ok_inv in Hr as (prior & w4 & H4 & Hr). apply io_bind_Ok_inv in Hr as (keys & w5 & [= H5 <-] & Hr).
  apply push_keys_inv in H5 as (ks & HF & ->). cbv zeta in Hr. cbn [fst snd] in Hr.
  set (l := rl_issue release (cf_cert cf) (dedup_keys (sort_keys (prior ++ ks))) now) in Hr.
  apply io_bind_Ok_inv in Hr as (ex & w6 & [= <- <-] & Hr). destruct (exists_at _ _); [done|].
  apply io_bind_Ok_inv in Hr as (data & w6 & [= Hd <-] & Hr). apply map_err_Ok_inv in Hd.
  apply io_bind_Ok_inv in Hr as ([] & w7 & H7%io_map_err_Ok_inv & [= <- <-]).
  apply fs_write_Ok_inv in H7 as (mt & Hout & _). destruct (dedup_sorted (prior ++ ks)) as (Hso & Hnd & Hel).
  exists l, (from_keys (rl_revoked_keys l)), prior, ks. split_and!; try done.
  - exists mt, data. split; [done|]. by apply from_to_vec_pretty.
  - unfold rl_verify. cbn. rewrite Hv. cbn. rewrite Hco, Hpk, verify_sign. done.
  - destruct existing as [p|]; [|by injection H4 as <- _].
    apply io_bind_Ok_inv in H4 as (d & w8 & H8%io_map_err_Ok_inv & H4). apply fs_read_Ok_inv in H8 as [[m8 H8] ->].
    apply io_bind_Ok_inv in H4 as (l0 & w9 & [= H9 <-] & [= <- _]). apply map_err_Ok_inv in H9.
    exists l0. split; [|done]. exists m8, d. by rewrite <-E2, <-E3.
  - intros k0. rewrite contains_from_keys. cbn. rewrite Hel. apply elem_of_app.
Qed.
End Revocation.

(** ** Concrete runs *)
#[export] Instance RelayPoolEntry_eq_dec : EqDecision RelayPoolEntry.
Proof. solve_decision. Defined.
#[export] Instance RelayPoolEntry_countable : Countable RelayPoolEntry.
Proof.
  apply (inj_countable' (fun e => (pe_id e, pe_transport e, pe_address e, pe_provider_tag e, pe_capabilities e, pe_cert_sha256_hex e))
    (fun '(a, b, c, d, e, f) => Build_RelayPoolEntry a b c d e f)). by intros [].
Defined.
#[export] Instance CertFile_eq_dec : EqDecision CertFile.
Proof. solve_decision. Defined.
#[export] Instance CertFile_countable : Countable CertFile.
Proof.
  apply (inj_countable' (fun c => (cf_public_key c, cf_cert c)) (fun '(k, c) => Build_CertFile k c)). by intros [].
Defined.
#[export] Instance SignedRevocationList_eq_dec : EqDecision SignedRevocationList.
Proof. solve_decision. Defined.
#[export] Instance SignedRevocationList_countable : Countable SignedRevocationList.
Proof.
  apply (inj_countable' (fun l => (rl_issued_at l, rl_revoked_keys l, rl_release_key_cert l, rl_signature l))
    (fun '(t, k, c, s) => Build_SignedRevocationList t k c s)). by intros [].
Defined.

Module KeytoolDemo.
Import ToyEd25519 ConfigDemo RendezvousDemo.
#[export] Instance string_json : Json string := tagged_json "q".
#[export] Instance string_json_laws : JsonLaws string := tagged_json_laws "q".
#[export] Instance cert_json : Json CertFile := tagged_json "c".
#[export] Instance cert_json_laws : JsonLaws CertFile := tagged_json_laws "c".
#[export] Instance list_json : Json SignedRevocationList := tagged_json "l".
#[export] Instance list_json_laws : JsonLaws SignedRevocationList := tagged_json_laws "l".
#[export] Instance pool_json : Json (list RelayPoolEntry) := tagged_json "[".

Definition seed (c : byte) : bytes := repeat c 32.
Definition d : path := ["k"].
Definition disk : fs := <[["r"] := Dir (Meta 493 0 0)]>
  (<[["r"; "pool"] := File (Meta 420 0 0) (default [] (ok (to_vec (pool RendezvousDemo.state))))]> ∅).
Definition w0 : world := calm_world disk.
Definition held := ceremony d d d (seed "r") (seed "l") (seed "b") 800 900 950 w0.
Definition args : RendezvousArgs :=
  Build_RendezvousArgs ["r"; "pool"] 5 900 (Some d) (Some (d ++ ["release.cert.json"])) None.
Definition started := start_rendezvous args [] [] [] 0 (snd held).
Definition server : AppState := default RendezvousDemo.state (ok (fst started)).
Definition issued := get_relay_bundle server (V4 1) 0 1000 tt.
Definition to_revoke : list string := [to_hex (public_key (key "b")); to_hex (public_key (key "a")); to_hex (public_key (key "b"))].
Definition revoked_run := revoke_issue (d ++ ["release.key"]) (d ++ ["release.cert.json"]) to_revoke None ["k"; "revoked.json"] 1000 (snd held).

(** A certificate file whose certificate is about another key than the one it names. *)
Definition split_cert : CertFile := {| cf_public_key := public_key (key "m"); cf_cert := issue (key "r") (public_key (key "l")) 900 |}.
Definition split_bundle : CertFile :=
  {| cf_public_key := public_key (key "b"); cf_cert := issue (key "m") (public_key (key "b")) 950 |}.
Definition put {A : Type} `{Json A} (p : path) (a : A) (f : fs) : fs :=
  <[p := File (Meta 420 0 0) (default [] (ok (to_vec_pretty a)))]> f.
Definition split_disk : fs := put ["root.pub"] (to_hex (public_key (key "r")))
  (put ["release.cert.json"] split_cert (put ["bundle.cert.json"] split_bundle ∅)).
Definition split_check := verify_chain ["root.pub"] ["release.cert.json"] (Some ["bundle.cert.json"]) (calm_world split_disk).
Definition split_signed : result ConfigError SignedBundle :=
  bundle_sign payload (key "b") (cf_cert split_bundle) (cf_cert split_cert).
End KeytoolDemo.

Section KeytoolWitnesses.
Import ToyEd25519 ConfigDemo RendezvousDemo KeytoolDemo.

(** The tool's check of a chain compares the public key that a certificate file
    names, not the key its certificate is about: it accepts this pair of files, and
    every client refuses what is signed with them. *)
Example verify_chain_accepts_split :
  fst split_check = Ok tt /\
  (b ← split_signed; verify_bundle b (MkTrustRoot (public_key (key "r"))) revocation_empty 1500) =
    Err ConfigError.InvalidCertChain.
Proof. split; vm_compute; reflexivity. Qed.

Lemma held_run : ceremony d d d (seed "r") (seed "l") (seed "b") 800 900 950 w0 = (Ok tt, snd held).
Proof. refine (run_of_fst (ceremony d d d _ _ _ _ _ _) w0 (Ok tt) _). vm_compute. reflexivity. Qed.


Lemma ceremony_chain_witness :
  fst (verify_chain (d ++ ["root.pub"]) (d ++ ["release.cert.json"]) (Some (d ++ ["bundle.cert.json"])) (snd held)) = Ok tt.
Proof.
  refine (proj1 (ceremony_chain d d d (seed "r") (seed "l") (seed "b") 800 900 950 w0 (snd held) eq_refl eq_refl eq_refl held_run _)).
  intros n. vm_compute. reflexivity.
Defined.

Lemma ceremony_serves_clients_witness :
  exists bundle p, http_fetch (fun _ => Ok issued.1.1) "http://r" = Ok bundle /\
    verify_bundle bundle (MkTrustRoot (public_key (generate (seed "r")))) revocation_empty 1500 = Ok p /\
    b_endpoints p ⊆+ (descriptor_of <$> pool server).
Proof.
  refine (ceremony_serves_clients d d d (seed "r") (seed "l") (seed "b") 800 900 950 w0 (snd held) args [] [] [] 0 server
    (snd started) (V4 1) 0 1000 tt issued.1.1 issued.1.2 issued.2 "http://r" revocation_empty 1500
    eq_refl eq_refl eq_refl held_run eq_refl eq_refl _ _ _ _ _ _).
  - refine (run_of_fst (start_rendezvous args [] [] [] 0) (snd held) (Ok server) _). vm_compute. reflexivity.
  - unfold issued. destruct (get_relay_bundle _ _ _ _ _) as [[]]; reflexivity.
  - vm_compute. reflexivity.
  - vm_compute. split; [discriminate|reflexivity].
  - vm_compute. reflexivity.
  - vm_compute. reflexivity.
Defined.

Lemma revocation_ceremony_witness :
  exists list rv, holds (w_fs (snd revoked_run)) ["k"; "revoked.json"] list /\
    rl_verify list (MkTrustRoot (public_key (key "r"))) = Ok rv /\ 2%nat = length (rl_revoked_keys list).
Proof.
  destruct (revocation_ceremony (d ++ ["release.key"]) (d ++ ["release.cert.json"])
    {| cf_public_key := public_key (generate (seed "l"));
       cf_cert := issue (generate (seed "r")) (public_key (generate (seed "l"))) 900 |}
    to_revoke None ["k"; "revoked.json"] 1000 (snd held) 2 (snd revoked_run) (MkTrustRoot (public_key (key "r"))))
    as (l & rv & prior & ks & H1 & H2 & _ & _ & _ & H3 & _).
  - refine (run_of_fst (revoke_issue _ _ to_revoke None ["k"; "revoked.json"] 1000) (snd held) (Ok 2%nat) _).
    vm_compute. reflexivity.
  - do 2 eexists. split; vm_compute; reflexivity.
  - reflexivity.
  - vm_compute. reflexivity.
  - exists l, rv. exact (conj H1 (conj H2 H3)).
Defined.
End KeytoolWitnesses.
