(* ===== verification/Native.v ===== *)
(** * crates/transport-native: the two transports and the relay identity

    Models cert.rs (certificate pinning), direct_tls.rs and noise_quic.rs (how a
    session is opened and how each failure is classified) and the persistent
    [RelayIdentity] of server.rs.  Sockets, rustls, quinn and rcgen are
    parameters: an operation bounded by [tokio::time::timeout] receives its
    bound in milliseconds and answers [None] when it elapsed. *)

From S2P Require Import Prelude Bytes Io Serde Common Fs Crypto Fl Failure Policy Config Engine Render.

(** ** direct_tls.rs: failures *)
Definition direct_tls_ID : TransportId := MkTransportId "direct-tls".
Definition noise_quic_ID : TransportId := MkTransportId "noise-quic".
Definition CONNECT_TIMEOUT : Z := 8000.

Definition classify_connect_io_error (e : io_error) : FailureCategory :=
  match kind e with
  | ConnectionRefused => EndpointUnreachable
  | TimedOut => TcpTimeout
  | ConnectionReset => TcpReset
  | NetworkUnreachable | HostUnreachable | NetworkDown | AddrNotAvailable => LocalNetworkFailure
  | _ => GeneralRouteFailure
  end.

(** ** noise_quic.rs: failures.  [quinn::ConnectionError] by its variants. *)
Inductive ConnectionError :=
  | QVersionMismatch | QTransportError (detail : string) | QConnectionClosed (detail : string)
  | QApplicationClosed (detail : string) | QReset | QTimedOut | QLocallyClosed | QCidsExhausted.

Definition classify_connection_error (e : ConnectionError) : FailureCategory :=
  match e with
  | QTimedOut => HandshakeTimeout
  | QConnectionClosed _ | QApplicationClosed _ => EndpointUnreachable
  | _ => QuicFailure
  end.

(** ** cert.rs *)
Record PinnedCertVerifier := { expected_sha256 : bytes }.

Definition sha256_of_cert `{Sha256} (der : bytes) : bytes := sha256 der.

Definition verify_server_cert `{Sha256} (v : PinnedCertVerifier) (end_entity : bytes)
    : result string unit :=
  if decide (sha256_of_cert end_entity = expected_sha256 v) then Ok tt
  else Err "certificate pin mismatch".

(** ** Opening a session *)
Section Native.
Context {Sha : Sha256} {Addr Net Tcp Tls Udp QCfg QConnecting QConn QBi : Type}.
(** TCP and TLS: [TcpStream::connect], and [TlsConnector::connect] with the
    verifier the client configured and the server name taken from the address. *)
Context (tcp_connect : Z -> Addr -> Net -> option (result io_error Tcp) * Net).
Context (tls_connect : Z -> PinnedCertVerifier -> Addr -> Tcp -> Net -> option (result io_error Tls) * Net).
(** QUIC: a local socket of the address's family, the rustls configuration
    turned into quinn's, the attempt, its handshake, and the first stream. *)
Context (is_ipv4 : Addr -> bool) (quic_client : bool -> Net -> result io_error Udp * Net).
Context (quic_config : PinnedCertVerifier -> result string QCfg).
Context (connect_with : Udp -> QCfg -> Addr -> string -> Net -> result string QConnecting * Net).
Context (quic_handshake : Z -> QConnecting -> Net -> option (result ConnectionError QConn) * Net).
Context (quic_error : ConnectionError -> string).
Context (open_bi : QConn -> Net -> result ConnectionError QBi * Net).

Definition connect_stream (endpoint : Endpoint Addr) (net : Net) : result TransportError Tls * Net :=
  let '(r, net) := tcp_connect CONNECT_TIMEOUT (e_address endpoint) net in
  match r with
  | None => (Err (TeConnect TcpTimeout "tcp connect timed out"), net)
  | Some (Err e) => (Err (TeConnect (classify_connect_io_error e) (message e)), net)
  | Some (Ok tcp) =>
    let verifier := {| expected_sha256 := e_pinned_cert_sha256 endpoint |} in
    let '(r, net) := tls_connect CONNECT_TIMEOUT verifier (e_address endpoint) tcp net in
    match r with
    | None => (Err (TeConnect HandshakeTimeout "tls handshake timed out"), net)
    | Some (Err e) => (Err (TeConnect TlsFailure (message e)), net)
    | Some (Ok s) => (Ok s, net)
    end
  end.

Inductive NativeSession :=
  | DirectTlsSession (stream : Tls)
  | NoiseQuicSession (endpoint : Udp) (connection : QConn) (stream : QBi).

Definition direct_tls_connect (endpoint : Endpoint Addr) (net : Net)
    : result TransportError NativeSession * Net :=
  let '(r, net) := connect_stream endpoint net in
  (s ← r; Ok (DirectTlsSession s), net).

Definition client_endpoint (v4 : bool) (net : Net) : result TransportError Udp * Net :=
  let '(r, net) := quic_client v4 net in
  (map_err (fun e => TeConnect UdpUnavailable ("failed to bind local UDP socket: " +:+ message e)) r, net).

Definition noise_quic_connect (endpoint : Endpoint Addr) (net : Net)
    : result TransportError NativeSession * Net :=
  let '(r, net) := client_endpoint (is_ipv4 (e_address endpoint)) net in
  match r with
  | Err e => (Err e, net)
  | Ok ep =>
    let verifier := {| expected_sha256 := e_pinned_cert_sha256 endpoint |} in
    match quic_config verifier with
    | Err e => (Err (TeConnect QuicFailure ("invalid quic tls config: " +:+ e)), net)
    | Ok client_config =>
      let '(r, net) := connect_with ep client_config (e_address endpoint) "relay" net in
      match r with
      | Err e => (Err (TeConnect QuicFailure e), net)
      | Ok connecting =>
        let '(r, net) := quic_handshake CONNECT_TIMEOUT connecting net in
        match r with
        | None => (Err (TeConnect HandshakeTimeout "quic handshake timed out"), net)
        | Some (Err e) => (Err (TeConnect (classify_connection_error e) (quic_error e)), net)
        | Some (Ok connection) =>
          let '(r, net) := open_bi connection net in
          match r with
          | Err e => (Err (TeConnect QuicFailure (quic_error e)), net)
          | Ok bi => (Ok (NoiseQuicSession ep connection bi), net)
          end
        end
      end
    end
  end.

(** apps/client-daemon/src/lib.rs: the registered transports, and what
    [Transport::connect] does for each of them. *)
Definition default_transports : list TransportId := [direct_tls_ID; noise_quic_ID].
Definition native_dial (t : TransportId) (endpoint : Endpoint Addr) (net : Net)
    : result TransportError NativeSession * Net :=
  if decide (t = direct_tls_ID) then direct_tls_connect endpoint net
  else noise_quic_connect endpoint net.

(** *** What the TLS stacks promise: a completed handshake had its end-entity
    certificate accepted by the configured verifier. *)
Context (tls_peer : Tls -> bytes) (quic_peer : QConn -> bytes).
Definition tls_verifies : Prop := forall d v a tcp net s net',
  tls_connect d v a tcp net = (Some (Ok s), net') -> verify_server_cert v (tls_peer s) = Ok tt.
Definition quic_verifies : Prop := forall v cfg ep a name net1 c net2 d conn net3,
  quic_config v = Ok cfg -> connect_with ep cfg a name net1 = (Ok c, net2) ->
  quic_handshake d c net2 = (Some (Ok conn), net3) -> verify_server_cert v (quic_peer conn) = Ok tt.

Definition peer_cert (s : NativeSession) : bytes :=
  match s with DirectTlsSession t => tls_peer t | NoiseQuicSession _ c _ => quic_peer c end.

Lemma verify_server_cert_Ok v der :
  verify_server_cert v der = Ok tt -> sha256 der = expected_sha256 v.
Proof. unfold verify_server_cert. by case_decide. Qed.

Lemma connect_stream_pinned ep net s net' :
  tls_verifies -> connect_stream ep net = (Ok s, net') ->
  sha256 (tls_peer s) = e_pinned_cert_sha256 ep.
Proof.
  intros Hv. unfold connect_stream.
  destruct (tcp_connect _ _ _) as [[[tcp|]|] net1]; [|done..].
  destruct (tls_connect _ _ _ _ _) as [[[s'|]|] net2] eqn:Et; [|done..].
  intros [= -> ->]. by apply Hv, verify_server_cert_Ok in Et.
Qed.

Lemma native_dial_pinned t ep net s net' :
  tls_verifies -> quic_verifies -> native_dial t ep net = (Ok s, net') ->
  sha256 (peer_cert s) = e_pinned_cert_sha256 ep.
Proof.
  intros Hv Hq. unfold native_dial. case_decide.
  - unfold direct_tls_connect. destruct (connect_stream _ _) as [[s'|] net1] eqn:E; cbn; [|done].
    intros [= <- ->]. by apply connect_stream_pinned in E.
  - unfold noise_quic_connect.
    destruct (client_endpoint _ _) as [[udp|] net1]; [|done].
    destruct (quic_config _) as [cfg|] eqn:Ec; [|done].
    destruct (connect_with _ _ _ _ _) as [[cg|] net2] eqn:Ew; [|done].
    destruct (quic_handshake _ _ _) as [[[conn|]|] net3] eqn:Eh; [|done..].
    destruct (open_bi _ _) as [[bi|] net4]; [|done].
    intros [= <- <-]. exact (verify_server_cert_Ok _ _ (Hq _ _ _ _ _ _ _ _ _ _ _ Ec Ew Eh)).
Qed.

(** The kinds of error that only speak about this machine. *)
Definition local_kind (k : ErrorKind) : bool :=
  match k with NetworkUnreachable | HostUnreachable | NetworkDown | AddrNotAvailable => true | _ => false end.

Lemma classify_local e :
  is_remote_signal (classify_connect_io_error e) = negb (local_kind (kind e)).
Proof. unfold classify_connect_io_error. by destruct (kind e). Qed.

Lemma noise_quic_blames_remote ep net x net' :
  noise_quic_connect ep net = (Err x, net') -> is_remote_signal (te_category x) = true.
Proof.
  unfold noise_quic_connect, client_endpoint.
  destruct (quic_client _ _) as [[udp|] net1]; cbn; [|by intros [= <- _]].
  destruct (quic_config _) as [cfg|]; [|by intros [= <- _]].
  destruct (connect_with _ _ _ _ _) as [[cg|] net2]; [|by intros [= <- _]].
  destruct (quic_handshake _ _ _) as [[[conn|e]|] net3]; [|by intros [= <- _]; destruct e|by intros [= <- _]].
  destruct (open_bi _ _) as [[bi|] net4]; [done|by intros [= <- _]].
Qed.

(** *** The daemon's engine over these transports *)
Context (parse_addr : string -> option Addr) {HexI : Hex} {R : Type} {Rg : Rng R}.
Context (clock : Net -> Z) (sleep_ms : Z -> Net -> Net) (entropy : Net -> R).

Definition build_engine (endpoints : list EndpointDescriptor) : ConnectionEngine :=
  engine_new parse_addr default_transports endpoints.

Notation daemon_reachable := (reachable parse_addr native_dial clock sleep_ms entropy).
Notation daemon_connect := (connect native_dial clock sleep_ms entropy).

(** A session is with the relay the bundle names.  In any state the daemon's
    engine reaches, a session that [connect] yields was opened to a peer whose
    certificate hashes to the pin of one of the bundle's descriptors, over the
    transport that descriptor names: no other certificate is ever accepted, on
    either transport. *)
Theorem session_is_pinned e net t s e' net' log :
  tls_verifies -> quic_verifies ->
  daemon_reachable e -> daemon_connect e net = (Returned (Ok (t, s)), e', net', log) ->
  exists re, re ∈ endpoints e /\
    hex_decode (d_cert_sha256_hex (re_descriptor re)) = Ok (sha256 (peer_cert s)) /\
    t = MkTransportId (known_transport_id_str (d_transport (re_descriptor re))).
Proof.
  intros Hv Hq Hr Hc. apply connect_session in Hc as [_ Hs].
  destruct (Hs _ _ eq_refl) as (re & net1 & net2 & Hre & Ht & Hd). exists re. split; [done|].
  split; [|done]. apply (reachable_resolved _ _ _ _ _ _ _ Hr) in Hre.
  apply parse_endpoint_pin in Hre. by rewrite (native_dial_pinned _ _ _ _ _ Hv Hq Hd).
Qed.

Lemma attempts_offline n all last_err e rng net log out e' net' log' :
  (forall d a net, exists x net', tcp_connect d a net = (Some (Err x), net') /\ local_kind (kind x) = true) ->
  (forall x, x ∈ all -> x.2 = direct_tls_ID) ->
  attempts native_dial clock sleep_ms n all last_err e rng net log = (out, e', net', log') ->
  exists new, log' = log ++ new /\ Forall failed_locally new.
Proof.
  intros Hoff Hall. revert last_err e rng net log.
  induction n as [|n IH]; intros last_err e rng net log; cbn [attempts].
  { intros [= <- <- <- <-]. exists []. by rewrite app_nil_r. }
  cbv zeta. destruct (should_suppress_switching _ _) as [[] g1].
  { intros [= <- <- <- <-]. exists []. by rewrite app_nil_r. }
  destruct (select_next _ _ _ rng) as [[c|] rng1].
  2:{ intros [= <- <- <- <-]. exists []. by rewrite app_nil_r. }
  destruct (list_find _ all) as [[i [[c' re] tr]]|] eqn:Ef.
  2:{ intros [= <- <- <- <-]. exists []. by rewrite app_nil_r. }
  apply list_find_Some in Ef as (Hi & _ & _).
  pose proof (Hall _ (list_elem_of_lookup_2 _ _ _ Hi)) as Htr. cbn in Htr. subst tr.
  unfold native_dial at 1. rewrite decide_True by done.
  unfold direct_tls_connect, connect_stream.
  destruct (Hoff CONNECT_TIMEOUT (e_address (re_endpoint re)) net) as (x & net1 & -> & Hx).
  cbn [mbind result_bind].
  destruct (if is_remote_signal _ then _ else _) as [b rng2].
  destruct (gen_range 50 499 rng2) as [j rng3].
  intros (new & -> & Hf)%IH. eexists. rewrite <-app_assoc. split; [done|].
  constructor; [|done]. eexists. split; [done|]. cbn. by rewrite classify_local, Hx.
Qed.

(** C30: Being offline costs a direct-TLS relay nothing.  When the machine has no
    network path (every TCP connection attempt fails with one of the four local
    kinds), a call of [connect] over direct-TLS endpoints leaves every score,
    hence every quarantine, as it was. *)
Theorem offline_client_blames_nobody e net out e' net' log :
  (forall d a net, exists x net', tcp_connect d a net = (Some (Err x), net') /\ local_kind (kind x) = true) ->
  RngLaws R -> daemon_reachable e ->
  Forall (fun re => d_transport (re_descriptor re) = "direct-tls"%string) (endpoints e) ->
  daemon_connect e net = (out, e', net', log) -> scores e' = scores e.
Proof.
  intros Hoff HR Hr Hd Hc.
  refine (proj2 (proj2 (connect_run _ _ _ _ _ _ _ _ _ _ (reachable_wf _ _ _ _ _ _ Hr) Hc)) _).
  unfold connect in Hc. destruct (candidates e) as [|y all] eqn:Ec; [by injection Hc as <- <- <- <-|].
  rewrite <-Ec in Hc. apply attempts_offline in Hc as (new & -> & Hf); [done..|].
  intros x. unfold candidates. rewrite list_elem_of_omap. intros (re & Hre & Hx). case_decide; [|done]. injection Hx as <-. cbn.
  rewrite Forall_forall in Hd. by rewrite (Hd re Hre).
Qed.
End Native.

(** ** server.rs: the identity a relay keeps on disk *)
Record RelayIdentity := { cert_der : bytes; key_der : bytes; cert_sha256 : bytes }.

Section Identity.
(** rcgen: a fresh certificate and its PKCS8 key for a subject. *)
Context {Sha : Sha256} (generate_self_signed : string -> world -> bytes * bytes).

Definition cert_file (dir : path) : path := dir ++ ["relay.cert.der"].
Definition key_file (dir : path) : path := dir ++ ["relay.key.der"].
Definition identity_of (cert key : bytes) : RelayIdentity :=
  {| cert_der := cert; key_der := key; cert_sha256 := sha256_of_cert cert |}.

Definition generate (subject : string) : IO io_error RelayIdentity := fun w =>
  let '(cert, key) := generate_self_signed subject w in (Ok (identity_of cert key), w).

Definition save_to_dir (id : RelayIdentity) (dir : path) : IO io_error unit :=
  create_dir_all dir ;;
  fs_write (cert_file dir) (cert_der id) ;;
  open_create_new 384 (key_file dir) ;;
  file_write_all (key_file dir) (key_der id).

Definition load_from_dir (dir : path) : IO io_error (option RelayIdentity) :=
  do have_cert <- path_exists (cert_file dir);
  do have_key <- path_exists (key_file dir);
  if negb have_cert || negb have_key then io_ret None
  else
    do metadata <- fs_metadata (key_file dir);
    if negb (Z.land (mode metadata) 63 =? 0)
    then io_err (io_error_new OtherKind
      (path_debug (key_file dir) +:+ " has mode " +:+ octal (mode metadata) +:+ ", expected 0600 or stricter"))
    else
      do cert_bytes <- fs_read (cert_file dir);
      do key_bytes <- fs_read (key_file dir);
      io_ret (Some (identity_of cert_bytes key_bytes)).

Definition load_or_generate (dir : path) (subject : string) : IO io_error RelayIdentity :=
  do found <- load_from_dir dir;
  match found with
  | Some identity => io_ret identity
  | None =>
    do identity <- generate subject;
    save_to_dir identity dir ;;
    io_ret identity
  end.

(** The directory holds this identity, its key closed to group and others. *)
Definition holds_identity (dir : path) (id : RelayIdentity) (f : fs) : Prop :=
  exists mc mk, f !! cert_file dir = Some (File mc (cert_der id)) /\
    f !! key_file dir = Some (File mk (key_der id)) /\ Z.land (mode mk) 63 = 0 /\
    cert_sha256 id = sha256 (cert_der id).

Lemma cert_key_ne dir : cert_file dir <> key_file dir.
Proof. unfold cert_file, key_file. by intros ?%app_inv_head. Qed.

Lemma load_from_dir_holds dir id w :
  holds_identity dir id (w_fs w) -> (forall n, w_fault w n = None) ->
  exists w', load_from_dir dir w = (Ok (Some id), w') /\ w_fs w' = w_fs w.
Proof.
  intros (mc & mk & Hc & Hk & Hm & Hs) Hf. unfold load_from_dir, io_bind.
  rewrite !path_exists_run. rewrite (exists_at_Some _ _ _ Hc), (exists_at_Some _ _ _ Hk). cbn [negb orb].
  unfold fs_metadata, syscall. rewrite Hf, Hk. cbn [node_meta]. rewrite Hm. cbn [negb Z.eqb].
  set (w1 := push_fs (w_fs w) w).
  rewrite (fs_read_ok (cert_file dir) w1 mc (cert_der id) (Hf _) Hc).
  rewrite (fs_read_ok (key_file dir) (push_fs (w_fs w1) w1) mk (key_der id) (Hf _) Hk).
  assert (identity_of (cert_der id) (key_der id) = id) as ->; [|by eexists].
  unfold identity_of, sha256_of_cert. rewrite <-Hs. by destruct id.
Qed.

Lemma load_from_dir_Some dir id w w' :
  load_from_dir dir w = (Ok (Some id), w') -> holds_identity dir id (w_fs w') /\ w_fs w' = w_fs w.
Proof.
  unfold load_from_dir. intros (hc & w1 & H1 & (hk & w2 & H2 & H)%io_bind_Ok_inv)%io_bind_Ok_inv.
  injection H1 as <- <-. injection H2 as <- <-. destruct (_ || _); [done|].
  apply io_bind_Ok_inv in H as (m & w1 & [(n & Hn & ->) ->]%fs_metadata_Ok_inv & H).
  destruct (Z.eqb_spec (Z.land (mode (node_meta n)) 63) 0) as [Hm|]; [|done]. cbn [negb] in H.
  apply io_bind_Ok_inv in H as (c & w1 & [(mc & Hc) ->]%fs_read_Ok_inv & H).
  apply io_bind_Ok_inv in H as (k & w1 & [(mk & Hk) ->]%fs_read_Ok_inv & [= <- <-]).
  cbn in *. split; [|done]. rewrite Hn in Hk. injection Hk as ->. exists mc, mk. by split_and!.
Qed.

Lemma save_to_dir_holds c k dir w w' :
  save_to_dir (identity_of c k) dir w = (Ok tt, w') ->
  holds_identity dir (identity_of c k) (w_fs w').
Proof.
  unfold save_to_dir.
  intros ([] & w1 & _ & ([] & w2 & H2 & ([] & w3 & H3 & H4)%io_bind_Ok_inv)%io_bind_Ok_inv)%io_bind_Ok_inv.
  pose proof (cert_key_ne dir) as Hne.
  apply io_bind_Ok_inv in H2 as ([] & w1' & (mc & -> & _)%open_truncate_Ok_inv & H2).
  eapply file_write_all_Ok_inv in H2; [|apply lookup_insert_eq]. subst w2.
  apply syscall_Ok_inv in H3 as (s & E & ->). cbn in E.
  destruct (_ !! key_file dir); [done|]. destruct (has_parent _ _); [|done]. injection E as <-.
  eapply file_write_all_Ok_inv in H4; [|apply lookup_insert_eq]. subst w'. cbn.
  rewrite insert_insert_eq.
  eexists mc, _. split; [by rewrite lookup_insert_ne, lookup_insert_eq|].
  split; [by rewrite lookup_insert_eq|]. split; [|done].
  cbn. by rewrite (Z.land_comm 384), <-Z.land_assoc, Z.land_0_r.
Qed.

Lemma load_or_generate_holds dir subject id w w' :
  load_or_generate dir subject w = (Ok id, w') -> holds_identity dir id (w_fs w').
Proof.
  unfold load_or_generate. intros (found & w1 & Hl & H)%io_bind_Ok_inv.
  destruct found as [id'|].
  { injection H as <- <-. by apply load_from_dir_Some in Hl as [? _]. }
  apply io_bind_Ok_inv in H as (id' & w2 & Hg & ([] & w3 & Hs & [= <- <-])%io_bind_Ok_inv).
  unfold generate in Hg. destruct (generate_self_signed _ _). injection Hg as <- _.
  by apply save_to_dir_holds in Hs.
Qed.
End Identity.

(** ** server.rs: what the listeners present

    [rustls::ServerConfig] by what the code sets. *)
Record ServerConfig := {
  client_auth : bool;
  cert_chain : list bytes;
  private_key : bytes;
  max_early_data_size : Z
}.
Section ServerConfigs.
(** Whether rustls takes a certificate with its key, and whether quinn takes a
    configuration. *)
Context (single_cert_ok : list bytes -> bytes -> bool) (quic_compatible : ServerConfig -> bool).

Definition tls_server_config (identity : RelayIdentity) : outcome ServerConfig :=
  if single_cert_ok [cert_der identity] (key_der identity)
  then Returned {| client_auth := false; cert_chain := [cert_der identity]; private_key := key_der identity;
    max_early_data_size := 0 |}
  else Panicked.
Definition quic_server_config (identity : RelayIdentity) : outcome ServerConfig :=
  match tls_server_config identity with
  | Panicked => Panicked
  | Returned tls =>
    let tls := {| client_auth := client_auth tls; cert_chain := cert_chain tls; private_key := private_key tls;
      max_early_data_size := 4294967295 |} in
    if quic_compatible tls then Returned tls else Panicked
  end.

(** Both listeners present the identity's one certificate. *)
Definition presents (identity : RelayIdentity) (cfg : ServerConfig) : Prop :=
  tls_server_config identity = Returned cfg \/ quic_server_config identity = Returned cfg.
Lemma presents_cert identity cfg :
  presents identity cfg -> cert_chain cfg = [cert_der identity] /\ private_key cfg = key_der identity /\ client_auth cfg = false.
Proof.
  unfold presents, quic_server_config, tls_server_config. destruct (single_cert_ok _ _); [|by intros [?|?]].
  intros [[= <-]|H]; [done|]. destruct (quic_compatible _); [|done]. by injection H as <-.
Qed.
End ServerConfigs.

(** C34: A relay keeps its pin across restarts.  Once [load_or_generate] returned
    an identity, the directory holds it with a private key, and every later
    start against the same files returns the same identity, whatever subject it
    is given and whatever it would have generated; and a client that was given
    the pin of the first start accepts the certificate that either listener
    presents after any restart. *)
Theorem relay_pin_survives_restart `{Sha256} single_cert_ok quic_compatible gen1 gen2 dir subject1 subject2 id w w1 w2 :
  load_or_generate gen1 dir subject1 w = (Ok id, w1) ->
  w_fs w2 !! cert_file dir = w_fs w1 !! cert_file dir ->
  w_fs w2 !! key_file dir = w_fs w1 !! key_file dir ->
  (forall n, w_fault w2 n = None) ->
  holds_identity dir id (w_fs w1) /\
  exists id' w3, load_or_generate gen2 dir subject2 w2 = (Ok id', w3) /\ id' = id /\ w_fs w3 = w_fs w2 /\
    forall cfg, presents single_cert_ok quic_compatible id' cfg -> exists end_entity, cert_chain cfg = [end_entity] /\
      verify_server_cert {| expected_sha256 := cert_sha256 id |} end_entity = Ok tt.
Proof.
  intros Hl%load_or_generate_holds Hc Hk Hf. split; [done|].
  destruct (load_from_dir_holds dir id w2) as (w3 & E & Hw); [|done|].
  { destruct Hl as (mc & mk & ? & ? & ? & ?). exists mc, mk. by rewrite Hc, Hk. }
  exists id, w3. split_and!; [|done..|].
  - unfold load_or_generate, io_bind. by rewrite E.
  - intros cfg [Hcert _]%presents_cert. exists (cert_der id). split; [done|].
    destruct Hl as (? & ? & _ & _ & _ & Hs). unfold verify_server_cert, sha256_of_cert. cbn. by rewrite decide_True.
Qed.

(** ** Witnesses *)
Module NativeDemo.
Import PolicyDemo EngineDemo.
#[export] Instance sha : Sha256 := Build_Sha256 (fun m => m).
(** The certificate served at an address; a connection is the one it got. *)
Definition served (addr : string) : bytes :=
  if decide (addr = "192.0.2.1:443")%string then repeat Byte.x11 32 else repeat Byte.x22 32.
Definition tcp (up : bool) (d : Z) (addr : string) (net : Z) : option (result io_error bytes) * Z :=
  (Some (if up then Ok (served addr) else Err (io_error_new NetworkUnreachable "no route")), net + 10).
Definition tls (d : Z) (v : PinnedCertVerifier) (addr : string) (c : bytes) (net : Z)
    : option (result io_error bytes) * Z :=
  (Some (match verify_server_cert v c with
         | Ok _ => Ok c
         | Err m => Err (io_error_new InvalidData m)
         end), net + 20).
Definition quic_client (v4 : bool) (net : Z) : result io_error unit * Z := (Ok tt, net).
Definition quic_config (v : PinnedCertVerifier) : result string PinnedCertVerifier := Ok v.
Definition connect_with (u : unit) (v : PinnedCertVerifier) (addr name : string) (net : Z)
    : result string (PinnedCertVerifier * bytes) * Z := (Ok (v, served addr), net).
Definition quic_handshake (d : Z) (c : PinnedCertVerifier * bytes) (net : Z)
    : option (result ConnectionError bytes) * Z :=
  (Some (match verify_server_cert c.1 c.2 with
         | Ok _ => Ok c.2
         | Err m => Err (QTransportError m)
         end), net + 20).
Definition quic_error (e : ConnectionError) : string := "closed".
Definition open_bi (c : bytes) (net : Z) : result ConnectionError unit * Z := (Ok tt, net).

Definition dial (up : bool) := native_dial (tcp up) tls (fun _ => true) quic_client quic_config
  connect_with quic_handshake quic_error open_bi.
Definition engine := build_engine (fun s => Some s) descriptors.
Definition direct_engine := build_engine (fun s => Some s) (take 1 descriptors).
Definition run (up : bool) e := connect (dial up) (fun n => n) (fun ms n => n + ms) (fun _ => tt) e 0.

Lemma tls_ok : tls_verifies tls (fun c => c).
Proof.
  intros d v a c net s net'. unfold tls. destruct (verify_server_cert v c) as [[]|] eqn:E; [|done].
  by intros [= <- _].
Qed.
Lemma quic_ok : quic_verifies quic_config connect_with quic_handshake (fun c => c).
Proof.
  intros v cfg ep a name net1 c net2 d conn net3 [= <-] [= <- _]. unfold quic_handshake. cbn.
  destruct (verify_server_cert v _) as [[]|] eqn:E; [|done]. by intros [= <- _].
Qed.

Definition relay_dir : path := ["var"; "relay"].
Definition rcgen (cert key : bytes) (subject : string) (w : world) : bytes * bytes := (cert, key).
Definition boot1 := load_or_generate (rcgen [Byte.x01; Byte.x02] [Byte.x03; Byte.x04]) relay_dir "relay" (calm_world ∅).
Definition boot2 := load_or_generate (rcgen [Byte.x09] [Byte.x09]) relay_dir "other" (calm_world (w_fs (snd boot1))).
(** A first boot whose write of the key fails after one byte. *)
Definition torn_world : world :=
  World ∅ [] 0 (fun n => if (n =? 4)%nat then Some (Fault (io_error_new OtherKind "disk full") 1) else None)
    (Proc 42 18 0 0) (fun _ _ _ => Ok (Output true [] [])) [].
Definition torn_boot := load_or_generate (rcgen [Byte.x01; Byte.x02] [Byte.x03; Byte.x04]) relay_dir "relay" torn_world.
Definition after_torn :=
  load_or_generate (rcgen [Byte.x09] [Byte.x09]) relay_dir "relay" (calm_world (w_fs (snd torn_boot))).
End NativeDemo.

Section NativeWitnesses.
Import PolicyDemo EngineDemo NativeDemo.

Lemma session_is_pinned_witness :
  (NativeDemo.run true NativeDemo.engine).1.1.1 =
    Returned (Ok (direct_tls_ID, DirectTlsSession (repeat Byte.x11 32))) /\
  exists re, re ∈ endpoints NativeDemo.engine /\
    hex_decode (d_cert_sha256_hex (re_descriptor re)) = Ok (repeat Byte.x11 32).
Proof.
  assert ((NativeDemo.run true NativeDemo.engine).1.1.1 =
    Returned (Ok (direct_tls_ID, DirectTlsSession (repeat Byte.x11 32)))) as E by (vm_compute; reflexivity).
  split; [exact E|].
  pose proof (tuple4_eta (NativeDemo.run true NativeDemo.engine)) as Hrun. rewrite E in Hrun.
  destruct (session_is_pinned (tcp true) tls (fun _ => true) NativeDemo.quic_client quic_config connect_with
    quic_handshake quic_error open_bi (fun c => c) (fun c => c) (fun s => Some s) (fun n => n)
    (fun ms n => n + ms) (fun _ => tt) NativeDemo.engine 0 _ _ _ _ _ tls_ok quic_ok
    (reach_new _ _ _ _ _ _ _ _) Hrun) as (re & Hre & Hp & _).
  exists re. exact (conj Hre Hp).
Defined.

Lemma offline_client_blames_nobody_witness :
  length (NativeDemo.run false direct_engine).2 = 4%nat /\
  scores (NativeDemo.run false direct_engine).1.1.2 = scores direct_engine.
Proof.
  split; [vm_compute; reflexivity|].
  refine (offline_client_blames_nobody (tcp false) tls (fun _ => true) NativeDemo.quic_client quic_config connect_with
    quic_handshake quic_error open_bi (fun s => Some s) (fun n => n)
    (fun ms n => n + ms) (fun _ => tt) direct_engine 0 _ _ _ (NativeDemo.run false direct_engine).2
    _ _ (reach_new _ _ _ _ _ _ _ _) _ (tuple4_eta (NativeDemo.run false direct_engine))).
  - intros d a net. eexists _, _. split; reflexivity.
  - repeat constructor.
Defined.

Lemma relay_pin_survives_restart_witness :
  fst boot1 = Ok (identity_of [Byte.x01; Byte.x02] [Byte.x03; Byte.x04]) /\ fst boot2 = fst boot1 /\
  exists cert, verify_server_cert {| expected_sha256 := sha256 [Byte.x01; Byte.x02] |} cert = Ok tt.
Proof.
  assert (boot1 = (Ok (identity_of [Byte.x01; Byte.x02] [Byte.x03; Byte.x04]), snd boot1)) as E
    by (refine (run_of_fst _ _ _ _); vm_compute; reflexivity).
  destruct (relay_pin_survives_restart (fun _ _ => true) (fun _ => true) _ (rcgen [Byte.x09] [Byte.x09]) relay_dir "relay" "other" _ _ _
    (calm_world (w_fs (snd boot1))) E eq_refl eq_refl (fun _ => eq_refl)) as (_ & id & w3 & H3 & Hid & _ & Hp).
  split; [rewrite E; reflexivity|]. split; [unfold boot2; rewrite H3, E, Hid; reflexivity|].
  destruct (Hp _ (or_introl eq_refl)) as (c & _ & Hc). subst id. exists c. exact Hc.
Defined.

(** A key file that was cut short is taken for a whole one at the next start:
    [save_to_dir] creates the file before its content is on disk. *)
Example torn_key_is_loaded :
  is_ok (fst torn_boot) = false /\ fst after_torn = Ok (identity_of [Byte.x01; Byte.x02] [Byte.x03]).
Proof. split; vm_compute; reflexivity. Qed.
(** And with a library that refuses the cut key, the relay panics at every start. *)
Example torn_key_panics :
  tls_server_config (fun _ key => (length key =? 2)%nat) (identity_of [Byte.x01; Byte.x02] [Byte.x03]) = Panicked.
Proof. vm_compute. reflexivity. Qed.
End NativeWitnesses.
