(* ===== verification/Session.v ===== *)
(** * crates/transport-api and crates/transport-native: an open session

    Models the [Session] trait and [Capabilities] of transport-api, and its two
    implementations in direct_tls.rs and noise_quic.rs: what they make of the
    results of the streams below them.  The streams of tokio-rustls and quinn
    are parameters. *)

From S2P Require Import Prelude Bytes Io Serde Common Fs Crypto Fl Failure Policy Config Engine Render Native.

(** ** Capabilities *)
Definition Capabilities : Type := Z.
Definition STREAM : Capabilities := 1.
Definition DATAGRAM : Capabilities := 2.
Definition MIGRATION : Capabilities := 4.
Definition MULTIPLEXING : Capabilities := 8.
Definition ZERO_RTT : Capabilities := 16.
Definition PROXY_CHAINING : Capabilities := 32.
Definition all_capabilities : list Capabilities :=
  [STREAM; DATAGRAM; MIGRATION; MULTIPLEXING; ZERO_RTT; PROXY_CHAINING].
(** bitflags' [contains] *)
Definition has_capabilities (own other : Capabilities) : bool := Z.land own other =? other.

Record SessionHealth := { alive : bool; rtt_estimate_ms : option Z }.

(** ** The trait *)
Class Session (S : Type) := {
  send : bytes -> S -> result TransportError unit * S;
  (** at most that many bytes *)
  recv : nat -> S -> result TransportError bytes * S;
  session_health : S -> SessionHealth;
  close : S -> result TransportError unit * S;
  capabilities : S -> Capabilities
}.
(** What a user of a session relies on: failures are failures of the session,
    no read overruns its buffer, and bytes can be streamed. *)
Definition is_session_error (e : TransportError) : Prop := match e with TeSession _ _ => True | TeConnect _ _ => False end.
Class SessionLaws (S : Type) `{Session S} := {
  send_error b s e s' : send b s = (Err e, s') -> is_session_error e;
  recv_error n s e s' : recv n s = (Err e, s') -> is_session_error e;
  close_error s e s' : close s = (Err e, s') -> is_session_error e;
  recv_bounded n s b s' : recv n s = (Ok b, s') -> (length b <= n)%nat;
  streams s : has_capabilities (capabilities s) STREAM = true
}.

Section DirectTls.
Context {Tls : Type}.
Context (write_all : bytes -> Tls -> result io_error unit * Tls) (read : nat -> Tls -> result io_error bytes * Tls).
Context (shutdown : Tls -> result io_error unit * Tls).

Definition session_failed (e : io_error) : TransportError := TeSession (classify_connect_io_error e) (message e).
Definition direct_tls_send (buf : bytes) (s : Tls) : result TransportError unit * Tls :=
  let '(r, s) := write_all buf s in (map_err session_failed r, s).
Definition direct_tls_recv (n : nat) (s : Tls) : result TransportError bytes * Tls :=
  let '(r, s) := read n s in (map_err session_failed r, s).
Definition direct_tls_health (s : Tls) : SessionHealth := {| alive := true; rtt_estimate_ms := None |}.
Definition direct_tls_close (s : Tls) : result TransportError unit * Tls :=
  let '(r, s) := shutdown s in (map_err (fun e => TeSession GeneralRouteFailure (message e)) r, s).
Definition direct_tls_capabilities (s : Tls) : Capabilities := STREAM.
#[local] Instance direct_tls_session : Session Tls := {|
  send := direct_tls_send; recv := direct_tls_recv; session_health := direct_tls_health;
  close := direct_tls_close; capabilities := direct_tls_capabilities |}.

(** [AsyncReadExt::read] fills at most the buffer. *)
Definition read_fits : Prop := forall n s b s', read n s = (Ok b, s') -> (length b <= n)%nat.
Lemma direct_tls_laws : read_fits -> SessionLaws Tls.
Proof.
  intros Hr. split.
  - intros b s e s'. cbn. unfold direct_tls_send. destruct (write_all b s) as [[]]; by intros [= <- _].
  - intros n s e s'. cbn. unfold direct_tls_recv. destruct (read n s) as [[]]; by intros [= <- _].
  - intros s e s'. cbn. unfold direct_tls_close. destruct (shutdown s) as [[]]; by intros [= <- _].
  - intros n s b s'. cbn. unfold direct_tls_recv. destruct (read n s) as [[x|] s1] eqn:E; [|done].
    intros [= <- _]. by eapply Hr.
  - done.
Qed.
End DirectTls.

Section NoiseQuic.
Context {QConn QBi : Type}.
(** quinn: [Ok(None)] at the end of the stream *)
Context (write_all : bytes -> QBi -> result string unit * QBi) (read : nat -> QBi -> result string (option bytes) * QBi).
Context (close_reason : QConn -> option ConnectionError) (rtt_nanos : QConn -> Z).
Context (close_with : Z -> string -> QConn -> QConn).

Definition noise_quic_send (buf : bytes) (s : QConn * QBi) : result TransportError unit * (QConn * QBi) :=
  let '(r, bi) := write_all buf s.2 in (map_err (TeSession QuicFailure) r, (s.1, bi)).
Definition noise_quic_recv (n : nat) (s : QConn * QBi) : result TransportError bytes * (QConn * QBi) :=
  let '(r, bi) := read n s.2 in
  (match r with
   | Err e => Err (TeSession QuicFailure e)
   | Ok None => Err (TeSession EndpointUnreachable "quic stream closed")
   | Ok (Some b) => Ok b
   end, (s.1, bi)).
(** [as_millis() as u32] keeps the low 32 bits. *)
Definition noise_quic_health (s : QConn * QBi) : SessionHealth := {|
  alive := match close_reason s.1 with None => true | Some _ => false end;
  rtt_estimate_ms := Some (rtt_nanos s.1 / 1000000 mod 2 ^ 32) |}.
Definition noise_quic_close (s : QConn * QBi) : result TransportError unit * (QConn * QBi) :=
  (Ok tt, (close_with 0 "close" s.1, s.2)).
Definition noise_quic_capabilities (s : QConn * QBi) : Capabilities := Z.lor STREAM DATAGRAM.
#[local] Instance noise_quic_session : Session (QConn * QBi) := {|
  send := noise_quic_send; recv := noise_quic_recv; session_health := noise_quic_health;
  close := noise_quic_close; capabilities := noise_quic_capabilities |}.

Definition quic_read_fits : Prop := forall n s b s', read n s = (Ok (Some b), s') -> (length b <= n)%nat.
Lemma noise_quic_laws : quic_read_fits -> SessionLaws (QConn * QBi).
Proof.
  intros Hr. split.
  - intros b s e s'. cbn. unfold noise_quic_send. destruct (write_all b s.2) as [[]]; by intros [= <- _].
  - intros n s e s'. cbn. unfold noise_quic_recv. destruct (read n s.2) as [[[]|]]; by intros [= <- _].
  - done.
  - intros n s b s'. cbn. unfold noise_quic_recv. destruct (read n s.2) as [[[x|]|] bi] eqn:E; try done.
    intros [= <- _]. by eapply Hr.
  - done.
Qed.

(** The end of the peer's stream is an error here, while over TLS it is the empty
    read; and no failure of an open QUIC session is ever put down to the local
    network, while one over TLS is, exactly for the four local kinds. *)
Lemma quic_end_of_stream n s bi :
  read n s.2 = (Ok None, bi) ->
  (noise_quic_recv n s).1 = Err (TeSession EndpointUnreachable "quic stream closed").
Proof. intros E. unfold noise_quic_recv. by rewrite E. Qed.
Lemma quic_session_blames_remote n s e s' :
  noise_quic_recv n s = (Err e, s') -> is_remote_signal (te_category e) = true.
Proof. unfold noise_quic_recv. destruct (read n s.2) as [[[]|]]; by intros [= <- _]. Qed.
End NoiseQuic.

Lemma tls_session_blames_local {Tls : Type} (read : nat -> Tls -> result io_error bytes * Tls) n s e s' :
  read n s = (Err e, s') ->
  exists x, (direct_tls_recv read n s).1 = Err x /\
  (is_remote_signal (te_category x) = false <->
   kind e = NetworkUnreachable \/ kind e = HostUnreachable \/ kind e = NetworkDown \/ kind e = AddrNotAvailable).
Proof.
  intros E. unfold direct_tls_recv. rewrite E. eexists. split; [done|]. cbn. unfold classify_connect_io_error.
  destruct (kind e); naive_solver.
Qed.

(** Each capability is a bit of its own. *)
Lemma capabilities_distinct :
  forall a b, a ∈ all_capabilities -> b ∈ all_capabilities -> has_capabilities a b = true <-> a = b.
Proof.
  intros a b. unfold all_capabilities. rewrite !elem_of_cons. intros Ha Hb.
  assert (a ∉ ([] : list Capabilities) /\ b ∉ ([] : list Capabilities)) as [? ?] by (split; apply not_elem_of_nil).
  destruct Ha as [->|[->|[->|[->|[->|[->|?]]]]]], Hb as [->|[->|[->|[->|[->|[->|?]]]]]]; try done.
Qed.

(** ** The streams of a session *)

(** quinn's two streams as one, which is what a relay is given per stream:
    reading goes to [recv], writing to [send]. *)
Record QuicBiStream (Send Recv : Type) := { qb_send : Send; qb_recv : Recv }.
Arguments qb_send {Send Recv}. Arguments qb_recv {Send Recv}.
(** The halves of [tokio::io::split], and those of a QUIC session, which keep the
    connection and the endpoint with them. *)
Record ReadHalf (S : Type) := { rh_inner : S }.
Arguments rh_inner {S}.
Record WriteHalf (S : Type) := { wh_inner : S }.
Arguments wh_inner {S}.
Record QuicReadHalf (Recv QConn Udp : Type) := { qr_recv : Recv; qr_keepalive : QConn * Udp }.
Arguments qr_recv {Recv QConn Udp}. Arguments qr_keepalive {Recv QConn Udp}.
Record QuicWriteHalf (Send QConn Udp : Type) := { qw_send : Send; qw_keepalive : QConn * Udp }.
Arguments qw_send {Send QConn Udp}. Arguments qw_keepalive {Send QConn Udp}.

Section Streams.
Context {Tls Send Recv QConn Udp : Type}.
Context `{HTR : AsyncRead Tls, HTW : AsyncWrite Tls} {DT : @Duplex Tls HTR HTW}.
Context `{HS : AsyncWrite Send} {HSL : AsyncWriteLaws Send} `{HRr : AsyncRead Recv} {HRL : AsyncReadLaws Recv}.

#[export] Instance quic_bi_read : AsyncRead (QuicBiStream Send Recv) :=
  read_via qb_recv (fun r s => {| qb_send := qb_send s; qb_recv := r |}).
#[export] Instance quic_bi_write : AsyncWrite (QuicBiStream Send Recv) :=
  write_via qb_send (fun w s => {| qb_send := w; qb_recv := qb_recv s |}).
(** The two directions are streams of their own. *)
#[export] Instance quic_bi_duplex : Duplex (QuicBiStream Send Recv).
Proof.
  split; [by apply read_via_laws|by apply write_via_laws|..].
  - intros n s x s'. cbn. destruct (read_exact n (qb_recv s)); [|done]. by intros [= _ <-].
  - intros b s s'. cbn. destruct (write_all b (qb_send s)); [|done]. by intros [= <-].
Qed.

#[export] Instance read_half_read : AsyncRead (ReadHalf Tls) := read_via rh_inner (fun s _ => {| rh_inner := s |}).
#[export] Instance write_half_write : AsyncWrite (WriteHalf Tls) := write_via wh_inner (fun s _ => {| wh_inner := s |}).
#[export] Instance quic_read_half_read : AsyncRead (QuicReadHalf Recv QConn Udp) :=
  read_via qr_recv (fun r h => {| qr_recv := r; qr_keepalive := qr_keepalive h |}).
#[export] Instance quic_write_half_write : AsyncWrite (QuicWriteHalf Send QConn Udp) :=
  write_via qw_send (fun w h => {| qw_send := w; qw_keepalive := qw_keepalive h |}).

(** [BoxedReader] and [BoxedWriter]: one of the two implementations. *)
Inductive BoxedReader := TlsReader (h : ReadHalf Tls) | QuicReader (h : QuicReadHalf Recv QConn Udp).
Inductive BoxedWriter := TlsWriter (h : WriteHalf Tls) | QuicWriter (h : QuicWriteHalf Send QConn Udp).
Definition boxed {A B : Type} (f : A -> B) {X : Type} (r : result io_error (X * A)) : result io_error (X * B) :=
  p ← r; Ok (p.1, f p.2).
#[export] Instance boxed_read : AsyncRead BoxedReader := {|
  remaining b := match b with TlsReader h => remaining h | QuicReader h => remaining h end;
  read_u8 b := match b with TlsReader h => boxed TlsReader (read_u8 h) | QuicReader h => boxed QuicReader (read_u8 h) end;
  read_u16 b := match b with TlsReader h => boxed TlsReader (read_u16 h) | QuicReader h => boxed QuicReader (read_u16 h) end;
  read_exact n b := match b with
    | TlsReader h => boxed TlsReader (read_exact n h) | QuicReader h => boxed QuicReader (read_exact n h) end
|}.
#[export] Instance boxed_write : AsyncWrite BoxedWriter := {|
  written b := match b with TlsWriter h => written h | QuicWriter h => written h end;
  write_all x b := match b with
    | TlsWriter h => h ← write_all x h; Ok (TlsWriter h) | QuicWriter h => h ← write_all x h; Ok (QuicWriter h) end
|}.
#[export] Instance boxed_write_laws : AsyncWriteLaws BoxedWriter.
Proof.
  assert (AsyncWriteLaws (WriteHalf Tls)) as H1 by by apply write_via_laws; [apply duplex_write_laws|].
  assert (AsyncWriteLaws (QuicWriteHalf Send QConn Udp)) as H2 by by apply write_via_laws.
  split. intros x [h|h] w'.
  - change (write_all x (TlsWriter h)) with (h ← write_all x h; Ok (TlsWriter h)).
    destruct (write_all x h) as [h'|] eqn:E; [|done]. intros [= <-]. exact (write_all_ok x h h' E).
  - change (write_all x (QuicWriter h)) with (h ← write_all x h; Ok (QuicWriter h)).
    destruct (write_all x h) as [h'|] eqn:E; [|done]. intros [= <-]. exact (write_all_ok x h h' E).
Qed.

Notation Opened := (NativeSession (Tls := Tls) (Udp := Udp) (QConn := QConn) (QBi := QuicBiStream Send Recv)).

(** [Session::split] of both transports. *)
Definition direct_tls_split (stream : Tls) : BoxedReader * BoxedWriter :=
  (TlsReader {| rh_inner := stream |}, TlsWriter {| wh_inner := stream |}).
Definition noise_quic_split (endpoint : Udp) (connection : QConn) (stream : QuicBiStream Send Recv)
    : BoxedReader * BoxedWriter :=
  let keepalive_r := (connection, endpoint) in
  let keepalive_w := (connection, endpoint) in
  (QuicReader {| qr_recv := qb_recv stream; qr_keepalive := keepalive_r |},
   QuicWriter {| qw_send := qb_send stream; qw_keepalive := keepalive_w |}).
Definition native_split (s : Opened) : BoxedReader * BoxedWriter :=
  match s with
  | DirectTlsSession stream => direct_tls_split stream
  | NoiseQuicSession endpoint connection stream => noise_quic_split endpoint connection stream
  end.

(** What an open session has delivered and carried so far. *)
Definition session_remaining (s : Opened) : bytes :=
  match s with DirectTlsSession t => remaining t | NoiseQuicSession _ _ b => remaining b end.
Definition session_written (s : Opened) : bytes :=
  match s with DirectTlsSession t => written t | NoiseQuicSession _ _ b => written b end.
(** Splitting neither loses nor adds a byte on either side. *)
Lemma native_split_streams s r w :
  native_split s = (r, w) -> remaining r = session_remaining s /\ written w = session_written s.
Proof. by destruct s; intros [= <- <-]. Qed.
(** Each half of a QUIC session holds the connection by itself: one of them can
    be dropped without closing it under the other. *)
Lemma quic_halves_keep endpoint connection stream r w :
  noise_quic_split endpoint connection stream = (QuicReader r, QuicWriter w) ->
  qr_keepalive r = (connection, endpoint) /\ qw_keepalive w = (connection, endpoint).
Proof. by intros [= <- <-]. Qed.
End Streams.
