(* ===== verification/Socks.v ===== *)
(** * apps/client-daemon: the SOCKS5 front end

    Models apps/client-daemon/src/socks.rs: the greeting, the CONNECT request in
    its three address types, the replies, and the destination header that opens
    the tunnel.  The client socket and the tunnel are streams of the interfaces
    of [Io]; [pump] stands for the two [tokio::io::copy] futures that carry the
    payload.  [Ipv4Addr] and [Ipv6Addr] print as the standard library prints
    them. *)

From stdpp Require Import pretty.
From S2P Require Import Prelude Bytes Io Common Failure Engine.
Import Framing.

(** ** Address text ([impl Display for Ipv4Addr] and [Ipv6Addr]) *)
Definition dec (b : byte) : string := pretty (byte_val b).

Definition ipv4_display (a b c d : byte) : string :=
  dec a +:+ "." +:+ dec b +:+ "." +:+ dec c +:+ "." +:+ dec d.

Definition hex_digits : string := "0123456789abcdef".
Definition hex_nibble (n : Z) : string := String.substring (Z.to_nat (n mod 16)) 1 hex_digits.
(** [{:x}] of a [u16]: no leading zeros. *)
Definition hex_u16 (z : Z) : string :=
  (if z <? 4096 then EmptyString else hex_nibble (z / 4096)) +:+
  (if z <? 256 then EmptyString else hex_nibble (z / 256)) +:+
  (if z <? 16 then EmptyString else hex_nibble (z / 16)) +:+ hex_nibble z.

Fixpoint segments (l : bytes) : list Z :=
  match l with a :: b :: l => from_be_bytes [a; b] :: segments l | _ => [] end.

(** The first longest run of zero segments, as its start and length. *)
Fixpoint longest_zeroes (i : nat) (current longest : nat * nat) (l : list Z) : nat * nat :=
  match l with
  | [] => longest
  | s :: l =>
    if s =? 0 then
      let current := (if (current.2 =? 0)%nat then i else current.1, S current.2) in
      longest_zeroes (S i) current (if (longest.2 <? current.2)%nat then current else longest) l
    else longest_zeroes (S i) (0%nat, 0%nat) longest l
  end.

Fixpoint fmt_subslice (l : list Z) : string :=
  match l with
  | [] => EmptyString
  | [s] => hex_u16 s
  | s :: l => hex_u16 s +:+ ":" +:+ fmt_subslice l
  end.

Definition ipv6_display (buf : bytes) : string :=
  let segs := segments buf in
  match segs with
  | [0; 0; 0; 0; 0; 65535; _; _] =>
    match drop 12 buf with
    | [a; b; c; d] => "::ffff:" +:+ ipv4_display a b c d
    | _ => EmptyString
    end
  | _ =>
    let '(start, len) := longest_zeroes 0 (0%nat, 0%nat) (0%nat, 0%nat) segs in
    if (1 <? len)%nat
    then fmt_subslice (take start segs) +:+ "::" +:+ fmt_subslice (drop (start + len) segs)
    else fmt_subslice segs
  end.

Example ipv6_display_cases :
  ipv6_display (repeat Byte.x00 15 ++ [Byte.x01]) = "::1" /\
  ipv6_display (repeat Byte.x00 16) = "::" /\
  ipv6_display ([Byte.x20; Byte.x01; Byte.x0d; Byte.xb8] ++ repeat Byte.x00 4 ++ [Byte.x00; Byte.x01] ++
    repeat Byte.x00 4 ++ [Byte.x00; Byte.x2a]) = "2001:db8::1:0:0:2a" /\
  ipv6_display (repeat Byte.x00 10 ++ [Byte.xff; Byte.xff; Byte.xc0; Byte.x00; Byte.x02; Byte.x01]) =
    "::ffff:192.0.2.1".
Proof. repeat split; vm_compute; reflexivity. Qed.

(** How a session ends early: [bail!], an I/O error, or the engine's verdict. *)
Inductive SocksError :=
  | UnsupportedSocksVersion (ver : Z)
  | OnlyConnect (cmd : Z)
  | InvalidDomainName
  | UnsupportedAtyp (atyp : Z)
  | SocksIo (e : io_error)
  | EngineFailed (e : EngineError)
  | TaskPanicked.

(** [&[0x05, code, 0x00, 0x01, 0, 0, 0, 0, 0, 0]] *)
Definition reply (code : byte) : bytes := [Byte.x05; code; Byte.x00; Byte.x01] ++ repeat Byte.x00 6.

Section Socks.
Context {S TR TW Session Eng Net : Type}.
Context `{AsyncRead S, AsyncWrite S, AsyncRead TR, AsyncWrite TW}.

(** A session's steps: the socket it has, and an error that ends it. *)
Definition SM (A : Type) : Type := S -> result SocksError A * S.
Definition sm_bind {A B : Type} (m : SM A) (k : A -> SM B) : SM B := fun s =>
  match m s with (Ok a, s') => k a s' | (Err e, s') => (Err e, s') end.
Definition sm_ret {A : Type} (a : A) : SM A := fun s => (Ok a, s).
Definition sm_fail {A : Type} (e : SocksError) : SM A := fun s => (Err e, s).
Definition recv {A : Type} (f : S -> result io_error (A * S)) : SM A := fun s =>
  match f s with Ok (a, s') => (Ok a, s') | Err e => (Err (SocksIo e), s) end.
Definition send (b : bytes) : SM unit := fun s =>
  match write_all b s with Ok s' => (Ok tt, s') | Err e => (Err (SocksIo e), s) end.
Notation "'let*' x := m 'in' k" := (sm_bind m (fun x => k))
  (at level 200, x name, m at level 100, k at level 200).

(** The address part of the request. *)
Definition read_host (atyp : byte) : SM string :=
  if byte_val atyp =? 1 then
    let* buf := recv (read_exact 4) in
    match buf with
    | [a; b; c; d] => sm_ret (ipv4_display a b c d)
    | _ => sm_fail TaskPanicked
    end
  else if byte_val atyp =? 3 then
    let* len := recv read_u8 in
    let* buf := recv (read_exact (Z.to_nat (byte_val len))) in
    match from_utf8 buf with Some host => sm_ret host | None => sm_fail InvalidDomainName end
  else if byte_val atyp =? 4 then
    let* buf := recv (read_exact 16) in
    sm_ret (ipv6_display buf)
  else
    let* _ := send (reply Byte.x08) in
    sm_fail (UnsupportedAtyp (byte_val atyp)).

(** [handle_client] up to the engine: greeting and request. *)
Definition read_request : SM (string * Z) :=
  let* ver := recv read_u8 in
  if negb (byte_val ver =? 5) then sm_fail (UnsupportedSocksVersion (byte_val ver)) else
  let* nmethods := recv read_u8 in
  let* methods := recv (read_exact (Z.to_nat (byte_val nmethods))) in
  let* _ := send [Byte.x05; Byte.x00] in
  let* ver := recv read_u8 in
  let* cmd := recv read_u8 in
  let* rsv := recv read_u8 in
  let* atyp := recv read_u8 in
  if negb (byte_val ver =? 5) || negb (byte_val cmd =? 1) then
    let* _ := send (reply Byte.x07) in
    sm_fail (OnlyConnect (byte_val cmd))
  else
  let* host := read_host atyp in
  let* port := recv read_u16 in
  sm_ret (host, port).

(** The engine, the split of its sessions, and the payload copies. *)
Context (engine_connect : string -> Z -> Eng -> Net ->
  outcome (result EngineError (TransportId * Session)) * Eng * Net).
Context (split_session : Session -> TR * TW).
Context (pump : S -> TR -> TW -> S * TR * TW).

(** What a session leaves: its socket, the tunnel if one was opened, the engine. *)
Record ClientRun := {
  cr_result : result SocksError unit;
  cr_socket : S;
  cr_tunnel : option (TransportId * TR * TW);
  cr_engine : Eng;
  cr_net : Net
}.

Definition handle_client (socket : S) (eng : Eng) (net : Net) : ClientRun :=
  match read_request socket with
  | (Err e, socket) => Build_ClientRun (Err e) socket None eng net
  | (Ok (host, port), socket) =>
    match engine_connect host port eng net with
    | (Panicked, eng, net) => Build_ClientRun (Err TaskPanicked) socket None eng net
    | (Returned (Err e), eng, net) =>
      match send (reply Byte.x01) socket with
      | (Err x, socket) => Build_ClientRun (Err x) socket None eng net
      | (Ok _, socket) => Build_ClientRun (Err (EngineFailed e)) socket None eng net
      end
    | (Returned (Ok (transport_id, session)), eng, net) =>
      match send (reply Byte.x00) socket with
      | (Err x, socket) => Build_ClientRun (Err x) socket None eng net
      | (Ok _, socket) =>
        let '(tunnel_reader, tunnel_writer) := split_session session in
        match write_destination tunnel_writer host port with
        | Err x => Build_ClientRun (Err (SocksIo x)) socket (Some (transport_id, tunnel_reader, tunnel_writer)) eng net
        | Ok tunnel_writer =>
          let '(socket, tunnel_reader, tunnel_writer) := pump socket tunnel_reader tunnel_writer in
          Build_ClientRun (Ok tt) socket (Some (transport_id, tunnel_reader, tunnel_writer)) eng net
        end
      end
    end
  end.

(** [run]: one task per accepted socket, each over the shared engine; an error
    of [bind] or of any [accept] ends the daemon. *)
Definition socks_run (bind : result io_error unit) (accepts : list (result io_error S))
    : list (Eng -> Net -> ClientRun) * option io_error :=
  match bind with
  | Err e => ([], Some e)
  | Ok _ => let '(spawned, stop) := accept_loop accepts in (handle_client <$> spawned, stop)
  end.
End Socks.

(** ** The messages of RFC 1928 that the front end understands *)
Inductive SocksAddr :=
  | AddrV4 (a b c d : byte)
  | AddrDomain (name : string)
  | AddrV6 (l : bytes).

Definition addr_host (x : SocksAddr) : string :=
  match x with
  | AddrV4 a b c d => ipv4_display a b c d
  | AddrDomain name => name
  | AddrV6 l => ipv6_display l
  end.
Definition addr_wire (x : SocksAddr) : bytes :=
  match x with
  | AddrV4 a b c d => [Byte.x01; a; b; c; d]
  | AddrDomain name => Byte.x03 :: byte_of (str_len name) :: as_bytes name
  | AddrV6 l => Byte.x04 :: l
  end.
Definition valid_addr (x : SocksAddr) : Prop :=
  match x with
  | AddrV4 _ _ _ _ => True
  | AddrDomain name => is_str name /\ str_len name <= 255
  | AddrV6 l => length l = 16%nat
  end.

(** A greeting offering [methods], then CONNECT to [x]:[port]. *)
Definition greeting (methods : bytes) : bytes := [Byte.x05; byte_of (Z.of_nat (length methods))] ++ methods.
Definition connect_message (methods : bytes) (rsv : byte) (x : SocksAddr) (port : Z) : bytes :=
  greeting methods ++ [Byte.x05; Byte.x01; rsv] ++ addr_wire x ++ to_be_bytes 2 port.

(** The mistakes, as the bytes that make them. *)
Definition wrong_version (l : bytes) (v : Z) : Prop :=
  exists ver rest, l = ver :: rest /\ byte_val ver = v /\ v <> 5.
Definition not_connect (l : bytes) (c : Z) : Prop :=
  exists methods ver cmd rsv atyp rest, (length methods <= 255)%nat /\
    l = greeting methods ++ [ver; cmd; rsv; atyp] ++ rest /\ byte_val cmd = c /\ (byte_val ver <> 5 \/ c <> 1).
Definition wrong_atyp (l : bytes) (a : Z) : Prop :=
  exists methods rsv atyp rest, (length methods <= 255)%nat /\
    l = greeting methods ++ [Byte.x05; Byte.x01; rsv; atyp] ++ rest /\ byte_val atyp = a /\ a ∉ [1; 3; 4].
Definition wrong_name (l : bytes) : Prop :=
  exists methods rsv len name rest, (length methods <= 255)%nat /\
    l = greeting methods ++ [Byte.x05; Byte.x01; rsv; Byte.x03; len] ++ name ++ rest /\
    Z.of_nat (length name) = byte_val len /\ from_utf8 name = None.

Definition valid_request (methods : bytes) (x : SocksAddr) (port : Z) : Prop :=
  (length methods <= 255)%nat /\ valid_addr x /\ 0 <= port <= u16_max.

(** *** Every accepted request can be framed *)
Definition short_graphic (n : nat) (s : string) : Prop :=
  Forall graphic (as_bytes s) /\ (String.length s <= n)%nat.

Lemma short_graphic_app n m s t : short_graphic n s -> short_graphic m t -> short_graphic (n + m) (s +:+ t).
Proof.
  intros [Hs Ls] [Ht Lt]. split.
  - rewrite as_bytes_app. by apply Forall_app.
  - rewrite str_length_app. lia.
Qed.
Lemma short_graphic_mono n m s : (n <= m)%nat -> short_graphic n s -> short_graphic m s.
Proof. intros ? [? ?]. split; [done|lia]. Qed.

Definition short_graphicb (n : nat) (s : string) : bool :=
  forallb (fun b => (33 <=? byte_val b) && (byte_val b <=? 126)) (as_bytes s) && (String.length s <=? n)%nat.
Lemma short_graphicb_ok n s : short_graphicb n s = true -> short_graphic n s.
Proof.
  unfold short_graphicb. intros [Hf Hl]%andb_true_iff. split; [|by apply Nat.leb_le].
  rewrite forallb_forall in Hf. apply Forall_forall. intros b Hb%list_elem_of_In. specialize (Hf b Hb).
  unfold graphic. lia.
Qed.

Lemma short_dec b : short_graphic 3 (dec b).
Proof. apply short_graphicb_ok. destruct b; vm_compute; reflexivity. Qed.

Lemma short_ipv4 a b c d : short_graphic 15 (ipv4_display a b c d).
Proof.
  apply (short_graphic_app 3 12); [apply short_dec|]. apply (short_graphic_app 1 11); [by apply short_graphicb_ok|].
  apply (short_graphic_app 3 8); [apply short_dec|]. apply (short_graphic_app 1 7); [by apply short_graphicb_ok|].
  apply (short_graphic_app 3 4); [apply short_dec|]. apply (short_graphic_app 1 3); [by apply short_graphicb_ok|].
  apply short_dec.
Qed.

Lemma short_hex_nibble z : short_graphic 1 (hex_nibble z).
Proof.
  apply short_graphicb_ok. unfold hex_nibble. pose proof (Z.mod_pos_bound z 16 ltac:(lia)) as Hz.
  assert (Z.to_nat (z mod 16) < 16)%nat as Hn by lia. revert Hn. generalize (Z.to_nat (z mod 16)). intros n Hn.
  do 16 (destruct n as [|n]; [reflexivity|]). lia.
Qed.
Lemma short_hex_nibble_if (b : bool) z : short_graphic 1 (if b then EmptyString else hex_nibble z).
Proof. destruct b; [by apply short_graphicb_ok|apply short_hex_nibble]. Qed.
Lemma short_hex_u16 z : short_graphic 4 (hex_u16 z).
Proof.
  apply (short_graphic_app 1 3); [apply short_hex_nibble_if|].
  apply (short_graphic_app 1 2); [apply short_hex_nibble_if|].
  apply (short_graphic_app 1 1); [apply short_hex_nibble_if|apply short_hex_nibble].
Qed.

Lemma short_fmt_subslice l : short_graphic (5 * length l) (fmt_subslice l).
Proof.
  induction l as [|s l IH]; [by apply short_graphicb_ok|]. destruct l as [|s' l].
  { eapply short_graphic_mono; [|apply short_hex_u16]. cbn. lia. }
  change (short_graphic (5 * length (s :: s' :: l)) (hex_u16 s +:+ ":" +:+ fmt_subslice (s' :: l))).
  replace (5 * length (s :: s' :: l))%nat with (4 + (1 + 5 * length (s' :: l)))%nat by (cbn; lia).
  apply short_graphic_app; [apply short_hex_u16|]. apply short_graphic_app; [by apply short_graphicb_ok|done].
Qed.

Lemma length_segments_le n l : (length l <= 2 * n + 1)%nat -> (length (segments l) <= n)%nat.
Proof.
  revert l. induction n as [|n IH]; intros [|a [|b l]] Hl; cbn [segments length] in *; try lia.
  apply le_n_S, IH. lia.
Qed.

Lemma short_ipv6 l : length l = 16%nat -> short_graphic 82 (ipv6_display l).
Proof.
  intros Hl. pose proof (length_segments_le 8 l ltac:(lia)) as Hs. unfold ipv6_display.
  assert (short_graphic 82 (let '(start, len) := longest_zeroes 0 (0%nat, 0%nat) (0%nat, 0%nat) (segments l) in
    if (1 <? len)%nat then fmt_subslice (take start (segments l)) +:+ "::" +:+ fmt_subslice (drop (start + len) (segments l))
    else fmt_subslice (segments l))) as Hgen.
  { destruct (longest_zeroes _ _ _ _) as [start len]. destruct (_ <? _)%nat.
    - apply (short_graphic_app 40 42).
      + eapply short_graphic_mono; [|apply short_fmt_subslice]. rewrite length_take. lia.
      + apply (short_graphic_app 2 40); [by apply short_graphicb_ok|].
        eapply short_graphic_mono; [|apply short_fmt_subslice]. rewrite length_drop. lia.
    - eapply short_graphic_mono; [|apply short_fmt_subslice]. lia. }
  assert (short_graphic 82 match drop 12 l with
    | [a; b; c; d] => "::ffff:" +:+ ipv4_display a b c d | _ => EmptyString end) as H4.
  { destruct (drop 12 l) as [|a [|b [|c [|d [|? ?]]]]]; try by apply short_graphicb_ok.
    eapply short_graphic_mono; [|apply (short_graphic_app 7 15); [by apply short_graphicb_ok|apply short_ipv4]]. lia. }
  repeat case_match; done.
Qed.

Lemma addr_host_valid x port :
  valid_addr x -> 0 <= port <= u16_max -> valid_destination (addr_host x) port.
Proof.
  intros Hx Hp.
  assert (forall n s, (n <= 255)%nat -> short_graphic n s -> is_str s /\ str_len s <= MAX_HOST_LEN) as Hs.
  { intros n s Hn [Hg Hl]. split; [by apply graphic_utf8|]. unfold str_len, MAX_HOST_LEN. lia. }
  assert (is_str (addr_host x) /\ str_len (addr_host x) <= MAX_HOST_LEN) as [? ?]; [|done].
  destruct x as [a b c d|name|l]; cbn in Hx |- *.
  - apply (Hs 15%nat); [lia|apply short_ipv4].
  - done.
  - apply (Hs 82%nat); [lia|by apply short_ipv6].
Qed.

(** ** The front end implements the protocol *)
Section SocksFacts.
Context {S : Type} `{HR : AsyncRead S, HW : AsyncWrite S} {D : @Duplex S HR HW}.

(** Reading what is there. *)
Lemma recv_exact_app n (s : S) a t :
  remaining s = a ++ t -> length a = n ->
  exists s', recv (read_exact n) s = (Ok a, s') /\ remaining s' = t /\ written s' = written s.
Proof.
  intros E Hn. destruct (read_exact_ok n s) as (s' & Hr & Hrem).
  { rewrite E, length_app. lia. }
  exists s'. unfold recv. rewrite Hr. apply read_keeps_written in Hr as Hw.
  rewrite Hrem, E, <-Hn, take_app_length, drop_app_length. done.
Qed.
Lemma recv_u8_cons (s : S) b t :
  remaining s = b :: t ->
  exists s', recv read_u8 s = (Ok b, s') /\ remaining s' = t /\ written s' = written s.
Proof.
  intros E. destruct (recv_exact_app 1 s [b] t E eq_refl) as (s' & Hr & ?). exists s'. split; [|done].
  unfold recv in *. rewrite read_u8_exact. by destruct (read_exact 1 s) as [[x y]|]; simplify_eq/=.
Qed.
Lemma recv_u16_app (s : S) z t :
  0 <= z <= u16_max -> remaining s = to_be_bytes 2 z ++ t ->
  exists s', recv read_u16 s = (Ok z, s') /\ remaining s' = t /\ written s' = written s.
Proof.
  intros Hz E. destruct (recv_exact_app 2 s _ t E (length_to_be_bytes 2 z)) as (s' & Hr & ?).
  exists s'. split; [|done]. unfold recv in *. rewrite read_u16_exact.
  destruct (read_exact 2 s) as [[x y]|]; [|done].
  assert (x = to_be_bytes 2 z /\ y = s') as [-> ->] by (split; congruence). cbn [mbind result_bind fst snd].
  by rewrite from_to_be_bytes by (unfold u16_max in Hz; cbn; lia).
Qed.

(** A call of the socket failed: a write, or a read of more than was to come. *)
Definition trouble (s : S) (e : io_error) : Prop :=
  (exists b s0, write_all b s0 = Err e) \/
  (exists n s0, remaining s0 `suffix_of` remaining s /\ (length (remaining s0) < n)%nat /\ read_exact n s0 = Err e).
Lemma trouble_later (s s1 : S) e : remaining s1 `suffix_of` remaining s -> trouble s1 e -> trouble s e.
Proof. intros Hs [?|(n & s0 & H1 & H2)]; [by left|right]. exists n, s0. split; [by etrans|done]. Qed.
Lemma read_trouble n (s : S) e : read_exact n s = Err e -> trouble s e.
Proof.
  intros Hr. right. exists n, s. split; [done|]. split; [|done].
  destruct (decide (n <= length (remaining s))%nat) as [Hl|Hl]; [|lia].
  destruct (read_exact_ok n s Hl) as (s' & Hr' & _). by rewrite Hr in Hr'.
Qed.

(** What a read that succeeded took. *)
Lemma read_exact_inv n (s : S) a s' :
  read_exact n s = Ok (a, s') ->
  length a = n /\ remaining s = a ++ remaining s' /\ written s' = written s.
Proof.
  intros Hr. apply read_keeps_written in Hr as Hw.
  destruct (decide (n <= length (remaining s))%nat) as [Hl|Hl].
  - destruct (read_exact_ok n s Hl) as (s1 & Hr1 & E1). rewrite Hr in Hr1. injection Hr1 as -> <-.
    rewrite E1, take_drop, length_take. split_and!; [lia|done..].
  - destruct (read_exact_short n s) as [e He]; [lia|]. by rewrite He in Hr.
Qed.
Lemma recv_exact_inv n (s : S) r s' :
  recv (read_exact n) s = (r, s') ->
  match r with
  | Ok a => length a = n /\ remaining s = a ++ remaining s' /\ written s' = written s
  | Err e => exists x, e = SocksIo x /\ trouble s x
  end.
Proof.
  unfold recv. destruct (read_exact n s) as [[x y]|] eqn:E; intros [= <- <-]; [|eauto using read_trouble].
  by apply read_exact_inv.
Qed.
Lemma recv_u8_inv (s : S) r s' :
  recv read_u8 s = (r, s') ->
  match r with
  | Ok b => remaining s = b :: remaining s' /\ written s' = written s
  | Err e => exists x, e = SocksIo x /\ trouble s x
  end.
Proof.
  unfold recv. rewrite read_u8_exact. destruct (read_exact 1 s) as [[x y]|] eqn:E; cbn; intros [= <- <-]; [|eauto using read_trouble].
  apply read_exact_inv in E as (Hl & -> & ->). by destruct x as [|b [|? ?]].
Qed.
Lemma recv_u16_inv (s : S) r s' :
  recv read_u16 s = (r, s') ->
  match r with
  | Ok z => 0 <= z <= u16_max /\ remaining s = to_be_bytes 2 z ++ remaining s' /\ written s' = written s
  | Err e => exists x, e = SocksIo x /\ trouble s x
  end.
Proof.
  unfold recv. rewrite read_u16_exact. destruct (read_exact 2 s) as [[x y]|] eqn:E; cbn [mbind result_bind fst snd]; intros H; [|injection H as <- <-; eauto using read_trouble].
  assert (r = Ok (from_be_bytes x) /\ s' = y) as [-> ->] by (split; congruence). clear H.
  apply read_exact_inv in E as (Hl & -> & ->). destruct x as [|a [|b [|? ?]]]; try done.
  split; [apply from_be_bytes_2_range|]. split; [|done].
  change 2%nat with (length [a; b]). by rewrite to_from_be_bytes.
Qed.
Lemma send_inv b (s : S) r s' :
  send b s = (r, s') ->
  match r with
  | Ok _ => remaining s' = remaining s /\ written s' = written s ++ b
  | Err e => exists x, e = SocksIo x /\ trouble s x
  end.
Proof.
  unfold send. destruct (write_all b s) as [s1|] eqn:E; intros [= <- <-]; [|eexists; split; [done|left; eauto]].
  split; [by eapply write_keeps_remaining|by eapply write_all_ok].
Qed.

Lemma sm_bind_inv {A B : Type} (m : SM A) (k : A -> SM B) (s : S) r s' :
  sm_bind m k s = (r, s') ->
  (exists a s1, m s = (Ok a, s1) /\ k a s1 = (r, s')) \/ (exists e, m s = (Err e, s') /\ r = Err e).
Proof.
  unfold sm_bind. destruct (m s) as [[a|e] s1]; intros E; [left; eauto|right].
  injection E as <- <-. eauto.
Qed.

(** How reading a request ends, in terms of the bytes that came in and the bytes
    that went out. *)
Definition request_ends (s : S) (r : result SocksError (string * Z)) (s' : S) : Prop :=
  match r with
  | Ok (host, port) => exists methods rsv x, valid_request methods x port /\ host = addr_host x /\
      remaining s = connect_message methods rsv x port ++ remaining s' /\
      written s' = written s ++ [Byte.x05; Byte.x00]
  | Err (UnsupportedSocksVersion v) => wrong_version (remaining s) v /\ written s' = written s
  | Err (OnlyConnect cmd) => not_connect (remaining s) cmd /\ written s' = written s ++ [Byte.x05; Byte.x00] ++ reply Byte.x07
  | Err (UnsupportedAtyp a) => wrong_atyp (remaining s) a /\ written s' = written s ++ [Byte.x05; Byte.x00] ++ reply Byte.x08
  | Err InvalidDomainName => wrong_name (remaining s) /\ written s' = written s ++ [Byte.x05; Byte.x00]
  | Err (SocksIo e) => trouble s e
  | Err _ => False
  end.

Definition host_ends (s : S) (atyp : byte) (r : result SocksError string) (s' : S) : Prop :=
  match r with
  | Ok host => exists x, valid_addr x /\ host = addr_host x /\
      atyp :: remaining s = addr_wire x ++ remaining s' /\ written s' = written s
  | Err (UnsupportedAtyp a) => byte_val atyp = a /\ a ∉ [1; 3; 4] /\ written s' = written s ++ reply Byte.x08
  | Err InvalidDomainName => atyp = Byte.x03 /\ written s' = written s /\
      exists len name rest, remaining s = len :: name ++ rest /\ Z.of_nat (length name) = byte_val len /\ from_utf8 name = None
  | Err (SocksIo e) => trouble s e
  | Err _ => False
  end.

Lemma byte_is (b c : byte) : byte_val b = byte_val c -> b = c.
Proof. apply byte_val_inj. Qed.

Lemma read_host_ends (s : S) atyp r s' : read_host atyp s = (r, s') -> host_ends s atyp r s'.
Proof.
  unfold read_host. destruct (Z.eqb_spec (byte_val atyp) 1) as [E1|E1].
  { apply (byte_is _ Byte.x01) in E1 as ->.
    intros [(buf & s1 & H1%recv_exact_inv & H)|(e & (x & -> & Hx)%recv_exact_inv & ->)]%sm_bind_inv; [|done].
    destruct H1 as (Hl & Er & Ew). destruct buf as [|a [|b [|c [|d [|? ?]]]]]; try done.
    injection H as <- <-. exists (AddrV4 a b c d). by rewrite Er. }
  destruct (Z.eqb_spec (byte_val atyp) 3) as [E3|E3].
  { apply (byte_is _ Byte.x03) in E3 as ->.
    intros [(len & s1 & [Er Ew]%recv_u8_inv & H)|(e & (x & -> & Hx)%recv_u8_inv & ->)]%sm_bind_inv; [|done].
    apply sm_bind_inv in H as [(buf & s2 & H1%recv_exact_inv & H)|(e & (x & -> & Hx)%recv_exact_inv & ->)].
    2:{ eapply trouble_later; [|exact Hx]. rewrite Er. by apply suffix_cons_r. }
    destruct H1 as (Hl & Er1 & Ew1). destruct (from_utf8 buf) as [host|] eqn:Eu; injection H as <- <-; cbn.
    2:{ split; [done|]. split; [by rewrite Ew1|]. exists len, buf, (remaining s2). rewrite Er, Er1, Hl.
        pose proof (byte_val_range len). split; [done|]. split; [lia|done]. }
    apply from_utf8_Some in Eu as [Hu Eb]. pose proof (byte_val_range len) as Hr.
    assert (str_len host = byte_val len) as Hlen.
    { unfold str_len. rewrite <-length_as_bytes, Eb, Hl. lia. }
    exists (AddrDomain host). cbn. unfold is_str. rewrite Hlen, byte_of_val, Er, Er1, Ew1, Eb.
    split_and!; [done|lia|done..]. }
  destruct (Z.eqb_spec (byte_val atyp) 4) as [E4|E4].
  { apply (byte_is _ Byte.x04) in E4 as ->.
    intros [(buf & s1 & H1%recv_exact_inv & H)|(e & (x & -> & Hx)%recv_exact_inv & ->)]%sm_bind_inv; [|done].
    destruct H1 as (Hl & Er & Ew). injection H as <- <-. exists (AddrV6 buf). by rewrite Er. }
  intros [([] & s1 & [Er Ew]%send_inv & H)|(e & (x & -> & Hx)%send_inv & ->)]%sm_bind_inv; [|done].
  injection H as <- <-. split; [done|]. split; [|done]. rewrite !elem_of_cons. intros [?|[?|[?|[]%elem_of_nil]]]; done.
Qed.

Lemma read_request_ends (s : S) r s' : read_request s = (r, s') -> request_ends s r s'.
Proof.
  unfold read_request.
  intros [(ver & s1 & [Er1 Ew1]%recv_u8_inv & H)|(e & (x & -> & Hx)%recv_u8_inv & ->)]%sm_bind_inv; [|done].
  destruct (Z.eqb_spec (byte_val ver) 5) as [E5|E5]; cbn [negb] in H.
  2:{ injection H as <- <-. split; [|done]. by exists ver, (remaining s1). }
  apply (byte_is _ Byte.x05) in E5 as ->.
  assert (remaining s1 `suffix_of` remaining s) as S1 by (rewrite Er1; by apply suffix_cons_r).
  apply sm_bind_inv in H as [(nm & s2 & [Er2 Ew2]%recv_u8_inv & H)|(e & (x & -> & Hx)%recv_u8_inv & ->)];
    [|by eapply trouble_later].
  assert (remaining s2 `suffix_of` remaining s) as S2 by (etrans; [|exact S1]; rewrite Er2; by apply suffix_cons_r).
  apply sm_bind_inv in H as [(methods & s3 & H3%recv_exact_inv & H)|(e & (x & -> & Hx)%recv_exact_inv & ->)];
    [|by eapply trouble_later].
  destruct H3 as (Hm & Er3 & Ew3). pose proof (byte_val_range nm) as Hnm.
  assert (remaining s = greeting methods ++ remaining s3 /\ (length methods <= 255)%nat) as [Eg Hml].
  { unfold greeting. rewrite Hm, Z2Nat.id, byte_of_val by lia. rewrite Er1, Er2, Er3. split; [done|lia]. }
  assert (remaining s3 `suffix_of` remaining s) as S3 by (rewrite Eg; by eexists).
  apply sm_bind_inv in H as [([] & s4 & [Er4 Ew4]%send_inv & H)|(e & (x & -> & Hx)%send_inv & ->)]; [|by eapply trouble_later].
  rewrite <-Er4 in Eg, S3. clear Er1 Er2 Er3 S1 S2.
  apply sm_bind_inv in H as [(ver & s5 & [Er5 Ew5]%recv_u8_inv & H)|(e & (x & -> & Hx)%recv_u8_inv & ->)];
    [|by eapply trouble_later].
  assert (remaining s5 `suffix_of` remaining s) as S5 by (etrans; [|exact S3]; rewrite Er5; by apply suffix_cons_r).
  apply sm_bind_inv in H as [(cmd & s6 & [Er6 Ew6]%recv_u8_inv & H)|(e & (x & -> & Hx)%recv_u8_inv & ->)];
    [|by eapply trouble_later].
  assert (remaining s6 `suffix_of` remaining s) as S6 by (etrans; [|exact S5]; rewrite Er6; by apply suffix_cons_r).
  apply sm_bind_inv in H as [(rsv & s7 & [Er7 Ew7]%recv_u8_inv & H)|(e & (x & -> & Hx)%recv_u8_inv & ->)];
    [|by eapply trouble_later].
  assert (remaining s7 `suffix_of` remaining s) as S7 by (etrans; [|exact S6]; rewrite Er7; by apply suffix_cons_r).
  apply sm_bind_inv in H as [(atyp & s8 & [Er8 Ew8]%recv_u8_inv & H)|(e & (x & -> & Hx)%recv_u8_inv & ->)];
    [|by eapply trouble_later].
  assert (remaining s8 `suffix_of` remaining s) as S8 by (etrans; [|exact S7]; rewrite Er8; by apply suffix_cons_r).
  assert (written s8 = written s ++ [Byte.x05; Byte.x00]) as Ew by congruence.
  assert (remaining s = greeting methods ++ [ver; cmd; rsv; atyp] ++ remaining s8) as Eq
    by (rewrite Eg, Er5, Er6, Er7, Er8; done).
  assert (byte_val ver <> 5 \/ byte_val cmd <> 1 -> not_connect (remaining s) (byte_val cmd)) as Hnc.
  { intros Hor. exists methods, ver, cmd, rsv, atyp, (remaining s8). done. }
  destruct (Z.eqb_spec (byte_val ver) 5) as [Ev|Ev]; cbn [negb orb] in H.
  2:{ apply sm_bind_inv in H as [([] & s9 & [_ Ew9]%send_inv & H)|(e & (x & -> & Hx)%send_inv & ->)]; [|by eapply trouble_later].
      injection H as <- <-. split; [auto|]. by rewrite Ew9, Ew, <-app_assoc. }
  destruct (Z.eqb_spec (byte_val cmd) 1) as [Ec|Ec]; cbn [negb] in H.
  2:{ apply sm_bind_inv in H as [([] & s9 & [_ Ew9]%send_inv & H)|(e & (x & -> & Hx)%send_inv & ->)]; [|by eapply trouble_later].
      injection H as <- <-. split; [auto|]. by rewrite Ew9, Ew, <-app_assoc. }
  apply (byte_is _ Byte.x05) in Ev as ->. apply (byte_is _ Byte.x01) in Ec as ->.
  apply sm_bind_inv in H as [(host & s9 & H9%read_host_ends & H)|(e & H9%read_host_ends & ->)].
  2:{ destruct e as [v|c| |a|io|ee|]; cbn in H9 |- *; try done.
      - destruct H9 as (-> & Ew9 & len & name & rest & En & Hl & Hu). split; [|by rewrite Ew9].
        exists methods, rsv, len, name, rest. split; [done|]. split; [|done]. by rewrite Eq, En.
      - destruct H9 as (Ha & Hn & ->). split; [|by rewrite Ew, <-app_assoc]. by exists methods, rsv, atyp, (remaining s8).
      - by eapply trouble_later. }
  destruct H9 as (y & Hy & -> & Er9 & Ew9).
  apply sm_bind_inv in H as [(port & s10 & H10%recv_u16_inv & H)|(e & (x & -> & Hx)%recv_u16_inv & ->)].
  2:{ eapply trouble_later; [|exact Hx]. etrans; [|exact S7]. rewrite Er8, Er9. by eexists. }
  destruct H10 as (Hp & Er10 & Ew10). injection H as <- <-.
  exists methods, rsv, y. split; [done|]. split; [done|]. split; [|congruence].
  unfold connect_message. rewrite Eq. cbn [app]. rewrite Er9, Er10. rewrite <-!app_assoc. cbn [app]. by rewrite <-!app_assoc.
Qed.

Lemma sm_bind_step {A B : Type} (m : SM A) (k : A -> SM B) (s : S) a s1 :
  m s = (Ok a, s1) -> sm_bind m k s = k a s1.
Proof. unfold sm_bind. by intros ->. Qed.

Lemma read_host_complete (s : S) x atyp rest :
  valid_addr x -> atyp :: remaining s = addr_wire x ++ rest ->
  exists s', read_host atyp s = (Ok (addr_host x), s') /\ remaining s' = rest /\ written s' = written s.
Proof.
  intros Hx E. unfold read_host.
  destruct x as [a b c d|name|l]; cbn in Hx, E; injection E as -> E.
  - change (byte_val Byte.x01 =? 1) with true. cbv iota. destruct (recv_exact_app 4 s [a; b; c; d] rest E eq_refl) as (s1 & H1 & ?). exists s1.
    by rewrite (sm_bind_step _ _ _ _ _ H1).
  - change (byte_val Byte.x03 =? 1) with false. change (byte_val Byte.x03 =? 3) with true. cbv iota.
    destruct Hx as [Hu Hl]. destruct (recv_u8_cons s _ _ E) as (s1 & H1 & E1 & W1).
    destruct (recv_exact_app (length (as_bytes name)) s1 (as_bytes name) rest E1 eq_refl) as (s2 & H2 & E2 & W2).
    exists s2. rewrite (sm_bind_step _ _ _ _ _ H1).
    rewrite byte_val_of, Z.mod_small by (unfold str_len in *; lia).
    unfold str_len. rewrite Nat2Z.id, <-length_as_bytes, (sm_bind_step _ _ _ _ _ H2).
    rewrite (proj2 (from_utf8_Some (as_bytes name) name)) by done. by rewrite W2.
  - change (byte_val Byte.x04 =? 1) with false. change (byte_val Byte.x04 =? 3) with false.
    change (byte_val Byte.x04 =? 4) with true. cbv iota. destruct (recv_exact_app 16 s l rest E Hx) as (s1 & H1 & ?). exists s1.
    by rewrite (sm_bind_step _ _ _ _ _ H1).
Qed.

(** Every well-formed request is understood, on a socket that can be written. *)
Lemma read_request_complete (s : S) methods rsv x port rest :
  (forall b (s : S), exists s', write_all b s = Ok s') ->
  valid_request methods x port -> remaining s = connect_message methods rsv x port ++ rest ->
  exists s', read_request s = (Ok (addr_host x, port), s') /\ remaining s' = rest /\
    written s' = written s ++ [Byte.x05; Byte.x00].
Proof.
  intros Hw (Hm & Hx & Hp) E. unfold read_request.
  unfold connect_message in E. rewrite <-!app_assoc in E. cbn [app] in E.
  destruct (recv_u8_cons s _ _ E) as (s1 & H1 & E1 & W1). rewrite (sm_bind_step _ _ _ _ _ H1).
  change (byte_val Byte.x05 =? 5) with true. cbn [negb].
  destruct (recv_u8_cons s1 _ _ E1) as (s2 & H2 & E2 & W2). rewrite (sm_bind_step _ _ _ _ _ H2).
  destruct (recv_exact_app (length methods) s2 _ _ E2 eq_refl) as (s3 & H3 & E3 & W3).
  rewrite byte_val_of, Z.mod_small, Nat2Z.id by lia. rewrite (sm_bind_step _ _ _ _ _ H3).
  destruct (Hw [Byte.x05; Byte.x00] s3) as [s4 H4].
  apply write_keeps_remaining in H4 as E4. apply write_all_ok in H4 as W4. rewrite E3 in E4.
  rewrite (sm_bind_step _ _ s3 tt s4) by (unfold send; by rewrite H4).
  destruct (recv_u8_cons s4 _ _ E4) as (s5 & H5 & E5 & W5). rewrite (sm_bind_step _ _ _ _ _ H5).
  destruct (recv_u8_cons s5 _ _ E5) as (s6 & H6 & E6 & W6). rewrite (sm_bind_step _ _ _ _ _ H6).
  destruct (recv_u8_cons s6 _ _ E6) as (s7 & H7 & E7 & W7). rewrite (sm_bind_step _ _ _ _ _ H7).
  assert (exists atyp t, addr_wire x = atyp :: t) as (atyp & t & Ex) by (destruct x; eauto).
  rewrite Ex in E7. cbn [app] in E7.
  destruct (recv_u8_cons s7 _ _ E7) as (s8 & H8 & E8 & W8). rewrite (sm_bind_step _ _ _ _ _ H8).
  change (byte_val Byte.x05 =? 5) with true. change (byte_val Byte.x01 =? 1) with true. cbn [negb orb].
  destruct (read_host_complete s8 x atyp (to_be_bytes 2 port ++ rest)) as (s9 & H9 & E9 & W9); [done|by rewrite E8, Ex|].
  rewrite (sm_bind_step _ _ _ _ _ H9).
  destruct (recv_u16_app s9 port rest) as (s10 & H10 & E10 & W10); [done..|].
  rewrite (sm_bind_step _ _ _ _ _ H10). exists s10. split; [done|]. split; [done|]. congruence.
Qed.
End SocksFacts.

Section SocksSession.
Context {S TR TW Session Eng Net : Type}.
Context `{HR : AsyncRead S, HW : AsyncWrite S} {D : @Duplex S HR HW}.
Context `{AsyncRead TR} `{AsyncWriteLaws TW}.
Context (engine_connect : string -> Z -> Eng -> Net ->
  outcome (result EngineError (TransportId * Session)) * Eng * Net).
Context (split_session : Session -> TR * TW).
Context (pump : S -> TR -> TW -> S * TR * TW).

(** [tokio::io::copy] delivers bytes in order: what reached the other side is a
    prefix of what was there to read. *)
Definition pump_copies : Prop := forall s tr tw s' tr' tw', pump s tr tw = (s', tr', tw') ->
  (exists up, up `prefix_of` remaining s /\ written tw' = written tw ++ up) /\
  (exists down, down `prefix_of` remaining tr /\ written s' = written s ++ down).

Notation client := (handle_client engine_connect split_session pump).

(** What the engine was asked, and what it answered. *)
Definition engine_says (host : string) (port : Z) (eng : Eng) (net : Net)
    (ans : result EngineError (TransportId * Session)) (eng' : Eng) (net' : Net) : Prop :=
  engine_connect host port eng net = (Returned ans, eng', net').

(** How a session ends, in terms of the bytes of both sides. *)
Definition session_spec (s : S) (eng : Eng) (net : Net) (run : ClientRun (S := S) (TR := TR) (TW := TW)) : Prop :=
  let out := written (cr_socket run) in
  match cr_result run with
  | Ok _ => exists methods rsv x port rest t session tr tw up down,
      remaining s = connect_message methods rsv x port ++ rest /\ valid_request methods x port /\
      engine_says (addr_host x) port eng net (Ok (t, session)) (cr_engine run) (cr_net run) /\
      split_session session = (tr, tw) /\
      (exists tr' tw', cr_tunnel run = Some (t, tr', tw') /\
        written tw' = written tw ++ header (addr_host x) port ++ up) /\ up `prefix_of` rest /\
      out = written s ++ [Byte.x05; Byte.x00] ++ reply Byte.x00 ++ down /\ down `prefix_of` remaining tr
  | Err (EngineFailed e) => exists methods rsv x port rest,
      remaining s = connect_message methods rsv x port ++ rest /\ valid_request methods x port /\
      engine_says (addr_host x) port eng net (Err e) (cr_engine run) (cr_net run) /\
      cr_tunnel run = None /\ out = written s ++ [Byte.x05; Byte.x00] ++ reply Byte.x01
  | Err (SocksIo e) => trouble s e \/ exists tw host port, write_destination (W := TW) tw host port = Err e
  | Err e => cr_engine run = eng /\ cr_net run = net /\ cr_tunnel run = None /\
      match e with
      | UnsupportedSocksVersion v => wrong_version (remaining s) v /\ out = written s
      | OnlyConnect c => not_connect (remaining s) c /\ out = written s ++ [Byte.x05; Byte.x00] ++ reply Byte.x07
      | UnsupportedAtyp a => wrong_atyp (remaining s) a /\ out = written s ++ [Byte.x05; Byte.x00] ++ reply Byte.x08
      | InvalidDomainName => wrong_name (remaining s) /\ out = written s ++ [Byte.x05; Byte.x00]
      | _ => False
      end
  end.

Lemma socks_session_spec (s : S) eng net :
  pump_copies -> (forall h p e n, (engine_connect h p e n).1.1 <> Panicked) ->
  session_spec s eng net (client s eng net).
Proof.
  intros Hpump Hpanic. unfold session_spec, handle_client.
  destruct (read_request s) as [r s1] eqn:Er. apply read_request_ends in Er.
  destruct r as [[host port]|e]; [|destruct e; try done; by left].
  destruct Er as (methods & rsv & x & Hv & -> & Hrem & Hwr).
  pose proof (Hpanic (addr_host x) port eng net) as Hp.
  destruct (engine_connect (addr_host x) port eng net) as [[[[[t session]|e]|] eng'] net'] eqn:Ee; [| |done].
  - destruct (send (reply Byte.x00) s1) as [r s2] eqn:Es. apply send_inv in Es.
    assert (remaining s1 `suffix_of` remaining s) as Hsuf by (rewrite Hrem; by eexists).
    destruct r as [[]|e]; [|destruct Es as (y & -> & Hy); left; by eapply trouble_later]. destruct Es as [Er2 Ew2].
    destruct (split_session session) as [tr tw] eqn:Esp.
    destruct (write_destination tw (addr_host x) port) as [tw1|] eqn:Ew; [|right; by do 3 eexists].
    apply write_destination_written in Ew.
    destruct (pump s2 tr tw1) as [[s3 tr3] tw3] eqn:Ep. cbn.
    apply Hpump in Ep as [(up & Hup & Hupw) (down & Hdn & Hdnw)].
    exists methods, rsv, x, port, (remaining s1), t, session, tr, tw, up, down. split_and!; try done.
    + exists tr3, tw3. split; [done|]. by rewrite Hupw, Ew, <-app_assoc.
    + by rewrite <-Er2.
    + by rewrite Hdnw, Ew2, Hwr, <-!app_assoc.
  - destruct (send (reply Byte.x01) s1) as [r s2] eqn:Es. apply send_inv in Es.
    assert (remaining s1 `suffix_of` remaining s) as Hsuf by (rewrite Hrem; by eexists).
    destruct r as [[]|e']; [|destruct Es as (y & -> & Hy); left; by eapply trouble_later]. destruct Es as [Er2 Ew2]. cbn.
    exists methods, rsv, x, port, (remaining s1). split_and!; try done.
    by rewrite Ew2, Hwr, <-app_assoc.
Qed.

(** A well-formed request over streams that can be written is never refused. *)
Lemma connect_never_refused (s : S) methods rsv x port rest eng net :
  (forall b (s : S), exists s', write_all b s = Ok s') ->
  (forall b (w : TW), exists w', write_all b w = Ok w') ->
  valid_request methods x port -> remaining s = connect_message methods rsv x port ++ rest ->
  match (engine_connect (addr_host x) port eng net).1.1 with
  | Returned (Ok _) => cr_result (client s eng net) = Ok tt
  | Returned (Err e) => cr_result (client s eng net) = Err (EngineFailed e)
  | Panicked => cr_result (client s eng net) = Err TaskPanicked
  end.
Proof.
  intros HwS HwT Hv E. destruct (read_request_complete s methods rsv x port rest HwS Hv E) as (s1 & Hq & E1 & W1).
  unfold handle_client. rewrite Hq.
  destruct (engine_connect (addr_host x) port eng net) as [[[[[t session]|e]|] eng'] net']; cbn [fst snd]; [| |done]; unfold send.
  - destruct (HwS (reply Byte.x00) s1) as [s2 ->]. destruct (split_session session) as [tr tw].
    destruct (write_destination tw (addr_host x) port) as [tw1|er] eqn:Ew.
    + by destruct (pump s2 tr tw1) as [[s3 tr3] tw3].
    + exfalso. destruct (HwT (header (addr_host x) port) tw) as [tw1 Htw].
      assert (write_destination tw (addr_host x) port = Ok tw1); [|congruence]. unfold write_destination.
      rewrite encode_header. destruct Hv as (_ & Hx & Hp). destruct (addr_host_valid x port Hx Hp) as (_ & Hl & _).
      by rewrite (proj2 (Z.ltb_ge _ _) Hl).
  - by destruct (HwS (reply Byte.x01) s1) as [s2 ->].
Qed.

(** C26: Every SOCKS session ends as the protocol says.  A tunnel is opened only
    for a well-formed CONNECT request (any of the three address types), and then
    carries the destination header of that very address followed by the
    client's payload, in order.  A session is refused only for a mistake that is
    in the client's bytes, with the reply code of that mistake (none for a wrong
    version or a name that is not UTF-8) and without consulting the engine; it
    ends in an I/O error only when a write fails or the client's bytes end too
    soon; when no relay can be reached the client is told so, and no tunnel is
    opened.  Conversely, over streams that can be written, a well-formed CONNECT
    request is never refused: the engine is asked for its address, and its
    answer decides. *)
Theorem socks_session (s : S) eng net :
  pump_copies -> (forall h p e n, (engine_connect h p e n).1.1 <> Panicked) ->
  session_spec s eng net (client s eng net) /\
  ((forall b (s : S), exists s', write_all b s = Ok s') -> (forall b (w : TW), exists w', write_all b w = Ok w') ->
   forall methods rsv x port rest,
     valid_request methods x port -> remaining s = connect_message methods rsv x port ++ rest ->
     match (engine_connect (addr_host x) port eng net).1.1 with
     | Returned (Ok _) => cr_result (client s eng net) = Ok tt
     | Returned (Err e) => cr_result (client s eng net) = Err (EngineFailed e)
     | Panicked => False
     end).
Proof.
  intros Hpump Hp. split; [by apply socks_session_spec|]. intros HwS HwT methods rsv x port rest Hv E.
  pose proof (connect_never_refused s methods rsv x port rest eng net HwS HwT Hv E) as Hr.
  specialize (Hp (addr_host x) port eng net). by destruct (engine_connect _ _ _ _).1.1 as [[]|].
Qed.

(** Where a tunnel comes from: the engine was asked for the address of a
    well-formed request, and the tunnel is the session it found, which carried
    nothing since but the destination header and the client's payload. *)
Lemma client_tunnel (s : S) eng net t tr tw :
  pump_copies -> cr_tunnel (client s eng net) = Some (t, tr, tw) ->
  exists methods rsv x port payload session eng' net' tr0 tw0,
    remaining s = connect_message methods rsv x port ++ payload /\ valid_request methods x port /\
    engine_says (addr_host x) port eng net (Ok (t, session)) eng' net' /\ split_session session = (tr0, tw0) /\
    (written tw = written tw0 \/ exists up, up `prefix_of` payload /\
      written tw = written tw0 ++ header (addr_host x) port ++ up).
Proof.
  intros Hpump. unfold handle_client.
  destruct (read_request s) as [[[host port]|e] s1] eqn:Er; [|done]. apply read_request_ends in Er.
  destruct Er as (methods & rsv & x & Hv & -> & Hrem & Hwr).
  destruct (engine_connect (addr_host x) port eng net) as [[[[[t' session]|e]|] eng'] net'] eqn:Ee; [| |done].
  2:{ by destruct (send (reply Byte.x01) s1) as [[]]. }
  destruct (send (reply Byte.x00) s1) as [[[]|e] s2] eqn:Es; [|done]. apply send_inv in Es as [Er2 _].
  destruct (split_session session) as [tr0 tw0] eqn:Esp.
  intros E. exists methods, rsv, x, port, (remaining s1), session, eng', net', tr0, tw0.
  destruct (write_destination tw0 (addr_host x) port) as [tw1|] eqn:Ew.
  - apply write_destination_written in Ew. destruct (pump s2 tr0 tw1) as [[s3 tr3] tw3] eqn:Ep.
    apply Hpump in Ep as [(up & Hup & Hupw) _]. injection E as <- _ <-. split_and!; try done. right. exists up.
    rewrite Hupw, Ew, <-app_assoc, <-Er2. done.
  - injection E as <- _ <-. split_and!; try done. by left.
Qed.

(** A valid request over a writable socket, with an engine that finds a session
    whose writer takes the header, leads to the copies. *)
Lemma socks_client_run (s : S) methods rsv x port rest eng net t session eng' net' tr tw :
  (forall b (s : S), exists s', write_all b s = Ok s') ->
  (forall b (w : TW), exists w', write_all b w = Ok w') ->
  valid_request methods x port -> remaining s = connect_message methods rsv x port ++ rest ->
  engine_says (addr_host x) port eng net (Ok (t, session)) eng' net' ->
  split_session session = (tr, tw) ->
  exists s2 tw1, client s eng net =
      (let '(s3, tr3, tw3) := pump s2 tr tw1 in Build_ClientRun (Ok tt) s3 (Some (t, tr3, tw3)) eng' net') /\
    remaining s2 = rest /\ written s2 = written s ++ [Byte.x05; Byte.x00] ++ reply Byte.x00 /\
    written tw1 = written tw ++ header (addr_host x) port.
Proof.
  intros HwS HwT Hv E He Hsp. unfold engine_says in He.
  destruct (read_request_complete s methods rsv x port rest HwS Hv E) as (s1 & Hq & E1 & W1).
  destruct (HwS (reply Byte.x00) s1) as [s2 Hs2].
  destruct (HwT (header (addr_host x) port) tw) as [tw1 Htw].
  assert (write_destination tw (addr_host x) port = Ok tw1) as Hwd.
  { unfold write_destination. rewrite encode_header.
    destruct Hv as (_ & Hx & Hp). destruct (addr_host_valid x port Hx Hp) as (_ & Hl & _).
    by rewrite (proj2 (Z.ltb_ge _ _) Hl). }
  exists s2, tw1. split.
  { unfold handle_client, send. by rewrite Hq, He, Hs2, Hsp, Hwd. }
  apply write_all_ok in Htw. apply write_all_ok in Hs2 as W2. apply write_keeps_remaining in Hs2.
  split_and!; [congruence| |done]. by rewrite W2, W1, <-!app_assoc.
Qed.

(** The client hears of its tunnel before anything that comes back. *)
Lemma socks_opens_tunnel (s : S) methods rsv x port rest eng net t session eng' net' tr tw :
  (forall b (s : S), exists s', write_all b s = Ok s') ->
  (forall b (w : TW), exists w', write_all b w = Ok w') ->
  valid_request methods x port -> remaining s = connect_message methods rsv x port ++ rest ->
  engine_says (addr_host x) port eng net (Ok (t, session)) eng' net' ->
  split_session session = (tr, tw) ->
  cr_result (client s eng net) = Ok tt /\
  (pump_copies -> exists tr' tw' up down, cr_tunnel (client s eng net) = Some (t, tr', tw') /\
    written tw' = written tw ++ header (addr_host x) port ++ up /\ up `prefix_of` rest /\
    written (cr_socket (client s eng net)) = written s ++ [Byte.x05; Byte.x00] ++ reply Byte.x00 ++ down /\
    down `prefix_of` remaining tr).
Proof.
  intros HwS HwT Hv E He Hsp.
  destruct (socks_client_run s methods rsv x port rest eng net t session eng' net' tr tw HwS HwT Hv E He Hsp)
    as (s2 & tw1 & Hrun & E2 & W2 & Wt).
  destruct (pump s2 tr tw1) as [[s3 tr3] tw3] eqn:Ep. rewrite Hrun. split; [done|]. intros Hpump.
  apply Hpump in Ep as [(up & Hup & Hupw) (down & Hdn & Hdnw)]. exists tr3, tw3, up, down. split; [done|].
  rewrite Hupw, Wt, <-app_assoc. split; [done|]. split; [by rewrite <-E2|]. split; [|done].
  cbn. by rewrite Hdnw, W2, <-!app_assoc.
Qed.
End SocksSession.

(** ** Witnesses *)
Module SocksDemo.
(** A socket as what it will deliver and what was written to it. *)
Record Sock := MkSock { inbox : bytes; outbox : bytes }.
#[export] Instance sock_read : AsyncRead Sock := {|
  remaining := inbox;
  read_exact n s := p ← mem_read_exact n (inbox s); Ok (p.1, MkSock p.2 (outbox s));
  read_u8 s := p ← mem_read_exact 1 (inbox s); Ok (hd Byte.x00 p.1, MkSock p.2 (outbox s));
  read_u16 s := p ← mem_read_exact 2 (inbox s); Ok (from_be_bytes p.1, MkSock p.2 (outbox s))
|}.
#[export] Instance sock_write : AsyncWrite Sock := {|
  written := outbox;
  write_all b s := Ok (MkSock (inbox s) (outbox s ++ b))
|}.
#[export] Instance sock_duplex : Duplex Sock.
Proof.
  split.
  - split.
    + intros n s Hn. cbn in *. unfold mem_read_exact.
      rewrite (proj2 (Nat.leb_le _ _) Hn). cbn. by eexists.
    + intros n s Hn. cbn in *. unfold mem_read_exact.
      rewrite (proj2 (Nat.leb_gt _ _) Hn). cbn. by eexists.
    + intros s. cbn. by destruct (mem_read_exact 1 _) as [[]|].
    + intros s. cbn. by destruct (mem_read_exact 2 _) as [[]|].
  - split. by intros b s s' [= <-].
  - intros n s x s'. cbn. destruct (mem_read_exact n _) as [[]|]; cbn; [|done]. by intros [= <- <-].
  - by intros b s s' [= <-].
Qed.

(** An engine that always finds the one relay, and copies that move everything. *)
Definition engine_connect (h : string) (p : Z) (e : unit) (n : unit)
    : outcome (result EngineError (TransportId * unit)) * unit * unit :=
  (Returned (Ok (MkTransportId "direct-tls", tt)), tt, tt).
Definition split_session (_ : unit) : bytes * bytes := (as_bytes "hello", []).
Definition pump (s : Sock) (tr tw : bytes) : Sock * bytes * bytes :=
  (MkSock [] (outbox s ++ tr), [], tw ++ inbox s).

Lemma pump_ok : pump_copies pump.
Proof. intros s tr tw s' tr' tw' [= <- <- <-]. split; by eexists. Qed.

(** An application connecting to [::1]:80 and sending GET. *)
Definition v6 : SocksAddr := AddrV6 (repeat Byte.x00 15 ++ [Byte.x01]).
Definition app_bytes : bytes := connect_message [Byte.x00] Byte.x00 v6 80 ++ as_bytes "GET".
Definition client_run := handle_client engine_connect split_session pump (MkSock app_bytes []) tt tt.
End SocksDemo.

Section SocksWitnesses.
Import SocksDemo.

Lemma socks_session_witness :
  cr_result client_run = Ok tt /\ session_spec engine_connect split_session (MkSock app_bytes []) tt tt client_run.
Proof.
  split; [vm_compute; reflexivity|].
  refine (proj1 (socks_session engine_connect split_session pump (MkSock app_bytes []) tt tt pump_ok _)).
  intros h p e n. discriminate.
Defined.
End SocksWitnesses.
