(* ===== verification/TestService.v ===== *)
(** * services/test-service

    Models services/test-service/src/lib.rs and main.rs: the answer to one
    connection, whose every I/O error is ignored, and the two accept loops. *)

From stdpp Require Import pretty.
From Stdlib Require Import Strings.Byte.
From S2P Require Import Prelude Bytes Io Serde Common Fs Failure Engine Model Render Server Deployment Service Anyhow Selftest.

(** A socket whose operations may fail and still have had an effect, as the
    ignored results leave it. *)
Class RawSocket (S : Type) := {
  received : S -> bytes;
  sent : S -> bytes;
  closed : S -> bool;
  raw_read : nat -> S -> result io_error bytes * S;
  raw_write_all : bytes -> S -> result io_error unit * S;
  raw_shutdown : S -> result io_error unit * S
}.
(** Reading sends nothing; a write sends its bytes, or some first part of them
    if it fails; a shutdown that succeeds closes the sending side. *)
Class RawSocketLaws (S : Type) `{RawSocket S} := {
  raw_read_sent n s r s' : raw_read n s = (r, s') -> sent s' = sent s;
  raw_write_sent b s r s' : raw_write_all b s = (r, s') ->
    exists p, p `prefix_of` b /\ sent s' = sent s ++ p /\ (r = Ok tt -> p = b);
  raw_shutdown_sent s r s' : raw_shutdown s = (r, s') -> sent s' = sent s /\ (r = Ok tt -> closed s' = true)
}.

Definition body : bytes := as_bytes "hello from test-service".
Definition response_head (body : bytes) : bytes :=
  as_bytes ("HTTP/1.1 200 OK" +:+ crlf +:+ "Content-Length: " +:+ pretty (Z.of_nat (length body)) +:+ crlf +:+
    "Connection: close" +:+ crlf +:+ crlf).

Section TestService.
Context {S : Type} `{RawSocketLaws S}.

(** The task of one connection; the handler is written out in both loops. *)
Definition answer_connection (socket : S) : S :=
  let '(_, socket) := raw_read 1024 socket in
  let '(_, socket) := raw_write_all (response_head body) socket in
  let '(_, socket) := raw_write_all body socket in
  let '(_, socket) := raw_shutdown socket in
  socket.

(** [run]: binds, then answers connections until [accept] fails. *)
Definition test_service_run (bind : result io_error unit) (accepts : list (result io_error S))
    : list S * option io_error :=
  match bind with
  | Err e => ([], Some e)
  | Ok _ => let '(spawned, stop) := accept_loop accepts in (answer_connection <$> spawned, stop)
  end.
(** [spawn_ephemeral]: the port and a task that serves until [accept] fails,
    keeping the error to itself. *)
Definition spawn_ephemeral (bind : result io_error unit) (local_port : result io_error Z)
    (accepts : list (result io_error S)) : result io_error (Z * (list S * bool)) :=
  _ ← bind;
  port ← local_port;
  let '(spawned, stop) := accept_loop accepts in
  Ok (port, (answer_connection <$> spawned, match stop with Some _ => true | None => false end)).
(** main.rs *)
Definition test_service_bind (env : option string) : string := default "127.0.0.1:8081" env.

(** What a connection is sent: whatever fails, a part of the head and then a
    part of the body, and all of the response if the two writes succeed. *)
Lemma answer_sends socket :
  exists p q, sent (answer_connection socket) = sent socket ++ p ++ q /\
    p `prefix_of` response_head body /\ q `prefix_of` body.
Proof.
  unfold answer_connection. destruct (raw_read 1024 socket) as [r0 s0] eqn:E0.
  destruct (raw_write_all (response_head body) s0) as [r1 s1] eqn:E1.
  destruct (raw_write_all body s1) as [r2 s2] eqn:E2. destruct (raw_shutdown s2) as [r3 s3] eqn:E3.
  apply raw_read_sent in E0. apply raw_write_sent in E1 as (p & Hp & W1 & _). apply raw_write_sent in E2 as (q & Hq & W2 & _).
  apply raw_shutdown_sent in E3 as [W3 _]. exists p, q. by rewrite W3, W2, W1, E0, <-app_assoc.
Qed.
Lemma answer_complete socket :
  (forall b s, (raw_write_all b s).1 = Ok tt) -> (forall s, (raw_shutdown s).1 = Ok tt) ->
  sent (answer_connection socket) = sent socket ++ response_head body ++ body /\
  closed (answer_connection socket) = true.
Proof.
  intros Hw Hs. unfold answer_connection. destruct (raw_read 1024 socket) as [r0 s0] eqn:E0.
  pose proof (Hw (response_head body) s0) as H1. destruct (raw_write_all (response_head body) s0) as [r1 s1] eqn:E1.
  pose proof (Hw body s1) as H2. destruct (raw_write_all body s1) as [r2 s2] eqn:E2.
  pose proof (Hs s2) as H3. destruct (raw_shutdown s2) as [r3 s3] eqn:E3. cbn in H1, H2, H3.
  apply raw_read_sent in E0. apply raw_write_sent in E1 as (p & _ & W1 & P1). apply raw_write_sent in E2 as (q & _ & W2 & P2).
  apply raw_shutdown_sent in E3 as [W3 C3]. rewrite (P1 H1) in W1. rewrite (P2 H2) in W2.
  split; [by rewrite W3, W2, W1, E0, <-app_assoc|by apply C3].
Qed.
End TestService.

(** The response announces the length of its body, and the probe of the
    self-tests takes it for a success. *)
Example response_text :
  response_head body = as_bytes ("HTTP/1.1 200 OK" +:+ crlf +:+ "Content-Length: 23" +:+ crlf +:+
    "Connection: close" +:+ crlf +:+ crlf) /\ length body = 23%nat.
Proof. split; vm_compute; reflexivity. Qed.
Lemma response_ok : http_ok (response_head body ++ body) = true.
Proof. vm_compute. reflexivity. Qed.
