(* ===== verification/Interop.v ===== *)
(** * Two ends of SOCKS5: the probe of apps/admin and the server of apps/client-daemon

    The repository speaks SOCKS5 twice, as a client in the self-tests of the
    operator tool ([socks5_http_get_succeeds]) and as a server in the client
    daemon ([handle_client]); neither was written against the other.  Here they
    are put together: the probe's bytes are a request that the server accepts,
    and the server's answers are ones that the probe accepts. *)

From Stdlib Require Import Strings.Byte.
From S2P Require Import Prelude Bytes Io Serde Common Fs Failure Engine Model Render Server Deployment Service Anyhow Selftest.
From S2P Require Import Socks.
Import Framing.

(** All that the probe sends. *)
Definition probe_bytes (host : string) (port : Z) (target : string) : bytes :=
  socks_greeting ++ socks_connect (as_bytes host) port ++ http_request host target.

Lemma port_bytes port : [byte_of (Z.shiftr port 8); byte_of (Z.land port 255)] = to_be_bytes 2 port.
Proof.
  cbn [to_be_bytes]. change (256 ^ Z.of_nat 1) with (2 ^ 8). change (256 ^ Z.of_nat 0) with 1.
  rewrite Z.shiftr_div_pow2, Z.div_1_r by lia. change 255 with (Z.ones 8). rewrite Z.land_ones by lia.
  do 2 f_equal. apply byte_val_inj. by rewrite !byte_val_of, Z.mod_mod.
Qed.
(** Up to the HTTP request they are a SOCKS5 request, as the server's side
    writes one. *)
Lemma probe_is_request host port rest :
  socks_greeting ++ socks_connect (as_bytes host) port ++ rest =
  connect_message [x00] x00 (AddrDomain host) port ++ rest.
Proof.
  unfold socks_greeting, socks_connect, connect_message, addr_wire, str_len.
  by rewrite port_bytes, length_as_bytes, <-!app_assoc.
Qed.

(** A peer that answers as the server does, one message after the other, with
    [down] coming out of the tunnel. *)
Record answers_like_daemon (peer : Peer) (host : string) (port : Z) (target : string) (down : bytes) : Prop := {
  ad_timeouts : p_timeouts_set peer = true;
  ad_takes : forall n, p_takes peer n = true;
  ad_method : p_sends peer socks_greeting = [x05; x00];
  ad_reply : exists early, p_sends peer (socks_greeting ++ socks_connect (as_bytes host) port) = [x05; x00] ++ reply x00 ++ early;
  ad_data : p_sends peer (probe_bytes host port target) = [x05; x00] ++ reply x00 ++ down;
  ad_closes : p_closes peer (probe_bytes host port target) = true
}.
(** A stream on which [sent] was written in [n] writes and [k] bytes were read. *)
Notation stream sent n k := {| t_sent := sent; t_writes := n; t_read := k |}.
Lemma write_taken peer b sent n k :
  p_takes peer n = true -> tcp_write_all peer b (stream sent n k) = Some (stream (sent ++ b) (S n) k).
Proof. intros H. unfold tcp_write_all. cbn. by rewrite H. Qed.
Lemma read_there peer got x rest m sent n k :
  p_sends peer sent = got ++ x ++ rest -> k = length got -> m = length x ->
  tcp_read_exact peer m (stream sent n k) = Some (x, stream sent n (k + m)).
Proof.
  intros H -> ->. unfold tcp_read_exact. cbn [t_sent t_read t_writes]. rewrite H, drop_app_length, take_app_length, length_app.
  by rewrite (proj2 (Nat.leb_le _ _)) by lia.
Qed.

Lemma probe_gets_data peer host port target down :
  answers_like_daemon peer host port target down -> (0 < length (as_bytes host) <= 255)%nat ->
  exists s, socks5_http_exchange peer host port target = Some (down, s).
Proof.
  intros [Ht Hw H1 [early H2] H3 Hc] [Hl1 Hl2]. unfold socks5_http_exchange. rewrite Ht. cbn [negb].
  rewrite write_taken by done. cbn [mbind option_bind app].
  rewrite (read_there peer [] [x05; x00] [] 2) by done. cbn [mbind option_bind].
  rewrite bool_decide_true by done. cbn [negb].
  rewrite bool_decide_false by (intros E; rewrite E in Hl1; cbn in Hl1; lia).
  rewrite (proj2 (Nat.ltb_ge _ _) Hl2). cbn [orb]. rewrite write_taken by done. cbn [mbind option_bind].
  rewrite (read_there peer [x05; x00] [x05; x00; x00; x01] (repeat x00 6 ++ early) 4) by done. cbn [mbind option_bind].
  rewrite !bool_decide_true by done. cbn [negb orb].
  change (default x00 ([x05; x00; x00; x01] !! 3%nat)) with x01. cbn [trailing_len mbind option_bind].
  rewrite (read_there peer [x05; x00; x05; x00; x00; x01] (repeat x00 6) early 6) by done.
  cbn [mbind option_bind]. rewrite write_taken by done. cbn [mbind option_bind].
  unfold tcp_read_to_end. cbn [t_sent t_read]. rewrite <-app_assoc. fold (probe_bytes host port target). rewrite Hc, H3.
  eexists. reflexivity.
Qed.

(** ** The server of the daemon as the probe's peer *)
Section Interop.
Context {S TR TW Session Eng Net : Type}.
Context `{HR : AsyncRead S, HW : AsyncWrite S} {D : @Duplex S HR HW}.
Context `{AsyncRead TR} `{AsyncWriteLaws TW}.
Context (engine_connect : string -> Z -> Eng -> Net ->
  outcome (result EngineError (TransportId * Session)) * Eng * Net).
Context (split_session : Session -> TR * TW).
Context (pump : S -> TR -> TW -> S * TR * TW).
Notation client := (handle_client engine_connect split_session pump).

(** An accepted socket on which the client has sent some bytes. *)
Context (accepted : bytes -> S).
Hypothesis accepted_remaining : forall b, remaining (accepted b) = b.
Hypothesis accepted_written : forall b, written (accepted b) = [].
Hypothesis writable : forall b (s : S), exists s', write_all b s = Ok s'.
Hypothesis tunnel_writable : forall b (w : TW), exists w', write_all b w = Ok w'.

(** What the server has written once it has received [sent] and waits for
    more; it drops the socket when the session ends. *)
Definition daemon_peer (eng : Eng) (net : Net) : Peer := {|
  p_timeouts_set := true;
  p_takes _ := true;
  p_sends sent := written (cr_socket (client (accepted sent) eng net));
  p_closes _ := true
|}.

(** A greeting alone is answered with the method, and the server waits. *)
Lemma greeting_answered (s : S) :
  remaining s = socks_greeting -> exists e s', read_request s = (Err e, s') /\ written s' = written s ++ [x05; x00].
Proof.
  intros E. unfold read_request.
  destruct (recv_u8_cons s _ _ E) as (s1 & Q1 & E1 & W1). rewrite (sm_bind_step _ _ _ _ _ Q1).
  change (byte_val x05 =? 5) with true. cbn [negb].
  destruct (recv_u8_cons s1 _ _ E1) as (s2 & Q2 & E2 & W2). rewrite (sm_bind_step _ _ _ _ _ Q2).
  destruct (recv_exact_app 1 s2 [x00] [] E2 eq_refl) as (s3 & Q3 & E3 & W3).
  change (Z.to_nat (byte_val x01)) with 1%nat. rewrite (sm_bind_step _ _ _ _ _ Q3).
  destruct (writable [x05; x00] s3) as [s4 Q4].
  apply write_keeps_remaining in Q4 as E4. apply write_all_ok in Q4 as W4. rewrite E3 in E4.
  rewrite (sm_bind_step _ _ s3 tt s4) by (unfold send; by rewrite Q4).
  destruct (read_exact_short 1 s4) as [e He]; [rewrite E4; cbn; lia|].
  exists (SocksIo e), s4. split; [|congruence].
  unfold sm_bind at 1, recv at 1. by rewrite read_u8_exact, He.
Qed.

(** The probe of the self-tests, run against the SOCKS server of the client
    daemon, gets through: its bytes open a tunnel to exactly the host and port
    it names, the tunnel carries (a prefix of) its HTTP request after the
    destination header, and what the probe takes for the response is exactly
    what the server copied out of the tunnel. *)
Theorem probe_of_daemon host port target eng net t session eng' net' tr tw :
  pump_copies pump -> is_str host -> 0 < str_len host <= 255 -> 0 <= port <= u16_max ->
  engine_says engine_connect host port eng net (Ok (t, session)) eng' net' -> split_session session = (tr, tw) ->
  exists tr' tw' up down,
    cr_tunnel (client (accepted (probe_bytes host port target)) eng net) = Some (t, tr', tw') /\
    written tw' = written tw ++ header host port ++ up /\ up `prefix_of` http_request host target /\
    down `prefix_of` remaining tr /\
    socks5_http_get_succeeds (Some (daemon_peer eng net)) host port target = http_ok down.
Proof.
  intros Hpump Hu Hl Hp He Hsp.
  assert (valid_request [x00] (AddrDomain host) port) as Hv by (split; [cbn; lia|split; [split; [done|lia]|done]]).
  assert (forall rest, remaining (accepted (socks_greeting ++ socks_connect (as_bytes host) port ++ rest)) =
    connect_message [x00] x00 (AddrDomain host) port ++ rest) as Hr.
  { intros rest. by rewrite accepted_remaining, probe_is_request. }
  pose proof (socks_opens_tunnel engine_connect split_session pump _ _ _ _ _ _ eng net t session eng' net' tr tw
    writable tunnel_writable Hv (Hr (http_request host target)) He Hsp) as [_ (tr' & tw' & up & down & Et & Ew & Hup & Eo & Hd)]; [done|].
  exists tr', tw', up, down. split_and!; try done.
  destruct (probe_gets_data (daemon_peer eng net) host port target down) as [s Es].
  - split; cbn; try done.
    + destruct (greeting_answered (accepted socks_greeting)) as (e & s' & E & W); [done|].
      unfold handle_client. rewrite E. cbn. by rewrite W, accepted_written.
    + pose proof (socks_opens_tunnel engine_connect split_session pump _ _ _ _ _ _ eng net t session eng' net' tr tw
        writable tunnel_writable Hv (Hr []) He Hsp) as [_ (? & ? & ? & early & _ & _ & _ & Eo' & _)]; [done|].
      exists early. rewrite app_nil_r, accepted_written in Eo'. exact Eo'.
    + rewrite accepted_written in Eo. exact Eo.
  - rewrite length_as_bytes. unfold str_len in Hl. lia.
  - unfold socks5_http_get_succeeds. cbn [mbind option_bind]. by rewrite Es.
Qed.
End Interop.

(** ** Witness *)
Section InteropWitness.
Import SocksDemo.
Definition to_app (b : bytes) : Sock := MkSock b [].
Definition ok_session (_ : unit) : bytes * bytes := (as_bytes "HTTP/1.0 200 OK", []).

Lemma probe_of_daemon_witness :
  socks5_http_get_succeeds (Some (daemon_peer engine_connect ok_session pump to_app tt tt)) "localhost" 80 "/" = true /\
  exists tr' tw' up down,
    cr_tunnel (handle_client engine_connect ok_session pump (to_app (probe_bytes "localhost" 80 "/")) tt tt) =
      Some (MkTransportId "direct-tls", tr', tw') /\
    written tw' = written ([] : bytes) ++ header "localhost" 80 ++ up /\ up `prefix_of` http_request "localhost" "/" /\
    down `prefix_of` remaining (as_bytes "HTTP/1.0 200 OK") /\
    socks5_http_get_succeeds (Some (daemon_peer engine_connect ok_session pump to_app tt tt)) "localhost" 80 "/" =
      http_ok down.
Proof.
  split; [vm_compute; reflexivity|].
  apply (probe_of_daemon engine_connect ok_session pump to_app) with (session := tt) (eng' := tt) (net' := tt).
  - done.
  - done.
  - intros b s. by eexists.
  - intros b s. by eexists.
  - exact pump_ok.
  - vm_compute. reflexivity.
  - vm_compute. done.
  - vm_compute. done.
  - reflexivity.
  - reflexivity.
Defined.
End InteropWitness.
