(* ===== verification/Relay.v ===== *)
(** * services/relay-agent

    Models services/relay-agent/src/lib.rs: a session ([handle_stream]) in its
    three roles, the data phase with its inactivity bound
    ([copy_with_idle_timeout] over [ActivityTracked] streams), and the two accept
    loops as transition systems over a millisecond clock ([serve_tls_on],
    [serve_quic_on]), with their connection slots.  How a relay is started
    (main.rs) is [relay_main].  Sockets, TLS and QUIC are parameters. *)

From S2P Require Import Prelude Bytes Io Serde Common Fs Failure Engine Render Native Socks.
Import Framing.

(** ** Roles, limits, errors *)
Inductive Role (Addr : Type) := Combined | Egress | Ingress (next_hop : Endpoint Addr).
Arguments Combined {Addr}.
Arguments Egress {Addr}.
Arguments Ingress {Addr} next_hop.

(** Durations in milliseconds. *)
Record RelayLimits := {
  max_connections : nat;
  idle_timeout : Z;
  dial_timeout : Z;
  handshake_timeout : Z
}.
Definition default_limits : RelayLimits :=
  {| max_connections := 256; idle_timeout := 120000; dial_timeout := 8000; handshake_timeout := 10000 |}.

Definition is_transient_accept_error (e : io_error) : bool :=
  match kind e with
  | ConnectionAborted | ConnectionReset | Interrupted | WouldBlock => true
  | _ => match raw_os_error e with Some n => (n =? 24) || (n =? 23) | None => false end
  end.

Inductive RelayError :=
  | HeaderTimedOut | HeaderFailed (e : io_error)
  | DialTimedOut | DialFailed (e : io_error)
  | NextHopTimedOut | NextHopFailed (e : TransportError)
  | ForwardFailed (e : io_error)
  | CopyFailed (e : io_error).

(** ** [ActivityTracked]: the shared counter *)
Definition wrap64 (z : Z) : Z := z mod 2 ^ 64.
(** A completed poll of a tracked stream: a read that filled, or a write that
    took, that many bytes; anything else leaves the counter alone. *)
Inductive Poll := PollRead (filled : nat) | PollWrite (n : nat) | PollOther.
Definition poll_moved (p : Poll) : bool :=
  match p with PollRead n | PollWrite n => (0 <? n)%nat | PollOther => false end.
Definition bump (activity : Z) (p : Poll) : Z :=
  if poll_moved p then wrap64 (activity + 1) else activity.

(** ** [copy_with_idle_timeout]

    [copy_for idle st] drives the pinned [copy_bidirectional] future for one
    window: the polls of the two streams that completed, their new state, and
    the result if the copy finished. *)
Section Copy.
Context {CS : Type} (copy_for : Z -> CS -> list Poll * CS * option (result io_error unit)).

Fixpoint copy_loop (fuel : nat) (idle activity : Z) (st : CS) : option (result io_error unit * CS) :=
  match fuel with
  | O => None
  | S fuel =>
    let before := activity in
    let '(polls, st, done) := copy_for idle st in
    let activity := foldl bump activity polls in
    match done with
    | Some result => Some (result, st)
    | None =>
      if activity =? before
      then Some (Err (io_error_new TimedOut "relay session idle timeout"), st)
      else copy_loop fuel idle activity st
    end
  end.

Definition copy_with_idle_timeout (fuel : nat) (idle : Z) (st : CS) : option (result io_error unit * CS) :=
  copy_loop fuel idle 0 st.
End Copy.

(** ** [handle_stream] *)
Section Session.
Context {Cl Out Addr Net : Type} `{AsyncRead Cl, AsyncWrite Out}.
(** Whether the peer delivers its header within the bound; dialling a
    destination by name, or the next hop, within a bound ([None]: elapsed). *)
Context (header_in_time : Z -> Cl -> bool).
Context (tcp_dial : Z -> string -> Z -> Net -> option (result io_error Out) * Net).
Context (hop_dial : Z -> Endpoint Addr -> Net -> option (result TransportError Out) * Net).
Context (copy_for : Z -> Cl * Out -> list Poll * (Cl * Out) * option (result io_error unit)).

(** Where a session went: the destination it dialled or the hop it forwarded
    to, with the client's and the outgoing stream as the session left them. *)
Inductive Onward :=
  | Dialled (host : string) (port : Z) (client : Cl) (out : Out)
  | Forwarded (next_hop : Endpoint Addr) (client : Cl) (out : Out).

Record SessionRun := { sr_result : result RelayError unit; sr_onward : option Onward; sr_net : Net }.
Definition ends (e : RelayError) (o : option Onward) (net : Net) : option SessionRun :=
  Some (Build_SessionRun (Err e) o net).

Definition handle_stream (fuel : nat) (client : Cl) (role : Role Addr) (limits : RelayLimits) (net : Net)
    : option SessionRun :=
  if negb (header_in_time (idle_timeout limits) client) then ends HeaderTimedOut None net else
  match read_destination client with
  | Err e => ends (HeaderFailed e) None net
  | Ok (host, port, client) =>
    match role with
    | Combined | Egress =>
      let '(r, net) := tcp_dial (dial_timeout limits) host port net in
      match r with
      | None => ends DialTimedOut None net
      | Some (Err e) => ends (DialFailed e) None net
      | Some (Ok upstream) =>
        match copy_with_idle_timeout copy_for fuel (idle_timeout limits) (client, upstream) with
        | None => None
        | Some (r, (client, upstream)) =>
          Some (Build_SessionRun (map_err CopyFailed r) (Some (Dialled host port client upstream)) net)
        end
      end
    | Ingress next_hop =>
      let '(r, net) := hop_dial (dial_timeout limits) next_hop net in
      match r with
      | None => ends NextHopTimedOut None net
      | Some (Err e) => ends (NextHopFailed e) None net
      | Some (Ok next) =>
        match write_destination next host port with
        | Err e => ends (ForwardFailed e) (Some (Forwarded next_hop client next)) net
        | Ok next =>
          match copy_with_idle_timeout copy_for fuel (idle_timeout limits) (client, next) with
          | None => None
          | Some (r, (client, next)) =>
            Some (Build_SessionRun (map_err CopyFailed r) (Some (Forwarded next_hop client next)) net)
          end
        end
      end
    end
  end.
End Session.

(** ** main.rs: the role a relay is started with *)
Inductive RoleArg := ArgCombined | ArgEgress | ArgIngress.
Inductive RelayMainError :=
  | NextHopAddrRequired | NextHopCertRequired | BadNextHopHex (e : string) | NoListener.

(** [copy_from_slice] panics when the lengths differ. *)
Definition parse_role {Addr} {HexI : Hex} (role : RoleArg) (next_hop_addr : option Addr)
    (next_hop_cert_sha256 : option string) : outcome (result RelayMainError (Role Addr)) :=
  match role with
  | ArgCombined => Returned (Ok Combined)
  | ArgEgress => Returned (Ok Egress)
  | ArgIngress =>
    match next_hop_addr with
    | None => Returned (Err NextHopAddrRequired)
    | Some addr =>
      match next_hop_cert_sha256 with
      | None => Returned (Err NextHopCertRequired)
      | Some hash_hex =>
        match hex_decode hash_hex with
        | Err e => Returned (Err (BadNextHopHex e))
        | Ok hash_bytes =>
          if (length hash_bytes =? 32)%nat
          then Returned (Ok (Ingress {| e_id := MkEndpointId "egress"; e_address := addr;
                 e_provider_tag := "dev"; e_pinned_cert_sha256 := hash_bytes |}))
          else Panicked
        end
      end
    end
  end.

(** Which listeners are spawned, with which identity and role. *)
Record RelayArgs (Addr : Type) := {
  arg_role : RoleArg; arg_bind_tls : option Addr; arg_bind_quic : option Addr;
  arg_next_hop_addr : option Addr; arg_next_hop_cert_sha256 : option string;
  arg_identity_name : string; arg_identity_dir : option path
}.
Arguments arg_role {Addr}. Arguments arg_bind_tls {Addr}. Arguments arg_bind_quic {Addr}.
Arguments arg_next_hop_addr {Addr}. Arguments arg_next_hop_cert_sha256 {Addr}.
Arguments arg_identity_name {Addr}. Arguments arg_identity_dir {Addr}.
Inductive Spawned (Addr : Type) := ServeTls (bind : Addr) | ServeQuic (bind : Addr).
Arguments ServeTls {Addr}. Arguments ServeQuic {Addr}.

(** The two [?] of awaiting a task: it panicked, or it returned an error. *)
Inductive JoinError (E : Type) := JoinPanicked | TaskFailed (e : E).
Arguments JoinPanicked {E}. Arguments TaskFailed {E} e.

Section RelayMain.
Context {Addr : Type} {HexI : Hex} {Sha : Sha256} (generate_self_signed : string -> world -> bytes * bytes).

Definition start_identity (args : RelayArgs Addr) : IO io_error RelayIdentity :=
  match arg_identity_dir args with
  | Some dir => load_or_generate generate_self_signed dir (arg_identity_name args)
  | None => Native.generate generate_self_signed (arg_identity_name args)
  end.
Definition handles (args : RelayArgs Addr) : list (Spawned Addr) :=
  match arg_bind_tls args with Some bind => [ServeTls bind] | None => [] end ++
  match arg_bind_quic args with Some bind => [ServeQuic bind] | None => [] end.
Definition relay_main (args : RelayArgs Addr)
    : IO io_error (outcome (result RelayMainError (RelayIdentity * Role Addr * list (Spawned Addr)))) :=
  do identity <- start_identity args;
  io_ret match parse_role (arg_role args) (arg_next_hop_addr args) (arg_next_hop_cert_sha256 args) with
  | Panicked => Panicked
  | Returned (Err e) => Returned (Err e)
  | Returned (Ok role) =>
    match handles args with
    | [] => Returned (Err NoListener)
    | spawned => Returned (Ok (identity, role, spawned))
    end
  end.

(** *** The tasks, and how main waits for them *)
Context {L : Type} (tcp_bind : Addr -> result io_error L) (quic_endpoint : ServerConfig -> Addr -> result io_error L).
Context (single_cert_ok : list bytes -> bytes -> bool) (quic_compatible : ServerConfig -> bool).

(** [serve_tls] and [serve_quic] up to their accept loops: the listener and the
    configuration they run with.  One binds before it builds the configuration,
    the other after. *)
Definition serve_tls (bind : Addr) (identity : RelayIdentity) : outcome (result io_error (L * ServerConfig)) :=
  match tcp_bind bind with
  | Err e => Returned (Err e)
  | Ok listener =>
    match tls_server_config single_cert_ok identity with
    | Panicked => Panicked
    | Returned cfg => Returned (Ok (listener, cfg))
    end
  end.
Definition quic_listen (bind : Addr) (identity : RelayIdentity) : outcome (result io_error (L * ServerConfig)) :=
  match quic_server_config single_cert_ok quic_compatible identity with
  | Panicked => Panicked
  | Returned cfg => Returned (endpoint ← quic_endpoint cfg bind; Ok (endpoint, cfg))
  end.
Definition serve_quic (bind : Addr) (identity : RelayIdentity) : outcome (result io_error (L * ServerConfig)) :=
  quic_listen bind identity.

(** [for h in handles { h.await??; }]: the result of each task, [None] while it
    runs; [None] if main waits. *)
Fixpoint await_handles {E : Type} (tasks : list (option (outcome (result E unit)))) : option (result (JoinError E) unit) :=
  match tasks with
  | [] => Some (Ok tt)
  | None :: _ => None
  | Some Panicked :: _ => Some (Err JoinPanicked)
  | Some (Returned (Err e)) :: _ => Some (Err (TaskFailed e))
  | Some (Returned (Ok _)) :: tasks => await_handles tasks
  end.

(** A listener that is up presents the relay's own certificate. *)
Lemma listeners_present bind identity listener cfg :
  serve_tls bind identity = Returned (Ok (listener, cfg)) \/ serve_quic bind identity = Returned (Ok (listener, cfg)) ->
  presents single_cert_ok quic_compatible identity cfg.
Proof.
  unfold serve_tls, serve_quic, quic_listen, presents. intros [H|H]; [left|right].
  - destruct (tcp_bind bind); [|done]. destruct (tls_server_config _ identity); [by injection H as _ <-|done].
  - destruct (quic_server_config _ _ identity) as [cfg'|]; [|done]. destruct (quic_endpoint cfg' bind); [|done].
    by injection H as _ <-.
Qed.
(** The relay ends exactly when all tasks before some failed one have ended, so
    that one is running hides the failure of a later one: with both listeners, a
    QUIC listener that could not bind goes unnoticed while the TLS one serves. *)
Lemma await_handles_waits {E : Type} (before after : list (option (outcome (result E unit)))) :
  await_handles ((const (Some (Returned (Ok tt))) <$> before) ++ None :: after) = None.
Proof. by induction before. Qed.

(** An ingress relay that starts pins its next hop to a hash of 32 bytes. *)
Lemma ingress_pins args w identity hop spawned w' :
  relay_main args w = (Ok (Returned (Ok (identity, Ingress hop, spawned))), w') ->
  length (e_pinned_cert_sha256 hop) = 32%nat /\ Some (e_address hop) = arg_next_hop_addr args /\ spawned <> [].
Proof.
  intros (id & w1 & _ & [= H _])%io_bind_Ok_inv. unfold parse_role in H.
  destruct (arg_role args), (arg_next_hop_addr args) as [addr|], (arg_next_hop_cert_sha256 args) as [h|]; try done;
    try (by destruct (handles args)); cbn in H. destruct (hex_decode h) as [b|]; [|done].
  destruct (Nat.eqb_spec (length b) 32); [|done]. destruct (handles args) eqn:Eh; [done|]. by injection H as _ <- <-.
Qed.
End RelayMain.

(** ** Facts: the data phase *)
Section CopyFacts.
Context {CS : Type} (copy_for : Z -> CS -> list Poll * CS * option (result io_error unit)).

Definition moved (polls : list Poll) : nat := length (filter (fun p => poll_moved p = true) polls).

Lemma foldl_bump a polls :
  0 <= a < 2 ^ 64 -> foldl bump a polls = wrap64 (a + Z.of_nat (moved polls)).
Proof.
  revert a. induction polls as [|p polls IH]; intros a Ha; cbn [foldl].
  { unfold wrap64, moved. cbn. by rewrite Z.add_0_r, Z.mod_small. }
  unfold bump at 2, moved. rewrite filter_cons. destruct (poll_moved p) eqn:E; cbn [decide].
  - rewrite decide_True by done. rewrite IH by (unfold wrap64; apply Z.mod_pos_bound; lia).
    unfold wrap64, moved. cbn [length]. rewrite Zplus_mod_idemp_l. f_equal. lia.
  - rewrite decide_False by done. by rewrite IH.
Qed.

(** A window counts as silent exactly when nothing moved in it (fewer than 2^64
    polls complete in a window). *)
Lemma window_silent a polls :
  0 <= a < 2 ^ 64 -> Z.of_nat (moved polls) < 2 ^ 64 ->
  (foldl bump a polls =? a) = (moved polls =? 0)%nat.
Proof.
  intros Ha Hm. rewrite foldl_bump by done. unfold wrap64.
  destruct (Nat.eqb_spec (moved polls) 0) as [->|Hne].
  - rewrite Z.add_0_r, Z.mod_small by done. apply Z.eqb_refl.
  - apply Z.eqb_neq. intros E. destruct (decide (a + Z.of_nat (moved polls) < 2 ^ 64)).
    + rewrite Z.mod_small in E by lia. lia.
    + rewrite <-(Z.mod_unique (a + Z.of_nat (moved polls)) (2 ^ 64) 1 (a + Z.of_nat (moved polls) - 2 ^ 64)) in E; lia.
Qed.

Lemma bump_range a polls : 0 <= a < 2 ^ 64 -> 0 <= foldl bump a polls < 2 ^ 64.
Proof. intros Ha. rewrite foldl_bump by done. apply Z.mod_pos_bound. lia. Qed.

(** The windows a session goes through while its copy is unfinished. *)
Fixpoint windows (idle : Z) (n : nat) (st : CS) : CS :=
  match n with O => st | S n => windows idle n (copy_for idle st).1.2 end.

(** Data that a window moves is gone from what is left to move. *)
Context (traffic : CS -> nat).
Hypothesis traffic_drops : forall idle st,
  (moved (copy_for idle st).1.1 <> 0)%nat -> (traffic (copy_for idle st).1.2 < traffic st)%nat.

Lemma copy_loop_ends fuel idle a st :
  0 <= a < 2 ^ 64 -> (traffic st < fuel)%nat -> is_Some (copy_loop copy_for fuel idle a st).
Proof.
  revert a st. induction fuel as [|fuel IH]; intros a st Ha Hf; [lia|]. cbn [copy_loop].
  pose proof (traffic_drops idle st) as Hd.
  destruct (copy_for idle st) as [[polls st'] [r|]]; cbn in Hd; [by eexists|].
  destruct (foldl bump a polls =? a) eqn:E; [by eexists|].
  apply IH; [by apply bump_range|]. assert (moved polls <> 0)%nat as Hm.
  { intros Hm. rewrite foldl_bump, Hm, Z.add_0_r in E by done. unfold wrap64 in E.
    rewrite Z.mod_small, Z.eqb_refl in E by done. done. }
  specialize (Hd Hm). lia.
Qed.

(** C35: A session cannot hang.  However the peers behave, the data phase ends
    after at most one idle window more than it has bytes to move: a session in
    which nothing moves for a whole window is ended there. *)
Theorem idle_session_ends idle st : is_Some (copy_with_idle_timeout copy_for (S (traffic st)) idle st).
Proof. apply copy_loop_ends; lia. Qed.
End CopyFacts.

(** ** Facts: a relayed stream *)
Section SessionFacts.
Context {Cl Out Addr Net : Type} `{AsyncReadLaws Cl} `{AsyncWriteLaws Out}.
Context (header_in_time : Z -> Cl -> bool).
Context (tcp_dial : Z -> string -> Z -> Net -> option (result io_error Out) * Net).
Context (hop_dial : Z -> Endpoint Addr -> Net -> option (result TransportError Out) * Net).
Context (copy_for : Z -> Cl * Out -> list Poll * (Cl * Out) * option (result io_error unit)).
Notation session := (handle_stream header_in_time tcp_dial hop_dial copy_for).

(** A fresh connection carries nothing yet, and copying moves bytes in order. *)
Definition dials_fresh : Prop :=
  (forall d h p n o n', tcp_dial d h p n = (Some (Ok o), n') -> written o = []) /\
  (forall d ep n o n', hop_dial d ep n = (Some (Ok o), n') -> written o = []).
Definition copies_in_order : Prop := forall idle c o,
  exists up, remaining c = up ++ remaining (copy_for idle (c, o)).1.2.1 /\
    written (copy_for idle (c, o)).1.2.2 = written o ++ up.

Lemma copy_loop_in_order fuel idle a c o r c' o' :
  copies_in_order -> copy_loop copy_for fuel idle a (c, o) = Some (r, (c', o')) ->
  exists up, remaining c = up ++ remaining c' /\ written o' = written o ++ up.
Proof.
  intros Hc. revert a c o. induction fuel as [|fuel IH]; intros a c o; [done|]. cbn [copy_loop].
  destruct (Hc idle c o) as (up & E1 & E2). destruct (copy_for idle (c, o)) as [[polls [c1 o1]] dn].
  cbn in E1, E2. destruct dn as [r1|]; [intros [= <- <- <-]; eauto|].
  destruct (_ =? _); [intros [= <- <- <-]; eauto|].
  intros (up' & E1' & E2')%IH. exists (up ++ up'). rewrite E1, E1', E2', E2, <-!app_assoc. done.
Qed.

(** What a session that went onward received, and what it passed on. *)
Definition passes (inp : bytes) (o : Onward (Cl := Cl) (Out := Out) (Addr := Addr)) : Prop :=
  exists host port rest up, valid_destination host port /\ inp = header host port ++ rest /\ up `prefix_of` rest /\
    match o with
    | Dialled h p _ out => h = host /\ p = port /\ written out = up
    | Forwarded _ _ out => written out = header host port ++ up
    end.

Lemma read_destination_sound (c : Cl) host port c' :
  read_destination c = Ok (host, port, c') ->
  valid_destination host port /\ remaining c = header host port ++ remaining c'.
Proof.
  intros Hr. pose proof (read_destination_agrees_with_decode c) as Ha.
  destruct (decode_destination (remaining c)) as [[[[[h p] n]|]|e]|] eqn:Ed; [| | |done].
  - destruct Ha as (r' & Hr' & Hrem). rewrite Hr in Hr'. injection Hr' as <- <- <-.
    apply decode_sound in Ed as (Hv & -> & rest & E). split; [done|].
    by rewrite Hrem, E, drop_app_length.
  - destruct Ha as [e Ha]. congruence.
  - congruence.
Qed.

Lemma session_passes fuel c role limits net run o :
  dials_fresh -> copies_in_order ->
  session fuel c role limits net = Some run -> sr_onward run = Some o ->
  (forall e, sr_result run <> Err (ForwardFailed e)) -> passes (remaining c) o.
Proof.
  intros [Ht Hh] Hc. unfold handle_stream, ends.
  destruct (header_in_time _ c); cbn [negb]; [|by intros [= <-]].
  destruct (read_destination c) as [[[host port] c1]|e] eqn:Er; [|by intros [= <-]].
  apply read_destination_sound in Er as [Hv Erem]. intros Hrun Ho Hnf.
  assert (forall up c2 l, remaining c1 = up ++ remaining c2 -> l = up ->  up `prefix_of` remaining c1) as Hpre.
  { intros up c2 l E _. rewrite E. by eexists. }
  destruct role as [| |ep].
  1,2: destruct (tcp_dial _ host port net) as [[[out|e]|] net1] eqn:Ed; [|by simplify_eq..];
    apply Ht in Ed; unfold copy_with_idle_timeout in Hrun;
    destruct (copy_loop _ _ _ _ _) as [[r [c2 out2]]|] eqn:El; [|done];
    apply copy_loop_in_order in El as (up & E1 & E2); [|done];
    injection Hrun as <-; cbn in Ho; injection Ho as <-;
    exists host, port, (remaining c1), up; rewrite Ed in E2; split_and!; try done; by eapply Hpre.
  destruct (hop_dial _ ep net) as [[[out|e]|] net1] eqn:Ed; [|by simplify_eq..].
  apply Hh in Ed. destruct (write_destination out host port) as [out1|e] eqn:Ew.
  2:{ injection Hrun as <-. by destruct (Hnf e). }
  apply write_destination_written in Ew. unfold copy_with_idle_timeout in Hrun.
  destruct (copy_loop _ _ _ _ _) as [[r [c2 out2]]|] eqn:El; [|done].
  apply copy_loop_in_order in El as (up & E1 & E2); [|done].
  injection Hrun as <-; cbn in Ho; injection Ho as <-.
  exists host, port, (remaining c1), up. rewrite Ew, Ed in E2. split_and!; try done. by eapply Hpre.
Qed.

(** A route: [n] ingress hops and the relay that dials, each receiving a prefix
    of what the one before it sent. *)
Inductive route : bytes -> nat -> string -> Z -> bytes -> Prop :=
  | route_egress fuel c role limits net run host port c' out :
      session fuel c role limits net = Some run ->
      sr_onward run = Some (Dialled host port c' out) ->
      route (remaining c) 0 host port (written out)
  | route_ingress fuel c next_hop limits net run c' out received n host port up :
      session fuel c (Ingress next_hop) limits net = Some run ->
      sr_onward run = Some (Forwarded next_hop c' out) ->
      (forall e, sr_result run <> Err (ForwardFailed e)) ->
      received `prefix_of` written out ->
      route received n host port up ->
      route (remaining c) (S n) host port up.

Lemma header_app_inj host1 port1 rest1 host2 port2 rest2 :
  valid_destination host1 port1 -> valid_destination host2 port2 ->
  header host1 port1 ++ rest1 = header host2 port2 ++ rest2 ->
  host1 = host2 /\ port1 = port2 /\ rest1 = rest2.
Proof.
  intros V1 V2 E. pose proof (decode_header host1 port1 rest1 V1) as D1.
  rewrite E, (decode_header host2 port2 rest2 V2) in D1. injection D1 as -> -> _.
  split; [done|]. split; [done|]. by apply app_inv_head in E.
Qed.

Lemma prefix_of_header_app (l : bytes) host port rest host' port' rest' :
  valid_destination host port -> valid_destination host' port' ->
  l = header host' port' ++ rest' -> l `prefix_of` header host port ++ rest ->
  host' = host /\ port' = port /\ rest' `prefix_of` rest.
Proof.
  intros Hv Hv' -> [k E]. rewrite <-app_assoc in E.
  destruct (header_app_inj _ _ _ _ _ _ Hv Hv' E) as (-> & -> & ->).
  split; [done|]. split; [done|]. by eexists.
Qed.

Lemma route_faithful inp n host port up :
  dials_fresh -> copies_in_order -> route inp n host port up ->
  exists rest, valid_destination host port /\ inp = header host port ++ rest /\ up `prefix_of` rest.
Proof.
  intros Hd Hc. induction 1 as [fuel c role limits net run host port c' out Hrun Ho|
    fuel c ep limits net run c' out received n host port up Hrun Ho Hnf Hpre _ IH].
  - destruct (session_passes _ _ _ _ _ _ _ Hd Hc Hrun Ho) as (h & p & rest & up & Hv & E & Hup & -> & -> & Hw).
    { unfold handle_stream, ends in Hrun. intros e He. destruct (header_in_time _ c); cbn in Hrun; [|by simplify_eq].
      destruct (read_destination c) as [[[h p] c1]|]; [|by simplify_eq].
      destruct role as [| |ep].
      1,2: destruct (tcp_dial _ h p net) as [[[o|x]|] net1]; [|by simplify_eq..];
        destruct (copy_with_idle_timeout _ _ _ _) as [[[[]|x] [c2 o2]]|]; by simplify_eq/=.
      destruct (hop_dial _ ep net) as [[[o|x]|] net1]; [|by simplify_eq..].
      destruct (write_destination o h p); [|by simplify_eq].
      destruct (copy_with_idle_timeout _ _ _ _) as [[[[]|x] [c2 o2]]|]; by simplify_eq/=. }
    exists rest. by rewrite Hw.
  - destruct IH as (rest & Hv & E & Hup).
    destruct (session_passes _ _ _ _ _ _ _ Hd Hc Hrun Ho Hnf) as (h & p & rest' & up' & Hv' & E' & Hup' & Hw).
    rewrite Hw in Hpre. destruct (prefix_of_header_app _ _ _ _ _ _ _ Hv' Hv E Hpre) as (-> & -> & Hr).
    exists rest'. split; [done|]. split; [done|]. by do 2 (etrans; [eassumption|]).
Qed.
End SessionFacts.

(** ** From the SOCKS client to the destination *)
Section EndToEnd.
Context {S TR TW Sess Eng Net : Type}.
Context `{HR : AsyncRead S, HW : AsyncWrite S} {D : @Duplex S HR HW}.
Context `{HTR : AsyncRead TR} `{HTW : AsyncWrite TW} {HTWL : AsyncWriteLaws TW}.
Context (engine_connect : string -> Z -> Eng -> Net ->
  outcome (result EngineError (TransportId * Sess)) * Eng * Net).
Context (split_session : Sess -> TR * TW) (pump : S -> TR -> TW -> S * TR * TW).
Context {Cl Out Addr RNet : Type} `{HC : AsyncRead Cl} {HCL : AsyncReadLaws Cl} `{HO : AsyncWrite Out} {HOL : AsyncWriteLaws Out}.
Context (header_in_time : Z -> Cl -> bool).
Context (tcp_dial : Z -> string -> Z -> RNet -> option (result io_error Out) * RNet).
Context (hop_dial : Z -> Endpoint Addr -> RNet -> option (result TransportError Out) * RNet).
Context (copy_for : Z -> Cl * Out -> list Poll * (Cl * Out) * option (result io_error unit)).
Notation client := (handle_client engine_connect split_session pump).
Notation session := (handle_stream header_in_time tcp_dial hop_dial copy_for).

(** A new session's writer has carried nothing. *)
Definition sessions_fresh : Prop := forall sess tr tw, split_session sess = (tr, tw) -> written tw = [].

(** A request reaches its destination.  Between a well-formed CONNECT request
    and a relay that receives the tunnel's bytes in time, nothing but the
    network can stand in the way: if the sockets accept what is written, the
    engine finds a session and the relay can connect to the destination, then
    the relay's session dials the very address requested and comes to an end. *)
Theorem request_reaches_destination (traffic : Cl * Out -> nat)
    (s : S) methods rsv x port payload eng net t sess eng' net' tr tw c role limits rnet out rnet' :
  (forall b (s : S), exists s', write_all b s = Ok s') ->
  (forall b (w : TW), exists w', write_all b w = Ok w') ->
  pump_copies pump -> sessions_fresh ->
  (forall idle st, moved (copy_for idle st).1.1 <> 0%nat -> (traffic (copy_for idle st).1.2 < traffic st)%nat) ->
  valid_request methods x port -> remaining s = connect_message methods rsv x port ++ payload ->
  engine_connect (addr_host x) port eng net = (Returned (Ok (t, sess)), eng', net') ->
  split_session sess = (tr, tw) ->
  (forall tr' tw', cr_tunnel (client s eng net) = Some (t, tr', tw') -> remaining c = written tw') ->
  header_in_time (idle_timeout limits) c = true -> role = Combined \/ role = Egress ->
  tcp_dial (dial_timeout limits) (addr_host x) port rnet = (Some (Ok out), rnet') ->
  cr_result (client s eng net) = Ok tt /\
  exists fuel run c' out', session fuel c role limits rnet = Some run /\
    sr_onward run = Some (Dialled (addr_host x) port c' out').
Proof.
  intros HwS HwT Hpump Hfresh Htraffic Hv Erem He Hsp Hc Htime Hrole Hdial.
  destruct (socks_opens_tunnel engine_connect split_session pump s methods rsv x port payload eng net t sess
    eng' net' tr tw HwS HwT Hv Erem He Hsp) as [Hres Htun].
  split; [done|]. destruct (Htun Hpump) as (tr' & tw' & up & down & Etun & Hw & _).
  apply Hc in Etun. rewrite Etun, (Hfresh _ _ _ Hsp) in *. cbn [app] in Hw. rewrite Hw in Etun.
  destruct Hv as (_ & Hx & Hport).
  destruct (read_header c _ _ _ (addr_host_valid x port Hx Hport) Etun) as (c1 & Hread & _).
  pose proof (copy_loop_ends copy_for traffic Htraffic (1 + traffic (c1, out))%nat (idle_timeout limits) 0 (c1, out)
    ltac:(lia) ltac:(lia)) as [[r [c2 out2]] Hcopy].
  exists (1 + traffic (c1, out))%nat, (Build_SessionRun (map_err CopyFailed r) (Some (Dialled (addr_host x) port c2 out2)) rnet'), c2, out2.
  split; [|done]. unfold handle_stream, copy_with_idle_timeout. rewrite Htime, Hread. cbn [negb].
  destruct Hrole as [-> | ->]; by rewrite Hdial, Hcopy.
Qed.
End EndToEnd.

(** ** Witnesses *)
Module RelayDemo.
Import SocksDemo.
(** The relay's side: one byte moves per window, and the copy never finishes. *)
Definition copy_for (idle : Z) (st : bytes * bytes) : list Poll * (bytes * bytes) * option (result io_error unit) :=
  match st with
  | ([], o) => ([], ([], o), None)
  | (b :: c, o) => ([PollRead 1; PollWrite 1], (c, o ++ [b]), None)
  end.
Definition traffic (st : bytes * bytes) : nat := length st.1.
Lemma traffic_drops idle st :
  moved (copy_for idle st).1.1 <> 0%nat -> (traffic (copy_for idle st).1.2 < traffic st)%nat.
Proof. destruct st as [[|b c] o]; cbn; [done|lia]. Qed.
Definition header_in_time (d : Z) (c : bytes) : bool := true.
Definition tcp_dial (d : Z) (host : string) (port : Z) (n : unit) : option (result io_error bytes) * unit :=
  (Some (Ok []), n).
Definition hop_dial (d : Z) (ep : Endpoint string) (n : unit) : option (result TransportError bytes) * unit :=
  (Some (Ok []), n).

(** What the tunnel of that application carries, and an ingress's next hop. *)
Definition tunnel_bytes : bytes := header "::1" 80 ++ as_bytes "GET".
Definition hop : Endpoint string :=
  {| e_id := MkEndpointId "egress"; e_address := "192.0.2.9:443"; e_provider_tag := "dev";
     e_pinned_cert_sha256 := repeat Byte.x11 32 |}.
Definition relay (role : Role string) (c : bytes) :=
  handle_stream header_in_time tcp_dial hop_dial copy_for 10 c role default_limits tt.
End RelayDemo.

Section RelayWitnesses.
Import SocksDemo RelayDemo.

Lemma idle_session_ends_witness :
  copy_with_idle_timeout RelayDemo.copy_for 4 120000 (as_bytes "GET", []) =
    Some (Err (io_error_new TimedOut "relay session idle timeout"), ([], as_bytes "GET")) /\
  is_Some (copy_with_idle_timeout RelayDemo.copy_for 4 120000 (as_bytes "GET", [])).
Proof.
  split; [vm_compute; reflexivity|].
  exact (idle_session_ends RelayDemo.copy_for RelayDemo.traffic RelayDemo.traffic_drops 120000 (as_bytes "GET", [])).
Defined.

Lemma request_reaches_destination_witness :
  cr_result client_run = Ok tt /\
  exists fuel run c' out', handle_stream header_in_time tcp_dial hop_dial RelayDemo.copy_for fuel tunnel_bytes
      Combined default_limits tt = Some run /\
    sr_onward run = Some (Dialled "::1" 80 c' out').
Proof.
  refine (request_reaches_destination engine_connect split_session pump header_in_time tcp_dial hop_dial
    RelayDemo.copy_for RelayDemo.traffic (MkSock app_bytes []) [Byte.x00] Byte.x00 v6 80 (as_bytes "GET") tt tt
    direct_tls_ID tt tt tt (as_bytes "hello") [] tunnel_bytes Combined default_limits tt [] tt
    _ _ pump_ok _ traffic_drops _ eq_refl eq_refl eq_refl _ eq_refl (or_introl eq_refl) eq_refl).
  - intros b s. eexists. reflexivity.
  - intros b w. eexists. reflexivity.
  - intros sess tr tw [= <- <-]. reflexivity.
  - split; [cbn; lia|]. split; [reflexivity|]. unfold u16_max. lia.
  - intros tr' tw' E. vm_compute in E. injection E as _ <-. vm_compute. reflexivity.
Defined.
End RelayWitnesses.
