(* ===== verification/Tunnel.v ===== *)
(** * The tunnel as one run: client daemon, relays, service

    Puts the SOCKS server of the client daemon, a chain of relays and a service
    at its end together, in both directions: what the application sends arrives
    there and nothing else, and what comes back to the application is what was
    sent there.  Streams are scripted: a connection delivers (a first part of)
    what the program at its other end wrote. *)

From Stdlib Require Import Strings.Byte.
From S2P Require Import Prelude Bytes Io Serde Common Fs Failure Engine Model Render Server Deployment Service Anyhow Selftest.
From S2P Require Import Native Socks TestService Interop Relay.
Import Framing.

(** ** A session moves bytes both ways *)
Section SessionBothWays.
Context {Cl Out Addr Net : Type}.
Context `{HCR : AsyncRead Cl, HCW : AsyncWrite Cl} {DC : @Duplex Cl HCR HCW}.
Context `{HOR : AsyncRead Out, HOW : AsyncWrite Out} {DO : @Duplex Out HOR HOW}.
Context (header_in_time : Z -> Cl -> bool).
Context (tcp_dial : Z -> string -> Z -> Net -> option (result io_error Out) * Net).
Context (hop_dial : Z -> Endpoint Addr -> Net -> option (result TransportError Out) * Net).
Context (copy_for : Z -> Cl * Out -> list Poll * (Cl * Out) * option (result io_error unit)).
Notation session := (handle_stream header_in_time tcp_dial hop_dial copy_for).

(** Bytes moved from one stream to the other: taken off the front of what the
    first had to deliver, appended to what was written to the second. *)
Definition moves {A B : Type} `{AsyncRead A, AsyncWrite B} (x : bytes) (a a' : A) (b b' : B) : Prop :=
  remaining a = x ++ remaining a' /\ written b' = written b ++ x.

(** [copy_bidirectional] moves bytes in order in both directions. *)
Definition copies_both_ways : Prop := forall idle c o polls c' o' r,
  copy_for idle (c, o) = (polls, (c', o'), r) ->
  (exists up, moves up c c' o o') /\ (exists down, moves down o o' c c').

Lemma moves_trans {A B : Type} `{AsyncRead A, AsyncWrite B} x y (a a1 a2 : A) (b b1 b2 : B) :
  moves x a a1 b b1 -> moves y a1 a2 b1 b2 -> moves (x ++ y) a a2 b b2.
Proof. intros [E1 W1] [E2 W2]. split; [by rewrite E1, E2, app_assoc|by rewrite W2, W1, app_assoc]. Qed.

Lemma copies_both_in_order : copies_both_ways -> copies_in_order copy_for.
Proof.
  intros Hc idle c o. destruct (copy_for idle (c, o)) as [[polls [c' o']] r] eqn:E.
  by apply Hc in E as [(up & ? & ?) _]; exists up.
Qed.
Lemma copy_loop_both_ways fuel idle a c o r c' o' :
  copies_both_ways -> copy_loop copy_for fuel idle a (c, o) = Some (r, (c', o')) ->
  (exists up, moves up c c' o o') /\ (exists down, moves down o o' c c').
Proof.
  intros Hc. revert a c o. induction fuel as [|fuel IH]; intros a c o; [done|]. cbn [copy_loop].
  destruct (copy_for idle (c, o)) as [[polls [c1 o1]] dn] eqn:E. apply Hc in E as [[up Hu] [down Hd]].
  destruct dn as [r1|]; [intros [= <- <- <-]; eauto|]. destruct (_ =? _); [intros [= <- <- <-]; eauto|].
  intros [[up' Hu'] [down' Hd']]%IH. split; eexists; by eapply moves_trans.
Qed.

(** Neither reading the header nor forwarding it disturbs the other direction. *)
Lemma read_u8_keeps (c : Cl) b c' : read_u8 c = Ok (b, c') -> written c' = written c.
Proof.
  rewrite read_u8_exact. destruct (read_exact 1 c) as [[x y]|] eqn:E; [|done]. intros [= _ <-].
  by eapply read_keeps_written.
Qed.
Lemma read_u16_keeps (c : Cl) z c' : read_u16 c = Ok (z, c') -> written c' = written c.
Proof.
  rewrite read_u16_exact. destruct (read_exact 2 c) as [[x y]|] eqn:E; [|done]. intros [= _ <-].
  by eapply read_keeps_written.
Qed.
Lemma read_destination_keeps (c : Cl) host port c' :
  read_destination c = Ok (host, port, c') -> written c' = written c.
Proof.
  unfold read_destination. destruct (read_u8 c) as [[v c1]|] eqn:E1; cbn [mbind result_bind]; [|done].
  destruct (negb _); [done|]. destruct (read_u16 c1) as [[n c2]|] eqn:E2; cbn [mbind result_bind]; [|done].
  destruct (_ <? _); [done|]. destruct (read_exact _ c2) as [[hb c3]|] eqn:E3; cbn [mbind result_bind]; [|done].
  destruct (ok_or _ _) as [h|]; cbn [mbind result_bind]; [|done].
  destruct (read_u16 c3) as [[p c4]|] eqn:E4; cbn [mbind result_bind]; [|done]. intros [= _ _ <-].
  apply read_u8_keeps in E1. apply read_u16_keeps in E2. apply read_keeps_written in E3. apply read_u16_keeps in E4.
  congruence.
Qed.
Lemma write_destination_keeps (o : Out) host port o' :
  write_destination o host port = Ok o' -> remaining o' = remaining o.
Proof.
  unfold write_destination. destruct (encode_destination host port) as [b|]; cbn; [|done]. apply write_keeps_remaining.
Qed.

(** The stream a session that went onward opened. *)
Definition opened (limits : RelayLimits) (net : Net) (o : Onward (Cl := Cl) (Out := Out) (Addr := Addr)) (out0 : Out) : Prop :=
  match o with
  | Dialled host port _ _ => exists net', tcp_dial (dial_timeout limits) host port net = (Some (Ok out0), net')
  | Forwarded next_hop _ _ => exists net', hop_dial (dial_timeout limits) next_hop net = (Some (Ok out0), net')
  end.
Definition client_left (o : Onward (Cl := Cl) (Out := Out) (Addr := Addr)) : Cl :=
  match o with Dialled _ _ c _ | Forwarded _ c _ => c end.

(** What a session gives its client is a first part of what the stream it opened
    delivered. *)
Lemma session_returns fuel c role limits net run o out0 :
  copies_both_ways -> session fuel c role limits net = Some run -> sr_onward run = Some o ->
  opened limits net o out0 ->
  exists down, written (client_left o) = written c ++ down /\ down `prefix_of` remaining out0.
Proof.
  intros Hc. unfold handle_stream, ends.
  destruct (header_in_time _ c); cbn [negb]; [|by intros [= <-]].
  destruct (read_destination c) as [[[host port] c1]|e] eqn:Er; [|by intros [= <-]].
  apply read_destination_keeps in Er as W1. intros Hrun Ho Hop.
  destruct role as [| |ep].
  1,2: destruct (tcp_dial _ host port net) as [[[out|e]|] net1] eqn:Ed; [|by simplify_eq..];
    unfold copy_with_idle_timeout in Hrun;
    destruct (copy_loop _ _ _ _ _) as [[r [c2 out2]]|] eqn:El; [|done];
    apply copy_loop_both_ways in El as [_ (down & E & W)]; [|done];
    injection Hrun as <-; cbn in Ho; injection Ho as <-; destruct Hop as [net' Hop]; cbn;
    rewrite Ed in Hop; injection Hop as <- <-; exists down; rewrite W, W1, E; by (split; [|eexists]).
  destruct (hop_dial _ ep net) as [[[out|e]|] net1] eqn:Ed; [|by simplify_eq..].
  destruct (write_destination out host port) as [out1|e] eqn:Ew.
  - apply write_destination_keeps in Ew. unfold copy_with_idle_timeout in Hrun.
    destruct (copy_loop _ _ _ _ _) as [[r [c2 out2]]|] eqn:El; [|done].
    apply copy_loop_both_ways in El as [_ (down & E & W)]; [|done].
    injection Hrun as <-. cbn in Ho. injection Ho as <-. destruct Hop as [net' Hop]. cbn in Hop |- *.
    rewrite Ed in Hop. injection Hop as <- <-. exists down. rewrite W, W1, <-Ew, E. by (split; [|eexists]).
  - injection Hrun as <-. cbn in Ho. injection Ho as <-. exists []. cbn. rewrite W1, app_nil_r.
    split; [done|apply prefix_nil].
Qed.

(** ** A chain of relays and the service at its end

    [trip c n host port up answer back]: a relay with the client stream [c] and
    [n] more behind it; [up] is what the service at [host]:[port] was sent,
    [answer] what it sends, [back] what the first relay wrote to its client. *)
Inductive trip : Cl -> nat -> string -> Z -> bytes -> bytes -> bytes -> Prop :=
  | trip_egress fuel c role limits net run host port c' out out0 :
      written c = [] -> session fuel c role limits net = Some run ->
      sr_onward run = Some (Dialled host port c' out) ->
      opened limits net (Dialled host port c' out) out0 ->
      trip c 0 host port (written out) (remaining out0) (written c')
  | trip_ingress fuel c next_hop limits net run c' out out0 c2 n host port up answer back :
      written c = [] -> session fuel c (Ingress next_hop) limits net = Some run ->
      sr_onward run = Some (Forwarded next_hop c' out) ->
      (forall e, sr_result run <> Err (ForwardFailed e)) ->
      opened limits net (Forwarded next_hop c' out) out0 ->
      remaining c2 `prefix_of` written out -> trip c2 n host port up answer back ->
      remaining out0 `prefix_of` back ->
      trip c (S n) host port up answer (written c').

Lemma trip_route c n host port up answer back :
  trip c n host port up answer back -> route header_in_time tcp_dial hop_dial copy_for (remaining c) n host port up.
Proof. induction 1; [by eapply route_egress|by eapply route_ingress]. Qed.
Lemma trip_returns c n host port up answer back :
  copies_both_ways -> trip c n host port up answer back -> back `prefix_of` answer.
Proof.
  intros Hc. induction 1 as [fuel c role limits net run host port c' out out0 Hw Hrun Ho Hop|
    fuel c ep limits net run c' out out0 c2 n host port up answer back Hw Hrun Ho _ Hop _ _ IH Hback].
  - destruct (session_returns _ _ _ _ _ _ _ _ Hc Hrun Ho Hop) as (down & W & Hd). cbn [client_left] in W. by rewrite W, Hw.
  - destruct (session_returns _ _ _ _ _ _ _ _ Hc Hrun Ho Hop) as (down & W & Hd). cbn [client_left] in W. rewrite W, Hw.
    by do 2 (etrans; [eassumption|]).
Qed.
End SessionBothWays.

(** ** From the application to the service and back *)
Section TunnelBothWays.
Context {S TR TW Sess Eng Net : Type}.
Context `{HR : AsyncRead S, HW : AsyncWrite S} {D : @Duplex S HR HW}.
Context `{HTR : AsyncRead TR} `{HTW : AsyncWrite TW} {HTWL : AsyncWriteLaws TW}.
Context (engine_connect : string -> Z -> Eng -> Net ->
  outcome (result EngineError (TransportId * Sess)) * Eng * Net).
Context (split_session : Sess -> TR * TW) (pump : S -> TR -> TW -> S * TR * TW).
Context {Cl Out Addr RNet : Type}.
Context `{HCR : AsyncRead Cl, HCW : AsyncWrite Cl} {DC : @Duplex Cl HCR HCW}.
Context `{HOR : AsyncRead Out, HOW : AsyncWrite Out} {DO : @Duplex Out HOR HOW}.
Context (header_in_time : Z -> Cl -> bool).
Context (tcp_dial : Z -> string -> Z -> RNet -> option (result io_error Out) * RNet).
Context (hop_dial : Z -> Endpoint Addr -> RNet -> option (result TransportError Out) * RNet).
Context (copy_for : Z -> Cl * Out -> list Poll * (Cl * Out) * option (result io_error unit)).
Notation client := (handle_client engine_connect split_session pump).
Notation tripped := (trip header_in_time tcp_dial hop_dial copy_for).

(** C7: The tunnel is transparent.  Whatever the SOCKS client sends, if its session
    opened a tunnel whose bytes (as many as arrived) were relayed over any number
    of ingress hops to a relay that dials, then that relay dialled exactly the
    address and port of the client's CONNECT request; what it sent there is a
    first part of the client's payload, in order and with nothing added; and what
    the client was sent is the two SOCKS answers followed by a first part of what
    the service at that address sent. *)
Theorem tunnel_transparent (s : S) eng net t tr tw c n host port up answer back :
  pump_copies pump -> sessions_fresh split_session ->
  dials_fresh tcp_dial hop_dial -> copies_both_ways copy_for ->
  (forall h p e n, (engine_connect h p e n).1.1 <> Panicked) ->
  cr_result (client s eng net) = Ok tt -> cr_tunnel (client s eng net) = Some (t, tr, tw) ->
  remaining c `prefix_of` written tw -> tripped c n host port up answer back ->
  (forall h p sess eng' net' tr0 tw0, engine_connect h p eng net = (Returned (Ok (t, sess)), eng', net') ->
    split_session sess = (tr0, tw0) -> remaining tr0 `prefix_of` back) ->
  exists methods rsv x payload down,
    remaining s = connect_message methods rsv x port ++ payload /\ host = addr_host x /\
    up `prefix_of` payload /\
    written (cr_socket (client s eng net)) = written s ++ [x05; x00] ++ reply x00 ++ down /\
    down `prefix_of` answer.
Proof.
  intros Hpump Hfresh Hd Hc Hp Hres Htun Hrec Htrip Hback.
  pose proof (socks_session_spec engine_connect split_session pump s eng net Hpump Hp) as Hspec.
  unfold session_spec in Hspec. rewrite Hres in Hspec.
  destruct Hspec as (methods & rsv & x & p & rest & t' & sess & tr' & tw' & up' & down & Erem & Hv & He & Hsp &
    (tr2 & tw2 & Etun & Hw) & Hup & Hout & Hdown).
  rewrite Htun in Etun. injection Etun as <- <- <-. rewrite (Hfresh _ _ _ Hsp) in Hw. cbn [app] in Hw.
  destruct (route_faithful _ _ _ _ _ _ _ _ _ Hd (copies_both_in_order _ Hc) (trip_route _ _ _ _ _ _ _ _ _ _ _ Htrip))
    as (rest' & Hv' & Einp & Hup').
  rewrite Hw in Hrec. destruct Hv as (_ & Hx & Hport).
  destruct (prefix_of_header_app _ _ _ _ _ _ _ (addr_host_valid x p Hx Hport) Hv' Einp Hrec) as (-> & -> & Hr).
  exists methods, rsv, x, rest, down. split_and!; try done.
  - by do 2 (etrans; [eassumption|]).
  - etrans; [exact Hdown|]. etrans; [exact (Hback _ _ _ _ _ _ _ He Hsp)|]. exact (trip_returns _ _ _ _ _ _ _ _ _ _ _ Hc Htrip).
Qed.

(** *** A network that delivers everything

    Writes succeed, the copies run until both sides are at their end, a stream
    with any contents can be accepted, and for any bytes there is a state of the
    network in which the dialled side will send them. *)
Record delivers (accepted : bytes -> Cl) (limits : RelayLimits) : Prop := {
  dl_writes (b : bytes) (s : S) : exists s', write_all b s = Ok s';
  dl_tunnel_writes (b : bytes) (w : TW) : exists w', write_all b w = Ok w';
  dl_relay_writes (b : bytes) (o : Out) : exists o', write_all b o = Ok o';
  dl_pump s tr tw s' tr' tw' : pump s tr tw = (s', tr', tw') ->
    written tw' = written tw ++ remaining s /\ written s' = written s ++ remaining tr;
  dl_copy idle c o : exists polls c' o', copy_for idle (c, o) = (polls, (c', o'), Some (Ok tt)) /\
    written o' = written o ++ remaining c /\ written c' = written c ++ remaining o;
  dl_accepted b : remaining (accepted b) = b /\ written (accepted b) = [];
  dl_in_time b : header_in_time (idle_timeout limits) (accepted b) = true;
  dl_tcp host port answer : exists net out net',
    tcp_dial (dial_timeout limits) host port net = (Some (Ok out), net') /\ remaining out = answer /\ written out = [];
  dl_hop next_hop back : exists net out net',
    hop_dial (dial_timeout limits) next_hop net = (Some (Ok out), net') /\ remaining out = back /\ written out = []
}.

Section Delivered.
Context (accepted : bytes -> Cl) (limits : RelayLimits) (Hdl : delivers accepted limits).

(** Over any number of hops the payload arrives and the answer comes back, each
    as a whole. *)
Lemma trip_delivered (hop : Endpoint Addr) n host port payload answer :
  valid_destination host port ->
  tripped (accepted (header host port ++ payload)) n host port payload answer answer.
Proof.
  intros Hv. set (c := accepted _). destruct (dl_accepted _ _ Hdl (header host port ++ payload)) as [Hr Hw].
  pose proof (dl_in_time _ _ Hdl (header host port ++ payload)) as Htime.
  fold c in Hr, Hw, Htime. destruct (read_header c host port payload Hv Hr) as (c1 & Hread & Hr1).
  apply read_destination_keeps in Hread as Hw1. rewrite Hw in Hw1.
  induction n as [|n IH].
  - destruct (dl_tcp _ _ Hdl host port answer) as (net & out & net' & Hd & Hra & Hwa).
    destruct (dl_copy _ _ Hdl (idle_timeout limits) c1 out) as (polls & c2 & out2 & Hcopy & Ho2 & Hc2).
    assert (handle_stream header_in_time tcp_dial hop_dial copy_for 1 c Egress limits net =
      Some (Build_SessionRun (Ok tt) (Some (Dialled host port c2 out2)) net')) as Hrun.
    { unfold handle_stream, copy_with_idle_timeout. cbn [copy_loop].
      by rewrite Htime, Hread, Hd, Hcopy. }
    pose proof (trip_egress _ _ _ _ _ c Egress limits net _ host port c2 out2 out Hw Hrun eq_refl (ex_intro _ net' Hd)) as Ht.
    by rewrite Ho2, Hc2, Hwa, Hr1, Hw1, Hra in Ht.
  - destruct (dl_hop _ _ Hdl hop answer) as (net & out & net' & Hd & Hra & Hwa).
    destruct (dl_relay_writes _ _ Hdl (header host port) out) as [out1 Hout1].
    apply write_all_ok in Hout1 as Hwo. apply write_keeps_remaining in Hout1 as Hro.
    destruct (dl_copy _ _ Hdl (idle_timeout limits) c1 out1) as (polls & c2 & out2 & Hcopy & Ho2 & Hc2).
    assert (write_destination out host port = Ok out1) as Hwd.
    { unfold write_destination. rewrite encode_header.
      destruct Hv as (_ & Hl & _). by rewrite (proj2 (Z.ltb_ge _ _) Hl). }
    assert (handle_stream header_in_time tcp_dial hop_dial copy_for 1 c (Ingress hop) limits net =
      Some (Build_SessionRun (Ok tt) (Some (Forwarded hop c2 out2)) net')) as Hrun.
    { unfold handle_stream, copy_with_idle_timeout. cbn [copy_loop].
      by rewrite Htime, Hread, Hd, Hwd, Hcopy. }
    assert (remaining c `prefix_of` written out2) as Hpre by by rewrite Ho2, Hwo, Hwa, Hr1, Hr.
    assert (remaining out `prefix_of` answer) as Hback by by rewrite Hra.
    pose proof (trip_ingress _ _ _ _ _ c hop limits net _ c2 out2 out c n host port payload answer answer Hw Hrun eq_refl
      ltac:(done) (ex_intro _ net' Hd) Hpre IH Hback) as Ht.
    by rewrite Hc2, Hw1, Hro, Hra in Ht.
Qed.

(** C25: The vertical slice works.  On a network that delivers everything, a
    well-formed CONNECT request of an application whose engine finds a session
    leads, over any number of relays, to a service at the requested address that
    receives the application's whole payload, and the application receives the
    two SOCKS answers followed by the service's whole answer. *)
Theorem vertical_slice (hop : Endpoint Addr) n (s : S) methods rsv x port payload eng net t sess eng' net' tr tw answer :
  valid_request methods x port -> remaining s = connect_message methods rsv x port ++ payload ->
  engine_connect (addr_host x) port eng net = (Returned (Ok (t, sess)), eng', net') ->
  split_session sess = (tr, tw) -> written tw = [] -> remaining tr = answer ->
  exists c tr' tw', tripped c n (addr_host x) port payload answer answer /\
    cr_result (client s eng net) = Ok tt /\
    cr_tunnel (client s eng net) = Some (t, tr', tw') /\ written tw' = remaining c /\
    written (cr_socket (client s eng net)) = written s ++ [x05; x00] ++ reply x00 ++ answer.
Proof.
  intros Hv Hr He Hsp Hw Ha.
  destruct (socks_client_run engine_connect split_session pump s methods rsv x port payload eng net t sess eng' net' tr tw
    (dl_writes _ _ Hdl) (dl_tunnel_writes _ _ Hdl) Hv Hr He Hsp) as (s2 & tw1 & Hrun & Hr2 & Hw2 & Hw1).
  destruct (pump s2 tr tw1) as [[s3 tr3] tw3] eqn:Ep. apply (dl_pump _ _ Hdl) in Ep as [Hup Hdn].
  exists (accepted (header (addr_host x) port ++ payload)), tr3, tw3. rewrite Hrun. cbn. split_and!; try done.
  - apply trip_delivered; [exact hop|]. destruct Hv as (_ & Hx & Hp). by apply addr_host_valid.
  - by rewrite Hup, Hw1, Hw, Hr2, (proj1 (dl_accepted _ _ Hdl _)).
  - by rewrite Hdn, Hw2, Ha, <-!app_assoc.
Qed.
End Delivered.
End TunnelBothWays.

(** ** Witnesses: the slice in memory *)
Module Slice.
Import SocksDemo.
(** A socket of the service, which also knows whether it was shut down. *)
Record RawSock := { raw : Sock; shut : bool }.
#[export] Instance raw_sock : RawSocket RawSock := {|
  received s := inbox (raw s);
  sent s := outbox (raw s);
  closed := shut;
  raw_read n s := (Ok (take n (inbox (raw s))), {| raw := MkSock (drop n (inbox (raw s))) (outbox (raw s)); shut := shut s |});
  raw_write_all b s := (Ok tt, {| raw := MkSock (inbox (raw s)) (outbox (raw s) ++ b); shut := shut s |});
  raw_shutdown s := (Ok tt, {| raw := raw s; shut := true |})
|}.
#[export] Instance raw_sock_laws : RawSocketLaws RawSock.
Proof.
  split.
  - by intros n s r s' [= <- <-].
  - intros b s r s' [= <- <-]. by exists b.
  - by intros s r s' [= <- <-].
Qed.
(** What the service answers to the bytes of a connection. *)
Definition serve (request : bytes) : bytes := sent (answer_connection {| raw := MkSock request []; shut := false |}).
Lemma serve_response request : serve request = response_head body ++ body.
Proof. unfold serve. by destruct (answer_complete {| raw := MkSock request []; shut := false |}) as [-> _]. Qed.

(** The relays' side: the state of the network is what the next dialled stream
    will deliver, and a copy moves everything. *)
Definition tcp_dial (d : Z) (host : string) (port : Z) (net : bytes) : option (result io_error Sock) * bytes :=
  (Some (Ok (MkSock net [])), net).
Definition hop_dial (d : Z) (ep : Endpoint string) (net : bytes) : option (result TransportError Sock) * bytes :=
  (Some (Ok (MkSock net [])), net).
Definition copy_for (idle : Z) (st : Sock * Sock) : list Poll * (Sock * Sock) * option (result io_error unit) :=
  let '(c, o) := st in
  ([PollRead (length (inbox c)); PollWrite (length (inbox o))],
   (MkSock [] (outbox c ++ inbox o), MkSock [] (outbox o ++ inbox c)), Some (Ok tt)).
Definition header_in_time (d : Z) (c : Sock) : bool := true.
Definition split_session (sess : bytes) : bytes * bytes := (sess, []).
(** An engine that always finds the one relay, over whose session [back] comes. *)
Definition engine_connect (back : bytes) (h : string) (p : Z) (e : unit) (n : unit)
    : outcome (result EngineError (TransportId * bytes)) * unit * unit :=
  (Returned (Ok (direct_tls_ID, back)), tt, tt).

Lemma copies_ok : copies_both_ways copy_for.
Proof.
  intros idle c o polls c' o' r. unfold copy_for. intros [= <- <- <- <-].
  split; [exists (inbox c)|exists (inbox o)]; split; cbn; by rewrite ?app_nil_r.
Qed.
Lemma dials_ok : dials_fresh tcp_dial hop_dial.
Proof. split; [intros d h p n o n' E|intros d ep n o n' E]; by injection E as <-. Qed.
Lemma sessions_ok : sessions_fresh split_session.
Proof. by intros sess tr tw [= <- <-]. Qed.
Lemma delivers_ok : delivers pump header_in_time tcp_dial hop_dial copy_for (fun b => MkSock b []) default_limits.
Proof.
  split; cbn.
  - intros b s. by eexists.
  - intros b w. by eexists.
  - intros b o. by eexists.
  - by intros s tr tw s' tr' tw' [= <- <- <-].
  - intros idle c o. by do 3 eexists.
  - done.
  - done.
  - intros host port answer. by exists answer, (MkSock answer []), answer.
  - intros hop back. by exists back, (MkSock back []), back.
Qed.

(** An application asking for the service, and the request it sends there. *)
Definition request : bytes := http_request "test-service" "/".
Definition app_says : Sock := MkSock (connect_message [x00] x00 (AddrDomain "test-service") 8081 ++ request) [].
Definition run := handle_client (engine_connect (serve request)) split_session pump app_says tt tt.
End Slice.

Section SliceWitnesses.
Import SocksDemo Slice.

Lemma slice_trip (n : nat) :
  trip header_in_time tcp_dial hop_dial copy_for (MkSock (header "test-service" 8081 ++ request) []) n
    "test-service" 8081 request (serve request) (serve request).
Proof.
  apply (trip_delivered pump header_in_time tcp_dial hop_dial copy_for (fun b => MkSock b []) default_limits delivers_ok
    RelayDemo.hop n "test-service" 8081 request (serve request)).
  split_and!; vm_compute; done.
Qed.

Lemma tunnel_transparent_witness :
  cr_result run = Ok tt /\
  exists methods rsv x payload down,
    remaining app_says = connect_message methods rsv x 8081 ++ payload /\ "test-service" = addr_host x /\
    request `prefix_of` payload /\
    written (cr_socket run) = written app_says ++ [x05; x00] ++ reply x00 ++ down /\
    down `prefix_of` serve request.
Proof.
  assert (cr_result run = Ok tt) as Hok by (vm_compute; reflexivity). split; [exact Hok|].
  refine (tunnel_transparent (engine_connect (serve request)) split_session pump header_in_time tcp_dial hop_dial copy_for
    app_says tt tt direct_tls_ID [] (header "test-service" 8081 ++ request)
    (MkSock (header "test-service" 8081 ++ request) []) 2 "test-service" 8081 request (serve request) (serve request)
    pump_ok sessions_ok dials_ok copies_ok _ Hok _ _ (slice_trip 2) _).
  - intros h p e n. discriminate.
  - vm_compute. reflexivity.
  - reflexivity.
  - intros h p sess eng' net' tr0 tw0 [= <- _ _] [= <- _]. reflexivity.
Defined.

Lemma vertical_slice_witness :
  http_ok (serve request) = true /\
  exists c tr' tw', trip header_in_time tcp_dial hop_dial copy_for c 2 "test-service" 8081 request (serve request) (serve request) /\
    cr_result run = Ok tt /\ cr_tunnel run = Some (direct_tls_ID, tr', tw') /\ written tw' = remaining c /\
    written (cr_socket run) = written app_says ++ [x05; x00] ++ reply x00 ++ serve request.
Proof.
  split; [by rewrite serve_response, response_ok|].
  refine (vertical_slice (engine_connect (serve request)) split_session pump header_in_time tcp_dial hop_dial copy_for
    (fun b => MkSock b []) default_limits delivers_ok RelayDemo.hop 2 app_says [x00] x00 (AddrDomain "test-service") 8081
    request tt tt direct_tls_ID (serve request) tt tt (serve request) [] (serve request) _ eq_refl eq_refl eq_refl eq_refl eq_refl).
  split; [cbn; lia|]. split; [split; vm_compute; done|]. vm_compute. done.
Defined.

(** The probe of the self-tests succeeds through the daemon and the relays
    against the test service, whatever it asks for. *)
Theorem slice_probe_succeeds host port target :
  is_str host -> 0 < str_len host <= 255 -> 0 <= port <= u16_max ->
  socks5_http_get_succeeds (Some (daemon_peer (engine_connect (serve (http_request host target))) split_session pump to_app tt tt))
    host port target = true.
Proof.
  intros Hu Hl Hp. set (answer := serve _). set (peer := daemon_peer _ _ _ _ _ _).
  assert (valid_request [x00] (AddrDomain host) port) as Hv by (split; [cbn; lia|split; [split; [done|lia]|done]]).
  assert (forall rest, p_sends peer (socks_greeting ++ socks_connect (as_bytes host) port ++ rest) =
    [x05; x00] ++ reply x00 ++ answer) as Hout.
  { intros rest. cbn [peer daemon_peer p_sends].
    destruct (socks_client_run (engine_connect answer) split_session pump
      (to_app (socks_greeting ++ socks_connect (as_bytes host) port ++ rest)) [x00] x00 (AddrDomain host) port rest tt tt
      direct_tls_ID answer tt tt answer [])
      as (s2 & tw1 & Hrun & _ & Hw2 & _); try done.
    - intros b s. by eexists.
    - intros b w. by eexists.
    - apply probe_is_request.
    - rewrite Hrun. cbn in Hw2 |- *. by rewrite Hw2. }
  destruct (probe_gets_data peer host port target answer) as [s Es].
  - split; try done.
    + exists answer. pose proof (Hout []) as E. by rewrite app_nil_r in E.
    + apply Hout.
  - rewrite length_as_bytes. unfold str_len in Hl. lia.
  - unfold socks5_http_get_succeeds. cbn [mbind option_bind]. rewrite Es. unfold answer. by rewrite serve_response, response_ok.
Qed.
Lemma slice_probe_succeeds_witness :
  socks5_http_get_succeeds (Some (daemon_peer (engine_connect (serve (http_request "localhost" "/"))) split_session pump to_app tt tt))
    "localhost" 80 "/" = true.
Proof. apply slice_probe_succeeds; vm_compute; done. Defined.
End SliceWitnesses.
