(* ===== verification/Listener.v ===== *)
(** * services/relay-agent: the accept loops

    [serve_tls_on] and [serve_quic_on] of services/relay-agent/src/lib.rs as
    transition systems.  The TLS listener runs against a millisecond clock: a
    connection holds a slot of the semaphore from its acceptance to the end of
    its task, in the phase its task is in, and each [tokio::time::timeout] of
    the code is the moment at which that phase is cut off.  Events are what the
    network, the peers and the clock do. *)

From S2P Require Import Prelude Bytes Io Common Relay.

(** ** The TLS listener *)

(** Where a connection's task is; times are when the phase (or, while copying,
    the current idle window) began.  [before] and [activity] are the counter at
    the start of the window and now. *)
Inductive Phase :=
  | Handshaking (since : Z)
  | ReadingHeader (since : Z)
  | Dialing (since : Z)
  | Forwarding
  | Copying (window_start before activity : Z).
Record Conn := { conn_id : nat; conn_phase : Phase }.

Record Listener := {
  now : Z;
  backoff_until : Z;
  stopped : option io_error;
  slots : list Conn;
  next_id : nat;
  turned_away : nat
}.
Definition listener_new : Listener :=
  {| now := 0; backoff_until := 0; stopped := None; slots := []; next_id := 0; turned_away := 0 |}.

Inductive Event :=
  | Accepted
  | AcceptFailed (e : io_error)
  | Millisecond
  | TlsDone (i : nat)
  | HeaderDone (i : nat)
  | DialDone (i : nat)
  | ForwardDone (i : nat)
  | Polled (i : nat) (p : Poll)
  | SessionEnds (i : nat).

Definition with_slots (st : Listener) (l : list Conn) : Listener :=
  {| now := now st; backoff_until := backoff_until st; stopped := stopped st; slots := l;
     next_id := next_id st; turned_away := turned_away st |}.

(** The timeouts that are due at [t]. *)
Definition expire (limits : RelayLimits) (t : Z) (c : Conn) : option Conn :=
  match conn_phase c with
  | Handshaking since => if handshake_timeout limits <=? t - since then None else Some c
  | ReadingHeader since => if idle_timeout limits <=? t - since then None else Some c
  | Dialing since => if dial_timeout limits <=? t - since then None else Some c
  | Forwarding => Some c
  | Copying window_start before activity =>
    if idle_timeout limits <=? t - window_start then
      if activity =? before then None
      else Some {| conn_id := conn_id c; conn_phase := Copying t activity activity |}
    else Some c
  end.

(** One connection's task goes on; [None] when it is not in that phase. *)
Definition advance (ingress : bool) (t : Z) (ev : Event) (ph : Phase) : option Phase :=
  match ev, ph with
  | TlsDone _, Handshaking _ => Some (ReadingHeader t)
  | HeaderDone _, ReadingHeader _ => Some (Dialing t)
  | DialDone _, Dialing _ => Some (if ingress then Forwarding else Copying t 0 0)
  | ForwardDone _, Forwarding => Some (Copying t 0 0)
  | Polled _ p, Copying w before activity => Some (Copying w before (bump activity p))
  | _, _ => None
  end.

Fixpoint update (i : nat) (f : Phase -> option Phase) (l : list Conn) : option (list Conn) :=
  match l with
  | [] => None
  | c :: l =>
    if (conn_id c =? i)%nat then
      ph ← f (conn_phase c); Some ({| conn_id := conn_id c; conn_phase := ph |} :: l)
    else l ← update i f l; Some (c :: l)
  end.

Definition release (i : nat) (l : list Conn) : list Conn := filter (fun c => conn_id c <> i) l.

Definition step (ingress : bool) (limits : RelayLimits) (st : Listener) (ev : Event) : option Listener :=
  match ev with
  | Accepted =>
    if negb (bool_decide (stopped st = None)) || (now st <? backoff_until st) then None
    else if (length (slots st) <? max_connections limits)%nat then
      Some {| now := now st; backoff_until := backoff_until st; stopped := stopped st;
              slots := slots st ++ [{| conn_id := next_id st; conn_phase := Handshaking (now st) |}];
              next_id := S (next_id st); turned_away := turned_away st |}
    else
      Some {| now := now st; backoff_until := backoff_until st; stopped := stopped st; slots := slots st;
              next_id := next_id st; turned_away := S (turned_away st) |}
  | AcceptFailed e =>
    if negb (bool_decide (stopped st = None)) || (now st <? backoff_until st) then None
    else if is_transient_accept_error e then
      Some {| now := now st; backoff_until := now st + 100; stopped := None; slots := slots st;
              next_id := next_id st; turned_away := turned_away st |}
    else
      Some {| now := now st; backoff_until := backoff_until st; stopped := Some e; slots := slots st;
              next_id := next_id st; turned_away := turned_away st |}
  | Millisecond =>
    Some {| now := now st + 1; backoff_until := backoff_until st; stopped := stopped st;
            slots := omap (expire limits (now st + 1)) (slots st);
            next_id := next_id st; turned_away := turned_away st |}
  | SessionEnds i =>
    if bool_decide (i ∈ conn_id <$> slots st) then Some (with_slots st (release i (slots st))) else None
  | TlsDone i | HeaderDone i | DialDone i | ForwardDone i | Polled i _ =>
    l ← update i (advance ingress (now st) ev) (slots st); Some (with_slots st l)
  end.

Fixpoint run (ingress : bool) (limits : RelayLimits) (st : Listener) (evs : list Event) : option Listener :=
  match evs with
  | [] => Some st
  | ev :: evs => st ← step ingress limits st ev; run ingress limits st evs
  end.

(** ** Facts *)
Section ListenerFacts.
Context (ingress : bool) (limits : RelayLimits).

Definition limits_positive : Prop :=
  0 < idle_timeout limits /\ 0 < dial_timeout limits /\ 0 < handshake_timeout limits.
Context (Hpos : limits_positive).

(** A phase has begun and its timeout is still to come. *)
Definition timely (t : Z) (ph : Phase) : Prop :=
  match ph with
  | Handshaking since => since <= t < since + handshake_timeout limits
  | ReadingHeader since => since <= t < since + idle_timeout limits
  | Dialing since => since <= t < since + dial_timeout limits
  | Forwarding => True
  | Copying w before activity =>
      w <= t < w + idle_timeout limits /\ 0 <= before < 2 ^ 64 /\ 0 <= activity < 2 ^ 64
  end.

Definition wf (st : Listener) : Prop :=
  (length (slots st) <= max_connections limits)%nat /\ NoDup (conn_id <$> slots st) /\
  Forall (fun c => (conn_id c < next_id st)%nat /\ timely (now st) (conn_phase c)) (slots st) /\
  match stopped st with Some e => is_transient_accept_error e = false | None => True end.

Lemma update_inv i f l l' :
  update i f l = Some l' ->
  exists l1 c l2 ph, l = l1 ++ c :: l2 /\ conn_id c = i /\ f (conn_phase c) = Some ph /\
    l' = l1 ++ {| conn_id := i; conn_phase := ph |} :: l2.
Proof.
  revert l'. induction l as [|c l IH]; intros l'; cbn [update]; [done|].
  destruct (Nat.eqb_spec (conn_id c) i) as [E|E].
  - destruct (f (conn_phase c)) as [ph|] eqn:Ef; cbn; [|done]. intros [= <-].
    exists [], c, l, ph. by rewrite <-E.
  - destruct (update i f l) as [l0|]; cbn; [|done]. intros [= <-].
    destruct (IH l0 eq_refl) as (l1 & c0 & l2 & ph & -> & Hc & Hf & ->).
    by exists (c :: l1), c0, l2, ph.
Qed.

Lemma conn_unique l c c' :
  NoDup (conn_id <$> l) -> c ∈ l -> c' ∈ l -> conn_id c' = conn_id c -> c' = c.
Proof.
  intros Hnd [k Hk]%list_elem_of_lookup [k' Hk']%list_elem_of_lookup E.
  assert (k' = k) as ->; [|congruence]. eapply (NoDup_lookup _ _ _ (conn_id c)); [exact Hnd| |].
  - by rewrite list_lookup_fmap, Hk', <-E.
  - by rewrite list_lookup_fmap, Hk.
Qed.

Lemma expire_id t c c' : expire limits t c = Some c' -> conn_id c' = conn_id c.
Proof. unfold expire. repeat case_match; intros [= <-]; done. Qed.

Lemma expire_timely t c c' :
  timely t (conn_phase c) -> expire limits (t + 1) c = Some c' -> timely (t + 1) (conn_phase c').
Proof.
  destruct Hpos as (H1 & H2 & H3). unfold expire, timely.
  destruct (conn_phase c) as [s|s|s| |w b a] eqn:Ep; intros Ht.
  1-3: destruct (_ <=? _) eqn:El; [done|]; intros [= <-]; rewrite Ep; lia.
  - intros [= <-]. by rewrite Ep.
  - destruct (_ <=? _) eqn:El; [|intros [= <-]; rewrite Ep; lia].
    destruct (_ =? _); [done|]. intros [= <-]. cbn. lia.
Qed.

Lemma expire_ids t l : conn_id <$> omap (expire limits t) l `sublist_of` conn_id <$> l.
Proof.
  induction l as [|c l IH]; [done|]. cbn [omap list_omap fmap list_fmap].
  destruct (expire limits t c) as [c'|] eqn:E; [|by apply sublist_cons].
  cbn. rewrite (expire_id _ _ _ E). by apply sublist_skip.
Qed.

Lemma advance_timely t ev ph ph' :
  timely t ph -> advance ingress t ev ph = Some ph' -> timely t ph'.
Proof.
  destruct Hpos as (H1 & H2 & H3). unfold advance, timely.
  destruct ev, ph; try done; intros Ht [= <-]; [lia| lia | destruct ingress; [done|lia] | lia | ].
  pose proof (bump_range activity [p]) as Hb. cbn in Hb. lia.
Qed.

Lemma step_wf st ev st' : wf st -> step ingress limits st ev = Some st' -> wf st'.
Proof.
  intros (Hlen & Hnd & Hall & Hstop).
  assert (forall i f, (forall ph ph', timely (now st) ph -> f ph = Some ph' -> timely (now st) ph') ->
    (l ← update i f (slots st); Some (with_slots st l)) = Some st' -> wf st') as Hupd.
  { intros i f Hf. destruct (update i f (slots st)) as [l|] eqn:Eu; cbn; [|done]. intros [= <-].
    apply update_inv in Eu as (l1 & c & l2 & ph & El & <- & Hph & ->).
    rewrite El in Hlen, Hnd, Hall. rewrite Forall_app, Forall_cons in Hall.
    destruct Hall as (Ha1 & [Ha2 Ht] & Ha3). unfold wf. cbn. split_and!; [| | |done].
    - rewrite length_app in *. done.
    - rewrite fmap_app in *. done.
    - rewrite Forall_app, Forall_cons. split_and!; [done|done| |done]. by eapply Hf. }
  destruct ev; cbn [step]; try (apply Hupd; intros ?? Hph; by apply advance_timely).
  - destruct (_ || _); [done|]. destruct (Nat.ltb_spec (length (slots st)) (max_connections limits)); intros [= <-]; [|done].
    unfold wf. cbn. rewrite length_app, fmap_app. cbn. split_and!; [lia| | |done].
    + apply NoDup_app. split_and!; [done| |apply NoDup_singleton].
      intros i (c & -> & Hc)%list_elem_of_fmap Hi%list_elem_of_singleton.
      rewrite Forall_forall in Hall. destruct (Hall c Hc). lia.
    + apply Forall_app. split.
      * eapply Forall_impl; [exact Hall|]. cbn. intros c [? ?]. split; [lia|done].
      * apply Forall_singleton. destruct Hpos as (? & ? & ?). cbn. lia.
  - destruct (_ || _); [done|]. destruct (is_transient_accept_error e) eqn:Et; by intros [= <-].
  - intros [= <-]. pose proof (expire_ids (now st + 1) (slots st)) as Hs. unfold wf. cbn. split_and!; [| | |done].
    + apply sublist_length in Hs. rewrite !length_fmap in Hs. lia.
    + by eapply sublist_NoDup.
    + apply Forall_forall. intros c' (c & Hc & E)%list_elem_of_omap.
      rewrite Forall_forall in Hall. destruct (Hall c Hc) as [Hi Ht].
      rewrite (expire_id _ _ _ E). split; [done|]. by eapply expire_timely.
  - case_bool_decide; [|done]. intros [= <-]. unfold wf, release. cbn.
    pose proof (sublist_filter (fun c => conn_id c <> i) (slots st)) as Hs. split_and!; [| | |done].
    + apply sublist_length in Hs. lia.
    + eapply sublist_NoDup; [exact Hnd|]. by apply fmap_sublist.
    + rewrite Forall_forall in *. intros c [_ Hc]%list_elem_of_filter. by apply Hall.
Qed.

Lemma wf_new : wf listener_new.
Proof. split_and!; cbn; [lia|constructor|constructor|done]. Qed.

Lemma run_wf st evs st' : wf st -> run ingress limits st evs = Some st' -> wf st'.
Proof.
  revert st. induction evs as [|ev evs IH]; intros st Hst; cbn [run]; [by intros [= <-]|].
  destruct (step _ _ st ev) as [st1|] eqn:E; cbn; [|done]. apply IH. by eapply step_wf.
Qed.

(** C27: The relay's slots are bounded and its deadlines are kept.  At every moment
    of every history of the listener, at most [max_connections] connections hold
    a slot; each one is within the timeout of its phase (handshake, header, dial,
    or the idle window of the data phase); and the listener has stopped only on
    an error that is not transient. *)
Theorem slots_bounded evs st :
  run ingress limits listener_new evs = Some st ->
  (length (slots st) <= max_connections limits)%nat /\ NoDup (conn_id <$> slots st) /\
  Forall (fun c => timely (now st) (conn_phase c)) (slots st) /\
  match stopped st with Some e => is_transient_accept_error e = false | None => True end.
Proof.
  intros (Hl & Hn & Hf & Hs)%(run_wf _ _ _ wf_new). split_and!; try done.
  eapply Forall_impl; [exact Hf|]. by intros c [_ ?].
Qed.

(** *** Silence frees a slot *)
Definition about (ev : Event) : option nat :=
  match ev with
  | TlsDone i | HeaderDone i | DialDone i | ForwardDone i | SessionEnds i | Polled i _ => Some i
  | _ => None
  end.
Fixpoint ticks (evs : list Event) : Z :=
  match evs with
  | [] => 0
  | Millisecond :: evs => 1 + ticks evs
  | _ :: evs => ticks evs
  end.

(** When a phase ends at the latest if nothing more happens in it. *)
Definition due (ph : Phase) : Z :=
  match ph with
  | Handshaking since => since + handshake_timeout limits
  | ReadingHeader since => since + idle_timeout limits
  | Dialing since => since + dial_timeout limits
  | Forwarding => 0
  | Copying w before activity =>
      if activity =? before then w + idle_timeout limits else w + 2 * idle_timeout limits
  end.
Definition silence_bound : Z :=
  Z.max (handshake_timeout limits) (Z.max (dial_timeout limits) (2 * idle_timeout limits)).

Lemma due_bound t ph : timely t ph -> ph <> Forwarding -> t < due ph <= t + silence_bound.
Proof.
  destruct Hpos as (H1 & H2 & H3). unfold timely, due, silence_bound.
  destruct ph; try done; intros; [lia..|]. destruct (_ =? _); lia.
Qed.

Lemma expire_due t c c' :
  timely t (conn_phase c) -> conn_phase c <> Forwarding -> expire limits (t + 1) c = Some c' ->
  conn_phase c' <> Forwarding /\ due (conn_phase c') <= due (conn_phase c).
Proof.
  unfold expire, timely. destruct (conn_phase c) as [s|s|s| |w b a] eqn:Ep; intros Ht Hf; [..|done|].
  1-3: destruct (_ <=? _); [done|]; intros [= <-]; rewrite Ep; split; [done|lia].
  destruct (_ <=? _) eqn:El; [|intros [= <-]; rewrite Ep; split; [done|lia]].
  destruct (a =? b) eqn:Eab; [done|]. intros [= <-]. cbn. rewrite Eab, Z.eqb_refl. split; [done|lia].
Qed.

(** What an event that is not about connection [i] can do to it. *)
Lemma step_others st ev st' c' i :
  (i < next_id st)%nat -> about ev <> Some i -> step ingress limits st ev = Some st' ->
  c' ∈ slots st' -> conn_id c' = i ->
  exists c, c ∈ slots st /\ conn_id c = i /\
    match ev with Millisecond => expire limits (now st + 1) c = Some c' | _ => c' = c end.
Proof.
  intros Hi Ha Hs Hc Hid.
  assert (forall j f, i <> j -> (l ← update j f (slots st); Some (with_slots st l)) = Some st' ->
    c' ∈ slots st) as Hupd.
  { intros j f Hij. destruct (update j f (slots st)) as [l|] eqn:Eu; cbn; [|done]. intros [= <-]. cbn in Hc.
    apply update_inv in Eu as (l1 & c & l2 & ph & -> & _ & _ & ->).
    rewrite elem_of_app, elem_of_cons in *. destruct Hc as [?|[->|?]]; [by left| |by do 2 right].
    cbn in Hid. by subst. }
  destruct ev; cbn [step about] in *;
    try (apply Hupd in Hs; [exists c'; by split_and!|congruence]).
  - destruct (_ || _); [done|]. destruct (_ <? _)%nat; injection Hs as <-; cbn in Hc; [|by exists c'].
    apply elem_of_app in Hc as [Hc|Hc%list_elem_of_singleton]; [by exists c'|].
    subst c'. cbn in Hid. lia.
  - destruct (_ || _); [done|]. destruct (is_transient_accept_error e); injection Hs as <-; by exists c'.
  - injection Hs as <-. cbn in Hc. apply list_elem_of_omap in Hc as (c & Hc & E).
    exists c. by rewrite <-(expire_id _ _ _ E).
  - case_bool_decide; [|done]. injection Hs as <-. cbn in Hc.
    apply list_elem_of_filter in Hc as [_ Hc]. by exists c'.
Qed.

Lemma step_clock st ev st' :
  step ingress limits st ev = Some st' -> (next_id st <= next_id st')%nat /\ now st' = now st + ticks [ev].
Proof.
  unfold step. destruct ev; cbn [ticks];
    try (destruct (update _ _ _); [|done]; intros [= <-]; cbn; lia);
    try (destruct (_ || _); [done|]); try destruct (_ <? _)%nat; try case_match; intros [= <-]; cbn; lia.
Qed.

Lemma silent_run evs st st' i d :
  wf st -> (i < next_id st)%nat -> Forall (fun ev => about ev <> Some i) evs ->
  (forall c, c ∈ slots st -> conn_id c = i -> conn_phase c <> Forwarding /\ due (conn_phase c) <= d) ->
  run ingress limits st evs = Some st' ->
  now st' = now st + ticks evs /\
  (forall c, c ∈ slots st' -> conn_id c = i -> conn_phase c <> Forwarding /\ due (conn_phase c) <= d).
Proof.
  revert st. induction evs as [|ev evs IH]; intros st Hwf Hi Ha Hd; cbn [run].
  { intros [= <-]. split; [cbn; lia|done]. }
  apply Forall_cons in Ha as [Hev Ha]. destruct (step _ _ st ev) as [st1|] eqn:Es; cbn; [|done]. intros Hrun.
  destruct (step_clock _ _ _ Es) as [Hid Hnow].
  destruct (IH st1) as [Hn Hd']; [by eapply step_wf|lia|done| |done|].
  - intros c' Hc' Hi'. destruct (step_others _ _ _ _ _ Hi Hev Es Hc' Hi') as (c & Hc & Hci & Hm).
    destruct (Hd c Hc Hci) as [Hf Hdue].
    destruct ev; try (by subst c'). destruct Hwf as (_ & _ & Hall & _).
    rewrite Forall_forall in Hall. destruct (Hall c Hc) as [_ Ht].
    destruct (expire_due _ _ _ Ht Hf Hm). split; [done|lia].
  - split; [|done]. rewrite Hn, Hnow. destruct ev; cbn; lia.
Qed.

(** C28: A silent connection gives its slot back, unless it is being forwarded.
    From any moment of the listener's history, a connection that is not in the
    phase [Forwarding] (a middle hop whose two byte streams are copied until one
    of them ends, for which the code has no timeout) and of which nothing is
    heard for as long as the longest of the handshake bound, the dial bound and
    two idle windows no longer holds a slot at the end of that time, whatever
    all other connections do.  A silent connection in [Forwarding] may keep its
    slot for ever. *)
Theorem silent_connection_released evs0 st evs st' c :
  run ingress limits listener_new evs0 = Some st -> c ∈ slots st -> conn_phase c <> Forwarding ->
  Forall (fun ev => about ev <> Some (conn_id c)) evs ->
  run ingress limits st evs = Some st' -> silence_bound <= ticks evs ->
  conn_id c ∉ conn_id <$> slots st'.
Proof.
  intros Hst%(run_wf _ _ _ wf_new) Hc Hf Ha Hrun Hticks (c' & Hid & Hc')%list_elem_of_fmap.
  pose proof Hst as (_ & Hnd & Hall & _). rewrite Forall_forall in Hall. destruct (Hall c Hc) as [Hi Ht].
  destruct (silent_run evs st st' (conn_id c) (due (conn_phase c)) Hst Hi Ha) as [Hnow Hd]; [|done|].
  - intros c1 Hc1 Hid1. by rewrite (conn_unique _ _ _ Hnd Hc Hc1 Hid1).
  - destruct (Hd c' Hc' (eq_sym Hid)) as [Hf' Hdue].
    apply (run_wf _ _ _ Hst) in Hrun as (_ & _ & Hall' & _). rewrite Forall_forall in Hall'.
    destruct (Hall' c' Hc') as [_ Ht']. pose proof (due_bound _ _ Ht' Hf'). pose proof (due_bound _ _ Ht Hf). lia.
Qed.

(** *** Traffic keeps a session *)
Definition polls_of (i : nat) (evs : list Event) : list Poll :=
  omap (fun ev => match ev with Polled j p => if (j =? i)%nat then Some p else None | _ => None end) evs.

(** Connection [i] is busy with its data phase: only polls of its streams complete. *)
Definition copying_only (i : nat) (ev : Event) : Prop := about ev = Some i -> exists p, ev = Polled i p.

Lemma busy_step st ev st' i w b a :
  wf st -> copying_only i ev -> {| conn_id := i; conn_phase := Copying w b a |} ∈ slots st ->
  step ingress limits st ev = Some st' ->
  (ev = Millisecond -> now st + 1 < w + idle_timeout limits) ->
  {| conn_id := i; conn_phase := Copying w b (foldl bump a (polls_of i [ev])) |} ∈ slots st'.
Proof.
  intros (_ & Hnd & _) Hev Hc Hs Htick. set (c := Build_Conn i _) in Hc.
  assert (forall j f, i <> j -> (l ← update j f (slots st); Some (with_slots st l)) = Some st' -> c ∈ slots st') as Hoth.
  { intros j f Hij. destruct (update j f (slots st)) as [l|] eqn:Eu; cbn; [|done]. intros [= <-]. cbn.
    apply update_inv in Eu as (l1 & c0 & l2 & ph & El & <- & _ & ->).
    rewrite El in Hc. rewrite elem_of_app, elem_of_cons in Hc |- *.
    destruct Hc as [?|[E|?]]; [by left|by rewrite <-E in Hij|by do 2 right]. }
  destruct ev as [| | |j|j|j|j|j p|j]; cbn [step polls_of omap list_omap foldl] in *;
    try (apply Hoth in Hs; [done|]; intros <-; by destruct (Hev eq_refl) as [? ?]).
  - destruct (_ || _); [done|]. destruct (_ <? _)%nat; injection Hs as <-; cbn; [|done].
    apply elem_of_app. by left.
  - destruct (_ || _); [done|]. destruct (is_transient_accept_error e); by injection Hs as <-.
  - injection Hs as <-. cbn. apply list_elem_of_omap. exists c. split; [done|]. unfold expire. cbn.
    rewrite (proj2 (Z.leb_gt _ _)); [done|]. specialize (Htick eq_refl). lia.
  - destruct (Nat.eqb_spec j i) as [->|Hne]; cbn [foldl]; [|by eapply Hoth].
    destruct (update i _ (slots st)) as [l|] eqn:Eu; [|done]. injection Hs as <-. cbn.
    apply update_inv in Eu as (l1 & c0 & l2 & ph & El & Hid & Hadv & ->).
    assert (c0 = c) as ->.
    { eapply conn_unique; [exact Hnd|done| |done]. rewrite El, elem_of_app, elem_of_cons. by right; left. }
    cbn in Hadv. injection Hadv as <-. rewrite elem_of_app, elem_of_cons. by right; left.
  - case_bool_decide; [|done]. injection Hs as <-. cbn. apply list_elem_of_filter. split; [|done]. cbn.
    intros <-. by destruct (Hev eq_refl) as [? ?].
Qed.

Lemma busy_run evs st st' i w b a :
  wf st -> Forall (copying_only i) evs -> {| conn_id := i; conn_phase := Copying w b a |} ∈ slots st ->
  run ingress limits st evs = Some st' -> now st + ticks evs < w + idle_timeout limits ->
  now st' = now st + ticks evs /\
  {| conn_id := i; conn_phase := Copying w b (foldl bump a (polls_of i evs)) |} ∈ slots st'.
Proof.
  revert st a. induction evs as [|ev evs IH]; intros st a Hwf Hev Hc; cbn [run].
  { intros [= <-] _. split; [cbn; lia|done]. }
  apply Forall_cons in Hev as [Hev Hevs]. destruct (step _ _ st ev) as [st1|] eqn:Es; cbn [mbind option_bind]; [|done].
  intros Hrun Ht. assert (0 <= ticks evs) as H0.
  { clear. induction evs as [|[] evs IH]; cbn; lia. }
  destruct (step_clock _ _ _ Es) as [_ Hnow].
  assert (ticks (ev :: evs) = ticks [ev] + ticks evs) as Htk by (destruct ev; cbn; lia).
  pose proof (busy_step _ _ _ _ _ _ _ Hwf Hev Hc Es) as Hc1.
  destruct (IH st1 (foldl bump a (polls_of i [ev]))) as [Hn Hin]; [by eapply step_wf|done| |done|lia|].
  { apply Hc1. intros ->. cbn [ticks] in Ht. lia. }
  split; [lia|]. rewrite <-foldl_app in Hin. unfold polls_of in *. by rewrite <-omap_app in Hin.
Qed.

(** An idle window of connection [i]'s data phase in which something moves. *)
Definition live_window (i : nat) (evs : list Event) : Prop :=
  exists body, evs = body ++ [Millisecond] /\ ticks body + 1 = idle_timeout limits /\
    Forall (copying_only i) body /\ (0 < moved (polls_of i body))%nat /\
    Z.of_nat (moved (polls_of i body)) < 2 ^ 64.

Lemma run_app st evs1 evs2 :
  run ingress limits st (evs1 ++ evs2) = run ingress limits st evs1 ≫= fun st => run ingress limits st evs2.
Proof.
  revert st. induction evs1 as [|ev evs1 IH]; intros st; [done|]. cbn [app run].
  destruct (step _ _ st ev); [apply IH|done].
Qed.

Lemma window_kept evs st st' i a :
  wf st -> {| conn_id := i; conn_phase := Copying (now st) a a |} ∈ slots st ->
  live_window i evs -> run ingress limits st evs = Some st' ->
  exists a', {| conn_id := i; conn_phase := Copying (now st') a' a' |} ∈ slots st'.
Proof.
  intros Hwf Hc (body & -> & Ht & Hev & Hm & Hm') Hrun. rewrite run_app in Hrun.
  destruct (run _ _ st body) as [st1|] eqn:E1; [|done].
  assert (0 <= a < 2 ^ 64) as Ha.
  { destruct Hwf as (_ & _ & Hall & _). rewrite Forall_forall in Hall. by destruct (Hall _ Hc) as [_ (? & ? & ?)]. }
  destruct (busy_run _ _ _ _ _ _ _ Hwf Hev Hc E1) as [Hn Hin]; [lia|].
  cbn in Hrun. injection Hrun as <-. cbn. eexists. apply list_elem_of_omap. eexists. split; [exact Hin|].
  unfold expire. cbn. rewrite (proj2 (Z.leb_le _ _)) by lia.
  rewrite (window_silent _ _ Ha Hm'), (proj2 (Nat.eqb_neq _ _)) by lia. done.
Qed.

(** A connection that is slow but alive is kept, however long it lives.  If in
    each idle window of its data phase at least one byte moves in either
    direction, the relay does not end the session, whatever other connections
    do: there is no bound on the length of a session. *)
Theorem active_connection_kept evs0 st windows st' i a :
  run ingress limits listener_new evs0 = Some st ->
  {| conn_id := i; conn_phase := Copying (now st) a a |} ∈ slots st ->
  Forall (live_window i) windows -> run ingress limits st (concat windows) = Some st' ->
  i ∈ conn_id <$> slots st'.
Proof.
  intros Hst%(run_wf _ _ _ wf_new) Hc Hw Hrun.
  assert (exists a', {| conn_id := i; conn_phase := Copying (now st') a' a' |} ∈ slots st') as [a' Hin].
  { revert st a Hst Hc Hrun. induction Hw as [|evs windows Hev _ IH]; intros st a Hst Hc; cbn [concat].
    { intros [= <-]. by exists a. }
    rewrite run_app. destruct (run _ _ st evs) as [st1|] eqn:E; [|done]. intros Hrun.
    destruct (window_kept _ _ _ _ _ Hst Hc Hev E) as [a1 Hc1].
    eapply IH; [by eapply run_wf|exact Hc1|exact Hrun]. }
  apply list_elem_of_fmap. eexists. by split; [|exact Hin].
Qed.
End ListenerFacts.

(** ** The QUIC listener

    A slot is full_slots by a connection; the streams of a connection are sessions of
    their own, started without a slot. *)
Record QuicListener := { q_conns : list (nat * nat); q_next : nat; q_turned_away : nat }.
Definition quic_new : QuicListener := {| q_conns := []; q_next := 0; q_turned_away := 0 |}.
Inductive QuicEvent :=
  | QAccepted
  | QHandshakeFailed (i : nat)
  | QStreamOpened (i : nat)
  | QStreamEnds (i : nat)
  | QConnectionClosed (i : nat).

Definition q_with (st : QuicListener) (l : list (nat * nat)) : QuicListener :=
  {| q_conns := l; q_next := q_next st; q_turned_away := q_turned_away st |}.
Definition q_close (i : nat) (l : list (nat * nat)) : list (nat * nat) := filter (fun c => c.1 <> i) l.
Definition q_streams (i : nat) (g : nat -> nat) (l : list (nat * nat)) : list (nat * nat) :=
  (fun c => if (c.1 =? i)%nat then (c.1, g c.2) else c) <$> l.

Definition quic_step (limits : RelayLimits) (st : QuicListener) (ev : QuicEvent) : QuicListener :=
  match ev with
  | QAccepted =>
    if (length (q_conns st) <? max_connections limits)%nat
    then {| q_conns := q_conns st ++ [(q_next st, 0%nat)]; q_next := S (q_next st); q_turned_away := q_turned_away st |}
    else {| q_conns := q_conns st; q_next := q_next st; q_turned_away := S (q_turned_away st) |}
  | QHandshakeFailed i | QConnectionClosed i => q_with st (q_close i (q_conns st))
  | QStreamOpened i => q_with st (q_streams i S (q_conns st))
  | QStreamEnds i => q_with st (q_streams i Nat.pred (q_conns st))
  end.
Definition quic_run (limits : RelayLimits) : QuicListener -> list QuicEvent -> QuicListener :=
  foldl (quic_step limits).

(** Connections are bounded like those of the TLS listener. *)
Lemma quic_conns_bounded limits evs :
  (length (q_conns (quic_run limits quic_new evs)) <= max_connections limits)%nat.
Proof.
  unfold quic_run. assert (length (q_conns quic_new) <= max_connections limits)%nat as H0 by (cbn; lia).
  revert H0. generalize quic_new. induction evs as [|ev evs IH]; intros st Hst; cbn [foldl]; [done|].
  apply IH. destruct ev; cbn [quic_step].
  - destruct (Nat.ltb_spec (length (q_conns st)) (max_connections limits)); cbn; [|done].
    rewrite length_app. cbn. lia.
  - cbn. etrans; [apply length_filter|done].
  - cbn. unfold q_streams. by rewrite length_fmap.
  - cbn. unfold q_streams. by rewrite length_fmap.
  - cbn. etrans; [apply length_filter|done].
Qed.

(** Sessions are not: one connection opens as many as it likes. *)
Lemma quic_sessions_unbounded limits n :
  (0 < max_connections limits)%nat ->
  q_conns (quic_run limits quic_new (QAccepted :: repeat (QStreamOpened 0) n)) = [(0%nat, n)].
Proof.
  intros Hm. unfold quic_run. cbn [foldl quic_step]. change (length (q_conns quic_new)) with 0%nat.
  rewrite (proj2 (Nat.ltb_lt _ _) Hm). cbn [q_conns quic_new app q_next q_turned_away].
  assert (forall k st, q_conns st = [(0%nat, k)] ->
    q_conns (foldl (quic_step limits) st (repeat (QStreamOpened 0) n)) = [(0%nat, (k + n)%nat)]) as Hgen.
  { clear. induction n as [|n IH]; intros k st E; cbn [repeat foldl]; [by rewrite Nat.add_0_r|].
    rewrite (IH (S k)); [by rewrite Nat.add_succ_r|]. cbn. by rewrite E. }
  by rewrite (Hgen 0%nat).
Qed.

(** ** Witnesses *)
Section ListenerWitnesses.

Definition small : RelayLimits :=
  {| max_connections := 1; idle_timeout := 3; dial_timeout := 2; handshake_timeout := 2 |}.
Definition small_ok : limits_positive small.
Proof. split_and!; cbn; lia. Qed.

(** One connection takes the only slot, a second is turned away. *)
Definition full_house : list Event := [Accepted; Accepted].
(** The first connection gets as far as its data phase. *)
Definition connected : list Event := [Accepted; TlsDone 0; HeaderDone 0; DialDone 0].
Definition busy : list Event := [Polled 0 (PollRead 5); Millisecond; Millisecond; Millisecond].

Lemma slots_bounded_witness :
  exists st, run false small listener_new full_house = Some st /\ turned_away st = 1%nat /\
    (length (slots st) <= max_connections small)%nat.
Proof.
  eexists. split; [vm_compute; reflexivity|]. split; [reflexivity|].
  exact (proj1 (slots_bounded false small small_ok full_house _ eq_refl)).
Defined.

Definition full_slots : Listener := Eval vm_compute in default listener_new (run false small listener_new full_house).
Definition freed : Listener := Eval vm_compute in default listener_new (run false small full_slots (repeat Millisecond 6)).
Definition copying : Listener := Eval vm_compute in default listener_new (run false small listener_new connected).
Definition still : Listener := Eval vm_compute in default listener_new (run false small copying (concat [busy; busy; busy])).
Lemma full_house_run : run false small listener_new full_house = Some full_slots.
Proof. vm_compute. reflexivity. Qed.
Lemma freed_run : run false small full_slots (repeat Millisecond 6) = Some freed.
Proof. vm_compute. reflexivity. Qed.
Lemma copying_run : run false small listener_new connected = Some copying.
Proof. vm_compute. reflexivity. Qed.
Lemma still_run : run false small copying (concat [busy; busy; busy]) = Some still.
Proof. vm_compute. reflexivity. Qed.

Lemma silent_connection_released_witness :
  conn_id <$> slots full_slots = [0%nat] /\ 0%nat ∉ conn_id <$> slots freed.
Proof.
  split; [reflexivity|].
  refine (silent_connection_released false small small_ok full_house full_slots (repeat Millisecond 6) freed
    {| conn_id := 0; conn_phase := Handshaking 0 |} full_house_run _ _ _ freed_run _).
  - apply list_elem_of_here.
  - discriminate.
  - repeat constructor; discriminate.
  - vm_compute. discriminate.
Defined.

Lemma active_connection_kept_witness : now still = 9 /\ 0%nat ∈ conn_id <$> slots still.
Proof.
  split; [reflexivity|].
  refine (active_connection_kept false small small_ok connected copying [busy; busy; busy] still 0 0
    copying_run _ _ still_run).
  - apply list_elem_of_here.
  - assert (live_window small 0 busy) as H.
    { exists [Polled 0 (PollRead 5); Millisecond; Millisecond]. split; [reflexivity|]. split; [reflexivity|].
      split; [|split; vm_compute; [lia|reflexivity]].
      repeat constructor; intros [=]. eexists. reflexivity. }
    repeat (constructor; [exact H|]). constructor.
Defined.
End ListenerWitnesses.
