(* ===== verification/Daemon.v ===== *)
(** * apps/client-daemon: start-up

    Models apps/client-daemon/src/main.rs: where the relay list comes from (a
    rendezvous service under a pinned root, or a static file) and the engine
    built over it, and the SOCKS sessions it then serves over both transports.
    [fetched] is what the HTTP source returned; a panic of the
    process is the error [DaemonPanicked]. *)

From S2P Require Import Prelude Bytes Io Serde Common Fs Crypto Config Fl Failure Policy Engine Rendezvous Render Native.
From S2P Require Import Session Socks.
Import Framing.

Record DaemonArgs := {
  static_endpoints_file : option path;
  rendezvous_url : option string;
  rendezvous_root_pub_hex_file : option path;
  bundle_cache_path : path
}.

Inductive DaemonError :=
  | RootFileRequired
  | DaemonIo (e : io_error)
  | DaemonHex (e : string)
  | DaemonClient (e : RendezvousClientError)
  | DaemonJson (e : string)
  | NoEndpointSource
  | DaemonPanicked.

Section Daemon.
Context {Ed : Ed25519} {HexI : Hex} {JP : Json RelayBundlePayload} {JB : Json SignedBundle}.
Context {JD : Json (list EndpointDescriptor)}.

(** [copy_from_slice] into [u8; 32] panics on any other length. *)
Definition read_root (file : path) : IO DaemonError TrustRoot :=
  do root_hex <- io_map_err DaemonIo (fs_read_to_string file);
  do root_bytes <- io_lift (map_err DaemonHex (hex_decode (trim root_hex)));
  if (length root_bytes =? 32)%nat
  then io_ret {| root_public_key := MkPublicKey root_bytes |}
  else io_err DaemonPanicked.

Definition load_endpoints (args : DaemonArgs) (fetched : result RendezvousClientError SignedBundle)
    (now : UnixSeconds) : IO DaemonError (list EndpointDescriptor) :=
  match rendezvous_url args with
  | Some url =>
    do file <- io_lift (ok_or (rendezvous_root_pub_hex_file args) RootFileRequired);
    do trust_root <- read_root file;
    let client := {| trust_root := trust_root; cache_path := bundle_cache_path args |} in
    do payload <- io_map_err DaemonClient (get_bundle client fetched revocation_empty now);
    io_ret (b_endpoints payload)
  | None =>
    match static_endpoints_file args with
    | Some file =>
      do json <- io_map_err DaemonIo (fs_read_to_string file);
      io_lift (map_err DaemonJson (from_slice (as_bytes json)))
    | None => io_err NoEndpointSource
    end
  end.

Lemma load_endpoints_vouched args url fetched now w eps w' :
  rendezvous_url args = Some url -> load_endpoints args fetched now w = (Ok eps, w') ->
  exists file mt data root b p,
    rendezvous_root_pub_hex_file args = Some file /\ w_fs w !! file = Some (File mt data) /\
    hex_decode (trim (str_of_bytes data)) = Ok (key_bytes (root_public_key root)) /\
    verify_bundle b root revocation_empty now = Ok p /\ eps = b_endpoints p.
Proof.
  unfold load_endpoints. intros ->.
  intros (file & w1 & H1 & (root & w2 & H2 & (p & w3 & H3 & [= <- _])%io_bind_Ok_inv)%io_bind_Ok_inv)%io_bind_Ok_inv.
  injection H1 as Hf <-. apply ok_or_Ok_inv in Hf.
  apply io_map_err_Ok_inv in H3. destruct (get_bundle_inv _ _ _ _ _ _ _ H3) as (b & Hv & _).
  unfold read_root in H2. apply io_bind_Ok_inv in H2 as (hx & w4 & Hr%io_map_err_Ok_inv & H2).
  apply fs_read_to_string_inv in Hr as [-> (mt & data & Hd & Hu)].
  apply io_bind_Ok_inv in H2 as (rb & w5 & Hh & H2). injection Hh as Hh <-. apply map_err_Ok_inv in Hh.
  destruct (_ =? _)%nat; [|done]. injection H2 as <- _.
  apply from_utf8_Some in Hu as [_ <-].
  exists file, mt, (as_bytes hx), {| root_public_key := MkPublicKey rb |}, b, p.
  by rewrite str_of_as_bytes.
Qed.

(** *** The running daemon *)
Context {Sha : Sha256} {Addr Net Tcp Tls Udp QCfg QConnecting QConn Send Recv R App : Type} {Rg : Rng R}.
Context `{HTR : AsyncRead Tls, HTW : AsyncWrite Tls} {DT : @Duplex Tls HTR HTW}.
Context `{HS : AsyncWrite Send} {HSL : AsyncWriteLaws Send} `{HRr : AsyncRead Recv} {HRL : AsyncReadLaws Recv}.
Context `{HAR : AsyncRead App, HAW : AsyncWrite App} {DA : @Duplex App HAR HAW}.
Context (tcp_connect : Z -> Addr -> Net -> option (result io_error Tcp) * Net).
Context (tls_connect : Z -> PinnedCertVerifier -> Addr -> Tcp -> Net -> option (result io_error Tls) * Net).
Context (is_ipv4 : Addr -> bool) (quic_client : bool -> Net -> result io_error Udp * Net).
Context (quic_config : PinnedCertVerifier -> result string QCfg).
Context (connect_with : Udp -> QCfg -> Addr -> string -> Net -> result string QConnecting * Net).
Context (quic_handshake : Z -> QConnecting -> Net -> option (result ConnectionError QConn) * Net).
Context (quic_error : ConnectionError -> string).
Context (open_bi : QConn -> Net -> result ConnectionError (QuicBiStream Send Recv) * Net).
Context (tls_peer : Tls -> bytes) (quic_peer : QConn -> bytes).
Context (parse_addr : string -> option Addr).
Context (clock : Net -> Z) (sleep_ms : Z -> Net -> Net) (entropy : Net -> R).
Notation dial := (native_dial tcp_connect tls_connect is_ipv4 quic_client quic_config connect_with
  quic_handshake quic_error open_bi).
Notation Reader := (BoxedReader (Tls := Tls) (Recv := Recv) (QConn := QConn) (Udp := Udp)).
Notation Writer := (BoxedWriter (Tls := Tls) (Send := Send) (QConn := QConn) (Udp := Udp)).
Notation Opened := (NativeSession (Tls := Tls) (Udp := Udp) (QConn := QConn) (QBi := QuicBiStream Send Recv)).
Context (pump : App -> Reader -> Writer -> App * Reader * Writer).

Definition daemon_main (args : DaemonArgs) (fetched : result RendezvousClientError SignedBundle)
    (now : UnixSeconds) : IO DaemonError (ConnectionEngine (Addr := Addr)) :=
  do endpoints <- load_endpoints args fetched now;
  io_ret (build_engine parse_addr endpoints).

(** The engine as the SOCKS sessions use it: the destination does not bear on the
    choice of a relay. *)
Definition daemon_engine_connect (host : string) (port : Z) (e : ConnectionEngine (Addr := Addr)) (net : Net) :=
  let '(out, e, net, _) := connect dial clock sleep_ms entropy e net in (out, e, net).
Notation client := (handle_client daemon_engine_connect native_split pump).

(** The engine after any number of SOCKS sessions. *)
Inductive serving (e0 : ConnectionEngine (Addr := Addr)) : ConnectionEngine (Addr := Addr) -> Prop :=
  | serving_start : serving e0 e0
  | serving_client e net socket : serving e0 e -> serving e0 (cr_engine (client socket e net)).

Lemma daemon_engine_connect_endpoints host port e net : endpoints (daemon_engine_connect host port e net).1.2 = endpoints e.
Proof.
  unfold daemon_engine_connect. destruct (connect _ _ _ _ e net) as [[[out e'] net'] log] eqn:Hc. cbn.
  exact (proj1 (connect_session _ _ _ _ _ _ _ _ _ _ Hc)).
Qed.
Lemma client_endpoints socket e net : endpoints (cr_engine (client socket e net)) = endpoints e.
Proof.
  unfold handle_client. destruct (read_request socket) as [[[host port]|] s1]; [|done].
  pose proof (daemon_engine_connect_endpoints host port e net) as He.
  destruct (daemon_engine_connect host port e net) as [[out e'] net']. cbn in He. rewrite <-He.
  repeat case_match; done.
Qed.
Lemma serving_endpoints e0 e : serving e0 e -> endpoints e = endpoints e0.
Proof. induction 1 as [|e net socket _ IH]; [done|]. by rewrite client_endpoints. Qed.

(** C8: An application's bytes go only to relays that the root vouches for.  A
    daemon started from a rendezvous service opens a tunnel, however many SOCKS
    sessions it has served before, only over a session with a relay whose
    certificate is pinned by a descriptor of a bundle that verified, when it was
    fetched or read from the cache, under the root key in the operator's file;
    and all that the tunnel's session carries beyond what it had carried when it
    was opened is the header of the requested destination and a first part of the
    application's payload. *)
Theorem tunnels_vouched_by_root args url fetched now w e0 w' e net socket t tr tw :
  tls_verifies tls_connect tls_peer -> quic_verifies quic_config connect_with quic_handshake quic_peer ->
  pump_copies pump ->
  rendezvous_url args = Some url -> daemon_main args fetched now w = (Ok e0, w') ->
  serving e0 e -> cr_tunnel (client socket e net) = Some (t, tr, tw) ->
  exists file mt data root b p d (session : Opened) methods rsv x port payload,
    rendezvous_root_pub_hex_file args = Some file /\ w_fs w !! file = Some (File mt data) /\
    hex_decode (trim (str_of_bytes data)) = Ok (key_bytes (root_public_key root)) /\
    verify_bundle b root revocation_empty now = Ok p /\ d ∈ b_endpoints p /\
    hex_decode (d_cert_sha256_hex d) = Ok (sha256 (peer_cert tls_peer quic_peer session)) /\
    remaining socket = connect_message methods rsv x port ++ payload /\
    exists carried, written tw = session_written session ++ carried /\
      carried `prefix_of` header (addr_host x) port ++ payload.
Proof.
  intros Hv Hq Hpump Hurl (eps & w1 & Hl & [= <- _])%io_bind_Ok_inv Hs Ht.
  destruct (load_endpoints_vouched _ _ _ _ _ _ _ Hurl Hl) as (file & mt & data & root & b & p & Hf & Hd & Hr & Hb & ->).
  destruct (client_tunnel _ _ _ _ _ _ _ _ _ Hpump Ht) as (methods & rsv & x & port & payload & session & e' & net' & tr0 & tw0 &
    Hrem & _ & Hc & Hsp & Hw).
  unfold engine_says, daemon_engine_connect in Hc. destruct (connect _ _ _ _ e net) as [[[out e2] net2] log] eqn:Hconn.
  injection Hc as -> -> ->. apply connect_session in Hconn as [_ Hc].
  destruct (Hc _ _ eq_refl) as (re & n1 & n2 & Hre & _ & Hdial).
  rewrite (serving_endpoints _ _ Hs) in Hre. cbn in Hre. apply list_elem_of_omap in Hre as (d & Hin & E).
  destruct (parse_endpoint parse_addr d) as [ep|] eqn:Ep; [|done]. injection E as <-.
  exists file, mt, data, root, b, p, d, session, methods, rsv, x, port, payload. split_and!; try done.
  - rewrite (native_dial_pinned _ _ _ _ _ _ _ _ _ _ _ _ _ _ _ _ Hv Hq Hdial).
    by apply parse_endpoint_pin in Ep.
  - apply native_split_streams in Hsp as [_ Hw0]. rewrite Hw0 in Hw.
    destruct Hw as [Hw|(up & [k Hup] & Hw)].
    + exists []. rewrite app_nil_r. split; [done|apply prefix_nil].
    + exists (header (addr_host x) port ++ up). split; [done|]. exists k. by rewrite Hup, <-app_assoc.
Qed.
End Daemon.

(** ** Witness *)
Module DaemonDemo.
Import ToyEd25519 ConfigDemo RendezvousDemo PolicyDemo NativeDemo.
#[export] Instance list_json : Json (list EndpointDescriptor) := tagged_json "[".

Definition relays : RelayBundlePayload := Build_RelayBundlePayload 1 1000 2000 "n" (take 1 EngineDemo.descriptors).
Definition signed : SignedBundle := {|
  payload_bytes := default [] (ok (to_vec relays));
  bundle_signature := sign (key "b") (default [] (ok (to_vec relays)));
  bundle_signing_key := public_key (key "b");
  bundle_key_cert := bundle_cert;
  release_key_cert := release_cert |}.
Definition args : DaemonArgs := {|
  static_endpoints_file := None; rendezvous_url := Some "http://r"%string;
  rendezvous_root_pub_hex_file := Some ["root.pub"]; bundle_cache_path := cache |}.
Definition root_file : bytes := as_bytes (hex_encode (key_bytes (public_key (key "r")))) ++ [nl].
Definition start_world : world :=
  calm_world (<[["tmp"] := Dir (Meta 511 0 0)]> (<[["root.pub"] := File (Meta 420 0 0) root_file]> ∅)).
Definition started := daemon_main (fun s => Some s) args (Ok signed) 1500 start_world.
Definition engine0 := default (engine_new (fun s : string => Some s) [] []) (ok (fst started)).
(** A connection: the certificate of its peer, and the bytes of both directions. *)
Record Conn := { cn_cert : bytes; cn_sock : SocksDemo.Sock }.
Definition set_sock (k : SocksDemo.Sock) (c : Conn) : Conn := {| cn_cert := cn_cert c; cn_sock := k |}.
#[export] Existing Instances SocksDemo.sock_read SocksDemo.sock_write SocksDemo.sock_duplex.
#[export] Instance conn_read : AsyncRead Conn := read_via cn_sock set_sock.
#[export] Instance conn_write : AsyncWrite Conn := write_via cn_sock set_sock.
#[export] Instance conn_duplex : Duplex Conn.
Proof.
  split; [by apply read_via_laws; [apply SocksDemo.sock_duplex|]|by apply write_via_laws; [apply SocksDemo.sock_duplex|]|..].
  - intros n c x c'. cbn. destruct (mem_read_exact n _) as [[]|]; [|done]. by intros [= _ <-].
  - intros b c c'. cbn. by intros [= <-].
Qed.
Definition tls_conn (d : Z) (v : PinnedCertVerifier) (addr : string) (c : bytes) (net : Z)
    : option (result io_error Conn) * Z :=
  let '(r, net) := tls d v addr c net in
  (fmap (fun r => c ← r; Ok {| cn_cert := c; cn_sock := SocksDemo.MkSock (as_bytes "welcome") [] |}) r, net).
Definition open_streams (c : bytes) (net : Z) : result ConnectionError (QuicBiStream bytes bytes) * Z :=
  (Ok {| qb_send := []; qb_recv := [] |}, net).
Lemma tls_conn_ok : tls_verifies tls_conn cn_cert.
Proof.
  intros d v a c net s net'. unfold tls_conn, tls. destruct (verify_server_cert v c) as [[]|] eqn:E; [|done].
  by intros [= <- _].
Qed.
Definition copy_streams (s : SocksDemo.Sock) (r : BoxedReader (Tls := Conn) (Recv := bytes) (QConn := bytes) (Udp := unit))
    (w : BoxedWriter (Tls := Conn) (Send := bytes) (QConn := bytes) (Udp := unit)) :=
  match write_all (SocksDemo.inbox s) w with
  | Ok w => (SocksDemo.MkSock [] (SocksDemo.outbox s ++ remaining r), r, w)
  | Err _ => (s, r, w)
  end.
Lemma copy_streams_ok : pump_copies copy_streams.
Proof.
  intros s r w s' r' w'. unfold copy_streams. destruct (write_all (SocksDemo.inbox s) w) as [w1|] eqn:E; intros [= <- <- <-].
  - apply write_all_ok in E. split; [by exists (SocksDemo.inbox s)|by exists (remaining r)].
  - split; exists []; rewrite app_nil_r; split; (apply prefix_nil || done).
Qed.
Definition served_client := handle_client
  (daemon_engine_connect (tcp true) tls_conn (fun _ => true) NativeDemo.quic_client quic_config connect_with
    quic_handshake quic_error open_streams (fun n => n) (fun ms n => n + ms) (fun _ => tt))
  native_split copy_streams (SocksDemo.MkSock SocksDemo.app_bytes []) engine0 0.
Definition tunnel_conn : Conn := {|
  cn_cert := repeat Byte.x11 32;
  cn_sock := SocksDemo.MkSock (as_bytes "welcome") (header "::1" 80 ++ as_bytes "GET") |}.
End DaemonDemo.

Section DaemonWitnesses.
Import ToyEd25519 ConfigDemo RendezvousDemo PolicyDemo NativeDemo DaemonDemo.

Lemma tunnels_vouched_by_root_witness :
  cr_result served_client = Ok tt /\
  exists root b p d session, verify_bundle b root revocation_empty 1500 = Ok p /\ d ∈ b_endpoints p /\
    hex_decode (d_cert_sha256_hex d) =
      Ok (sha256 (peer_cert (Tls := Conn) (QConn := bytes) (Udp := unit) (QBi := QuicBiStream bytes bytes)
        cn_cert (fun c => c) session)).
Proof.
  split; [vm_compute; reflexivity|].
  assert (started = (Ok engine0, snd started)) as Hst
    by (refine (run_of_fst _ _ _ _); vm_compute; reflexivity).
  assert (exists r w, cr_tunnel served_client = Some (direct_tls_ID, r, TlsWriter w) /\ wh_inner w = tunnel_conn) as (r & wr & E & Ew)
    by (eexists _, _; split; vm_compute; reflexivity).
  destruct (tunnels_vouched_by_root (tcp true) tls_conn (fun _ => true) NativeDemo.quic_client quic_config connect_with
    quic_handshake quic_error open_streams cn_cert (fun c => c) (fun s => Some s) (fun n => n)
    (fun ms n => n + ms) (fun _ => tt) copy_streams args "http://r" (Ok signed) 1500 start_world engine0 (snd started) engine0 0
    (SocksDemo.MkSock SocksDemo.app_bytes []) _ _ _ tls_conn_ok quic_ok copy_streams_ok eq_refl Hst
    (serving_start _ _ _ _ _ _ _ _ _ _ _ _ _ _) E)
    as (file & mt & data & root & b & p & d & session & methods & rsv & x & port & payload & _ & _ & _ & Hv & Hd & Hp & _).
  exists root, b, p, d, session. exact (conj Hv (conj Hd Hp)).
Defined.
End DaemonWitnesses.
