(* ===== verification/Redact.v ===== *)
(** * apps/admin: sanitizing a diagnostic report

    Models [redact_secrets] of apps/admin/src/main.rs: the scan that replaces
    everything that looks like a credential in a log tail.  The loop works on
    byte offsets and slices the text at them; a slice that is not on a character
    boundary would panic, which here is [None]. *)

From S2P Require Import Prelude Bytes Serde Render.

(** ** Character classes ([u8::is_ascii_*]) *)
Definition is_ascii_digit (b : byte) : bool := in_range 48 57 b.
Definition is_ascii_alphabetic (b : byte) : bool := in_range 65 90 b || in_range 97 122 b.
Definition is_ascii_alphanumeric (b : byte) : bool := is_ascii_alphabetic b || is_ascii_digit b.
Definition dash : byte := Byte.x2d.
Definition underscore : byte := Byte.x5f.

Definition is_token_byte (b : byte) : bool :=
  is_ascii_alphanumeric b || Byte.eqb b dash || Byte.eqb b underscore.

(** [str::split(char)]: the pieces between separators, at least one. *)
Fixpoint split_on (sep : byte) (l : bytes) : list bytes :=
  match l with
  | [] => [[]]
  | b :: t =>
    if Byte.eqb b sep then [] :: split_on sep t
    else match split_on sep t with
         | [] => [[b]]
         | x :: r => (b :: x) :: r
         end
  end.

Definition looks_like_uuid (tok : bytes) : bool :=
  let parts := split_on dash tok in
  (length parts =? 5)%nat &&
  forallb (fun p => (length p.2 =? p.1)%nat && forallb is_ascii_hexdigit p.2)
    (zip [8%nat; 4%nat; 4%nat; 4%nat; 12%nat] parts).

Definition looks_like_secret_token (tok : bytes) : bool :=
  if (length tok <? 24)%nat then false
  else if forallb is_ascii_hexdigit tok then true
  else forallb is_token_byte tok && existsb is_ascii_alphabetic tok &&
       existsb (fun b => is_ascii_digit b || Byte.eqb b dash || Byte.eqb b underscore) tok.

Definition looks_secret (tok : bytes) : bool := looks_like_uuid tok || looks_like_secret_token tok.

(** [&text[a..b]]: both ends within the text and not inside a character. *)
Definition is_char_boundary (text : bytes) (i : nat) : bool :=
  match text !! i with
  | Some b => (i =? 0)%nat || negb (cont b)
  | None => (i =? length text)%nat
  end.
Definition str_slice (text : bytes) (a b : nat) : option bytes :=
  if (a <=? b)%nat && is_char_boundary text a && is_char_boundary text b
  then Some (take (b - a) (drop a text)) else None.

(** The inner loop: past the bytes of a token. *)
Fixpoint token_end (fuel : nat) (text : bytes) (i : nat) : nat :=
  match fuel with
  | O => i
  | S fuel =>
    match text !! i with
    | Some b => if is_token_byte b then token_end fuel text (i + 1) else i
    | None => i
    end
  end.

Definition redacted : bytes := as_bytes "<redacted>".

Fixpoint redact_loop (fuel : nat) (text out : bytes) (i plain_start : nat) : option bytes :=
  match fuel with
  | O => None
  | S fuel =>
    match text !! i with
    | Some b =>
      if is_token_byte b then
        let start := i in
        let i := token_end (length text) text i in
        tok ← str_slice text start i;
        if looks_secret tok then
          plain ← str_slice text plain_start start;
          redact_loop fuel text (out ++ plain ++ redacted) i i
        else redact_loop fuel text out i plain_start
      else redact_loop fuel text out (i + 1) plain_start
    | None =>
      plain ← str_slice text plain_start (length text);
      Some (out ++ plain)
    end
  end.

Definition redact_secrets (text : string) : option bytes :=
  redact_loop (S (length (as_bytes text))) (as_bytes text) [] 0 0.

(** ** The reference definition

    The text as its maximal runs of token bytes, each other byte on its own;
    every run that looks like a secret is replaced. *)
Fixpoint pieces (l : bytes) : list bytes :=
  match l with
  | [] => []
  | b :: t =>
    match pieces t with
    | (c :: p) :: r => if is_token_byte b && is_token_byte c then (b :: c :: p) :: r else [b] :: (c :: p) :: r
    | r => [b] :: r
    end
  end.
Definition redact_piece (p : bytes) : bytes := if looks_secret p then redacted else p.
Definition sanitized (l : bytes) : bytes := concat (redact_piece <$> pieces l).

(** *** Runs *)
Lemma concat_pieces l : concat (pieces l) = l.
Proof.
  induction l as [|b l IH]; [done|]. cbn [pieces]. destruct (pieces l) as [|[|c p] r]; cbn in *; try by rewrite <-IH.
  destruct (_ && _); cbn; by rewrite <-IH.
Qed.

Lemma pieces_ne l : Forall (fun p => p <> []) (pieces l).
Proof.
  induction l as [|b l IH]; [constructor|]. cbn [pieces].
  destruct (pieces l) as [|[|c p] r]; [by repeat constructor|by apply Forall_cons in IH as [? _]|].
  apply Forall_cons in IH as [_ IH]. destruct (_ && _); by repeat constructor.
Qed.

(** A boundary between runs: the texts on both sides do not join. *)
Definition apart_at (a b : bytes) : Prop :=
  match last a, head b with
  | Some x, Some y => is_token_byte x && is_token_byte y = false
  | _, _ => True
  end.

Lemma pieces_head b l : exists p r, pieces (b :: l) = (b :: p) :: r.
Proof. cbn. destruct (pieces l) as [|[|c p] r]; [eauto..|]. destruct (_ && _); eauto. Qed.

Lemma pieces_cons b l :
  pieces (b :: l) = match pieces l with
    | (c :: p) :: r => if is_token_byte b && is_token_byte c then (b :: c :: p) :: r else [b] :: (c :: p) :: r
    | r => [b] :: r
    end.
Proof. done. Qed.

Lemma pieces_app a b : apart_at a b -> pieces (a ++ b) = pieces a ++ pieces b.
Proof.
  induction a as [|x a IH]; [done|]. intros Hap. destruct a as [|y a].
  - destruct b as [|z b]; [done|]. cbn in Hap |- *.
    destruct (pieces_head z b) as (p & r & E). cbn in E. rewrite E, Hap. done.
  - assert (apart_at (y :: a) b) as Hap' by done. specialize (IH Hap').
    change ((x :: y :: a) ++ b) with (x :: (y :: a) ++ b).
    rewrite !(pieces_cons x), IH. destruct (pieces_head y a) as (p & r & E). rewrite E. cbn. by destruct (_ && _).
Qed.

Lemma pieces_token tok : tok <> [] -> Forall (fun b => is_token_byte b = true) tok -> pieces tok = [tok].
Proof.
  intros Hne Ht. induction tok as [|b tok IH]; [done|]. apply Forall_cons in Ht as [Hb Ht].
  destruct tok as [|c tok]; [done|]. cbn [pieces] in *. rewrite (IH ltac:(done) Ht).
  apply Forall_cons in Ht as [Hc _]. by rewrite Hb, Hc.
Qed.

(** *** The loop against the reference *)
Definition ascii (b : byte) : Prop := byte_val b < 128.

Lemma token_ascii b : is_token_byte b = true -> ascii b.
Proof.
  unfold ascii. intros H. destruct (Z.lt_ge_cases (byte_val b) 128) as [|Hge]; [done|]. exfalso.
  revert H Hge. destruct b; vm_compute; try done; intros _ H; by apply H.
Qed.

Lemma valid_head c t : utf8_valid (c :: t) = true -> cont c = false.
Proof.
  intros H. destruct c; try reflexivity; discriminate H.
Qed.

(** In a valid text, the byte after an ASCII byte starts a character. *)
Lemma ascii_then_start text i b c :
  utf8_valid text = true -> text !! i = Some b -> ascii b -> text !! S i = Some c -> cont c = false.
Proof.
  unfold ascii. intros Hv Hb Ha Hc. remember (length text) as n eqn:Hn.
  revert text i Hn Hv Hb Hc. induction n as [n IH] using lt_wf_ind. intros [|h t] i -> Hv Hb Hc; [done|].
  assert (forall k t', (length t' < length (h :: t))%nat -> utf8_valid t' = true ->
    t' !! k = Some b -> t' !! S k = Some c -> cont c = false) as IH'.
  { intros k t' Hl. by apply (IH _ Hl t' k). } clear IH.
  assert (forall x, cont x = true -> ~ x = b) as Hnc.
  { unfold cont. intros x Hx ->. lia. }
  cbn [utf8_valid] in Hv. destruct (in_range 0 127 h) eqn:E0.
  { destruct i as [|i]; cbn in Hb, Hc; [|apply (IH' i t); [cbn; lia|done..]].
    destruct t as [|c' t]; [done|]. injection Hc as ->. by eapply valid_head. }
  assert (h <> b) as Hhb. { intros ->. unfold in_range in E0. pose proof (byte_val_range b). lia. }
  destruct i as [|i]; [by injection Hb|]. cbn in Hb, Hc.
  destruct (in_range 194 223 h).
  { destruct t as [|c1 t]; [done|]. apply andb_true_iff in Hv as [H1 Hv].
    destruct i as [|i]; [injection Hb as Hb; by destruct (Hnc c1)|]. apply (IH' i t); [cbn; lia|done..]. }
  destruct (in_range 224 239 h).
  { destruct t as [|c1 [|c2 t]]; [done..|]. apply andb_true_iff in Hv as [[H1 H2]%andb_true_iff Hv].
    assert (cont c1 = true) as H1'. { unfold cont, in_range in *. repeat case_match; lia. }
    destruct i as [|[|i]]; [injection Hb as Hb; by destruct (Hnc c1)|injection Hb as Hb; by destruct (Hnc c2)|].
    apply (IH' i t); [cbn; lia|done..]. }
  destruct (in_range 240 244 h); [|done].
  destruct t as [|c1 [|c2 [|c3 t]]]; [done..|].
  apply andb_true_iff in Hv as [[[H1 H2]%andb_true_iff H3]%andb_true_iff Hv].
  assert (cont c1 = true) as H1'. { unfold cont, in_range in *. repeat case_match; lia. }
  destruct i as [|[|[|i]]]; [injection Hb as Hb; by destruct (Hnc c1)|injection Hb as Hb; by destruct (Hnc c2)|
    injection Hb as Hb; by destruct (Hnc c3)|].
  apply (IH' i t); [cbn; lia|done..].
Qed.

(** The run that starts at [i]. *)
Fixpoint run_length (l : bytes) : nat :=
  match l with b :: l => if is_token_byte b then S (run_length l) else 0%nat | [] => 0%nat end.

Lemma token_end_run fuel text i :
  (length text <= i + fuel)%nat -> token_end fuel text i = (i + run_length (drop i text))%nat.
Proof.
  revert i. induction fuel as [|fuel IH]; intros i Hf; cbn [token_end].
  { rewrite drop_ge by lia. cbn. lia. }
  destruct (text !! i) as [b|] eqn:E.
  - rewrite (drop_S _ _ _ E). cbn. destruct (is_token_byte b); [|lia]. rewrite IH by lia.
    rewrite Nat.add_1_r. lia.
  - rewrite drop_ge by (by apply lookup_ge_None). cbn. lia.
Qed.

Lemma run_split l :
  exists tok rest, l = tok ++ rest /\ length tok = run_length l /\
    Forall (fun b => is_token_byte b = true) tok /\
    match rest with b :: _ => is_token_byte b = false | [] => True end.
Proof.
  induction l as [|b l IH]; [by exists [], []|]. cbn. destruct (is_token_byte b) eqn:E.
  - destruct IH as (tok & rest & -> & Hl & Ht & Hr). exists (b :: tok), rest. cbn. rewrite Hl.
    split; [done|]. split; [done|]. split; [by constructor|done].
  - exists [], (b :: l). by split_and!.
Qed.

Lemma pieces_run tok rest :
  tok <> [] -> Forall (fun b => is_token_byte b = true) tok ->
  match rest with b :: _ => is_token_byte b = false | [] => True end ->
  pieces (tok ++ rest) = tok :: pieces rest.
Proof.
  intros Hne Ht Hr. rewrite pieces_app, (pieces_token _ Hne Ht); [done|].
  unfold apart_at. destruct (last tok), rest; cbn in *; try done. by rewrite Hr, andb_false_r.
Qed.

Lemma pieces_other b l : is_token_byte b = false -> pieces (b :: l) = [b] :: pieces l.
Proof.
  intros Hb. change (b :: l) with ([b] ++ l). rewrite pieces_app; [done|].
  unfold apart_at. cbn. destruct (head l); [by rewrite Hb|done].
Qed.

Lemma other_not_secret b : looks_secret [b] = false.
Proof.
  unfold looks_secret, looks_like_secret_token, looks_like_uuid. cbn. by destruct (Byte.eqb b dash).
Qed.

(** A slice between two boundaries; the boundaries the loop meets. *)
Lemma str_slice_ok text a b :
  (a <= b)%nat -> is_char_boundary text a = true -> is_char_boundary text b = true ->
  str_slice text a b = Some (take (b - a) (drop a text)).
Proof. intros H1 H2 H3. unfold str_slice. rewrite (proj2 (Nat.leb_le _ _) H1), H2, H3. done. Qed.

Lemma boundary_token text i b : text !! i = Some b -> is_token_byte b = true -> is_char_boundary text i = true.
Proof.
  intros Hb Ht%token_ascii. unfold is_char_boundary, cont, ascii in *. rewrite Hb.
  rewrite (proj2 (Z.leb_gt _ _) Ht). cbn. apply orb_true_r.
Qed.

Lemma boundary_after text i b :
  utf8_valid text = true -> text !! i = Some b -> is_token_byte b = true -> is_char_boundary text (S i) = true.
Proof.
  intros Hv Hb Ht%token_ascii. unfold is_char_boundary. destruct (text !! S i) as [c|] eqn:Ec.
  - by rewrite (ascii_then_start _ _ _ _ Hv Hb Ht Ec).
  - apply lookup_ge_None in Ec. apply lookup_lt_Some in Hb. apply Nat.eqb_eq. lia.
Qed.

Lemma boundary_end text : is_char_boundary text (length text) = true.
Proof. unfold is_char_boundary. rewrite lookup_ge_None_2 by lia. apply Nat.eqb_refl. Qed.
Lemma boundary_start text : is_char_boundary text 0 = true.
Proof. unfold is_char_boundary. by destruct text. Qed.

Lemma redact_loop_spec fuel text out i ps :
  utf8_valid text = true -> (ps <= i <= length text)%nat -> is_char_boundary text ps = true ->
  (length text - i < fuel)%nat ->
  redact_loop fuel text out i ps = Some (out ++ take (i - ps) (drop ps text) ++ sanitized (drop i text)).
Proof.
  intros Hv. revert out i ps. induction fuel as [|fuel IH]; intros out i ps Hi Hps Hf; [lia|]. cbn [redact_loop].
  destruct (text !! i) as [b|] eqn:Eb.
  2:{ apply lookup_ge_None in Eb. assert (i = length text) as -> by lia.
      rewrite str_slice_ok by (try apply boundary_end; lia || done). cbn [mbind option_bind].
      rewrite drop_all. unfold sanitized. cbn. by rewrite app_nil_r. }
  pose proof (lookup_lt_Some _ _ _ Eb) as Hlt.
  destruct (is_token_byte b) eqn:Et.
  - destruct (run_split (drop i text)) as (tok & rest & Ed & Hl & Htok & Hrest).
    rewrite token_end_run, <-Hl by lia.
    assert (tok <> []) as Hne. { rewrite (drop_S _ _ _ Eb) in Hl. cbn in Hl. rewrite Et in Hl. by destruct tok. }
    assert (i + length tok <= length text)%nat as Hle.
    { apply (f_equal length) in Ed. rewrite length_drop, length_app in Ed. lia. }
    assert (drop (i + length tok) text = rest) as Hdrop by (by rewrite <-drop_drop, Ed, drop_app_length).
    assert (is_char_boundary text (i + length tok) = true) as Hbe.
    { destruct tok as [|x tok'] using rev_ind; [done|]. clear IHtok'.
      rewrite length_app. cbn. replace (i + (length tok' + 1))%nat with (S (i + length tok')) by lia.
      apply Forall_app in Htok as [_ [Hx _]%Forall_cons]. eapply boundary_after; [done| |exact Hx].
      rewrite <-lookup_drop, Ed, <-app_assoc. by apply list_lookup_middle. }
    rewrite (str_slice_ok text i) by (done || lia || by eapply boundary_token).
    replace (i + length tok - i)%nat with (length tok) by lia. rewrite Ed, take_app_length. cbn [mbind option_bind].
    assert (sanitized (tok ++ rest) = redact_piece tok ++ sanitized rest) as Hsan.
    { unfold sanitized. by rewrite pieces_run. }
    assert (0 < length tok)%nat by (destruct tok; [done|cbn; lia]).
    unfold redact_piece in Hsan. destruct (looks_secret tok).
    + rewrite str_slice_ok by (done || lia || by eapply boundary_token). cbn [mbind option_bind].
      rewrite IH by (done || lia). rewrite Nat.sub_diag, take_0, Hdrop, Hsan. by rewrite <-!app_assoc.
    + rewrite IH by (done || lia). rewrite Hdrop, Hsan.
      replace (i + length tok - ps)%nat with ((i - ps) + length tok)%nat by lia.
      rewrite <-(take_take_drop (drop ps text) (i - ps) (length tok)).
      rewrite drop_drop. replace (ps + (i - ps))%nat with i by lia. rewrite Ed, take_app_length. by rewrite <-!app_assoc.
  - rewrite IH by (done || lia). rewrite (drop_S _ _ _ Eb). unfold sanitized at 2.
    rewrite (pieces_other _ _ Et). cbn [fmap list_fmap concat]. unfold redact_piece at 1. rewrite other_not_secret.
    replace (i + 1 - ps)%nat with (S (i - ps)) by lia.
    rewrite (take_S_r _ _ b) by (rewrite lookup_drop; by replace (ps + (i - ps))%nat with i by lia).
    rewrite Nat.add_1_r. by rewrite <-!app_assoc.
Qed.

(** *** What is left in the output *)
Lemma sanitized_other b l : is_token_byte b = false -> sanitized (b :: l) = b :: sanitized l.
Proof.
  intros Hb. unfold sanitized. rewrite (pieces_other _ _ Hb). cbn. unfold redact_piece at 1. by rewrite other_not_secret.
Qed.

Definition clean (l : bytes) : Prop := Forall (fun p => looks_secret p = false) (pieces l).

Lemma clean_app a b : apart_at a b -> clean a -> clean b -> clean (a ++ b).
Proof. intros Hap Ha Hb. unfold clean. rewrite (pieces_app _ _ Hap). by apply Forall_app_2. Qed.

Lemma redacted_clean : clean redacted.
Proof. unfold clean. by repeat (constructor; [vm_compute; reflexivity|]). Qed.

Lemma sanitized_clean l : clean (sanitized l).
Proof.
  remember (length l) as n eqn:Hn. revert l Hn. induction n as [n IH] using lt_wf_ind. intros l ->.
  destruct (run_split l) as (tok & rest & -> & _ & Htok & Hrest). destruct tok as [|t tok].
  - destruct rest as [|b rest]; [constructor|]. cbn [app]. rewrite (sanitized_other _ _ Hrest).
    apply (clean_app [b]).
    + unfold apart_at. cbn. destruct (head _); [by rewrite Hrest|done].
    + repeat constructor. apply other_not_secret.
    + eapply IH; [|done]. cbn. lia.
  - assert (sanitized ((t :: tok) ++ rest) = redact_piece (t :: tok) ++ sanitized rest) as ->.
    { unfold sanitized. by rewrite pieces_run. }
    apply clean_app.
    + unfold apart_at. destruct (last _) as [z|]; [|done]. destruct rest as [|b rest]; [done|].
      rewrite (sanitized_other _ _ Hrest). cbn. by rewrite Hrest, andb_false_r.
    + unfold redact_piece. destruct (looks_secret _) eqn:Es; [apply redacted_clean|].
      unfold clean. rewrite pieces_token by done. by repeat constructor.
    + eapply IH; [|done]. rewrite length_app. cbn. lia.
Qed.

(** A clean text is left as it is. *)
Lemma sanitized_fixed l : clean l -> sanitized l = l.
Proof.
  unfold clean, sanitized. intros Hc. rewrite <-(concat_pieces l) at 2. f_equal.
  induction Hc as [|p ps Hp _ IH]; [done|]. cbn. rewrite IH. unfold redact_piece. by rewrite Hp.
Qed.

(** *** Generated identifiers look like secrets *)
Lemma split_on_sep sep x y : Forall (fun b => Byte.eqb b sep = false) x -> split_on sep (x ++ sep :: y) = x :: split_on sep y.
Proof.
  induction 1 as [|b x Hb _ IH]; cbn [split_on app].
  - by destruct sep.
  - by rewrite Hb, IH.
Qed.
Lemma split_on_none sep x : Forall (fun b => Byte.eqb b sep = false) x -> split_on sep x = [x].
Proof. induction 1 as [|b x Hb _ IH]; [done|]. cbn. by rewrite Hb, IH. Qed.

Definition plain_hex (b : byte) : bool := is_ascii_hexdigit b && negb (Byte.eqb b dash).

Lemma hex_digit_plain n : 0 <= n < 16 -> plain_hex (hex_digit n) = true.
Proof.
  intros Hn. assert (exists k, n = Z.of_nat k /\ (k < 16)%nat) as (k & -> & Hk) by (exists (Z.to_nat n); lia).
  do 16 (destruct k as [|k]; [reflexivity|]). lia.
Qed.

Lemma hex_bytes_plain l : Forall (fun b => plain_hex b = true) (hex_bytes l).
Proof.
  induction l as [|x l IH]; cbn [hex_bytes]; [constructor|]. pose proof (byte_val_range x).
  repeat constructor; [| |done]; apply hex_digit_plain; [|by apply Z.mod_pos_bound].
  split; [apply Z.div_pos; lia|apply Z.div_lt_upper_bound; lia].
Qed.
Lemma hex_bytes_length l : length (hex_bytes l) = (2 * length l)%nat.
Proof. induction l; cbn in *; lia. Qed.

Lemma hex_group_dash l : Forall (fun b => Byte.eqb b dash = false) (hex_bytes l).
Proof.
  eapply Forall_impl; [apply hex_bytes_plain|]. intros b [_ Hb]%andb_true_iff. by apply negb_true_iff.
Qed.
Lemma hex_group_hex l : forallb is_ascii_hexdigit (hex_bytes l) = true.
Proof.
  apply forallb_forall. intros b Hb%list_elem_of_In. by
    apply (proj1 (Forall_forall _ _) (hex_bytes_plain l)), andb_true_iff in Hb as [? _].
Qed.

Lemma uuid_looks_secret entropy : length entropy = 16%nat -> looks_secret (as_bytes (generate_uuid_v4 entropy)) = true.
Proof.
  intros Hl. unfold generate_uuid_v4, hex_group. set (u := uuid_bytes entropy).
  assert (length u = 16%nat) as Hu by (unfold u, uuid_bytes; by rewrite !length_insert).
  unfold looks_secret, looks_like_uuid. rewrite !as_bytes_app, !as_bytes_str_of.
  change (as_bytes "-") with [dash]. cbn [app].
  rewrite !split_on_sep, split_on_none by apply hex_group_dash. cbn [length zip zip_with forallb fst snd].
  rewrite !hex_group_hex, !hex_bytes_length, !length_take, !length_drop, Hu. reflexivity.
Qed.

Lemma redact_total text : is_str text -> exists out, redact_secrets text = Some out /\ clean out.
Proof.
  intros Htext. exists (sanitized (as_bytes text)). split; [|apply sanitized_clean].
  unfold redact_secrets. rewrite redact_loop_spec; [done|done|lia|apply boundary_start|lia].
Qed.

(** C31: Sanitizing a diagnostic report never fails and is complete for whole
    tokens: for every text the scan replaces exactly the maximal runs of token
    bytes (letters, digits, [-] and [_]) that look like a secret and keeps every
    other byte ([sanitized]); no run of the result looks like a secret, so
    sanitizing it again changes nothing, and no generated user UUID stands in it
    as a run of its own.  A secret that is only part of a longer run is not
    covered, see [glued_uuid_survives]. *)
Theorem redaction_complete (text : string) (Htext : is_str text) :
  exists out, redact_secrets text = Some out /\ out = sanitized (as_bytes text) /\
    Forall (fun p => looks_secret p = false) (pieces out) /\ sanitized out = out /\
    (forall entropy, length entropy = 16%nat -> ~ In (as_bytes (generate_uuid_v4 entropy)) (pieces out)).
Proof.
  pose proof (sanitized_clean (as_bytes text)) as Hc. exists (sanitized (as_bytes text)).
  split; [|split; [done|split; [done|split; [by apply sanitized_fixed|]]]].
  - unfold redact_secrets. rewrite redact_loop_spec; [done|done|lia|apply boundary_start|lia].
  - intros entropy Hl Hin%list_elem_of_In. apply (proj1 (Forall_forall _ _) Hc) in Hin.
    by rewrite uuid_looks_secret in Hin.
Qed.

Definition log_line : string := "usuário 3f2504e0-4f89-41d3-9a0c-0305e82c3301 conectado (ok)".
Lemma redaction_complete_witness :
  redact_secrets log_line = Some (as_bytes "usuário <redacted> conectado (ok)") /\
  exists out, redact_secrets log_line = Some out /\ out = sanitized (as_bytes log_line) /\
    Forall (fun p => looks_secret p = false) (pieces out) /\ sanitized out = out /\
    (forall entropy, length entropy = 16%nat -> ~ In (as_bytes (generate_uuid_v4 entropy)) (pieces out)).
Proof. split; [vm_compute; reflexivity|]. apply (redaction_complete log_line). vm_compute. reflexivity. Defined.

(** A UUID that is glued to other token bytes is kept. *)
Example glued_uuid_survives :
  let line := "user 0-11111111-1111-4111-9111-111111111111 rejected" in
  generate_uuid_v4 (repeat Byte.x11 16) = "11111111-1111-4111-9111-111111111111" /\
  redact_secrets line = Some (as_bytes line).
Proof. vm_compute. done. Qed.

(** A run of letters only is not taken for a token, however long. *)
Example letters_are_kept :
  let token := "QWErtyUIOPasdfghJKLzxcvbnmQ" in redact_secrets token = Some (as_bytes token).
Proof. vm_compute. reflexivity. Qed.
