(* ===== verification/Status.v ===== *)
(** * apps/admin: looking at the deployment

    The read-only probes of main.rs that [status], [version] and [doctor] share:
    the external tools they ask ([openssl], [date], [ss], [systemctl]) are
    commands of the world, and what is read from their output is computed here
    byte for byte.  A command returns the data that it prints. *)

From stdpp Require Import pretty.
From Stdlib Require Import Strings.Byte.
From S2P Require Import Prelude Bytes Io Serde Fs Model Store Render Deployment Service Anyhow Selftest Admin.

(** ** Text *)

(** [str::ends_with] *)
Definition ends_with_bytes (p l : bytes) : bool := starts_with_bytes (rev p) (rev l).

(** [str::split_whitespace]: the runs between white space, none of them empty. *)
Fixpoint split_ws (fuel : nat) (word l : bytes) : list bytes :=
  let flush := match word with [] => [] | _ => [rev word] end in
  match fuel, l with
  | S fuel, b :: t =>
    match ws_len l with
    | O => split_ws fuel (b :: word) t
    | n => flush ++ split_ws fuel [] (drop n l)
    end
  | _, _ => flush
  end.
(** Every step consumes a byte. *)
Definition split_whitespace (l : bytes) : list bytes := split_ws (length l) [] l.

(** [str::parse::<i64>]: an optional sign and at least one digit, within range. *)
Definition i64_min : Z := - 2 ^ 63.
Definition i64_max : Z := 2 ^ 63 - 1.
Fixpoint digits_value (acc : Z) (l : bytes) : option Z :=
  match l with
  | [] => Some acc
  | b :: t => if in_range 48 57 b then digits_value (acc * 10 + (byte_val b - 48)) t else None
  end.
Definition parse_i64 (l : bytes) : result string Z :=
  let '(sign, ds) := match l with x2d :: t => (-1, t) | x2b :: t => (1, t) | _ => (1, l) end in
  match ds with
  | [] => Err (if bool_decide (l = []) then "cannot parse integer from empty string" else "invalid digit found in string")
  | _ =>
    match digits_value 0 ds with
    | None => Err "invalid digit found in string"
    | Some v =>
      let v := sign * v in
      if v <? i64_min then Err "number too small to fit in target type"
      else if i64_max <? v then Err "number too large to fit in target type"
      else Ok v
    end
  end.

(** [text.lines().next()] *)
Definition first_line (text : string) : option string := str_of_bytes <$> head (lines_bytes (as_bytes text)).

Section Probes.
Context {C : Clock}.

(** ** Certificates *)
Definition cert_expiry_days {E : Type} (p : path) : IO E (option (result string Z)) :=
  do ex <- path_exists p;
  if negb ex then io_ret None else
  io_try (run_command ["openssl"; "x509"; "-enddate"; "-noout"; "-in"; path_str p]) (fun r =>
    match r with
    | Err _ => io_ret (Some (Err "openssl not available"))
    | Ok o =>
      if negb (success o) then io_ret (Some (Err (trim (from_utf8_lossy (stderr o))))) else
      let text := from_utf8_lossy (stdout o) in
      match strip_prefix_bytes (as_bytes "notAfter=") (as_bytes (trim text)) with
      | None => io_ret (Some (Err ("unexpected openssl output: " +:+ text)))
      | Some date_bytes =>
        let date_str := str_of_bytes date_bytes in
        io_try (run_command ["date"; "-u"; "-d"; date_str; "+%s"]) (fun r =>
          match r with
          | Ok o =>
            if success o then
              match parse_i64 (as_bytes (trim (from_utf8_lossy (stdout o)))) with
              | Err _ => io_ret None  (* [.ok()?] *)
              | Ok secs => do now <- io_now; io_ret (Some (Ok (Z.quot (secs - now) 86400)))
              end
            else io_ret (Some (Err ("could not parse expiry date " +:+ quoted date_str)))
          | Err _ => io_ret (Some (Err ("could not parse expiry date " +:+ quoted date_str)))
          end)
      end
    end).

(** ** Listeners, as [ss] reports them *)
Definition field_matches (suffix field : bytes) : bool :=
  bool_decide (field = suffix) || ends_with_bytes suffix field || contains_bytes (x5d :: suffix) field.
Definition listener_reported_by_ss {E : Type} (port : Z) (udp : bool) : IO E (option bool) :=
  io_try (run_command (if udp then ["ss"; "-H"; "-lun"] else ["ss"; "-H"; "-ltn"])) (fun r =>
    io_ret match r with
    | Err _ => None
    | Ok o =>
      if negb (success o) then None else
      let suffix := as_bytes (":" +:+ pretty port) in
      Some (existsb (fun line => existsb (field_matches suffix) (split_whitespace line))
        (lines_bytes (as_bytes (from_utf8_lossy (stdout o)))))
    end).

(** ** Services *)
Inductive ServiceLabel := Unknown | NotInstalled | Active | Inactive.
Definition service_state_label {E : Type} (mgr : CompatibilityServiceManager) : IO E ServiceLabel :=
  do available <- is_available mgr;
  if negb available then io_ret Unknown else
  do installed <- is_unit_installed mgr;
  if negb installed then io_ret NotInstalled else
  do active <- Service.is_active mgr;
  io_ret (if (active : bool) then Active else Inactive).

(** ** [version] and [status] *)
Definition cmd_version (cfg : DeploymentConfig) : IO anyhow (option string) :=
  io_try (run_command [singbox_binary cfg; "version"]) (fun r =>
    match r with
    | Ok o => if success o then io_ret (first_line (from_utf8_lossy (stdout o)))
              else io_ret (Some ("sing-box: not found at " +:+ quoted (singbox_binary cfg) +:+ " (or failed to run `version`)"))
    | Err _ => io_ret (Some ("sing-box: not found at " +:+ quoted (singbox_binary cfg) +:+ " (or failed to run `version`)"))
    end).

Context {JU : Json UsersFile} {JL : Json (list CompatUser)}.

Record StatusReport := {
  st_singbox : ServiceLabel;
  st_subscription : ServiceLabel;
  st_config_present : bool;
  st_total : nat;
  st_active : nat;
  st_disabled : nat;
  st_certificate : option (result string Z)
}.
Definition cmd_status (cfg : DeploymentConfig) : IO anyhow StatusReport :=
  do users <- from_compat (load_users (users_file cfg));
  do now <- io_now;
  let active := length (List.filter (fun u => Model.is_active u now) users) in
  let disabled := length (List.filter (fun u => negb (u_enabled u)) users) in
  do singbox <- service_state_label (manager_new "sing-box");
  do subscription <- service_state_label (manager_new "vpn-subscription");
  do present <- path_exists (singbox_config_file cfg);
  do days <- cert_expiry_days (hysteria_dir cfg ++ ["cert.pem"]);
  io_ret {| st_singbox := singbox; st_subscription := subscription; st_config_present := present;
            st_total := length users; st_active := active; st_disabled := disabled; st_certificate := days |}.
End Probes.

(** ** Framing: the probes change nothing on the disk *)
Section ProbeFrames.
Context {C : Clock}.

Lemma keeps_unix_now {E : Type} q : keeps q (io_now (E := E)).
Proof. intros w r w' [= <- <-]. split; [done|]. exists []. split; [apply extends_refl|done]. Qed.
Lemma keeps_cert_expiry {E : Type} q p : keeps q (cert_expiry_days (E := E) p).
Proof. unfold cert_expiry_days. solve_keeps; apply keeps_unix_now. Qed.
Lemma keeps_listener {E : Type} q port udp : keeps q (listener_reported_by_ss (E := E) port udp).
Proof. unfold listener_reported_by_ss. solve_keeps. Qed.
Lemma keeps_service_probe {E : Type} q mgr args test : keeps q (probe (E := E) mgr args test).
Proof. unfold probe, run. solve_keeps. Qed.
End ProbeFrames.
#[export] Hint Resolve keeps_unix_now keeps_cert_expiry keeps_listener keeps_service_probe : fs.

Lemma keeps_service_label {C : Clock} {E : Type} q mgr : keeps q (service_state_label (E := E) mgr).
Proof. unfold service_state_label, is_available, is_unit_installed, Service.is_active. solve_keeps. Qed.
#[export] Hint Resolve keeps_service_label : fs.

Section StatusFacts.
Context {C : Clock} {JU : Json UsersFile} {JL : Json (list CompatUser)}.

Lemma keeps_version q cfg : keeps q (cmd_version cfg).
Proof. unfold cmd_version. solve_keeps. Qed.
Lemma keeps_status q cfg : keeps q (cmd_status cfg).
Proof. unfold cmd_status, from_compat. solve_keeps. Qed.
End StatusFacts.
#[export] Hint Resolve keeps_version keeps_status : fs.

(** [openssl] and [date] on the machine of the next example. *)
Definition dated_tools (secs : string) (_ : nat) (argv : list string) (_ : fs) : result io_error output :=
  Ok (Output true (as_bytes (if decide (head argv = Some "openssl") then "notAfter=some day" else secs)) []).
Definition dated_host (secs : string) : world :=
  World {[ ["cert"] := File (Meta 420 0 0) [] ]} [] 0 (fun _ => None) (Proc 42 18 0 0) (dated_tools secs) [].

(** A certificate that expired an hour ago is reported as one that expires in
    zero days (the division rounds towards zero), and one whose date cannot be
    read as absent. *)
Example expired_today_shows_zero :
  let C := {| wall _ := 1003600; instants _ _ := 0 |} in
  (cert_expiry_days (E := string) ["cert"] (dated_host "1000000")).1 = Ok (Some (Ok 0)) /\
  (cert_expiry_days (E := string) ["cert"] (dated_host "soon")).1 = Ok None.
Proof. split; vm_compute; reflexivity. Qed.

Example ss_line :
  existsb (field_matches (as_bytes ":443"))
    (split_whitespace (as_bytes "LISTEN 0 4096 [::]:443 [::]:*")) = true.
Proof. vm_compute. reflexivity. Qed.
