(* ===== verification/Perf.v ===== *)
(** * apps/admin: [vpn-admin doctor --performance]

    Models [cmd_doctor_performance] of main.rs and the [perf_*] functions: what
    is read from [/proc] and from [ip], [tc] and [ps], as the labelled values
    the command prints.  The files under [/proc] are generated by the kernel, so
    a read is an argument of the model (numbered, as [/proc/stat] is sampled
    twice), and so are the entries of [/proc] and the number of CPUs. *)

From stdpp Require Import pretty.
From Stdlib Require Import Strings.Byte.
From S2P Require Import Prelude Bytes Io Fs Fl Service Anyhow Redact Status.

Class ProcFs := {
  (** [read_to_string(path).ok()], before and after the 200 ms pause *)
  proc_text : nat -> string -> option string;
  (** the names in [/proc], in the order they are listed *)
  proc_entries : option (list bytes);
  available_parallelism : option Z
}.

(** ** Text *)

(** [str::parse::<u64>] and [::<u32>], with the failures told apart by nobody. *)
Definition parse_unsigned (max : Z) (l : bytes) : option Z :=
  let ds := match l with x2b :: t => t | _ => l end in
  match ds with
  | [] => None
  | _ => digits_value 0 ds ≫= fun v => if max <? v then None else Some v
  end.
Definition u64_max : Z := 2 ^ 64 - 1.
Definition u32_max : Z := 2 ^ 32 - 1.
Definition text_lines (s : string) : list bytes := lines_bytes (as_bytes s).
Definition words (l : bytes) : list bytes := split_whitespace l.
Definition find_line (prefix : string) (text : string) : option bytes :=
  List.find (starts_with_bytes (as_bytes prefix)) (text_lines text).
Definition join (sep : string) (l : list bytes) : string := String.concat sep (str_of_bytes <$> l).
(** [iter().position(|w| w == x)] *)
Fixpoint position (x : bytes) (l : list bytes) : option nat :=
  match l with
  | [] => None
  | y :: t => if bool_decide (y = x) then Some 0%nat else S <$> position x t
  end.

(** [{v:.1}] of an [f64]: the exact value rounded to one decimal, ties to even. *)
Definition tenths (v : Z) : Z := nearest (10 * v) (fone f64).
Definition decimal (t : Z) : string := pretty (t / 10) +:+ "." +:+ pretty (t mod 10).
Definition fixed1 (v : Z) : string := decimal (tenths v).

(** ** The CPU sample *)
Definition parse_cpu_line (line : bytes) : option (list Z) :=
  let nums := omap (parse_unsigned u64_max) (drop 1 (words line)) in
  if (length nums <? 8)%nat then None else Some (take 8 nums).
Definition wrapping_add (a b : Z) : Z := (a + b) mod 2 ^ 64.

(** The two percentages, as [f64]s, from two samples of the counters. *)
Definition cpu_percentages (a b : list Z) : option (Z * Z) :=
  let deltas := zip_with (fun x y => Z.max 0 (y - x)) a b in
  let total := foldl wrapping_add 0 deltas in
  if total =? 0 then None else
  let idle := wrapping_add (default 0 (deltas !! 3%nat)) (default 0 (deltas !! 4%nat)) in
  let steal := default 0 (deltas !! 7%nat) in
  let busy_pct := fdiv f64 (fmul f64 (fof f64 100) (fof f64 (Z.max 0 (total - idle)))) (fof f64 total) in
  let steal_pct := fdiv f64 (fmul f64 (fof f64 100) (fof f64 steal)) (fof f64 total) in
  Some (busy_pct, steal_pct).

Section Perf.
Context {PF : ProcFs}.

Definition read_cpu_line (n : nat) : option (list Z) :=
  stat ← proc_text n "/proc/stat"; line ← find_line "cpu " stat; parse_cpu_line line.
Definition perf_cpu_and_steal_pct : option (Z * Z) :=
  a ← read_cpu_line 0; b ← read_cpu_line 1; cpu_percentages a b.

(** ** Single values *)
Definition perf_read (p : string) : option string := trim <$> proc_text 0 p.
Definition perf_cpu_model : option string :=
  text ← proc_text 0 "/proc/cpuinfo"; l ← find_line "model name" text;
  s ← split_on x3a l !! 1%nat; Some (trim (str_of_bytes s)).
Definition perf_vcpu_count : option string := pretty <$> available_parallelism.
Definition perf_load_average : option string :=
  (fun s => join " " (take 3 (words (as_bytes s)))) <$> perf_read "/proc/loadavg".
Definition perf_meminfo_field (field : string) : option string :=
  text ← proc_text 0 "/proc/meminfo"; l ← find_line field text; Some (trim (str_of_bytes l)).
Definition perf_primary_interface : option string :=
  text ← proc_text 0 "/proc/net/route";
  head (omap (fun l => match words l with
                       | iface :: dest :: _ =>
                         if bool_decide (dest = as_bytes "00000000") then Some (str_of_bytes iface) else None
                       | _ => None
                       end) (drop 1 (text_lines text))).
Fixpoint first_singbox (entries : list bytes) : option Z :=
  match entries with
  | [] => None
  | name :: rest =>
    match parse_unsigned u32_max name with
    | None => first_singbox rest
    | Some pid =>
      let comm := default EmptyString (proc_text 0 ("/proc/" +:+ str_of_bytes name +:+ "/comm")) in
      if bool_decide (trim comm = "sing-box") then Some pid else first_singbox rest
    end
  end.
Definition perf_singbox_pid : option Z := proc_entries ≫= first_singbox.

Definition perf_run {E : Type} (argv : list string) : IO E (option string) :=
  io_try (run_command argv) (fun r =>
    io_ret match r with
    | Ok o => if success o then Some (trim (from_utf8_lossy (stdout o))) else None
    | Err _ => None
    end).

(** ** Error counters: a line of names and, below it, the line of their values *)
Fixpoint snmp_field (lines : list bytes) (proto_prefix field_name : string) : option string :=
  match lines with
  | [] => None
  | header :: rest =>
    if starts_with_bytes (as_bytes proto_prefix) header then
      match rest with
      | [] => None
      | values :: _ =>
        i ← position (as_bytes field_name) (drop 1 (words header));
        v ← drop 1 (words values) !! i; Some (str_of_bytes v)
      end
    else snmp_field rest proto_prefix field_name
  end.

Definition mtu_of (s : string) : option string :=
  i ← position (as_bytes "mtu") (words (as_bytes s));
  w ← words (as_bytes s) !! (i + 1)%nat; Some (str_of_bytes w).
Definition fd_limits (s : string) : option string :=
  l ← find_line "Max open files" s; Some (join " / " (take 2 (drop 3 (words l)))).
Definition cpu_ticks (s : string) : option string :=
  let fields := words (List.last (split_on x29 (as_bytes s)) []) in
  utime ← fields !! 11%nat ≫= parse_unsigned u64_max;
  stime ← fields !! 12%nat ≫= parse_unsigned u64_max;
  Some (pretty (wrapping_add utime stime)).

(** ** The command: the lines it prints, as labels and values *)
Definition unavailable : string := "unavailable".
Definition perf_line (label : string) (value : option string) : string * string :=
  (label, match value with Some v => if bool_decide (v = EmptyString) then unavailable else v | None => unavailable end).

Definition cpu_lines : list (string * string) :=
  [perf_line "model" perf_cpu_model; perf_line "vCPUs" perf_vcpu_count;
   perf_line "load average (1m 5m 15m)" perf_load_average] ++
  match perf_cpu_and_steal_pct with
  | Some (busy, steal) =>
    [("utilisation (instantaneous, ~200ms sample)", fixed1 busy +:+ "%");
     ("steal (instantaneous, ~200ms sample)", fixed1 steal +:+ "%")]
  | None => [("utilisation", unavailable); ("steal", unavailable)]
  end.
Definition memory_lines : list (string * string) :=
  [perf_line "RAM total" (perf_meminfo_field "MemTotal"); perf_line "RAM available" (perf_meminfo_field "MemAvailable");
   perf_line "swap total" (perf_meminfo_field "SwapTotal"); perf_line "swap free" (perf_meminfo_field "SwapFree")].
Definition interface_lines {E : Type} : IO E (list (string * string)) :=
  let iface := perf_primary_interface in
  let first := perf_line "primary interface" iface in
  match iface with
  | Some iface =>
    do link <- perf_run ["ip"; "-o"; "link"; "show"; "dev"; iface];
    do qdisc <- perf_run ["tc"; "qdisc"; "show"; "dev"; iface];
    io_ret [first; perf_line "MTU" (link ≫= mtu_of); perf_line "qdisc" qdisc]
  | None => io_ret [first; perf_line "MTU" None; perf_line "qdisc" None]
  end.
Definition kernel_lines : list (string * string) :=
  [perf_line "current" (perf_read "/proc/sys/net/ipv4/tcp_congestion_control");
   perf_line "available" (perf_read "/proc/sys/net/ipv4/tcp_available_congestion_control");
   perf_line "net.core.rmem_max" (perf_read "/proc/sys/net/core/rmem_max");
   perf_line "net.core.wmem_max" (perf_read "/proc/sys/net/core/wmem_max")].
Definition counter_lines : list (string * string) :=
  let field proto name := proc_text 0 "/proc/net/snmp" ≫= fun snmp => snmp_field (text_lines snmp) proto name in
  [perf_line "TCP retransmitted segments" (field "Tcp:" "RetransSegs");
   perf_line "UDP receive errors" (field "Udp:" "InErrors");
   perf_line "UDP receive buffer errors" (field "Udp:" "RcvbufErrors");
   perf_line "UDP send buffer errors" (field "Udp:" "SndbufErrors")].
Definition singbox_lines {E : Type} : IO E (list (string * string)) :=
  match perf_singbox_pid with
  | None => io_ret [("sing-box process", "not found (is sing-box running?)")]
  | Some pid =>
    do nice <- perf_run ["ps"; "-o"; "ni="; "-p"; pretty pid];
    io_ret [("pid", pretty pid);
            perf_line "nice" (trim <$> nice);
            perf_line "open file descriptor limit (soft/hard)"
              (proc_text 0 ("/proc/" +:+ pretty pid +:+ "/limits") ≫= fd_limits);
            perf_line "CPU time consumed (utime+stime, clock ticks since process start)"
              (proc_text 0 ("/proc/" +:+ pretty pid +:+ "/stat") ≫= cpu_ticks)]
  end.

Definition cmd_doctor_performance {E : Type} : IO E (list (string * string)) :=
  do interface <- interface_lines;
  do process <- singbox_lines;
  io_ret (cpu_lines ++ memory_lines ++ interface ++ kernel_lines ++ counter_lines ++ process).
End Perf.

(** ** Facts: the percentages *)
Definition deltas (a b : list Z) : list Z := zip_with (fun x y => Z.max 0 (y - x)) a b.
Definition sum (l : list Z) : Z := foldr Z.add 0 l.

(** Integers below [2^53] are [f64]s. *)
Lemma integer_rep k : 0 <= k < 2 ^ 53 -> rep f64 (k * fone f64).
Proof.
  intros Hk. unfold rep, last_place, fone. rewrite Z.div_1_r. cbn [prec scale f64].
  destruct (decide (k = 0)) as [->|Hne]; [split; [lia|apply Z.divide_0_r]|].
  split; [lia|]. rewrite Z.log2_mul_pow2 by lia.
  assert (Z.log2 k < 53) by (apply Z.log2_lt_pow2; lia).
  exists (k * 2 ^ (1074 - Z.max 0 (1074 + Z.log2 k + 1 - 53))).
  rewrite <-Z.mul_assoc, <-Z.pow_add_r by lia. do 2 f_equal. lia.
Qed.
Lemma fof_integer k : 0 <= k < 2 ^ 53 -> fof f64 k = k * fone f64.
Proof. intros Hk. unfold fof. apply rnd_exact; [cbn; lia|by apply integer_rep]. Qed.

(** The percentage that the code computes is the true one, rounded once. *)
Lemma percentage_exact x t :
  0 <= x <= t -> 0 < t < 2 ^ 46 ->
  fdiv f64 (fmul f64 (fof f64 100) (fof f64 x)) (fof f64 t) = flit f64 (100 * x) t.
Proof.
  intros Hx Ht. pose proof (fone_pos f64 ltac:(cbn; lia)) as Hone.
  rewrite !fof_integer by lia. unfold fmul, fdiv, flit.
  assert (rnd f64 (100 * fone f64 * (x * fone f64)) (fone f64) = 100 * x * fone f64) as ->.
  { pose proof (integer_rep (100 * x) ltac:(lia)) as Hr.
    apply Z.le_antisymm; [apply rnd_le|apply rnd_ge]; try done; try (cbn; lia); nia. }
  assert (0 <= x * fone f64) by (apply Z.mul_nonneg_nonneg; lia).
  assert (0 < t * fone f64) by (apply Z.mul_pos_pos; lia).
  assert (0 <= 100 * x * fone f64) by lia.
  assert (0 <= 100 * x * fone f64 * fone f64) by (apply Z.mul_nonneg_nonneg; lia).
  apply Z.le_antisymm; apply rnd_mono; try done; try lia; try (apply Z.eq_le_incl; ring).
Qed.

Lemma sum_cons x l : sum (x :: l) = x + sum l.
Proof. done. Qed.
Lemma sum_nonneg l : Forall (fun x => 0 <= x) l -> 0 <= sum l.
Proof. induction 1; [done|]. rewrite sum_cons. lia. Qed.
Lemma foldl_wrapping l acc :
  0 <= acc -> Forall (fun x => 0 <= x) l -> acc + sum l < 2 ^ 64 -> foldl wrapping_add acc l = acc + sum l.
Proof.
  intros Hacc Hl. revert acc Hacc. induction Hl as [|x l Hx Hl IH]; intros acc Hacc Hs; [cbn; lia|].
  rewrite sum_cons in Hs. pose proof (sum_nonneg l Hl). cbn [foldl].
  unfold wrapping_add at 2. rewrite Z.mod_small by lia. rewrite IH, sum_cons; lia.
Qed.

(** The figures are true.  If the eight counters moved by fewer than [2^46]
    ticks between the two samples, then the utilisation printed is the share of
    ticks that were neither idle nor waiting, the steal the share of stolen
    ones, each rounded once to the nearest [f64]; and the steal is at most the
    utilisation, which is at most 100. *)
Lemma cpu_percentages_spec a b busy steal :
  length a = 8%nat -> length b = 8%nat -> sum (deltas a b) < 2 ^ 46 ->
  cpu_percentages a b = Some (busy, steal) ->
  exists user nice system idle iowait irq softirq stolen,
    deltas a b = [user; nice; system; idle; iowait; irq; softirq; stolen] /\
    let total := sum (deltas a b) in
    0 < total /\
    busy = flit f64 (100 * (total - (idle + iowait))) total /\ steal = flit f64 (100 * stolen) total /\
    0 <= steal <= busy /\ busy <= 100 * fone f64.
Proof.
  intros Ha Hb Hs Hp. pose proof (fone_pos f64 ltac:(cbn; lia)) as Hone.
  assert (Forall (fun x => 0 <= x) (deltas a b)) as Hpos.
  { apply Forall_forall. intros x (i & Hi)%list_elem_of_lookup. unfold deltas in Hi.
    apply lookup_zip_with_Some in Hi as (? & ? & -> & _). lia. }
  assert (length (deltas a b) = 8%nat) as Hlen by (unfold deltas; rewrite length_zip_with; lia).
  unfold cpu_percentages in Hp. cbv zeta in Hp. fold (deltas a b) in Hp.
  rewrite (foldl_wrapping (deltas a b) 0) in Hp by (try done; lia). rewrite Z.add_0_l in Hp.
  destruct (deltas a b) as [|x0 [|x1 [|x2 [|x3 [|x4 [|x5 [|x6 [|x7 []]]]]]]]]; try done.
  repeat match goal with H : Forall _ (_ :: _) |- _ => apply Forall_cons in H as [? ?] end.
  cbn [lookup list_lookup default from_option id] in Hp. unfold wrapping_add in Hp.
  set (total := sum [x0; x1; x2; x3; x4; x5; x6; x7]) in *.
  assert (x3 + x4 + x7 <= total) by (subst total; cbn; lia). assert (0 <= total) by lia.
  destruct (Z.eqb_spec total 0); [done|]. rewrite (Z.mod_small (x3 + x4)) in Hp by lia.
  rewrite (Z.max_r 0 (total - (x3 + x4))), !percentage_exact in Hp by lia. injection Hp as <- <-.
  exists x0, x1, x2, x3, x4, x5, x6, x7. split; [done|]. cbv zeta.
  split; [lia|]. split; [done|]. split; [done|].
  split; [split|].
  - apply rnd_ge; [done| |lia|apply rep_0|lia]. apply Z.mul_nonneg_nonneg; lia.
  - unfold flit. apply rnd_mono; [done|apply Z.mul_nonneg_nonneg; lia|lia|lia|].
    apply Z.mul_le_mono_nonneg_r; [lia|]. apply Z.mul_le_mono_nonneg_r; lia.
  - apply rnd_le; [apply Z.mul_nonneg_nonneg; lia|lia|apply integer_rep; lia|].
    rewrite <-(Z.mul_assoc 100 (fone f64)), (Z.mul_comm (fone f64)), Z.mul_assoc. apply Z.mul_le_mono_nonneg_r; lia.
Qed.

Lemma parse_cpu_length line a : parse_cpu_line line = Some a -> length a = 8%nat.
Proof.
  unfold parse_cpu_line. destruct (Nat.ltb_spec (length (omap (parse_unsigned u64_max) (drop 1 (words line)))) 8); [done|].
  intros [= <-]. rewrite length_take. lia.
Qed.
Lemma read_cpu_length {PF : ProcFs} n a : read_cpu_line n = Some a -> length a = 8%nat.
Proof. intros (stat & _ & (line & _ & H)%bind_Some)%bind_Some. by eapply parse_cpu_length. Qed.

Lemma tenths_range v w : 0 <= v <= w -> w <= 100 * fone f64 -> 0 <= tenths v <= tenths w /\ tenths w <= 1000.
Proof.
  intros Hv Hw. pose proof (fone_pos f64 ltac:(cbn; lia)). unfold tenths. split; [split|].
  - apply nearest_ge; lia.
  - apply nearest_mono; [lia|lia|]. apply Z.mul_le_mono_nonneg_r; lia.
  - apply nearest_le; lia.
Qed.

(** Measuring reads [/proc] and runs [ip], [tc] and [ps]; it writes nothing. *)
Lemma commands_performance {PF : ProcFs} {E : Type} :
  commands (fun argv => head argv = Some "ip" \/ head argv = Some "tc" \/ head argv = Some "ps")
    (cmd_doctor_performance (E := E)).
Proof.
  assert (forall argv, head argv = Some "ip" \/ head argv = Some "tc" \/ head argv = Some "ps" ->
    commands (fun argv => head argv = Some "ip" \/ head argv = Some "tc" \/ head argv = Some "ps")
      (perf_run (E := E) argv)) as Hrun.
  { intros argv Ha. apply commands_try; [by apply commands_run|]. intros. apply commands_ret. }
  apply commands_bind; [|intros interface; apply commands_bind; [|intros; apply commands_ret]].
  - unfold interface_lines. destruct perf_primary_interface; [|apply commands_ret].
    apply commands_bind; [apply Hrun; by left|]. intros. apply commands_bind; [apply Hrun; cbn; tauto|].
    intros. apply commands_ret.
  - unfold singbox_lines. destruct perf_singbox_pid; [|apply commands_ret].
    apply commands_bind; [apply Hrun; cbn; tauto|]. intros. apply commands_ret.
Qed.

(** C37: The performance figures are true.  If the kernel's CPU counters moved by
    fewer than [2^46] ticks between the two samples, the command prints, to one
    decimal, the share of the ticks in between that were neither idle nor
    waiting and the share of stolen ones, each computed with a single rounding;
    the steal is at most the utilisation and neither exceeds 100.0.  Nothing on
    the disk changes, whatever fails. *)
Theorem performance_figures_true {PF : ProcFs} a b busy steal w (r : result anyhow (list (string * string))) w' :
  read_cpu_line 0 = Some a -> read_cpu_line 1 = Some b -> sum (deltas a b) < 2 ^ 46 ->
  perf_cpu_and_steal_pct = Some (busy, steal) -> cmd_doctor_performance w = (r, w') ->
  w_fs w' = w_fs w /\
  exists user nice system idle iowait irq softirq stolen lines,
    deltas a b = [user; nice; system; idle; iowait; irq; softirq; stolen] /\ r = Ok lines /\
    let total := sum (deltas a b) in
    0 < total /\
    busy = flit f64 (100 * (total - (idle + iowait))) total /\ steal = flit f64 (100 * stolen) total /\
    ("utilisation (instantaneous, ~200ms sample)", decimal (tenths busy) +:+ "%") ∈ lines /\
    ("steal (instantaneous, ~200ms sample)", decimal (tenths steal) +:+ "%") ∈ lines /\
    0 <= tenths steal <= tenths busy /\ tenths busy <= 1000.
Proof.
  intros Ha Hb Hs Hp Hr. split; [by apply commands_performance in Hr as (new & -> & _)|].
  pose proof Hp as Hp'. unfold perf_cpu_and_steal_pct in Hp'. rewrite Ha, Hb in Hp'. cbn in Hp'.
  destruct (cpu_percentages_spec a b busy steal (read_cpu_length _ _ Ha) (read_cpu_length _ _ Hb) Hs Hp')
    as (x0 & x1 & x2 & x3 & x4 & x5 & x6 & x7 & Hd & Ht & Hbusy & Hsteal & Hle & Htop).
  destruct (tenths_range steal busy Hle Htop) as [Hr1 Hr2].
  assert (exists rest, r = Ok (cpu_lines ++ rest)) as (rest & ->).
  { revert Hr. unfold cmd_doctor_performance, io_bind.
    assert (forall w, exists l w', interface_lines (E := anyhow) w = (Ok l, w')) as Hi.
    { intros w0. unfold interface_lines. destruct perf_primary_interface; [|eauto].
      unfold io_bind, perf_run, io_try. repeat destruct (run_command _ _). eauto. }
    assert (forall w, exists l w', singbox_lines (E := anyhow) w = (Ok l, w')) as Hb'.
    { intros w0. unfold singbox_lines. destruct perf_singbox_pid; [|eauto].
      unfold io_bind, perf_run, io_try. repeat destruct (run_command _ _). eauto. }
    destruct (Hi w) as (l & w1 & ->), (Hb' w1) as (l' & w2 & ->). intros [= <- <-]. eauto. }
  exists x0, x1, x2, x3, x4, x5, x6, x7, (cpu_lines ++ rest). split; [done|]. split; [done|]. cbv zeta.
  do 3 (split; [done|]). unfold cpu_lines. rewrite Hp. cbn [app].
  split; [|split; [|done]]; rewrite !elem_of_cons; tauto.
Qed.

(** ** Witness *)
Module PerfDemo.
(** A quarter of the ticks between the samples was stolen, another spent. *)
#[export] Instance proc : ProcFs := {|
  proc_text n p :=
    if String.eqb p "/proc/stat" then
      Some (if (n =? 0)%nat then "cpu  100 0 50 1000 10 0 0 5" else "cpu  110 0 50 1015 15 0 0 15")
    else None;
  proc_entries := None;
  available_parallelism := Some 2 |}.
Definition figures : Z * Z := Eval vm_compute in default (0, 0) perf_cpu_and_steal_pct.
Lemma figures_measured : perf_cpu_and_steal_pct = Some (figures.1, figures.2).
Proof. vm_compute. reflexivity. Qed.
Lemma figures_shown : decimal (tenths figures.1) +:+ "%" = "50.0%".
Proof. vm_compute. reflexivity. Qed.
Definition quiet_world : world := World ∅ [] 0 (fun _ => None) (Proc 42 18 0 0) (fun _ _ _ => Err enoent) [].
Definition measured := cmd_doctor_performance (E := anyhow) quiet_world.
End PerfDemo.

Section PerfWitness.
Import PerfDemo.

Lemma performance_figures_true_witness :
  w_fs (snd measured) = ∅ /\ exists lines, (fst measured) = Ok lines /\ ("utilisation (instantaneous, ~200ms sample)", "50.0%") ∈ lines.
Proof.
  destruct (performance_figures_true [100; 0; 50; 1000; 10; 0; 0; 5] [110; 0; 50; 1015; 15; 0; 0; 15] figures.1 figures.2
    quiet_world (fst measured) (snd measured)) as (Hfs & x0 & x1 & x2 & x3 & x4 & x5 & x6 & x7 & lines & _ & Hl & _ & _ & _ & Hu & _).
  - vm_compute. reflexivity.
  - vm_compute. reflexivity.
  - vm_compute. reflexivity.
  - exact figures_measured.
  - exact (surjective_pairing measured).
  - split; [exact Hfs|]. exists lines. split; [exact Hl|]. rewrite <-figures_shown. exact Hu.
Defined.
End PerfWitness.
