(* ===== verification/Summaries.v ===== *)
(** * apps/admin: what [doctor] says in the end

    Models [print_doctor_coverage_line], [build_doctor_coverage_report],
    [print_telegram_diagnostics_summary] and [print_client_acceptance_checklist]
    of main.rs, as the lines they print, each followed by a line break. *)

From stdpp Require Import pretty.
From Stdlib Require Import Strings.Byte.
From S2P Require Import Prelude Bytes Io Serde Fs Model Store Render Http RateLimiter Server Subscription.
From S2P Require Import Deployment Service Anyhow Selftest Admin Status.

Module ProtocolCheckResult.
Inductive t := NotRun | Passed | Failed | Inconclusive.
Definition label (r : t) : string :=
  match r with
  | NotRun => "NOT RUN"
  | Passed => "PASSED"
  | Failed => "FAILED"
  | Inconclusive => "INCONCLUSIVE"
  end.
End ProtocolCheckResult.
Notation ProtocolCheckResult := ProtocolCheckResult.t.
#[export] Instance ProtocolCheckResult_eq_dec : EqDecision ProtocolCheckResult.
Proof. solve_decision. Defined.

(** A double quote. *)
Definition dq : string := String (Ascii.ascii_of_nat 34) EmptyString.

Definition build_doctor_coverage_report (l1_l4_failures : Z) (protocol_result : ProtocolCheckResult) : string :=
  let l1_l4_label := if l1_l4_failures =? 0 then "PASSED" else "FAILED (" +:+ pretty l1_l4_failures +:+ ")" in
  let header := "Coverage: L1-4 (process/config/listeners/subscription): " +:+ l1_l4_label +:+
    "   L5-6 (real protocol handshake): " +:+ ProtocolCheckResult.label protocol_result in
  let detail := match l1_l4_failures =? 0, protocol_result with
  | true, ProtocolCheckResult.Passed => "All checks that ran, including the real protocol handshake, passed. This proves the server's own listener/key/auth path — nothing about external reachability, the client device, or the network in between (see below)."
  | true, ProtocolCheckResult.NotRun => "No failures among checks that ran, but the real-handshake check (L5-6) did not run — this is NOT the same as " +:+ quoted "server proven healthy end-to-end." +:+ " Re-run with `--protocol --require-protocol` before treating the server as cleared."
  | true, ProtocolCheckResult.Inconclusive => "L1-4 passed, but the real-handshake check (L5-6) DIALED and got an INCONCLUSIVE result — not a pass, not a definitive failure. Do not treat this as " +:+ quoted "server healthy" +:+ "; inspect both sing-box processes' logs before concluding anything."
  | true, ProtocolCheckResult.Failed => "L1-4 passed, but the real-handshake check (L5-6) FAILED — a real client using this server's own current key material could not complete a handshake. This is a server-side finding, not proof the problem is client-side."
  | false, ProtocolCheckResult.Passed => "L1-4 check(s) FAILED even though L5-6's real handshake passed — these are independent signals; a passing handshake does NOT clear the L1-4 failures above. Fix those before treating the server as healthy."
  | false, ProtocolCheckResult.NotRun => "L1-4 check(s) FAILED, and the real-handshake check (L5-6) did not run either — server-side health is NOT established on either axis. Fix the L1-4 failures first."
  | false, ProtocolCheckResult.Inconclusive => "L1-4 check(s) FAILED, and the real-handshake check (L5-6) DIALED but got an INCONCLUSIVE result — server-side health is NOT established on either axis. Fix the L1-4 failures first, then re-run the protocol self-test."
  | false, ProtocolCheckResult.Failed => "L1-4 check(s) FAILED, and the real-handshake check (L5-6) also FAILED — server-side health is NOT established on either axis. Fix the L1-4 failures first."
  end in
  header +:+ newline +:+ detail.
Definition print_doctor_coverage_line (l1_l4_failures : Z) (protocol_result : ProtocolCheckResult) : list string :=
  [EmptyString; build_doctor_coverage_report l1_l4_failures protocol_result].

(** [obfuscated]: the password file of the obfuscation exists. *)
Definition telegram_summary (cfg : DeploymentConfig) (obfuscated : bool) (l1_l4_failures : Z)
    (protocol_result : ProtocolCheckResult) : list string :=
  [ EmptyString;
    "--- Telegram-oriented summary (server-side only) ---" ] ++
  print_doctor_coverage_line l1_l4_failures protocol_result ++
  [ EmptyString;
    "Public endpoints: " +:+ public_host cfg +:+ ":" +:+ pretty (reality_listen_port (reality cfg)) +:+ " (VLESS+REALITY tcp), " +:+ public_host cfg +:+ ":" +:+ pretty (hysteria2_listen_port (hysteria2 cfg)) +:+ " (Hysteria2 udp)";
    "Hysteria2 Salamander obfuscation: " +:+
     (if obfuscated then "enabled" else "DISABLED — Hysteria2's bare handshake is more exposed to DPI/traffic-classifier fingerprinting; consider `vpn-admin hysteria-obfs-rotate`");
    "Subscription default transport: REALITY (deterministic `select` outbound) — Hysteria2 and `auto` remain manually selectable in the client.";
    EmptyString;
    "Server-side diagnostics above passed/failed as shown. This does NOT verify:";
    "  - Russian DPI compatibility";
    "  - Hiddify TUN routing on the client device";
    "  - Telegram's own in-app proxy settings (Settings -> Data and Storage -> Proxy)";
    "  - Russian mobile ISP behavior";
    "  - IPv6 leakage on the client's own network path";
    "  - Which Telegram function (text / media / calls / notifications) actually fails";
    EmptyString;
    "Run the client acceptance checklist next: docs/TELEGRAM_TROUBLESHOOTING.md and";
    "docs/DEVICE_ACCEPTANCE_TESTS.md." ].
Definition print_telegram_diagnostics_summary (cfg : DeploymentConfig) (l1_l4_failures : Z)
    (protocol_result : ProtocolCheckResult) : IO anyhow (list string) :=
  do obfuscated <- path_exists (hysteria_obfs_password_file cfg);
  io_ret (telegram_summary cfg obfuscated l1_l4_failures protocol_result).

Definition print_client_acceptance_checklist (cfg : DeploymentConfig) (l1_l4_failures : Z)
    (protocol_result : ProtocolCheckResult) : list string :=
  [ EmptyString;
    "--- Client acceptance checklist (fill in by hand on the device) ---";
    EmptyString ] ++
  (if 0 <? l1_l4_failures then
  [ "WARNING: " +:+ pretty l1_l4_failures +:+ " check(s) earlier in this report FAILED. Server-side health is NOT proven — fix those failures before trusting this checklist to isolate a client-side cause.";
    EmptyString ] else []) ++
  [ "IMPORTANT: " +:+ dq +:+ "Connected" +:+ dq +:+ " in Hiddify's own UI does NOT by itself prove system";
    "traffic is routed through the VPN. Hiddify's in-app connected state and iOS's";
    "system VPN/TUN state are two different things — verify BOTH, in this order.";
    EmptyString;
    "Public endpoints under test: " +:+ public_host cfg +:+ ":" +:+ pretty (reality_listen_port (reality cfg)) +:+ " (REALITY tcp), " +:+ public_host cfg +:+ ":" +:+ pretty (hysteria2_listen_port (hysteria2 cfg)) +:+ " (Hysteria2 udp)";
    EmptyString;
    "1. [ ] Hiddify's Service Mode is set to VPN / TUN mode, NOT " +:+ dq +:+ "Proxy Only" +:+ dq;
    "       (Hiddify Settings — the two modes look similar but only VPN/TUN mode";
    "       captures system-wide traffic; " +:+ dq +:+ "Proxy Only" +:+ dq +:+ " never shows an iOS VPN icon";
    "       and never changes your public IP by design).";
    "   [ ] For FULL-TUNNEL verification choose Region=Other / disable RU bypass";
    "       and custom split routes, then reconnect. The subscription cannot override";
    "       Hiddify's global routing policy.";
    "2. [ ] iOS granted the " +:+ dq +:+ "Allow VPN Configurations" +:+ dq +:+ " permission when first asked";
    "       (a dismissed/denied prompt fails silently — no error shown in Hiddify).";
    "3. [ ] Settings -> General -> VPN & Device Management shows a Hiddify VPN";
    "       profile actually installed (not just the app installed).";
    "4. [ ] No stale/duplicate VPN profiles from a previous install are present —";
    "       remove any and reconnect if so.";
    "5. [ ] iOS status bar / Control Center shows the VPN indicator once connected.";
    "6. [ ] Public IPv4 BEFORE connecting: ______________";
    "7. [ ] Select REALITY explicitly in Hiddify's server list (don't rely on auto).";
    "8. [ ] Public IPv4 AFTER connecting to REALITY: ______________  (must differ";
    "       from step 6 and match this server's public IP)";
    "   [ ] Check both a neutral IP endpoint and a .ru endpoint. If only .ru keeps";
    "       the ISP IP, classify CLIENT REGION BYPASS, not server failure.";
    "9. [ ] Disconnect, select Hysteria2 explicitly, reconnect, and repeat the public";
    "       IP check for Hysteria2 alone.";
    "10.[ ] Tested on Wi-Fi.";
    "11.[ ] Tested on mobile/cellular data.";
    "12.[ ] From the SAME network as the phone, `curl -v https://" +:+ public_host cfg +:+ ":" +:+ pretty (reality_listen_port (reality cfg)) +:+ "` (or";
    "       Test-NetConnection) succeeds — tests whether that network path can even";
    "       reach this server at all, independent of Hiddify.";
    EmptyString;
    "If step 8 or 9 shows an unchanged IP: go back to steps 1-4 (client mode/permission)." ] ++
  print_doctor_coverage_line l1_l4_failures protocol_result ++
  [ "A PASS above only proves this server's own listener/key/auth path works FROM THIS SERVER'S OWN vantage point — it never proves reachability from the phone's specific network, iOS's NetworkExtension state, or Hiddify's TUN/routing behavior. Do not treat a passing doctor run as " +:+ dq +:+ "confirmed client-side" +:+ dq +:+ "; step 12 above is what actually tests the network path.";
    EmptyString;
    "If 1-12 are all satisfied and it STILL doesn't work: check your Hiddify build/version";
    "before assuming a behavioral bug. As of 2026-08, hiddify/hiddify-app#2317 (OPEN) documents problems in Hiddify's own iOS release pipeline (App Store build reporting";
    dq +:+ "4.0.0 dev" +:+ dq +:+ ", CI/signing/config inconsistencies, later tagged releases not producing normal iOS artifacts). This does NOT establish that #2317 CAUSES the " +:+ dq +:+ "connected but no";
    "VPN tunnel" +:+ dq +:+ " symptom this checklist exists for — it only means the exact installed iOS client build is an important variable to record when reporting a problem: note the";
    "exact version/build shown in Hiddify's About screen. Older reports of this exact symptom on iOS (hiddify/hiddify-app#1812, #1485, #290) are CLOSED (stale-bot, no linked";
    "fix) as of 2026-08-11 — historical evidence this class of bug has happened before, not a currently tracked, causally-established bug. Nothing in this server's subscription";
    "can detect or fix any of this. Try: update Hiddify, delete+reinstall it, remove ALL its VPN profiles from Settings before reconnecting, reboot, retry — then report fresh to";
    "Hiddify's tracker (with your exact app version/build) if still broken.";
    EmptyString;
    "Full walkthrough and troubleshooting priority order: docs/clients/HIDDIFY_IOS.md" ].

(** ** No two states look alike *)

(** Decimal numbers have no line break in them. *)
Lemma pretty_N_go_line n s : nl ∉ as_bytes s -> nl ∉ as_bytes (pretty_N_go n s).
Proof.
  revert s. induction (N.lt_wf_0 n) as [n _ IH]; intros s Hs.
  destruct (decide (n = 0)%N) as [->|Hn]; [by rewrite pretty_N_go_0|].
  rewrite pretty_N_go_step by lia. apply IH; [apply N.div_lt; lia|].
  change (nl ∉ Ascii.byte_of_ascii (pretty_N_char (n `mod` 10)) :: as_bytes s). rewrite not_elem_of_cons. split; [|done].
  unfold pretty_N_char. repeat case_match; discriminate.
Qed.
Lemma pretty_line (z : Z) : nl ∉ as_bytes (pretty z).
Proof.
  assert (forall p : positive, nl ∉ as_bytes (pretty p)) as Hp.
  { intros p. change (nl ∉ as_bytes (pretty (N.pos p))). unfold pretty, pretty_N. rewrite decide_False by done.
    apply pretty_N_go_line, not_elem_of_nil. }
  destruct z as [|p|p]; [|apply Hp|].
  - by apply (bool_decide_unpack _).
  - change (nl ∉ as_bytes ("-" +:+ pretty p)). rewrite as_bytes_app, not_elem_of_app. split; [|apply Hp].
    by apply (bool_decide_unpack _).
Qed.

Lemma str_app_inj_l a b c : a +:+ b = a +:+ c -> b = c.
Proof. intros E. by apply (inj (String.app a)). Qed.
Lemma str_app_inj_r a b c : b +:+ a = c +:+ a -> b = c.
Proof.
  intros E%(f_equal as_bytes). rewrite !as_bytes_app in E. apply app_inv_tail in E.
  by rewrite <-(str_of_as_bytes b), <-(str_of_as_bytes c), E.
Qed.
(** The first line of a text, and the rest. *)
Lemma first_line_inj a b c d :
  nl ∉ as_bytes a -> nl ∉ as_bytes c -> a +:+ newline +:+ b = c +:+ newline +:+ d -> a = c /\ b = d.
Proof.
  intros Ha Hc E%(f_equal as_bytes). rewrite !as_bytes_app in E. change (as_bytes newline) with [nl] in E.
  apply not_elem_of_app_cons_inv_l in E as (E1 & _ & E2); [|done..].
  by rewrite <-(str_of_as_bytes a), <-(str_of_as_bytes c), <-(str_of_as_bytes b), <-(str_of_as_bytes d), E1, E2.
Qed.

Definition coverage_label (failed : Z) : string :=
  if failed =? 0 then "PASSED" else "FAILED (" +:+ pretty failed +:+ ")".
Lemma coverage_label_inj m n : coverage_label m = coverage_label n -> m = n.
Proof.
  unfold coverage_label. destruct (Z.eqb_spec m 0) as [->|Hm], (Z.eqb_spec n 0) as [->|Hn]; try done.
  intros E%str_app_inj_l%str_app_inj_r. by apply (inj pretty).
Qed.
Lemma coverage_header_line failed result :
  nl ∉ as_bytes ("Coverage: L1-4 (process/config/listeners/subscription): " +:+ coverage_label failed +:+
    "   L5-6 (real protocol handshake): " +:+ ProtocolCheckResult.label result).
Proof.
  rewrite !as_bytes_app, !not_elem_of_app. split; [by apply (bool_decide_unpack _)|]. split.
  - unfold coverage_label. destruct (failed =? 0); [by apply (bool_decide_unpack _)|].
    rewrite !as_bytes_app, !not_elem_of_app. split; [by apply (bool_decide_unpack _)|].
    split; [apply pretty_line|by apply (bool_decide_unpack _)].
  - split; [by apply (bool_decide_unpack _)|]. by destruct result; apply (bool_decide_unpack _).
Qed.

(** The coverage line tells every count of failures and every outcome of the
    handshake apart. *)
Lemma coverage_report_inj m n p q :
  build_doctor_coverage_report m p = build_doctor_coverage_report n q -> m = n /\ p = q.
Proof.
  unfold build_doctor_coverage_report. cbv zeta. fold (coverage_label m) (coverage_label n).
  intros [Eh Ed]%first_line_inj; [|apply coverage_header_line..].
  assert (p = q) as <-.
  { destruct (m =? 0), (n =? 0), p, q; first [reflexivity | vm_compute in Ed; discriminate Ed]. }
  apply str_app_inj_l, str_app_inj_r in Eh. by apply coverage_label_inj in Eh.
Qed.

(** The printed summaries lose nothing of the two results: whatever the
    configuration, two runs whose Telegram summaries, or whose client checklists,
    read the same had the same number of failed checks below the handshake and
    the same outcome of it.  In particular "not run", "inconclusive" and "passed"
    are never mistaken for one another. *)
Theorem summaries_tell_apart cfg cfg' o o' m n p q :
  (telegram_summary cfg o m p = telegram_summary cfg' o' n q \/
   (0 <= m /\ 0 <= n /\ print_client_acceptance_checklist cfg m p = print_client_acceptance_checklist cfg' n q)) ->
  m = n /\ p = q.
Proof.
  intros [E|(Hm & Hn & E)]; apply coverage_report_inj.
  - apply (f_equal (lookup 3%nat)) in E. exact (inj Some _ _ E).
  - unfold print_client_acceptance_checklist in E.
    assert ((0 <? m) = (0 <? n)) as H0.
    { apply (f_equal length) in E. rewrite !length_app in E. destruct (0 <? m), (0 <? n); cbn in E; done. }
    rewrite H0 in E. destruct (0 <? n).
    + apply (f_equal (lookup 41%nat)) in E. exact (inj Some _ _ E).
    + apply (f_equal (lookup 39%nat)) in E. exact (inj Some _ _ E).
Qed.

(** ** Witness *)
Lemma summaries_tell_apart_witness :
  length (telegram_summary AdminDemo.cfg true 2 ProtocolCheckResult.NotRun) = 19%nat /\
  (2 = 2 /\ ProtocolCheckResult.NotRun = ProtocolCheckResult.NotRun).
Proof.
  split; [vm_compute; reflexivity|].
  apply (summaries_tell_apart AdminDemo.cfg AdminDemo.cfg true true 2 2 ProtocolCheckResult.NotRun ProtocolCheckResult.NotRun).
  left. reflexivity.
Defined.
