(* ===== verification/Doctor.v ===== *)
(** * apps/admin: [vpn-admin doctor]

    Models [cmd_doctor] of main.rs, without the flags that replace the checks by a
    report, and every check it runs, layer by layer.  A
    check adds lines to a report and, separately, counts failures; the exit
    status comes from the count.  A line carries its status and layer, what it
    is about and the variable part of its text.  The network (name resolution,
    UDP, the loopback HTTP exchange) is a parameter; the handshake self-tests are
    those of Selftest. *)

From stdpp Require Import pretty.
From Stdlib Require Import Strings.Byte.
From S2P Require Import Prelude Bytes Io Serde Fs Model Store Render Http RateLimiter Server Subscription.
From S2P Require Import Deployment Service Anyhow Selftest Admin Status Summaries.

Module CheckStatus.
Inductive t := Ok | Info | Warn | Fail.
End CheckStatus.
Notation CheckStatus := CheckStatus.t.
#[export] Instance CheckStatus_eq_dec : EqDecision CheckStatus.
Proof. solve_decision. Defined.

(** What a line is about. *)
Inductive Check :=
  | SingboxBinary | FilePolicy (label : string) | SingboxConfig
  | RealityPrivateKey | RealityPublicKey | RealityKeypair | UserStore
  | HysteriaCertificate | HysteriaObfuscation
  | ServiceCheck (name : string) | Reconciler
  | Firewall | Listener (label : string) | UdpEgress
  | RenderCoherence | OnDiskConfig | LiveSubscription | TransportSelection
  | PublicHostname | Ipv4Record | Ipv6Policy | BinaryVersions
  | RealitySelfTest | HysteriaSelfTest.
#[export] Instance Check_eq_dec : EqDecision Check.
Proof. solve_decision. Defined.

Record Line := { l_status : CheckStatus; l_layer : string; l_check : Check; l_detail : string }.
Record Report := { printed : list Line; failures : Z }.

(** [report_check] and [failures += 1] *)
Definition report_check (st : CheckStatus) (layer : string) (c : Check) (detail : string) (r : Report) : Report :=
  {| printed := printed r ++ [{| l_status := st; l_layer := layer; l_check := c; l_detail := detail |}];
     failures := failures r |}.
Definition add_failure (r : Report) : Report := {| printed := printed r; failures := failures r + 1 |}.
Definition report_fail (layer : string) (c : Check) (detail : string) (r : Report) : Report :=
  add_failure (report_check CheckStatus.Fail layer c detail r).

(** What one UDP exchange with a resolver comes to. *)
Inductive UdpOutcome := NoSocket | BadTarget | SendFailed | NoReply | Reply (n : Z).

Class DoctorEnv := {
  (** [(host, 0).to_socket_addrs()] *)
  resolve : string -> result string (list IpAddr);
  (** the n-th exchange: a socket of the family, the target, the query *)
  udp_exchange : nat -> bool -> string -> bytes -> UdpOutcome;
  (** connect to 127.0.0.1, write the request and read to the end *)
  loopback_exchange : Z -> bytes -> result string bytes
}.

(** ** UDP egress *)
Fixpoint dns_labels (l : bytes) (label : bytes) : bytes :=
  let flush := byte_of (Z.of_nat (length label)) :: rev label in
  match l with
  | [] => flush
  | x2e :: t => flush ++ dns_labels t []
  | b :: t => dns_labels t (b :: label)
  end.
Definition build_dns_query (name : string) : bytes :=
  [x12; x34; x01; x00; x00; x01; x00; x00; x00; x00; x00; x00] ++
  dns_labels (as_bytes name) [] ++ [x00] ++ [x00; x01; x00; x01].

(** The loop over the attempts on one candidate, [n] attempts into the run:
    [None] is the early return of [Some(true)]. *)
Fixpoint udp_attempts (probe : nat -> string -> option bool) (cand : string) (retries n : nat) (any_ran : bool)
    : option (nat * bool) :=
  match retries with
  | O => Some (n, any_ran)
  | S retries =>
    match probe n cand with
    | Some true => None
    | Some false => udp_attempts probe cand retries (S n) true
    | None => udp_attempts probe cand retries (S n) any_ran
    end
  end.
Fixpoint run_udp_probe_candidates_with_probe (probe : nat -> string -> option bool)
    (candidates : list string) (retries n : nat) (any_ran : bool) : option bool :=
  match candidates with
  | [] => if any_ran then Some false else None
  | cand :: rest =>
    match udp_attempts probe cand retries n any_ran with
    | None => Some true
    | Some (n, any_ran) => run_udp_probe_candidates_with_probe probe rest retries n any_ran
    end
  end.

Section Udp.
Context {D : DoctorEnv}.
Definition udp_verdict (o : UdpOutcome) : option bool :=
  match o with
  | NoSocket | BadTarget => None
  | SendFailed | NoReply => Some false
  | Reply n => Some (0 <? n)
  end.
Definition udp_dns_probe (n : nat) (resolver_ip : string) : option bool :=
  udp_verdict (udp_exchange n false (resolver_ip +:+ ":53") (build_dns_query "example.com")).
Definition udp_dns_probe_v6 (n : nat) (resolver_ip : string) : option bool :=
  udp_verdict (udp_exchange n true ("[" +:+ resolver_ip +:+ "]:53") (build_dns_query "example.com")).
Definition run_udp_probe_candidates (candidates : list string) (retries : nat) : option bool :=
  run_udp_probe_candidates_with_probe (fun n cand =>
    if str_contains ":" cand then udp_dns_probe_v6 n cand else udp_dns_probe n cand) candidates retries 0 false.

(** ** The loopback HTTP exchange *)

(** [splitn(2, sep)]: what precedes the first occurrence, and what follows it. *)
Fixpoint split_once (sep l : bytes) : bytes * option bytes :=
  match strip_prefix_bytes sep l, l with
  | Some rest, _ => ([], Some rest)
  | None, [] => ([], None)
  | None, b :: t => let '(a, r) := split_once sep t in (b :: a, r)
  end.

Definition http_get_local_json {JV : Json json} (port : Z) (target : string) : result string json :=
  let request := "GET " +:+ target +:+ " HTTP/1.0" +:+ crlf +:+ "Host: 127.0.0.1" +:+ crlf +:+
    "Connection: close" +:+ crlf +:+ crlf in
  response ← loopback_exchange port (as_bytes request);
  let text := from_utf8_lossy response in
  let '(head_part, rest) := split_once (as_bytes (crlf +:+ crlf)) (as_bytes text) in
  let body := default [] rest in
  let status_line := default [] (head (lines_bytes head_part)) in
  if negb (contains_bytes (as_bytes " 200 ") status_line)
  then Err ("unexpected HTTP status from " +:+ target +:+ ": " +:+ quoted (str_of_bytes status_line))
  else from_slice body.
End Udp.

(** ** IPv6 posture *)
Inductive Ipv6Posture := NoAaaa | AaaaEgressOk | AaaaEgressBroken | AaaaEgressUnknown.
Definition classify_ipv6_posture (has_aaaa : bool) (probe : option bool) : Ipv6Posture :=
  if negb has_aaaa then NoAaaa else
  match probe with
  | Some true => AaaaEgressOk
  | Some false => AaaaEgressBroken
  | None => AaaaEgressUnknown
  end.
(** The status, and whether the failure count grows. *)
Definition ipv6_posture_report (p : Ipv6Posture) : CheckStatus * bool :=
  match p with
  | NoAaaa => (CheckStatus.Info, false)
  | AaaaEgressOk => (CheckStatus.Ok, false)
  | AaaaEgressBroken => (CheckStatus.Fail, true)
  | AaaaEgressUnknown => (CheckStatus.Warn, false)
  end.
Definition is_ipv4 (a : IpAddr) : bool := match a with V4 _ => true | V6 _ => false end.
Definition is_ipv6 (a : IpAddr) : bool := negb (is_ipv4 a).

Definition check_public_hostname_and_ipv6_policy {D : DoctorEnv} (cfg : DeploymentConfig) (r : Report) : Report :=
  match resolve (public_host cfg) with
  | Err e => report_fail "L2" PublicHostname ("does not resolve: " +:+ e) r
  | Ok resolved =>
    if bool_decide (resolved = []) then report_fail "L2" PublicHostname "resolved zero addresses" r else
    let has_v4 := existsb is_ipv4 resolved in
    let has_v6 := existsb is_ipv6 resolved in
    let r := report_check CheckStatus.Ok "L2" PublicHostname
      (pretty (length (List.filter is_ipv4 resolved)) +:+ " A/IPv4, " +:+
       pretty (length (List.filter is_ipv6 resolved)) +:+ " AAAA/IPv6") r in
    let r := if has_v4 then r else report_check CheckStatus.Warn "L2" Ipv4Record "" r in
    let posture :=
      if has_v6 then
        let probe_cfg := udp_probe_config cfg in
        classify_ipv6_posture true
          (run_udp_probe_candidates (ipv6_resolvers probe_cfg) (Z.to_nat (udp_retries probe_cfg)))
      else classify_ipv6_posture false None in
    let '(status, increment) := ipv6_posture_report posture in
    let r := report_check status "L2" Ipv6Policy "" r in
    if (increment : bool) then add_failure r else r
  end.

(** ** Binaries on the host *)

(** [sort] of the candidates: paths are compared component by component. *)
Fixpoint path_ltb (a b : path) : bool :=
  match a, b with
  | [], [] => false
  | [], _ => true
  | _, [] => false
  | x :: a, y :: b => if String.ltb x y then true else if String.eqb x y then path_ltb a b else false
  end.
Fixpoint insert_path (p : path) (l : list path) : list path :=
  match l with
  | [] => [p]
  | q :: t => if path_ltb q p then q :: insert_path p t else p :: l
  end.
Definition sort_paths (l : list path) : list path := foldr insert_path [] l.
(** [Vec::dedup] *)
Fixpoint dedup_paths (l : list path) : list path :=
  match l with
  | x :: ((y :: _) as t) => if bool_decide (x = y) then dedup_paths t else x :: dedup_paths t
  | _ => l
  end.

Fixpoint versions_of {E : Type} (paths : list path) : IO E (list (path * string)) :=
  match paths with
  | [] => io_ret []
  | p :: rest =>
    do ex <- path_exists p;
    if negb ex then versions_of rest else
    do version <- io_try (run_command [path_str p; "version"]) (fun r =>
      io_ret match r with
      | Ok o => if success o then trim (default EmptyString (first_line (from_utf8_lossy (stdout o))))
                else "(version unavailable)"
      | Err _ => "(version unavailable)"
      end);
    do found <- versions_of rest;
    io_ret ((p, version) :: found)
  end.
Definition probe_singbox_binary_versions {E : Type} (candidates : list path) : IO E (list (path * string)) :=
  versions_of (dedup_paths (sort_paths candidates)).
Definition singbox_version_consistency_report (found : list (path * string)) (configured_binary : string)
    : option (CheckStatus * string) :=
  if (length found <=? 1)%nat then None else
  let versions : gset string := list_to_set (snd <$> found) in
  if (size versions =? 1)%nat
  then Some (CheckStatus.Ok, pretty (length found) +:+ " sing-box binaries found on this host, all report the same version")
  else Some (CheckStatus.Warn, String.concat newline
    ("multiple sing-box installations detected with DIFFERING versions:" ::
     ((fun f => "  " +:+ path_str f.1 +:+ " -> " +:+ f.2) <$> found) ++
     ["  systemd/vpn-admin currently uses: " +:+ configured_binary])).
Definition check_singbox_binary_version_consistency {E : Type} (cfg : DeploymentConfig) (r : Report) : IO E Report :=
  do found <- probe_singbox_binary_versions
    [pathbuf (singbox_binary cfg); ["usr"; "local"; "bin"; "sing-box"]; ["usr"; "bin"; "sing-box"]];
  io_ret match singbox_version_consistency_report found (singbox_binary cfg) with
  | Some (status, message) => report_check status "L2" BinaryVersions message r
  | None => r
  end.

(** ** Installed files *)

(** [{mode:04o}] of a mode of at most twelve bits *)
Definition octal4 (m : Z) : string :=
  pretty (m / 512) +:+ pretty (m / 64 mod 8) +:+ pretty (m / 8 mod 8) +:+ pretty (m mod 8).

Section Checks.
Context {C : Clock} {Env : AdminEnv} {D : DoctorEnv}.
Context {HexI : Hex} {Sha : Sha256} {B64 : Base64Url} {X : X25519}.
Context {JV : Json json} {JU : Json UsersFile} {JL : Json (list CompatUser)} {JE : Json (list CompatEndpoint)}.

Definition installed_file_policy (p : path) (expected_group : string) : IO anyhow (result string unit) :=
  io_try (fs_metadata p) (fun r =>
    io_ret match r with
    | Err e => Err (message e)
    | Ok metadata =>
      match getgrnam expected_group with
      | None => Err ("required group " +:+ quoted expected_group +:+ " does not exist")
      | Some expected_gid =>
        let md := Z.land (mode metadata) 4095 in
        if negb (uid metadata =? 0) || negb (gid metadata =? expected_gid) || negb (md =? 416)
        then Err ("expected root:" +:+ expected_group +:+ " mode 0640, found uid=" +:+ pretty (uid metadata) +:+
                  " gid=" +:+ pretty (gid metadata) +:+ " mode=" +:+ octal4 md)
        else Ok tt
      end
    end).
Definition report_installed_file_policy (p : path) (expected_group label : string) (r : Report) : IO anyhow Report :=
  do policy <- installed_file_policy p expected_group;
  io_ret match policy with
  | Ok _ => report_check CheckStatus.Ok "L2" (FilePolicy label) ("root:" +:+ expected_group +:+ " 0640") r
  | Err error => report_fail "L2" (FilePolicy label) error r
  end.
(** [if p.exists() { report_installed_file_policy(..) }] *)
Definition policy_if_present (p : path) (expected_group label : string) (r : Report) : IO anyhow Report :=
  do ex <- path_exists p;
  if (ex : bool) then report_installed_file_policy p expected_group label r else io_ret r.

(** ** Layer 2: configuration, keys, certificates *)
Definition check_singbox (cfg : DeploymentConfig) (r : Report) : IO anyhow Report :=
  do ex <- path_exists (pathbuf (singbox_binary cfg));
  if negb ex then io_ret (report_fail "L2" SingboxBinary "missing" r) else
  let r := report_check CheckStatus.Ok "L2" SingboxBinary "present" r in
  let target := singbox_config_file cfg in
  do rendered <- path_exists target;
  if negb rendered then io_ret (report_check CheckStatus.Warn "L2" SingboxConfig "not yet rendered" r) else
  do r <- report_installed_file_policy target "sing-box" "sing-box config" r;
  io_try (singbox_validate (pathbuf (singbox_binary cfg)) target) (fun v =>
    io_ret match v with
    | Ok _ => report_check CheckStatus.Ok "L2" SingboxConfig "valid" r
    | Err e => report_fail "L2" SingboxConfig (compat_text e) r
    end).

Definition check_keypair (cfg : DeploymentConfig) (r : Report) : IO anyhow Report :=
  io_try (fs_read_to_string (reality_private_key_file cfg)) (fun private =>
  io_try (fs_read_to_string (reality_public_key_file cfg)) (fun public =>
    io_ret match private, public with
    | Ok private, Ok public =>
      match validate_reality_keypair (trim private) (trim public) with
      | Ok _ => report_check CheckStatus.Ok "L2" RealityKeypair "" r
      | Err e => report_fail "L2" RealityKeypair ("incoherent: " +:+ e) r
      end
    | Err e, _ | _, Err e => report_fail "L2" RealityKeypair ("cannot read: " +:+ message e) r
    end)).

Definition check_reality_keys (cfg : DeploymentConfig) (r : Report) : IO anyhow Report :=
  do private_exists <- path_exists (reality_private_key_file cfg);
  do r <- (if negb private_exists then io_ret (report_fail "L2" RealityPrivateKey "missing" r)
           else report_installed_file_policy (reality_private_key_file cfg) "sing-box" "REALITY private key" r);
  do public_exists <- path_exists (reality_public_key_file cfg);
  if negb public_exists then io_ret (report_fail "L2" RealityPublicKey "missing" r) else
  do r <- report_installed_file_policy (reality_public_key_file cfg) "vpn-subscription" "REALITY public key" r;
  do r <- policy_if_present (reality_dir cfg ++ ["short_id.txt"]) "vpn-subscription" "REALITY short_id" r;
  check_keypair cfg r.

Definition check_users (cfg : DeploymentConfig) (r : Report) : IO anyhow Report :=
  do r <- policy_if_present (users_file cfg) "vpn-subscription" "user store" r;
  io_try (load_users (users_file cfg)) (fun u =>
    io_ret match u with
    | Ok users => report_check CheckStatus.Ok "L2" UserStore (pretty (length users)) r
    | Err e => report_fail "L2" UserStore (compat_text e) r
    end).

Definition check_hysteria (cfg : DeploymentConfig) (r : Report) : IO anyhow Report :=
  let hysteria_cert := hysteria_dir cfg ++ ["cert.pem"] in
  let hysteria_key := hysteria_dir cfg ++ ["key.pem"] in
  do r <- policy_if_present hysteria_cert "sing-box" "Hysteria2 certificate" r;
  do r <- policy_if_present hysteria_key "sing-box" "Hysteria2 private key" r;
  do days <- cert_expiry_days hysteria_cert;
  let r :=
    match days with
    | None => report_check CheckStatus.Warn "L2" HysteriaCertificate "not present" r
    | Some (Ok days) =>
      if days <? 0 then report_fail "L2" HysteriaCertificate ("EXPIRED " +:+ pretty (- days)) r
      else if days <? 30 then report_check CheckStatus.Warn "L2" HysteriaCertificate ("expires in " +:+ pretty days) r
      else report_check CheckStatus.Ok "L2" HysteriaCertificate ("valid, expires in " +:+ pretty days) r
    | Some (Err e) => report_check CheckStatus.Warn "L2" HysteriaCertificate ("could not check: " +:+ e) r
    end in
  do obfs <- path_exists (hysteria_obfs_password_file cfg);
  if (obfs : bool) then
    do r <- report_installed_file_policy (hysteria_obfs_password_file cfg) "vpn-subscription"
      "Hysteria2 obfuscation password" r;
    io_ret (report_check CheckStatus.Ok "L2" HysteriaObfuscation "enabled" r)
  else io_ret (report_check CheckStatus.Warn "L2" HysteriaObfuscation "NOT enabled" r).

(** ** Layer 1: processes *)
Definition check_service (name : string) (r : Report) : IO anyhow Report :=
  let mgr := manager_new name in
  do available <- is_available mgr;
  if negb available then io_ret (report_check CheckStatus.Warn "L1" (ServiceCheck name) "systemctl not available" r) else
  do installed <- is_unit_installed mgr;
  if negb installed then io_ret (report_check CheckStatus.Warn "L1" (ServiceCheck name) "not installed" r) else
  do active <- Service.is_active mgr;
  io_ret (if (active : bool) then report_check CheckStatus.Ok "L1" (ServiceCheck name) "active" r
          else report_fail "L1" (ServiceCheck name) "not active" r).

Definition check_reconciler (r : Report) : IO anyhow Report :=
  let reconcile_mgr := manager_new "vpn-expiry-reconcile" in
  do available <- is_available reconcile_mgr;
  do installed <- and_also available (is_unit_installed reconcile_mgr);
  if (installed : bool) then
    do failed <- is_failed reconcile_mgr;
    io_ret (if (failed : bool) then report_fail "L1" Reconciler "FAILED" r
            else report_check CheckStatus.Ok "L1" Reconciler "no recorded failure" r)
  else io_ret (report_check CheckStatus.Warn "L1" Reconciler "not installed" r).

(** ** Layer 3: the network *)
Definition check_firewall (r : Report) : IO anyhow Report :=
  io_try (run_command ["firewall-cmd"; "--state"]) (fun o =>
    io_ret match o with
    | Ok o => if success o then report_check CheckStatus.Ok "L3" Firewall "running" r
              else report_fail "L3" Firewall "not running" r
    | Err _ => report_check CheckStatus.Warn "L3" Firewall "not available" r
    end).

Definition check_listener (proto_label : string) (port : Z) (udp : bool) (r : Report) : IO anyhow Report :=
  do found <- listener_reported_by_ss port udp;
  io_ret match found with
  | Some true => report_check CheckStatus.Ok "L3" (Listener proto_label) "present" r
  | Some false => report_fail "L3" (Listener proto_label) "missing" r
  | None => report_check CheckStatus.Warn "L3" (Listener proto_label) "cannot inspect" r
  end.

Definition check_udp_egress (cfg : DeploymentConfig) (r : Report) : IO anyhow Report :=
  do found <- listener_reported_by_ss (hysteria2_listen_port (hysteria2 cfg)) true;
  match found with
  | Some true =>
    let probe_cfg := udp_probe_config cfg in
    io_ret match run_udp_probe_candidates (ipv4_resolvers probe_cfg) (Z.to_nat (udp_retries probe_cfg)) with
    | Some true => report_check CheckStatus.Ok "L3" UdpEgress "functional" r
    | Some false => report_fail "L3" UdpEgress "blocked" r
    | None => report_check CheckStatus.Warn "L3" UdpEgress "unavailable" r
    end
  | _ => io_ret r
  end.

(** ** Layer 4: what clients receive against what the server enforces *)

(** [value[key]] and [value[i]]: a missing entry reads as null. *)
Definition jfield (k : string) (j : json) : json := default JNull (jget k j).
Definition jindex (i : nat) (j : json) : json :=
  match j with JArr l => default JNull (l !! i) | _ => JNull end.
Definition as_str (j : json) : option string := match j with JStr s => Some s | _ => None end.
Definition as_array (j : json) : option (list json) := match j with JArr l => Some l | _ => None end.

Definition synthetic_user : CompatUser := {|
  u_id := "doctor-l4-synthetic"; u_name := "doctor-l4-synthetic"; u_enabled := true;
  u_vless_uuid := "00000000-0000-4000-8000-000000000000"; u_hysteria2_password := MkSecret "unused";
  u_subscription_token_hash_hex := EmptyString; u_created_at := 0; u_expires_at := None |}.

(** The endpoints a service started from the current files advertises. *)
Definition current_endpoints (cfg : DeploymentConfig) (reality_params : RealityServerParams)
    (hysteria_params : Hysteria2ServerParams) : list CompatEndpoint :=
  standard_endpoints (public_host cfg) (reality_listen_port (reality cfg)) (hysteria2_listen_port (hysteria2 cfg))
    (r_public_key_hex reality_params) (default EmptyString (head (r_short_ids reality_params)))
    (r_handshake_server reality_params) (expose <$> h_obfs_password hysteria_params).

Definition reality_of (doc : json) (section : string) : json :=
  jfield "reality" (jfield "tls" (jindex 0 (jfield section doc))).

Definition check_on_disk (cfg : DeploymentConfig) (fresh_server_doc : json) (r : Report) : IO anyhow Report :=
  let target := singbox_config_file cfg in
  do ex <- path_exists target;
  if negb ex then io_ret (report_check CheckStatus.Warn "L4" OnDiskConfig "not yet rendered" r) else
  io_try (fs_read target) (fun read =>
    io_ret match read with
    | Err e => report_check CheckStatus.Warn "L4" OnDiskConfig ("could not read: " +:+ message e) r
    | Ok on_disk_bytes =>
      match from_slice (A := json) on_disk_bytes with
      | Err e => report_check CheckStatus.Warn "L4" OnDiskConfig ("could not parse: " +:+ e) r
      | Ok on_disk =>
        if json_eqb on_disk fresh_server_doc
        then report_check CheckStatus.Ok "L4" OnDiskConfig "matches" r
        else report_fail "L4" OnDiskConfig "does NOT match" r
      end
    end).

Definition check_l4_subscription_coherence (cfg : DeploymentConfig) (r : Report) : IO anyhow Report :=
  io_try (load_reality_params cfg) (fun params =>
    match params with
    | Err e => io_ret (report_check CheckStatus.Warn "L4" RenderCoherence ("skipping: " +:+ anyhow_text e) r)
    | Ok params =>
  io_try (load_users (users_file cfg)) (fun users =>
    match users with
    | Err e => io_ret (report_check CheckStatus.Warn "L4" RenderCoherence ("user store unreadable: " +:+ compat_text e) r)
    | Ok users =>
      do hysteria_params <- load_hysteria_params cfg;
      let ports := {| vless_reality_port := reality_listen_port (reality cfg);
                      hysteria2_port := hysteria2_listen_port (hysteria2 cfg) |} in
      do now <- io_now;
      let fresh_server_doc := render_singbox_server_config users params hysteria_params ports now in
      match render_singbox_client_subscription synthetic_user (current_endpoints cfg params hysteria_params) with
      | Err e => io_ret (report_fail "L4" RenderCoherence ("failed to render: " +:+ compat_text e) r)
      | Ok client_doc =>
        let server_short_ids := omap as_str
          (default [] (as_array (jfield "short_id" (reality_of fresh_server_doc "inbounds")))) in
        let client_short_id := default EmptyString (as_str (jfield "short_id" (reality_of client_doc "outbounds"))) in
        let client_pubkey := default EmptyString (as_str (jfield "public_key" (reality_of client_doc "outbounds"))) in
        let r :=
          if existsb (fun s => String.eqb s client_short_id) server_short_ids
             && String.eqb client_pubkey (r_public_key_hex params)
          then report_check CheckStatus.Ok "L4" RenderCoherence "" r
          else report_fail "L4" RenderCoherence client_short_id r in
        check_on_disk cfg fresh_server_doc r
      end
    end)
    end).

Definition check_l4_live_subscription_process_state (cfg : DeploymentConfig) (r : Report) : IO anyhow Report :=
  io_try (load_reality_params cfg) (fun params =>
    match params with
    | Err e => io_ret (report_check CheckStatus.Warn "L4" LiveSubscription ("skipping: " +:+ anyhow_text e) r)
    | Ok params =>
      do hysteria_params <- load_hysteria_params cfg;
      let expected_fingerprint := endpoints_fingerprint (current_endpoints cfg params hysteria_params) in
      io_ret match http_get_local_json (subscription_listen_port (subscription cfg)) "/internal/state-fingerprint" with
      | Err e => report_check CheckStatus.Warn "L4" LiveSubscription ("cannot reach: " +:+ e) r
      | Ok answer =>
        match as_str (jfield "endpoints_fingerprint_sha256" answer) with
        | None => report_check CheckStatus.Warn "L4" LiveSubscription "unexpected shape" r
        | Some live_fingerprint =>
          if String.eqb live_fingerprint expected_fingerprint
          then report_check CheckStatus.Ok "L4" LiveSubscription "matches" r
          else report_fail "L4" LiveSubscription "STALE" r
        end
      end
    end).

(** ** Layers 5 and 6: a real handshake *)
Definition report_protocol_unavailable (require_protocol : bool) (c : Check) (message : string) (r : Report) : Report :=
  if require_protocol then report_fail "L5-6" c message r
  else report_check CheckStatus.Warn "L5-6" c message r.

Definition check_l5_l6_protocol_selftest (cfg : DeploymentConfig) (require_protocol : bool) (r : Report)
    : IO anyhow (Report * ProtocolCheckResult) :=
  let unavailable message := report_protocol_unavailable require_protocol RealitySelfTest message r in
  do ex <- path_exists (pathbuf (singbox_binary cfg));
  if negb ex then io_ret (unavailable "binary not found", ProtocolCheckResult.NotRun) else
  io_try (load_reality_params cfg) (fun params =>
    match params with
    | Err e => io_ret (unavailable (anyhow_text e), ProtocolCheckResult.NotRun)
    | Ok params =>
  io_try (load_users (users_file cfg)) (fun users =>
    match users with
    | Err e => io_ret (unavailable ("failed to load users: " +:+ compat_text e), ProtocolCheckResult.NotRun)
    | Ok users =>
      do now <- io_now;
      match List.find (fun u => Model.is_active u now) users with
      | None => io_ret (unavailable "there is no enabled, unexpired VLESS user", ProtocolCheckResult.NotRun)
      | Some test_user =>
        io_try (run_reality_client_selftest cfg params test_user (reality_listen_port (reality cfg))) (fun verdict =>
          io_ret match verdict with
          | Ok Pass => (report_check CheckStatus.Ok "L5-6" RealitySelfTest "" r, ProtocolCheckResult.Passed)
          | Ok HandshakeRejected =>
              (report_fail "L5-6" RealitySelfTest (r_handshake_server params) r, ProtocolCheckResult.Failed)
          | Ok Inconclusive => (unavailable "INCONCLUSIVE", ProtocolCheckResult.Inconclusive)
          | Err e => (unavailable (anyhow_text e), ProtocolCheckResult.NotRun)
          end)
      end
    end)
    end).

Definition check_l5_l6_hysteria2_protocol_selftest (cfg : DeploymentConfig) (require_protocol : bool) (r : Report)
    : IO anyhow Report :=
  let unavailable message := report_protocol_unavailable require_protocol HysteriaSelfTest message r in
  do ex <- path_exists (pathbuf (singbox_binary cfg));
  if negb ex then io_ret (unavailable "binary not found") else
  do hysteria_params <- load_hysteria_params cfg;
  io_try (load_users (users_file cfg)) (fun users =>
    match users with
    | Err e => io_ret (unavailable ("failed to load users: " +:+ compat_text e))
    | Ok users =>
      do now <- io_now;
      match List.find (fun u => Model.is_active u now) users with
      | None => io_ret (unavailable "there is no enabled, unexpired user")
      | Some test_user =>
        io_try (run_hysteria2_client_selftest cfg hysteria_params test_user (hysteria2_listen_port (hysteria2 cfg)))
          (fun verdict =>
          io_ret match verdict with
          | Ok H2Pass => report_check CheckStatus.Ok "L5-6-H2" HysteriaSelfTest "" r
          | Ok H2Inconclusive => unavailable "INCONCLUSIVE"
          | Err e => unavailable (anyhow_text e)
          end)
      end
    end).

(** ** The command *)
Definition no_lines : Report := {| printed := []; failures := 0 |}.

Definition l1_l4_checks (cfg : DeploymentConfig) : IO anyhow Report :=
  do r <- check_singbox cfg no_lines;
  do r <- check_reality_keys cfg r;
  do r <- check_users cfg r;
  do r <- check_hysteria cfg r;
  do r <- check_service "sing-box" r;
  do r <- check_service "vpn-subscription" r;
  do r <- check_reconciler r;
  do r <- check_firewall r;
  do r <- check_listener "VLESS+REALITY" (reality_listen_port (reality cfg)) false r;
  do r <- check_listener "Hysteria2" (hysteria2_listen_port (hysteria2 cfg)) true r;
  do r <- check_udp_egress cfg r;
  do r <- check_l4_subscription_coherence cfg r;
  do r <- check_l4_live_subscription_process_state cfg r;
  let r := check_public_hostname_and_ipv6_policy cfg r in
  do r <- check_singbox_binary_version_consistency cfg r;
  io_ret (report_check CheckStatus.Info "L4" TransportSelection "" r).

(** Everything the command prints: the lines of the checks, and those of the
    summaries of [--telegram] and [--client]. *)
Record DoctorRun := {
  dr_report : Report;
  dr_protocol : ProtocolCheckResult;
  dr_summaries : list string
}.
Definition doctor_run (cfg : DeploymentConfig) (protocol require_protocol telegram client : bool) : IO anyhow DoctorRun :=
  do r <- l1_l4_checks cfg;
  let l1_l4_failures := failures r in
  do '(r, protocol_result) <- (if protocol then check_l5_l6_protocol_selftest cfg require_protocol r
    else io_ret (report_check CheckStatus.Warn "L5-6" RealitySelfTest "not run" r, ProtocolCheckResult.NotRun));
  do r <- (if protocol then check_l5_l6_hysteria2_protocol_selftest cfg require_protocol r
           else io_ret (report_check CheckStatus.Warn "L5-6-H2" HysteriaSelfTest "not run" r));
  do telegram_lines <- (if telegram then print_telegram_diagnostics_summary cfg l1_l4_failures protocol_result else io_ret []);
  let client_lines := if client then print_client_acceptance_checklist cfg l1_l4_failures protocol_result else [] in
  io_ret {| dr_report := r; dr_protocol := protocol_result; dr_summaries := telegram_lines ++ client_lines |}.

Definition doctor_checks (cfg : DeploymentConfig) (protocol require_protocol telegram client : bool) : IO anyhow DoctorRun :=
  do run <- doctor_run cfg protocol require_protocol telegram client;
  if 0 <? failures (dr_report run)
  then io_err (bail (pretty (failures (dr_report run)) +:+ " check(s) failed"))
  else io_ret run.
End Checks.

(** ** Read-only computations

    [probes W m Q]: from a world of [W], [m] ends in a world of [W] with an
    outcome of [Q]. *)
Definition probes (W : world -> Prop) {E A : Type} (m : IO E A) (Q : result E A -> Prop) : Prop :=
  forall w, W w -> W (m w).2 /\ Q (m w).1.
(** The outcome is a value of [P]: the computation cannot fail. *)
Definition okay {E A : Type} (P : A -> Prop) (r : result E A) : Prop :=
  match r with Ok a => P a | Err _ => False end.
Definition anyway {A : Type} (_ : A) : Prop := True.

(** The worlds with a given disk; and those in which no call fails. *)
Definition at_disk (f : fs) (w : world) : Prop := w_fs w = f.
Definition calm_at (f : fs) (w : world) : Prop := w_fs w = f /\ forall n, w_fault w n = None.

(** Sets of worlds that reading the disk and running commands do not leave. *)
Class Steady (W : world -> Prop) := {
  steady_push w : W w -> W (push_fs (w_fs w) w);
  steady_log w l : W w -> W (logged w l)
}.
#[export] Instance at_disk_steady f : Steady (at_disk f).
Proof. split; [by intros w|by intros w l]. Qed.
#[export] Instance calm_at_steady f : Steady (calm_at f).
Proof. split; [by intros w [? ?]|by intros w l [? ?]]. Qed.

Section Probing.
Context (W : world -> Prop) {St : Steady W}.

Lemma probes_weaken {E A : Type} (m : IO E A) (Q R : result E A -> Prop) :
  probes W m Q -> (forall r, Q r -> R r) -> probes W m R.
Proof. intros H1 H2 w Hw. destruct (H1 w Hw) as [? ?]. split; [done|by apply H2]. Qed.
Lemma probes_ret {E A : Type} (a : A) (Q : result E A -> Prop) : Q (Ok a) -> probes W (io_ret a) Q.
Proof. by intros HQ w Hw. Qed.
Lemma probes_lift {E A : Type} (r : result E A) (Q : result E A -> Prop) : Q r -> probes W (io_lift r) Q.
Proof. by intros HQ w Hw. Qed.
Lemma probes_gets {E A : Type} (g : fs -> A) : probes W (io_gets (E := E) g) (okay anyway).
Proof. by intros w Hw. Qed.
Lemma probes_now {C : Clock} {E : Type} : probes W (io_now (E := E)) (okay anyway).
Proof. by intros w Hw. Qed.
Lemma probes_try {E F A B : Type} (m : IO E A) (k : result E A -> IO F B) Q (R : result F B -> Prop) :
  probes W m Q -> (forall r, Q r -> probes W (k r) R) -> probes W (io_try m k) R.
Proof.
  intros Hm Hk w Hw. destruct (Hm w Hw) as [HW HQ]. unfold io_try. destruct (m w) as [r w1]. by apply Hk.
Qed.
Lemma probes_bind {E A B : Type} (m : IO E A) (k : A -> IO E B) Q (R : result E B -> Prop) :
  probes W m Q -> (forall a, Q (Ok a) -> probes W (k a) R) -> (forall e, Q (Err e) -> R (Err e)) ->
  probes W (io_bind m k) R.
Proof.
  intros Hm Hk He w Hw. destruct (Hm w Hw) as [HW HQ]. unfold io_bind. destruct (m w) as [[a|e] w1].
  - by apply Hk.
  - split; [done|by apply He].
Qed.

(** Binding a computation that cannot fail. *)
Lemma probes_bind_ok {E A B : Type} (m : IO E A) (k : A -> IO E B) P (R : result E B -> Prop) :
  probes W m (okay P) -> (forall a, P a -> probes W (k a) R) -> probes W (io_bind m k) R.
Proof. intros Hm Hk. apply (probes_bind _ _ _ _ Hm); [done|by intros e []]. Qed.
Lemma probes_map_err {E F A : Type} (g : E -> F) (m : IO E A) : probes W m anyway -> probes W (io_map_err g m) anyway.
Proof. intros Hm w Hw. destruct (Hm w Hw) as [HW _]. unfold io_map_err. by destruct (m w). Qed.

(** A system call that reads. *)
Lemma probes_syscall {A : Type} (g : fs -> result io_error (A * fs)) :
  (forall f a f', g f = Ok (a, f') -> f' = f) -> probes W (syscall no_tear g) anyway.
Proof.
  intros Hg w Hw. unfold syscall, no_tear. split; [|done].
  destruct (w_fault w (w_ops w)); [by apply steady_push|].
  destruct (g (w_fs w)) as [[a f']|e] eqn:E; [|by apply steady_push].
  rewrite (Hg _ _ _ E). by apply steady_push.
Qed.
Lemma probes_fs_read p : probes W (fs_read p) anyway.
Proof. apply probes_syscall. intros f a f'. destruct (f !! p) as [[]|]; by intros [= _ ->]. Qed.
Lemma probes_fs_metadata p : probes W (fs_metadata p) anyway.
Proof. apply probes_syscall. intros f a f'. destruct (f !! p) as [n|]; by intros [= _ ->]. Qed.
Lemma probes_read_to_string p : probes W (fs_read_to_string p) anyway.
Proof. apply (probes_bind _ _ _ _ (probes_fs_read p)); [intros; by apply probes_lift|done]. Qed.
Lemma probes_run_command argv : probes W (run_command argv) anyway.
Proof. intros w Hw. split; [|done]. exact (steady_log w [_] Hw). Qed.
End Probing.

(** ** What a check adds to the report

    The failure count grows by exactly the number of lines marked as failures. *)
Definition is_fail (l : Line) : bool := bool_decide (l_status l = CheckStatus.Fail).
Definition fails (ls : list Line) : Z := Z.of_nat (length (List.filter is_fail ls)).
Definition adds (P : Line -> Prop) (r r' : Report) : Prop :=
  exists new, printed r' = printed r ++ new /\ Forall P new /\ failures r' = failures r + fails new.

Lemma fails_app a b : fails (a ++ b) = fails a + fails b.
Proof. unfold fails. rewrite List.filter_app, length_app. lia. Qed.
Lemma adds_refl P r : adds P r r.
Proof. exists []. rewrite app_nil_r. split_and!; [done|done|]. unfold fails. cbn. lia. Qed.
Lemma adds_trans P r1 r2 r3 : adds P r1 r2 -> adds P r2 r3 -> adds P r1 r3.
Proof.
  intros (n1 & E1 & F1 & C1) (n2 & E2 & F2 & C2). exists (n1 ++ n2).
  rewrite E2, E1, app_assoc, C2, C1, fails_app. split_and!; [done|by apply Forall_app|lia].
Qed.
Lemma adds_weaken (P Q : Line -> Prop) r r' : adds P r r' -> (forall l, P l -> Q l) -> adds Q r r'.
Proof. intros (new & E & F & H) HPQ. exists new. split_and!; [done|by eapply Forall_impl|done]. Qed.
Lemma adds_check P r0 r st layer c d :
  adds P r0 r -> st <> CheckStatus.Fail -> P {| l_status := st; l_layer := layer; l_check := c; l_detail := d |} ->
  adds P r0 (report_check st layer c d r).
Proof.
  intros H Hst HP. eapply adds_trans; [exact H|]. eexists [_]. split_and!; [done|by repeat constructor|].
  unfold fails, is_fail. cbn. rewrite bool_decide_false by done. cbn. lia.
Qed.
Lemma adds_fail P r0 r layer c d :
  adds P r0 r -> P {| l_status := CheckStatus.Fail; l_layer := layer; l_check := c; l_detail := d |} ->
  adds P r0 (report_fail layer c d r).
Proof. intros H HP. eapply adds_trans; [exact H|]. eexists [_]. split_and!; [done|by repeat constructor|done]. Qed.

(** Lines of the checks whose verdicts are looked at below. *)
Definition ordinary (l : Line) : Prop :=
  match l_check l with
  | OnDiskConfig | LiveSubscription | RealitySelfTest | HysteriaSelfTest => False
  | _ => True
  end.

Create HintDb doctor discriminated.
#[export] Hint Resolve adds_refl : doctor.
#[export] Hint Resolve probes_gets probes_now probes_fs_read probes_fs_metadata probes_read_to_string
  probes_run_command : doctor.

(** Walks a check: probes of the world first, then the lines it adds. *)
Ltac solve_adds :=
  repeat first
  [ assumption
  | apply adds_refl
  | apply adds_check; [|discriminate|]
  | apply adds_fail
  | match goal with |- adds _ _ (if ?b then _ else _) => destruct b end
  | match goal with |- adds _ _ (match ?x with _ => _ end) => destruct x end
  | exact I ].
Ltac solve_checks :=
  repeat match goal with
  | |- probes _ (io_bind _ _) _ => eapply probes_bind_ok; [solve [eauto with doctor]|intros ? ?; cbv beta zeta]
  | |- probes _ (io_try _ _) _ => eapply probes_try; [solve [eauto with doctor]|intros ? _; cbv beta zeta]
  | |- probes _ (if ?b then _ else _) _ => destruct b
  | |- probes _ (match ?x with _ => _ end) _ => destruct x
  | |- probes _ (io_ret _) _ => apply probes_ret
  | |- probes _ _ _ => solve [eauto with doctor]
  | |- okay _ (Ok _) => cbn [okay]
  | |- anyway _ => exact I
  | |- adds _ _ _ => progress solve_adds
  end.

Section CheckFacts.
Context (W : world -> Prop) {St : Steady W}.
Context {C : Clock} {Env : AdminEnv} {D : DoctorEnv}.
Context {HexI : Hex} {Sha : Sha256} {B64 : Base64Url} {X : X25519}.
Context {JV : Json json} {JU : Json UsersFile} {JL : Json (list CompatUser)} {JE : Json (list CompatEndpoint)}.

Lemma probes_exists {E : Type} p : probes W (path_exists (E := E) p) (okay anyway).
Proof. apply probes_gets. Qed.
Lemma probes_probe {E : Type} mgr args test : probes W (probe (E := E) mgr args test) (okay anyway).
Proof.
  unfold probe. apply (probes_try W _ _ anyway); [|intros; by apply probes_ret]. unfold run.
  apply (probes_try W _ _ anyway); [by apply probes_run_command|]. intros [] _; [by apply probes_ret|by apply probes_run_command].
Qed.
Lemma probes_load_users p : probes W (load_users p) anyway.
Proof.
  unfold load_users. eapply probes_bind_ok; [apply probes_exists|]. intros [] _; [|by apply probes_ret].
  eapply probes_bind; [by apply probes_map_err, probes_fs_read| |done]. intros. by apply probes_lift.
Qed.
Lemma probes_read_trimmed p : probes W (read_trimmed p) anyway.
Proof. eapply probes_bind; [by apply probes_read_to_string| |done]. intros. by apply probes_ret. Qed.
Lemma probes_load_reality cfg : probes W (load_reality_params cfg) anyway.
Proof.
  unfold load_reality_params, context, from_io.
  repeat (eapply probes_bind;
    [repeat apply probes_map_err; first [apply probes_read_trimmed|apply probes_lift; exact I]| |done]; intros ? _).
  by apply probes_ret.
Qed.
Lemma probes_load_hysteria cfg : probes W (load_hysteria_params cfg) (okay anyway).
Proof.
  unfold load_hysteria_params. eapply probes_try; [by apply probes_read_to_string|]. intros r _.
  eapply probes_bind_ok; [apply probes_exists|]. intros. by apply probes_ret.
Qed.
Lemma probes_validate bin p : probes W (singbox_validate bin p) anyway.
Proof.
  unfold singbox_validate. eapply probes_bind; [by apply probes_map_err, probes_run_command| |done].
  intros o _. by destruct (success o).
Qed.
End CheckFacts.
#[export] Hint Resolve probes_exists probes_probe probes_load_users probes_load_reality probes_load_hysteria
  probes_validate : doctor.

(** Every check of the layers 1 to 4 but the two looked at below, run on a
    report [r] that grew out of [r0]. *)
Section OrdinaryChecks.
Context (W : world -> Prop) {St : Steady W}.
Context {C : Clock} {Env : AdminEnv} {D : DoctorEnv}.
Context {HexI : Hex} {Sha : Sha256} {B64 : Base64Url} {X : X25519}.
Context {JV : Json json} {JU : Json UsersFile} {JL : Json (list CompatUser)} {JE : Json (list CompatEndpoint)}.
Context (P : Line -> Prop) (HP : forall l, ordinary l -> P l) (r0 : Report).

Local Ltac ordinary_check := solve_checks; solve_adds; try (by apply HP).

Lemma policy_adds r p g label :
  adds P r0 r -> probes W (report_installed_file_policy p g label r) (okay (adds P r0)).
Proof.
  intros Hr. unfold report_installed_file_policy. eapply (probes_bind_ok W _ _ anyway).
  - unfold installed_file_policy. solve_checks.
  - intros [] _; ordinary_check.
Qed.
Hint Resolve policy_adds : doctor.

Lemma policy_if_present_adds r p g label :
  adds P r0 r -> probes W (policy_if_present p g label r) (okay (adds P r0)).
Proof. intros Hr. unfold policy_if_present. ordinary_check. Qed.
Hint Resolve policy_if_present_adds : doctor.

Lemma singbox_adds cfg r : adds P r0 r -> probes W (check_singbox cfg r) (okay (adds P r0)).
Proof.
  intros Hr. unfold check_singbox. eapply probes_bind_ok; [eauto with doctor|]. intros [] _; cbn [negb]; [|ordinary_check].
  eapply probes_bind_ok; [eauto with doctor|]. intros [] _; cbn [negb]; [|ordinary_check].
  eapply (probes_bind_ok W _ _ (adds P r0)).
  - apply policy_adds. ordinary_check.
  - intros r1 Hr1. ordinary_check.
Qed.

Lemma reality_keys_adds cfg r : adds P r0 r -> probes W (check_reality_keys cfg r) (okay (adds P r0)).
Proof.
  intros Hr. unfold check_reality_keys. eapply probes_bind_ok; [eauto with doctor|]. intros ex _.
  eapply (probes_bind_ok W _ _ (adds P r0)).
  { destruct ex; cbn [negb]; [by apply policy_adds|ordinary_check]. }
  intros r1 Hr1. eapply probes_bind_ok; [eauto with doctor|]. intros [] _; cbn [negb]; [|ordinary_check].
  eapply (probes_bind_ok W _ _ (adds P r0)); [by apply policy_adds|]. intros r2 Hr2.
  eapply (probes_bind_ok W _ _ (adds P r0)); [by apply policy_if_present_adds|]. intros r3 Hr3.
  unfold check_keypair. ordinary_check.
Qed.

Lemma users_adds cfg r : adds P r0 r -> probes W (check_users cfg r) (okay (adds P r0)).
Proof.
  intros Hr. unfold check_users. eapply (probes_bind_ok W _ _ (adds P r0)); [by apply policy_if_present_adds|].
  intros r1 Hr1. ordinary_check.
Qed.

Lemma probes_cert_expiry p : probes W (cert_expiry_days (E := anyhow) p) (okay anyway).
Proof. unfold cert_expiry_days. solve_checks. Qed.
Lemma probes_listener port udp : probes W (listener_reported_by_ss (E := anyhow) port udp) (okay anyway).
Proof. unfold listener_reported_by_ss. solve_checks. Qed.
Hint Resolve probes_cert_expiry probes_listener : doctor.

Lemma hysteria_adds cfg r : adds P r0 r -> probes W (check_hysteria cfg r) (okay (adds P r0)).
Proof.
  intros Hr. unfold check_hysteria. cbv zeta.
  eapply (probes_bind_ok W _ _ (adds P r0)); [by apply policy_if_present_adds|]. intros r1 Hr1.
  eapply (probes_bind_ok W _ _ (adds P r0)); [by apply policy_if_present_adds|]. intros r2 Hr2.
  eapply probes_bind_ok; [eauto with doctor|]. intros days _.
  assert (forall r3, adds P r0 r3 -> probes W
    (do obfs <- path_exists (hysteria_obfs_password_file cfg);
     if (obfs : bool) then
       do r <- report_installed_file_policy (hysteria_obfs_password_file cfg) "vpn-subscription"
         "Hysteria2 obfuscation password" r3;
       io_ret (report_check CheckStatus.Ok "L2" HysteriaObfuscation "enabled" r)
     else io_ret (report_check CheckStatus.Warn "L2" HysteriaObfuscation "NOT enabled" r3)) (okay (adds P r0))) as Hrest.
  { intros r3 Hr3. eapply probes_bind_ok; [eauto with doctor|]. intros [] _; [|ordinary_check].
    eapply (probes_bind_ok W _ _ (adds P r0)); [by apply policy_adds|]. intros r4 Hr4. ordinary_check. }
  apply Hrest. solve_adds; by apply HP.
Qed.

Lemma service_adds name r : adds P r0 r -> probes W (check_service name r) (okay (adds P r0)).
Proof. intros Hr. unfold check_service, is_available, is_unit_installed, Service.is_active. ordinary_check. Qed.

Lemma reconciler_adds r : adds P r0 r -> probes W (check_reconciler r) (okay (adds P r0)).
Proof.
  intros Hr. unfold check_reconciler, is_available, is_unit_installed, is_failed, and_also.
  eapply probes_bind_ok; [eauto with doctor|]. intros a _.
  eapply (probes_bind_ok W _ _ anyway); [destruct a; solve_checks|]. intros b _. ordinary_check.
Qed.

Lemma firewall_adds r : adds P r0 r -> probes W (check_firewall r) (okay (adds P r0)).
Proof. intros Hr. unfold check_firewall. ordinary_check. Qed.
Lemma listener_adds label port udp r : adds P r0 r -> probes W (check_listener label port udp r) (okay (adds P r0)).
Proof. intros Hr. unfold check_listener. ordinary_check. Qed.
Lemma udp_egress_adds cfg r : adds P r0 r -> probes W (check_udp_egress cfg r) (okay (adds P r0)).
Proof. intros Hr. unfold check_udp_egress. ordinary_check. Qed.

Lemma ipv6_policy_adds cfg r : adds P r0 r -> adds P r0 (check_public_hostname_and_ipv6_policy cfg r).
Proof.
  intros Hr. unfold check_public_hostname_and_ipv6_policy.
  destruct (resolve (public_host cfg)) as [l|e]; [|solve_adds; by apply HP].
  destruct (bool_decide _); [solve_adds; by apply HP|]. cbv zeta.
  set (posture := if existsb is_ipv6 l then _ else _). set (r1 := if existsb is_ipv4 l then _ else _).
  assert (adds P r0 r1) as Hr1 by (subst r1; solve_adds; by apply HP). clearbody r1 posture.
  destruct posture; cbn; solve_adds; try (by apply HP).
Qed.

Lemma probes_versions l : probes W (versions_of (E := anyhow) l) (okay anyway).
Proof.
  induction l as [|p l IH]; [by apply probes_ret|]. cbn [versions_of].
  eapply probes_bind_ok; [eauto with doctor|]. intros [] _; cbn [negb]; [|done].
  eapply (probes_bind_ok W _ _ anyway); [solve_checks|]. intros v _.
  eapply probes_bind_ok; [exact IH|]. intros. by apply probes_ret.
Qed.
Lemma versions_adds cfg r :
  adds P r0 r -> probes W (check_singbox_binary_version_consistency (E := anyhow) cfg r) (okay (adds P r0)).
Proof.
  intros Hr. unfold check_singbox_binary_version_consistency, probe_singbox_binary_versions.
  eapply probes_bind_ok; [apply probes_versions|]. intros found _. apply probes_ret. cbn [okay].
  unfold singbox_version_consistency_report. destruct (_ <=? _)%nat; [done|]. destruct (_ =? _)%nat; solve_adds; by apply HP.
Qed.
End OrdinaryChecks.

(** ** The checks that vouch for something *)

(** An outcome that [m] has in some world of [W]. *)
Definition seen (W : world -> Prop) {E A : Type} (m : IO E A) (r : result E A) : Prop :=
  exists w, W w /\ (m w).1 = r.
Lemma probes_seen W {E A : Type} (m : IO E A) Q : probes W m Q -> probes W m (seen W m).
Proof. intros Hm w Hw. split; [by apply Hm|]. by exists w. Qed.

Section Vouching.
Context (W : world -> Prop) {St : Steady W}.
Context {C : Clock} {Env : AdminEnv} {D : DoctorEnv}.
Context {HexI : Hex} {Sha : Sha256} {B64 : Base64Url} {X : X25519}.
Context {JV : Json json} {JU : Json UsersFile} {JL : Json (list CompatUser)} {JE : Json (list CompatEndpoint)}.
Context (cfg : DeploymentConfig).

Definition cfg_ports : ServerPorts :=
  {| vless_reality_port := reality_listen_port (reality cfg); hysteria2_port := hysteria2_listen_port (hysteria2 cfg) |}.

(** The configuration on disk is what the current files render to. *)
Definition disk_current : Prop := exists params users hysteria_params now data doc,
  seen W (load_reality_params cfg) (Ok params) /\ seen W (load_users (users_file cfg)) (Ok users) /\
  seen W (load_hysteria_params cfg) (Ok hysteria_params) /\ seen W io_now (Ok now : result anyhow Z) /\
  seen W (fs_read (singbox_config_file cfg)) (Ok data) /\ from_slice data = Ok doc /\
  json_eqb doc (render_singbox_server_config users params hysteria_params cfg_ports now) = true.
(** The running service answers with the fingerprint of the current endpoints. *)
Definition live_current : Prop := exists params hysteria_params answer,
  seen W (load_reality_params cfg) (Ok params) /\ seen W (load_hysteria_params cfg) (Ok hysteria_params) /\
  http_get_local_json (subscription_listen_port (subscription cfg)) "/internal/state-fingerprint" = Ok answer /\
  as_str (jfield "endpoints_fingerprint_sha256" answer) =
    Some (endpoints_fingerprint (current_endpoints cfg params hysteria_params)).
(** A throwaway client with the current keys and the credentials of an active
    user brought back the health page: through its only configured way out, which
    any configuration rendered from these files at that time admits. *)
Definition handshake_passed : Prop := exists params users now u n,
  seen W (load_reality_params cfg) (Ok params) /\ seen W (load_users (users_file cfg)) (Ok users) /\
  u ∈ users /\ Model.is_active u now = true /\
  relayed reality_contexts cfg (fun local_port => client_document local_port
    (reality_outbound params u (reality_listen_port (reality cfg))) "reality-selftest") (bench n).
Definition hysteria_passed : Prop := exists hysteria_params users now u n,
  seen W (load_hysteria_params cfg) (Ok hysteria_params) /\ seen W (load_users (users_file cfg)) (Ok users) /\
  u ∈ users /\ Model.is_active u now = true /\
  relayed hysteria2_contexts cfg (fun local_port => client_document local_port
    (hysteria2_outbound cfg hysteria_params u (hysteria2_listen_port (hysteria2 cfg))) "hysteria2-selftest") (bench n).

Lemma probes_reality_selftest params u port :
  probes W (run_reality_client_selftest cfg params u port) (fun r => r = Ok Pass -> exists n,
    relayed reality_contexts cfg (fun local_port => client_document local_port
      (reality_outbound params u port) "reality-selftest") (bench n)).
Proof.
  intros w Hw. destruct (run_reality_client_selftest cfg params u port w) as [r w'] eqn:E. split.
  - apply commands_reality_selftest in E as (new & -> & _). by apply steady_log.
  - intros [= ->]. apply reality_selftest_spec in E as (n & _ & captured & E). exists n. by eapply dial_through_relays.
Qed.
Lemma probes_hysteria2_selftest hysteria_params u port :
  probes W (run_hysteria2_client_selftest cfg hysteria_params u port) (fun r => r = Ok H2Pass -> exists n,
    relayed hysteria2_contexts cfg (fun local_port => client_document local_port
      (hysteria2_outbound cfg hysteria_params u port) "hysteria2-selftest") (bench n)).
Proof.
  intros w Hw. destruct (run_hysteria2_client_selftest cfg hysteria_params u port w) as [r w'] eqn:E.
  apply hysteria2_selftest_spec in E as (-> & n & E). split; [done|].
  intros [= ->]. destruct E as (captured & E). exists n. by eapply dial_through_relays.
Qed.

Context (P : Line -> Prop) (r0 : Report).
Context (HP : forall l, ordinary l -> P l).
Context (HPdisk : forall l, l_check l = OnDiskConfig -> (l_status l = CheckStatus.Ok -> disk_current) -> P l).
Context (HPlive : forall l, l_check l = LiveSubscription -> (l_status l = CheckStatus.Ok -> live_current) -> P l).
Context (HPself : forall l, l_check l = RealitySelfTest \/ l_check l = HysteriaSelfTest -> P l).

Local Ltac seen_bind H := eapply probes_bind; [eapply probes_seen; solve [eauto with doctor] |
  cbv beta; intros ? H | cbv beta; intros ? H].
Local Ltac seen_try H := eapply probes_try; [eapply probes_seen; solve [eauto with doctor] |
  cbv beta; intros [?|?] H].

Lemma on_disk_adds r doc :
  adds P r0 r ->
  (forall data on_disk, seen W (fs_read (singbox_config_file cfg)) (Ok data) -> from_slice data = Ok on_disk ->
     json_eqb on_disk doc = true -> disk_current) ->
  probes W (check_on_disk cfg doc r) (okay (adds P r0)).
Proof.
  intros Hr Hok. unfold check_on_disk. eapply probes_bind_ok; [eauto with doctor|].
  intros [] _; cbn [negb]; [|apply probes_ret; cbn; solve_adds; by apply HPdisk].
  seen_try Hd; apply probes_ret; cbn [okay]; [|solve_adds; by apply HPdisk].
  destruct (from_slice _) as [od|e] eqn:Ej; [|solve_adds; by apply HPdisk].
  destruct (json_eqb od doc) eqn:Ee; solve_adds; apply HPdisk; try done. intros _. by eapply Hok.
Qed.

Lemma probes_hysteria_ok : probes W (load_hysteria_params cfg) (fun r => okay anyway r /\ seen W (load_hysteria_params cfg) r).
Proof.
  intros w Hw. destruct (probes_load_hysteria W cfg w Hw) as [HW HQ]. split; [done|]. split; [done|]. by exists w.
Qed.

Lemma coherence_adds r : adds P r0 r -> probes W (check_l4_subscription_coherence cfg r) (okay (adds P r0)).
Proof.
  intros Hr. unfold check_l4_subscription_coherence.
  seen_try Hp; [|apply probes_ret; cbn; solve_adds; by apply HP].
  seen_try Hu; [|apply probes_ret; cbn; solve_adds; by apply HP].
  eapply probes_bind; [apply probes_hysteria_ok| |by intros e [[] _]]. intros h [_ Hh].
  eapply probes_bind; [eapply probes_seen, probes_now|cbv beta; intros now Hn|by intros e (w & _ & [=])].
  cbv zeta. destruct (render_singbox_client_subscription _ _) as [client|e]; [|apply probes_ret; cbn; solve_adds; by apply HP].
  apply on_disk_adds; [solve_adds; by apply HP|].
  intros data od Hd Hj He. unfold disk_current. by eauto 20.
Qed.

Lemma live_adds r : adds P r0 r -> probes W (check_l4_live_subscription_process_state cfg r) (okay (adds P r0)).
Proof.
  intros Hr. unfold check_l4_live_subscription_process_state.
  seen_try Hp; [|apply probes_ret; cbn; solve_adds; by apply HPlive].
  eapply probes_bind; [apply probes_hysteria_ok| |by intros e [[] _]]. intros h [_ Hh].
  apply probes_ret. cbn [okay]. destruct (http_get_local_json _ _) as [answer|e] eqn:Ea; [|solve_adds; by apply HPlive].
  destruct (as_str _) as [fp|] eqn:Ef; [|solve_adds; by apply HPlive].
  destruct (String.eqb_spec fp (endpoints_fingerprint (current_endpoints cfg a h))) as [->|];
    solve_adds; apply HPlive; try done. intros _. unfold live_current. by eauto 20.
Qed.

Lemma unavailable_adds req c m r :
  adds P r0 r -> c = RealitySelfTest \/ c = HysteriaSelfTest ->
  adds P r0 (report_protocol_unavailable req c m r) /\
  (req = true -> failures r < failures (report_protocol_unavailable req c m r)).
Proof.
  intros Hr Hc. unfold report_protocol_unavailable. destruct req; (split; [solve_adds; by apply HPself|]); [cbn; lia|done].
Qed.
Definition reality_verdict (req : bool) (r : Report) (p : Report * ProtocolCheckResult) : Prop :=
  adds P r0 p.1 /\ (p.2 = ProtocolCheckResult.Passed -> handshake_passed) /\
  (req = true -> p.2 <> ProtocolCheckResult.Passed -> failures r < failures p.1).

Lemma reality_unavailable req m r res :
  adds P r0 r -> res <> ProtocolCheckResult.Passed ->
  reality_verdict req r (report_protocol_unavailable req RealitySelfTest m r, res).
Proof.
  intros Hr Hres. destruct (unavailable_adds req RealitySelfTest m r Hr (or_introl eq_refl)) as [Ha Hf].
  split; [done|]. split; [done|]. intros Hq _. by apply Hf.
Qed.

Lemma reality_selftest_adds req r :
  adds P r0 r -> probes W (check_l5_l6_protocol_selftest cfg req r) (okay (reality_verdict req r)).
Proof.
  intros Hr. unfold check_l5_l6_protocol_selftest. eapply probes_bind_ok; [eauto with doctor|].
  intros [] _; cbn [negb]; [|apply probes_ret; by apply reality_unavailable].
  seen_try Hp; [|apply probes_ret; by apply reality_unavailable].
  seen_try Hu; [|apply probes_ret; by apply reality_unavailable].
  eapply probes_bind_ok; [apply probes_now|]. intros now _.
  destruct (List.find _ _) as [u|] eqn:Eu; [|apply probes_ret; by apply reality_unavailable].
  apply List.find_some in Eu as [Hin Hact].
  eapply probes_try; [apply probes_reality_selftest|]. cbv beta. intros v Hv.
  apply probes_ret. cbn [okay]. destruct v as [[]|e]; try (by apply reality_unavailable).
  - split; [cbn; solve_adds; apply HPself; by left|]. split; [|by intros _ []]. intros _.
    destruct (Hv eq_refl) as [n Hn]. exists a, a0, now, u, n. split_and!; try done. by apply list_elem_of_In.
  - split; [cbn; solve_adds; apply HPself; by left|]. split; [done|]. cbn. lia.
Qed.

Definition hysteria_verdict (req : bool) (r r' : Report) : Prop :=
  adds P r0 r' /\ failures r <= failures r' /\ (req = true -> hysteria_passed \/ failures r < failures r').

Lemma hysteria_unavailable req m r :
  adds P r0 r -> hysteria_verdict req r (report_protocol_unavailable req HysteriaSelfTest m r).
Proof.
  intros Hr. destruct (unavailable_adds req HysteriaSelfTest m r Hr (or_intror eq_refl)) as [Ha Hf].
  split; [done|]. split; [destruct req; cbn; lia|]. intros Hq. right. by apply Hf.
Qed.

Lemma hysteria_selftest_adds req r :
  adds P r0 r -> probes W (check_l5_l6_hysteria2_protocol_selftest cfg req r) (okay (hysteria_verdict req r)).
Proof.
  intros Hr. unfold check_l5_l6_hysteria2_protocol_selftest. eapply probes_bind_ok; [eauto with doctor|].
  intros [] _; cbn [negb]; [|apply probes_ret; by apply hysteria_unavailable].
  eapply probes_bind; [apply probes_hysteria_ok| |by intros e [[] _]]. intros h [_ Hh].
  seen_try Hu; [|apply probes_ret; by apply hysteria_unavailable].
  eapply probes_bind_ok; [apply probes_now|]. intros now _.
  destruct (List.find _ _) as [u|] eqn:Eu; [|apply probes_ret; by apply hysteria_unavailable].
  apply List.find_some in Eu as [Hin Hact].
  eapply probes_try; [apply probes_hysteria2_selftest|]. cbv beta. intros v Hv.
  apply probes_ret. cbn [okay]. destruct v as [[]|e]; try (by apply hysteria_unavailable).
  split; [solve_adds; apply HPself; by right|]. split; [done|]. intros _. left.
  destruct (Hv eq_refl) as [n Hn]. exists h, a, now, u, n. split_and!; try done. by apply list_elem_of_In.
Qed.

(** *** The whole run *)
Lemma l1_l4_adds : r0 = no_lines -> probes W (l1_l4_checks cfg) (okay (adds P r0)).
Proof.
  intros Hr0. unfold l1_l4_checks. rewrite <-Hr0.
  eapply probes_bind_ok; [apply singbox_adds; [done|done|apply adds_refl]|]. intros r1 H1.
  eapply probes_bind_ok; [by eapply reality_keys_adds|]. intros r2 H2.
  eapply probes_bind_ok; [by eapply users_adds|]. intros r3 H3.
  eapply probes_bind_ok; [by eapply hysteria_adds|]. intros r4 H4.
  eapply probes_bind_ok; [by eapply service_adds|]. intros r5 H5.
  eapply probes_bind_ok; [by eapply service_adds|]. intros r6 H6.
  eapply probes_bind_ok; [by eapply reconciler_adds|]. intros r7 H7.
  eapply probes_bind_ok; [by eapply firewall_adds|]. intros r8 H8.
  eapply probes_bind_ok; [by eapply listener_adds|]. intros r9 H9.
  eapply probes_bind_ok; [by eapply listener_adds|]. intros r10 H10.
  eapply probes_bind_ok; [by eapply udp_egress_adds|]. intros r11 H11.
  eapply probes_bind_ok; [by eapply coherence_adds|]. intros r12 H12.
  eapply probes_bind_ok; [by eapply live_adds|]. intros r13 H13.
  eapply probes_bind_ok; [eapply versions_adds; [done|done|by apply ipv6_policy_adds]|]. intros r14 H14.
  apply probes_ret. cbn. solve_adds. by apply HP.
Qed.

(** What a run of the command amounts to, whatever its flags. *)
Definition doctor_spec (protocol require : bool) (run : DoctorRun) : Prop :=
  adds P no_lines (dr_report run) /\
  (dr_protocol run = ProtocolCheckResult.Passed -> handshake_passed) /\
  (protocol = true -> require = true ->
     (dr_protocol run = ProtocolCheckResult.Passed /\ hysteria_passed) \/ 0 < failures (dr_report run)).
Lemma adds_nonneg r : adds P no_lines r -> 0 <= failures r.
Proof. intros (new & _ & _ & ->). cbn. unfold fails. lia. Qed.

Lemma telegram_probes (telegram : bool) failed result :
  probes W (if telegram then print_telegram_diagnostics_summary cfg failed result else io_ret []) (okay anyway).
Proof.
  destruct telegram; [|by apply probes_ret]. unfold print_telegram_diagnostics_summary.
  eapply probes_bind_ok; [apply probes_exists|]. intros. by apply probes_ret.
Qed.

Lemma doctor_run_spec protocol require telegram client :
  r0 = no_lines -> probes W (doctor_run cfg protocol require telegram client) (okay (doctor_spec protocol require)).
Proof.
  intros Hr0. unfold doctor_run. eapply probes_bind_ok; [by apply l1_l4_adds|]. intros r1 H1.
  pose proof H1 as H1'. rewrite Hr0 in H1'. apply adds_nonneg in H1'.
  destruct protocol.
  - eapply probes_bind_ok; [by eapply reality_selftest_adds|]. intros [r2 res] (H2 & Hpass & Hreq). cbn in *.
    pose proof H2 as H2'. rewrite Hr0 in H2'. apply adds_nonneg in H2'.
    eapply probes_bind_ok; [by eapply hysteria_selftest_adds|]. intros r3 (H3 & Hle & Hh).
    eapply probes_bind_ok; [apply telegram_probes|]. intros lines _. apply probes_ret. cbn [okay]. rewrite Hr0 in H3. split; [done|]. split; [done|]. cbn [dr_report dr_protocol]. intros _ Hq.
    destruct (Hh Hq) as [Hhp|Hlt]; [|right; lia].
    destruct res; try (right; specialize (Hreq Hq ltac:(done)); lia). by left.
  - eapply (probes_bind_ok W _ _ (fun p => adds P r0 p.1 /\ p.2 = ProtocolCheckResult.NotRun)).
    { apply probes_ret. cbn. split; [|done]. solve_adds. apply HPself. by left. }
    intros [r2 res] [H2 Hres]. cbn in H2, Hres. subst res. eapply (probes_bind_ok W _ _ (adds P r0)).
    { apply probes_ret. cbn. solve_adds. apply HPself. by right. }
    intros r3 H3. rewrite Hr0 in H3. eapply probes_bind_ok; [apply telegram_probes|]. intros lines _. apply probes_ret. by cbn.
Qed.
End Vouching.

(** *** Determinism: with no failing calls a read depends on the disk alone *)
Definition determined (W : world -> Prop) {E A : Type} (m : IO E A) : Prop :=
  forall w1 w2, W w1 -> W w2 -> (m w1).1 = (m w2).1.

Section Determined.
Context (f : fs).

Lemma determined_bind {E A B : Type} (m : IO E A) (k : A -> IO E B) Q :
  probes (calm_at f) m Q -> determined (calm_at f) m -> (forall a, determined (calm_at f) (k a)) ->
  determined (calm_at f) (io_bind m k).
Proof.
  intros Hp Hm Hk w1 w2 H1 H2. specialize (Hm _ _ H1 H2). destruct (Hp _ H1) as [HW1 _], (Hp _ H2) as [HW2 _].
  unfold io_bind. destruct (m w1) as [r1 w1'], (m w2) as [r2 w2']. cbn in *. subst r2. destruct r1; [by apply Hk|done].
Qed.
Lemma determined_try {E F A B : Type} (m : IO E A) (k : result E A -> IO F B) Q :
  probes (calm_at f) m Q -> determined (calm_at f) m -> (forall r, determined (calm_at f) (k r)) ->
  determined (calm_at f) (io_try m k).
Proof.
  intros Hp Hm Hk w1 w2 H1 H2. specialize (Hm _ _ H1 H2). destruct (Hp _ H1) as [HW1 _], (Hp _ H2) as [HW2 _].
  unfold io_try. destruct (m w1) as [r1 w1'], (m w2) as [r2 w2']. cbn in *. subst r2. by apply Hk.
Qed.
Lemma determined_map_err {E F A : Type} (g : E -> F) (m : IO E A) :
  determined (calm_at f) m -> determined (calm_at f) (io_map_err g m).
Proof.
  intros Hm w1 w2 H1 H2. specialize (Hm _ _ H1 H2). unfold io_map_err. destruct (m w1), (m w2). cbn in *. by subst.
Qed.
Lemma determined_const {E A : Type} (r : result E A) : determined (calm_at f) (fun w => (r, w)).
Proof. by intros w1 w2 _ _. Qed.
Lemma determined_gets {E A : Type} (g : fs -> A) : determined (calm_at f) (io_gets (E := E) g).
Proof. intros w1 w2 [H1 _] [H2 _]. cbn. by rewrite H1, H2. Qed.
Lemma determined_fs_read p : determined (calm_at f) (fs_read p).
Proof.
  intros w1 w2 [H1 N1] [H2 N2]. unfold fs_read, syscall. rewrite N1, N2, H1, H2. by destruct (f !! p) as [[]|].
Qed.
Lemma determined_read_to_string p : determined (calm_at f) (fs_read_to_string p).
Proof.
  eapply determined_bind; [apply probes_fs_read; apply _|apply determined_fs_read|]. intros a. apply determined_const.
Qed.

Context {HexI : Hex} {B64 : Base64Url} {X : X25519} {JU : Json UsersFile} {JL : Json (list CompatUser)}.
Lemma determined_read_trimmed p : determined (calm_at f) (read_trimmed p).
Proof.
  eapply determined_bind; [apply probes_read_to_string; apply _|apply determined_read_to_string|].
  intros a. apply determined_const.
Qed.
Lemma determined_load_reality cfg : determined (calm_at f) (load_reality_params cfg).
Proof.
  unfold load_reality_params, context, from_io.
  repeat (eapply determined_bind;
    [repeat apply probes_map_err; first [apply probes_read_trimmed; apply _|by apply probes_lift]
    |repeat apply determined_map_err; first [apply determined_read_trimmed|apply determined_const]|intros ?]).
  apply determined_const.
Qed.
Lemma determined_load_hysteria cfg : determined (calm_at f) (load_hysteria_params cfg).
Proof.
  unfold load_hysteria_params. eapply determined_try; [apply probes_read_to_string; apply _|apply determined_read_to_string|].
  intros r. eapply determined_bind; [apply probes_exists|apply determined_gets|]. intros a. apply determined_const.
Qed.
Lemma determined_load_users p : determined (calm_at f) (load_users p).
Proof.
  unfold load_users. eapply determined_bind; [apply probes_exists|apply determined_gets|]. intros []; [|apply determined_const].
  cbn [negb]. eapply determined_bind; [apply probes_map_err, probes_fs_read; apply _|apply determined_map_err, determined_fs_read|].
  intros a. apply determined_const.
Qed.

(** What was seen in one such world is what any other shows. *)
Lemma seen_determined {E A : Type} (m : IO E A) r w :
  determined (calm_at f) m -> calm_at f w -> seen (calm_at f) m r -> (m w).1 = r.
Proof. intros Hm Hw (w0 & H0 & <-). by apply Hm. Qed.
End Determined.

(** ** What the command's verdict means *)
Section Verdict.
Context {C : Clock} {Env : AdminEnv} {D : DoctorEnv}.
Context {HexI : Hex} {Sha : Sha256} {B64 : Base64Url} {X : X25519}.
Context {JV : Json json} {JU : Json UsersFile} {JL : Json (list CompatUser)} {JE : Json (list CompatEndpoint)}.
Context (cfg : DeploymentConfig).

Lemma doctor_run_total W `{!Steady W} P protocol require telegram client w :
  W w -> (forall l, ordinary l -> P l) ->
  (forall l, l_check l = OnDiskConfig -> (l_status l = CheckStatus.Ok -> disk_current W cfg) -> P l) ->
  (forall l, l_check l = LiveSubscription -> (l_status l = CheckStatus.Ok -> live_current W cfg) -> P l) ->
  (forall l, l_check l = RealitySelfTest \/ l_check l = HysteriaSelfTest -> P l) ->
  exists run w', doctor_run cfg protocol require telegram client w = (Ok run, w') /\ W w' /\
    doctor_spec W cfg P protocol require run.
Proof.
  intros Hw H1 H2 H3 H4.
  destruct (doctor_run_spec W cfg P no_lines H1 H2 H3 H4 protocol require telegram client eq_refl w Hw) as [HW HQ].
  destruct (doctor_run cfg protocol require telegram client w) as [[run|e] w']; [|done]. by exists run, w'.
Qed.

Lemma fails_zero ls : fails ls = 0 <-> Forall (fun l => l_status l <> CheckStatus.Fail) ls.
Proof.
  unfold fails. induction ls as [|l ls IH]; cbn; [by split|]. unfold is_fail at 1.
  destruct (bool_decide_reflect (l_status l = CheckStatus.Fail)) as [E|E]; cbn.
  - split; [lia|]. by intros [? _]%Forall_cons.
  - rewrite IH, Forall_cons. naive_solver.
Qed.

Lemma cmd_doctor_Ok_iff protocol require telegram client w run w' :
  doctor_run cfg protocol require telegram client w = (Ok run, w') ->
  (exists run', (doctor_checks cfg protocol require telegram client w).1 = Ok run') <-> failures (dr_report run) <= 0.
Proof.
  intros Hrun. unfold doctor_checks, io_bind. rewrite Hrun. destruct (Z.ltb_spec 0 (failures (dr_report run))); cbn.
  - split; [by intros [? [=]]|lia].
  - split; [done|by eauto].
Qed.

(** The exit status of [doctor] tells what it printed.  On every host and
    under every pattern of failing calls and commands the command runs to its
    end without touching the disk; the number of failures it counts is the
    number of lines marked as failures; and it succeeds exactly if no line is. *)
Theorem doctor_verdict protocol require telegram client w :
  exists run w', doctor_run cfg protocol require telegram client w = (Ok run, w') /\ w_fs w' = w_fs w /\
    failures (dr_report run) = fails (printed (dr_report run)) /\
    ((exists run', (doctor_checks cfg protocol require telegram client w).1 = Ok run') <->
     Forall (fun l => l_status l <> CheckStatus.Fail) (printed (dr_report run))).
Proof.
  destruct (doctor_run_total (at_disk (w_fs w)) (fun _ => True) protocol require telegram client w eq_refl)
    as (run & w' & Hrun & Hw' & (new & Hp & _ & Hf) & _); [done..|].
  cbn in Hp, Hf. exists run, w'. split_and!; [done|done|by rewrite Hf, Hp|].
  rewrite (cmd_doctor_Ok_iff _ _ _ _ _ _ _ Hrun), <-fails_zero, Hf, <-Hp. unfold fails. lia.
Qed.

(** C21: An acceptance run cannot pass untested.  If [doctor --protocol
    --require-protocol] succeeds, then a throwaway client with the server's
    current REALITY keys and the credentials of a stored, active user completed
    a handshake with the running server, and so did one over Hysteria2. *)
Theorem acceptance_means_handshakes telegram client w run w' :
  doctor_checks cfg true true telegram client w = (Ok run, w') ->
  dr_protocol run = ProtocolCheckResult.Passed /\
  handshake_passed (at_disk (w_fs w)) cfg /\ hysteria_passed (at_disk (w_fs w)) cfg.
Proof.
  intros (run0 & w1 & Hrun & Hcmd)%io_bind_Ok_inv.
  destruct (doctor_run_total (at_disk (w_fs w)) (fun _ => True) true true telegram client w eq_refl)
    as (run1 & w2 & Hrun1 & _ & _ & Hpass & Hreq); [done..|].
  rewrite Hrun in Hrun1. simplify_eq. destruct (Z.ltb_spec 0 (failures (dr_report run1))); [done|]. injection Hcmd as <- <-.
  destruct (Hreq eq_refl eq_refl) as [[Hp Hh]|?]; [|lia]. split; [done|]. split; [by apply Hpass|done].
Qed.

Definition vouched (f : fs) (l : Line) : Prop :=
  (l_check l = OnDiskConfig -> l_status l = CheckStatus.Ok -> disk_current (calm_at f) cfg) /\
  (l_check l = LiveSubscription -> l_status l = CheckStatus.Ok -> live_current (calm_at f) cfg).

Lemma vouched_lines f protocol require telegram client w run w' :
  calm_at f w -> doctor_run cfg protocol require telegram client w = (Ok run, w') ->
  Forall (vouched f) (printed (dr_report run)).
Proof.
  intros Hw Hrun. destruct (doctor_run_total (calm_at f) (vouched f) protocol require telegram client w Hw)
    as (run1 & w2 & Hrun1 & _ & (new & Hp & HF & _) & _).
  - intros l Hl. unfold ordinary in Hl. split; intros E; by rewrite E in Hl.
  - intros l Hc Hd. split; [done|]. intros E. by rewrite E in Hc.
  - intros l Hc Hd. split; [|done]. intros E. by rewrite E in Hc.
  - intros l [Hc|Hc]; split; intros E; by rewrite E in Hc.
  - rewrite Hrun in Hrun1. simplify_eq. by rewrite Hp.
Qed.

(** What [GET /internal/state-fingerprint] of the service answers. *)
Definition fingerprint_answer (s : AppState) : json :=
  JObj [("endpoints_fingerprint_sha256", JStr (endpoints_fingerprint (endpoints s)))].

Lemma loaded_short_id params w :
  (load_reality_params cfg w).1 = Ok params -> exists sid, r_short_ids params = [sid].
Proof.
  destruct (load_reality_params cfg w) as [r w'] eqn:E. cbn. intros ->.
  apply io_bind_Ok_inv in E as (a & w1 & _ & E). apply io_bind_Ok_inv in E as (b & w2 & _ & E).
  apply io_bind_Ok_inv in E as (c & w3 & _ & E). apply io_bind_Ok_inv in E as (d & w4 & _ & E).
  injection E as <- _. by eexists.
Qed.

(** C17: Two green lines rule out the split brain.  Suppose no call fails while
    [doctor] runs, the process it asks is the subscription service in state [s],
    and the fingerprint of that state's endpoints has no collision.  If the
    report shows the lines on the configuration on disk and on the running
    service as OK, then the service advertises exactly the endpoints of the
    current key files, the configuration on disk is the one rendered for the
    current users and those same keys, and every active user's subscription
    from that service is admitted by it over both transports. *)
Theorem green_doctor_no_split_brain protocol require telegram client w run w' l1 l2 s :
  (forall n, w_fault w n = None) ->
  doctor_run cfg protocol require telegram client w = (Ok run, w') ->
  l1 ∈ printed (dr_report run) -> l_check l1 = OnDiskConfig -> l_status l1 = CheckStatus.Ok ->
  l2 ∈ printed (dr_report run) -> l_check l2 = LiveSubscription -> l_status l2 = CheckStatus.Ok ->
  http_get_local_json (subscription_listen_port (subscription cfg)) "/internal/state-fingerprint" =
    Ok (fingerprint_answer s) ->
  (forall eps, endpoints_fingerprint eps = endpoints_fingerprint (endpoints s) -> eps = endpoints s) ->
  exists params hysteria_params users now mt data doc,
    (load_reality_params cfg w).1 = Ok params /\ (load_hysteria_params cfg w).1 = Ok hysteria_params /\
    (load_users (users_file cfg) w).1 = Ok users /\
    w_fs w !! singbox_config_file cfg = Some (File mt data) /\ from_slice data = Ok doc /\
    json_eqb doc (server_config params hysteria_params (cfg_ports cfg) users now) = true /\
    endpoints s = current_endpoints cfg params hysteria_params /\
    forall u ep, u ∈ users -> Model.is_active u now = true -> ep ∈ endpoints s ->
      match ep_transport ep with
      | VlessReality => vless_admits (server_config params hysteria_params (cfg_ports cfg) users now) (client_outbound u ep)
      | Hysteria2 => hysteria_admits (server_config params hysteria_params (cfg_ports cfg) users now) (client_outbound u ep)
      end.
Proof.
  intros Hcalm Hrun Hl1 Hc1 Hs1 Hl2 Hc2 Hs2 Hhttp Hinj.
  assert (calm_at (w_fs w) w) as Hw by done.
  pose proof (proj1 (Forall_forall _ _) (vouched_lines _ _ _ _ _ _ _ _ Hw Hrun)) as Hall.
  destruct (Hall l1 Hl1) as [Hd _]. destruct (Hall l2 Hl2) as [_ Hv].
  destruct (Hd Hc1 Hs1) as (params & users & hyst & now & data & doc & Sp & Su & Sh & _ & Sr & Hj & He).
  destruct (Hv Hc2 Hs2) as (params' & hyst' & answer & Sp' & Sh' & Ha & Hfp).
  pose proof (fun r => seen_determined _ _ r w (determined_load_reality (w_fs w) cfg) Hw) as Dp.
  pose proof (fun r => seen_determined _ _ r w (determined_load_hysteria (w_fs w) cfg) Hw) as Dh.
  pose proof (Dp _ Sp) as Ep. pose proof (Dp _ Sp') as Ep'. pose proof (Dh _ Sh) as Eh. pose proof (Dh _ Sh') as Eh'.
  rewrite Ep in Ep'. rewrite Eh in Eh'. injection Ep' as <-. injection Eh' as <-.
  pose proof (seen_determined _ _ _ w (determined_load_users (w_fs w) _) Hw Su) as Eu.
  destruct Sr as (w0 & [Hw0 _] & Er). destruct (fs_read (singbox_config_file cfg) w0) as [r0 w0'] eqn:Er0.
  cbn in Er. subst r0. apply fs_read_Ok_inv in Er0 as ((mt & Hdisk) & _). rewrite Hw0 in Hdisk.
  rewrite Hhttp in Ha. injection Ha as <-. cbn in Hfp. injection Hfp as Hfp.
  pose proof (Hinj _ (eq_sym Hfp)) as Heps.
  exists params, hyst, users, now, mt, data, doc. split_and!; try done. intros u ep Hu Hact Hep.
  rewrite <-Heps in Hep. destruct (loaded_short_id params w Ep) as (sid & Hsid).
  assert (current_endpoints cfg params hyst =
    deployed_endpoints (public_host cfg) (r_public_key_hex params) sid params hyst (cfg_ports cfg)) as Edep.
  { unfold current_endpoints. by rewrite Hsid. }
  rewrite Edep in Hep. assert (sid ∈ r_short_ids params) as Hin by (rewrite Hsid; apply list_elem_of_here).
  destruct (ep_transport ep) eqn:Et.
  - apply (vless_admits_iff (public_host cfg) (r_public_key_hex params) sid); [done|done|done|]. split; [eauto|].
    destruct (load_reality_params cfg w) as [r wr] eqn:El. cbn in Ep. subst r. by eapply loaded_key_shared.
  - apply (hysteria_admits_iff (public_host cfg) (r_public_key_hex params) sid); eauto.
Qed.
End Verdict.

(** ** The UDP probe against its description

    All the attempts there can be, in order, and the verdict over them. *)
Fixpoint attempts_of (probe : nat -> string -> option bool) (cand : string) (retries n : nat) : list (option bool) :=
  match retries with O => [] | S k => probe n cand :: attempts_of probe cand k (S n) end.
Fixpoint all_attempts (probe : nat -> string -> option bool) (cands : list string) (retries n : nat) : list (option bool) :=
  match cands with
  | [] => []
  | cand :: rest => attempts_of probe cand retries n ++ all_attempts probe rest retries (n + retries)
  end.
Definition answered (l : list (option bool)) : bool := existsb (fun o => bool_decide (o = Some true)) l.
Definition ran (l : list (option bool)) : bool := existsb (fun o => bool_decide (o = Some false)) l.

Lemma udp_attempts_spec probe cand retries n any_ran :
  udp_attempts probe cand retries n any_ran =
  if answered (attempts_of probe cand retries n) then None
  else Some ((n + retries)%nat, any_ran || ran (attempts_of probe cand retries n)).
Proof.
  revert n any_ran. induction retries as [|k IH]; intros n any_ran; cbn [udp_attempts attempts_of].
  { cbn. by rewrite Nat.add_0_r, orb_false_r. }
  unfold answered, ran in *. cbn [existsb]. destruct (probe n cand) as [[]|]; cbn; [done| |]; rewrite IH, Nat.add_succ_r; cbn;
    destruct (existsb _ _); try done. by rewrite orb_true_r.
Qed.

(** A reply to any attempt is a success; attempts without a reply are a failure
    if any of them could be made, and say nothing otherwise. *)
Lemma udp_probe_spec probe cands retries n any_ran :
  run_udp_probe_candidates_with_probe probe cands retries n any_ran =
  if answered (all_attempts probe cands retries n) then Some true
  else if any_ran || ran (all_attempts probe cands retries n) then Some false else None.
Proof.
  revert n any_ran. induction cands as [|cand cands IH]; intros n any_ran; cbn [run_udp_probe_candidates_with_probe all_attempts].
  { cbn. by rewrite orb_false_r. }
  rewrite udp_attempts_spec. unfold answered, ran in *. rewrite !existsb_app.
  destruct (existsb (fun o => bool_decide (o = Some true)) (attempts_of _ _ _ _)); [done|]. cbn [orb].
  rewrite IH, orb_assoc. done.
Qed.

(** ** A concrete host *)
Module DoctorDemo.
Import StoreDemo RenderDemo ServerDemo ServiceDemo DeploymentDemo AdminDemo.
(** A file installed as the policy asks; the demonstration's groups all have id 7. *)
Definition installed (d : bytes) : node := File (Meta 416 0 7) d.
Definition params : RealityServerParams :=
  {| r_private_key_hex := MkSecret RenderDemo.private_key; r_public_key_hex := AdminDemo.public_key;
     r_short_ids := ["01ab"]; r_handshake_server := "www.example.com"; r_handshake_port := 443 |}.
Definition hysteria_params : Hysteria2ServerParams :=
  {| h_tls_cert_path := "/s/hysteria/cert.pem"; h_tls_key_path := "/s/hysteria/key.pem"; h_obfs_password := None;
     h_masquerade_dir_path := None; h_up_mbps := None; h_down_mbps := None |}.
Definition service : AppState := {|
  Subscription.users_file := ["s"; "users"; "users.json"];
  endpoints := current_endpoints AdminDemo.cfg params hysteria_params;
  rate_limiter := limiter_new 0 0 |}.
#[export] Instance PublicParameters_eq_dec : EqDecision PublicParameters.
Proof. solve_decision. Defined.
#[export] Instance CompatEndpoint_eq_dec : EqDecision CompatEndpoint.
Proof. solve_decision. Defined.

(** Endpoint lists are serialized by whether they are the service's. *)
#[export] Instance endpoints_json : Json (list CompatEndpoint) := {|
  to_vec eps := Ok (if decide (eps = endpoints service) then as_bytes "same" else as_bytes "other");
  to_vec_pretty _ := Ok [];
  from_slice _ := Err "not read" |}.
(** Two documents are read: the configuration and the service's answer. *)
#[export] Instance doctor_json : Json json := {|
  to_vec _ := Ok (as_bytes "{}");
  to_vec_pretty _ := Ok (as_bytes "{}");
  from_slice b :=
    if decide (b = as_bytes "config")
    then Ok (render_singbox_server_config [alice; bob] params hysteria_params (cfg_ports AdminDemo.cfg) (wall 0))
    else Ok (fingerprint_answer service) |}.
#[export] Instance doctor_env : DoctorEnv := {|
  resolve _ := Ok [V4 1];
  udp_exchange _ _ _ _ := Reply 44;
  loopback_exchange _ _ := Ok (as_bytes ("HTTP/1.0 200 OK" +:+ crlf +:+ crlf +:+ "{}")) |}.
Definition disk : fs :=
  <[["s"] := Dir dir_meta]> (<[["s"; "users"] := Dir dir_meta]> (<[["s"; "reality"] := Dir dir_meta]>
  (<[["s"; "sing-box"] := Dir dir_meta]> (<[["sb"] := file "binary"]>
  (<[["s"; "reality"; "private.key"] := installed (as_bytes RenderDemo.private_key)]>
  (<[["s"; "reality"; "public.key"] := installed (as_bytes AdminDemo.public_key)]>
  (<[["s"; "reality"; "short_id.txt"] := installed (as_bytes "01ab")]>
  (<[["s"; "sing-box"; "config.json"] := installed (as_bytes "config")]>
  (<[["s"; "users"; "users.json"] := installed (default [] (ok (to_vec_pretty (envelope [alice; bob]))))]> ∅))))))))).
(** Every unit is loaded and active, none has failed; [ss] lists both ports. *)
Definition tools (_ : nat) (argv : list string) (_ : fs) : result io_error output :=
  if decide (head argv = Some "ss") then Ok (Output true (as_bytes "LISTEN 0 0 *:443 *:8443") [])
  else if bool_decide ("is-failed" ∈ argv) then Ok (Output false [] [])
  else Ok (Output true (as_bytes "loaded") []).
Definition host : world := World disk [] 0 (fun _ => None) (Proc 42 18 0 0) tools [].
Definition green_run : DoctorRun := Eval vm_compute in
  match fst (doctor_run AdminDemo.cfg true true false false host) with
  | Ok run => run
  | Err _ => {| dr_report := no_lines; dr_protocol := ProtocolCheckResult.NotRun; dr_summaries := [] |}
  end.
Definition checked : world := snd (doctor_run AdminDemo.cfg true true false false host).
Lemma checked_run : doctor_run AdminDemo.cfg true true false false host = (Ok green_run, checked).
Proof.
  refine (run_of_fst (doctor_run AdminDemo.cfg true true false false) host (Ok green_run) _). vm_compute. reflexivity.
Qed.
Definition green_line (c : Check) (detail : string) : Line :=
  {| l_status := CheckStatus.Ok; l_layer := "L4"; l_check := c; l_detail := detail |}.
Lemma green_lines : Forall (fun l => l ∈ printed (dr_report green_run))
  [green_line OnDiskConfig "matches"; green_line LiveSubscription "matches"].
Proof.
  repeat constructor; apply list_elem_of_In; unfold green_run, green_line; cbn [dr_report printed In]; tauto.
Qed.
End DoctorDemo.

Section DoctorWitnesses.
Import StoreDemo RenderDemo ServerDemo ServiceDemo DeploymentDemo AdminDemo DoctorDemo.

Lemma acceptance_means_handshakes_witness :
  handshake_passed (at_disk disk) AdminDemo.cfg /\ hysteria_passed (at_disk disk) AdminDemo.cfg.
Proof.
  refine (proj2 (acceptance_means_handshakes AdminDemo.cfg false false host green_run checked _)).
  unfold doctor_checks, io_bind. rewrite checked_run. reflexivity.
Defined.

Lemma green_doctor_no_split_brain_witness :
  exists users now, (load_users (users_file AdminDemo.cfg) host).1 = Ok users /\
    forall u ep, u ∈ users -> Model.is_active u now = true -> ep ∈ endpoints service ->
      exists doc, match ep_transport ep with
      | VlessReality => vless_admits doc (client_outbound u ep)
      | Hysteria2 => hysteria_admits doc (client_outbound u ep)
      end.
Proof.
  destruct (proj1 (Forall_cons _ _ _) green_lines) as [H1 H2]. apply Forall_cons in H2 as [H2 _].
  destruct (green_doctor_no_split_brain AdminDemo.cfg true true false false host green_run checked
    (green_line OnDiskConfig "matches") (green_line LiveSubscription "matches") service)
    as (params & hyst & users & now & mt & data & doc & _ & _ & Hu & _ & _ & _ & _ & Hadm).
  - done.
  - exact checked_run.
  - exact H1.
  - reflexivity.
  - reflexivity.
  - exact H2.
  - reflexivity.
  - reflexivity.
  - vm_compute. reflexivity.
  - intros eps. unfold endpoints_fingerprint, to_vec, endpoints_json. destruct (decide (eps = endpoints service)); [done|].
    rewrite decide_True by done. intros E. exfalso. revert E. vm_compute. discriminate.
  - exists users, now. split; [exact Hu|]. intros u ep H3 H4 H5. eexists. exact (Hadm u ep H3 H4 H5).
Defined.
End DoctorWitnesses.
