(* ===== verification/Report.v ===== *)
(** * apps/admin: [vpn-admin doctor --report]

    Models [cmd_doctor_report] of main.rs: the text of the diagnostic bundle,
    line by line, and the file it is written to.  The log tail goes through
    [redact_secrets]; everything else in the bundle is meant to be free of
    secrets by construction, which is what this file proves. *)

From stdpp Require Import pretty.
From Stdlib Require Import Strings.Byte.
From S2P Require Import Prelude Bytes Io Fs Model Store Render Server Deployment Service Anyhow Selftest Admin Redact Status Doctor.

Definition CARGO_PKG_VERSION : string := "0.1.0".

Definition service_label_text (l : ServiceLabel) : string :=
  match l with
  | Unknown => "unknown (systemctl not available)"
  | NotInstalled => "not installed"
  | Active => "active"
  | Inactive => "inactive"
  end.
Definition listener_text (state : option bool) : string :=
  match state with
  | Some true => "present"
  | Some false => "MISSING"
  | None => "unknown (`ss` unavailable)"
  end.
Definition expiry_text (days : option (result string Z)) : string :=
  match days with
  | Some (Ok days) => "hysteria2 tls cert: expires in " +:+ pretty days +:+ " day(s)"
  | Some (Err e) => "hysteria2 tls cert: could not check (" +:+ e +:+ ")"
  | None => "hysteria2 tls cert: not present"
  end.
(** A blank line and the name of the section. *)
Definition section (name : string) : list string := [EmptyString; "[" +:+ name +:+ "]"].
(** [writeln!] of each line *)
Definition text_of (lines : list string) : string := String.concat EmptyString ((fun l => l +:+ newline) <$> lines).

Definition journal_argv : list string :=
  ["journalctl"; "-u"; "sing-box"; "-u"; "vpn-subscription"; "-n"; "80"; "--no-pager"; "--no-hostname"].

Section Report.
Context {C : Clock} {D : DoctorEnv}.

(** What a command prints, if it could be run and succeeded. *)
Definition output_of {E : Type} (argv : list string) : IO E (option string) :=
  io_try (run_command argv) (fun r =>
    io_ret match r with
    | Ok o => if success o then Some (from_utf8_lossy (stdout o)) else None
    | Err _ => None
    end).

Definition system_lines {E : Type} : IO E (list string) :=
  do uname <- output_of ["uname"; "-a"];
  io_ret (section "system" ++
    [match uname with Some t => "uname: " +:+ trim t | None => "uname: unavailable" end]).
Definition singbox_version_lines {E : Type} (cfg : DeploymentConfig) : IO E (list string) :=
  do version <- output_of [singbox_binary cfg; "version"];
  io_ret (section "sing-box" ++
    [match version with
     | Some t => "version: " +:+ trim (default EmptyString (first_line t))
     | None => "version: unavailable at " +:+ quoted (singbox_binary cfg)
     end]).
Definition service_lines {E : Type} : IO E (list string) :=
  do singbox <- service_state_label (manager_new "sing-box");
  do subscription <- service_state_label (manager_new "vpn-subscription");
  io_ret (section "services" ++
    ["sing-box: " +:+ service_label_text singbox; "vpn-subscription: " +:+ service_label_text subscription]).
Definition listener_lines {E : Type} (cfg : DeploymentConfig) : IO E (list string) :=
  do tcp <- listener_reported_by_ss (reality_listen_port (reality cfg)) false;
  do udp <- listener_reported_by_ss (hysteria2_listen_port (hysteria2 cfg)) true;
  io_ret (section "listeners" ++
    ["VLESS+REALITY tcp/" +:+ pretty (reality_listen_port (reality cfg)) +:+ ": " +:+ listener_text tcp;
     "Hysteria2 udp/" +:+ pretty (hysteria2_listen_port (hysteria2 cfg)) +:+ ": " +:+ listener_text udp]).
Definition hostname_lines (cfg : DeploymentConfig) : list string :=
  section "hostname resolution" ++
  [match resolve (public_host cfg) with
   | Ok addrs => "public_host resolves: " +:+ pretty (length (List.filter is_ipv4 addrs)) +:+ " A, " +:+
       pretty (length (List.filter is_ipv6 addrs)) +:+ " AAAA"
   | Err e => "public_host does not resolve: " +:+ e
   end].
Definition transport_lines {E : Type} (cfg : DeploymentConfig) : IO E (list string) :=
  do obfs <- path_exists (hysteria_obfs_password_file cfg);
  do days <- cert_expiry_days (hysteria_dir cfg ++ ["cert.pem"]);
  io_ret (section "transport configuration" ++
    ["hysteria2 salamander obfuscation: " +:+ (if (obfs : bool) then "enabled" else "disabled");
     "subscription default transport: reality (deterministic selector)";
     expiry_text days]).
Definition firewall_lines {E : Type} : IO E (list string) :=
  io_try (run_command ["firewall-cmd"; "--state"]) (fun r =>
    io_ret (section "firewall" ++
      [match r with
       | Ok o => if success o then "firewalld: running" else "firewalld: NOT running"
       | Err _ => "firewalld: firewall-cmd unavailable"
       end])).
Definition configuration_lines (cfg : DeploymentConfig) : list string :=
  section "selected configuration" ++
  ["reality.handshake_server: " +:+ handshake_server (reality cfg);
   "reality.listen_port: " +:+ pretty (reality_listen_port (reality cfg));
   "hysteria2.listen_port: " +:+ pretty (hysteria2_listen_port (hysteria2 cfg));
   "state_dir: " +:+ state_dir cfg;
   "singbox_binary: " +:+ singbox_binary cfg].
(** A panic of [redact_secrets] is an error of its own; see [report_total]. *)
Definition log_lines : IO anyhow (list string) :=
  do raw <- output_of journal_argv;
  match raw with
  | Some raw =>
    match redact_secrets raw with
    | Some tail => io_ret (section "recent log tail (redacted)" ++ [str_of_bytes tail])
    | None => io_err (bail "panicked")
    end
  | None => io_ret (section "recent log tail (redacted)" ++ ["journalctl unavailable or not permitted"])
  end.

Definition report_lines (cfg : DeploymentConfig) : IO anyhow (list string) :=
  do now <- io_now;
  do system <- system_lines;
  do version <- singbox_version_lines cfg;
  do services <- service_lines;
  do listeners <- listener_lines cfg;
  do transport <- transport_lines cfg;
  do firewall <- firewall_lines;
  do log <- log_lines;
  io_ret (["vpn1 diagnostic report (sanitized)"; "generated: " +:+ pretty now;
           "vpn1 version: " +:+ CARGO_PKG_VERSION] ++
    system ++ version ++ services ++ listeners ++ hostname_lines cfg ++ transport ++ firewall ++
    configuration_lines cfg ++ log).

(** The text that is printed, or written to the file. *)
Definition cmd_doctor_report (cfg : DeploymentConfig) (output : option path) : IO anyhow string :=
  do lines <- report_lines cfg;
  let out := text_of lines in
  match output with
  | Some p =>
    context ("writing report to " +:+ path_debug p) (from_io (fs_write p (as_bytes out))) ;;
    context ("setting mode 0600 on " +:+ path_debug p) (from_io (fs_set_mode 384 p)) ;;
    io_ret out
  | None => io_ret out
  end.
End Report.

(** ** Worlds that differ in secrets only

    The disks hold the same files and directories with the same owners and
    modes; the contents of every file may differ.  The commands of the bundle
    behave alike, and of the journal only what remains after redaction has to be
    the same. *)
Definition blank (n : node) : node := match n with File m _ => File m [] | Dir m => Dir m end.
Definition same_shape (f g : fs) : Prop := forall p, blank <$> f !! p = blank <$> g !! p.
Definition ran_alike (argv : list string) (a b : result io_error output) : Prop :=
  if decide (argv = journal_argv) then
    match a, b with
    | Ok o, Ok o' => success o = success o' /\
        redact_secrets (from_utf8_lossy (stdout o)) = redact_secrets (from_utf8_lossy (stdout o'))
    | Err _, Err _ => True
    | _, _ => False
    end
  else a = b.

(** Same position in the run, same faults to come, disks of the same shape. *)
Record in_step (w v : world) : Prop := {
  is_shape : same_shape (w_fs w) (w_fs v);
  is_ops : w_ops w = w_ops v;
  is_fault : forall n, w_fault w n = w_fault v n;
  is_proc : w_proc w = w_proc v
}.
Record indistinct (w v : world) : Prop := {
  ind_step : in_step w v;
  ind_log : length (w_log w) = length (w_log v);
  ind_run : forall n argv, ran_alike argv (w_run w n argv (w_fs w)) (w_run v n argv (w_fs v))
}.

#[export] Instance ran_alike_equiv argv : Equivalence (ran_alike argv).
Proof.
  unfold ran_alike. destruct (decide _); [|apply eq_equivalence]. split.
  - by intros [].
  - intros [] []; naive_solver.
  - intros [] [] []; try done. intros [] []. split; congruence.
Qed.
#[export] Instance in_step_equiv : Equivalence in_step.
Proof.
  split.
  - intros w. by split.
  - intros w v [Hs Ho Hf Hp]. split; [intros p; by rewrite Hs|done|intros n; by rewrite Hf|done].
  - intros w v u [Hs Ho Hf Hp] [Hs' Ho' Hf' Hp'].
    split; [intros p; by rewrite Hs|congruence|intros n; by rewrite Hf|congruence].
Qed.
#[export] Instance indistinct_equiv : Equivalence indistinct.
Proof.
  split.
  - intros w. by split.
  - intros w v [Hs Hl Hr]. split; [by symmetry|done|]. intros n argv. by symmetry.
  - intros w v u [Hs Hl Hr] [Hs' Hl' Hr']. split; [by etrans|congruence|]. intros n argv. etrans; [apply Hr|apply Hr'].
Qed.

(** A computation that shows no secret: from worlds that cannot be told apart it
    yields the same outcome and worlds that cannot be told apart. *)
Definition discreet {E A : Type} (m : IO E A) : Prop :=
  forall w v, indistinct w v -> (m w).1 = (m v).1 /\ indistinct (m w).2 (m v).2.

Lemma discreet_ret {E A : Type} (a : A) : discreet (io_ret (E := E) a).
Proof. done. Qed.
Lemma discreet_err {E A : Type} (e : E) : discreet (io_err (A := A) e).
Proof. done. Qed.
Lemma discreet_try {E F A B : Type} (m : IO E A) (k : result E A -> IO F B) :
  discreet m -> (forall r, discreet (k r)) -> discreet (io_try m k).
Proof.
  intros Hm Hk w v Hwv. unfold io_try. destruct (Hm w v Hwv) as [Hr Hw].
  destruct (m w) as [r w1], (m v) as [r' v1]. cbn in *. subst r'. by apply Hk.
Qed.
Lemma discreet_bind {E A B : Type} (m : IO E A) (k : A -> IO E B) :
  discreet m -> (forall a, discreet (k a)) -> discreet (io_bind m k).
Proof.
  intros Hm Hk w v Hwv. unfold io_bind. destruct (Hm w v Hwv) as [Hr Hw].
  destruct (m w) as [r w1], (m v) as [r' v1]. cbn in *. subst r'. destruct r; [by apply Hk|done].
Qed.
Lemma discreet_now {C : Clock} {E : Type} : discreet (io_now (E := E)).
Proof. intros w v Hwv. split; [|done]. unfold io_now. by rewrite (is_ops _ _ (ind_step _ _ Hwv)), (ind_log _ _ Hwv). Qed.
Lemma discreet_exists {E : Type} p : discreet (path_exists (E := E) p).
Proof.
  intros w v Hwv. split; [|done]. cbn. f_equal.
  pose proof (is_shape _ _ (ind_step _ _ Hwv) p) as Hp.
  apply bool_decide_ext. rewrite <-!not_eq_None_Some. destruct (w_fs w !! p), (w_fs v !! p); by split.
Qed.
Lemma indistinct_logged w v e e' :
  indistinct w v -> indistinct
    (World (w_fs w) (w_hist w) (w_ops w) (w_fault w) (w_proc w) (w_run w) (e :: w_log w))
    (World (w_fs v) (w_hist v) (w_ops v) (w_fault v) (w_proc v) (w_run v) (e' :: w_log v)).
Proof. intros [[] Hl Hr]. split; [done|cbn; by rewrite Hl|done]. Qed.
Lemma discreet_run argv : argv <> journal_argv -> discreet (run_command argv).
Proof.
  intros Hne w v Hwv. split; [|by apply indistinct_logged]. unfold run_command. cbn. rewrite (ind_log _ _ Hwv).
  pose proof (ind_run _ _ Hwv (length (w_log v)) argv) as Hr. unfold ran_alike in Hr. by rewrite decide_False in Hr.
Qed.

Create HintDb discreet discriminated.
#[export] Hint Resolve discreet_ret discreet_err discreet_now discreet_exists discreet_run : discreet.
(** Take a computation apart down to its calls. *)
Ltac solve_discreet := repeat first
  [ progress intros
  | solve [eauto with discreet]
  | apply discreet_run; by intros [=]
  | apply discreet_bind
  | apply discreet_try
  | case_match ].

Section ReportFacts.
Context {C : Clock} {D : DoctorEnv}.

Lemma discreet_output {E : Type} argv : argv <> journal_argv -> discreet (output_of (E := E) argv).
Proof. intros. unfold output_of. apply discreet_try; [by apply discreet_run|]. solve_discreet. Qed.
Lemma discreet_probe {E : Type} mgr args test : systemctl_binary mgr = "systemctl" -> discreet (probe (E := E) mgr args test).
Proof.
  intros Hs. unfold probe, run. apply discreet_try; [apply discreet_try|]; solve_discreet;
    apply discreet_run; rewrite Hs; by intros [=].
Qed.
Lemma discreet_label {E : Type} name : discreet (service_state_label (E := E) (manager_new name)).
Proof.
  unfold service_state_label, is_available, is_unit_installed, Service.is_active.
  repeat (apply discreet_bind; [by apply discreet_probe|]; intros []; cbn [negb]; try apply discreet_ret).
Qed.
Lemma discreet_listener {E : Type} port udp : discreet (listener_reported_by_ss (E := E) port udp).
Proof. unfold listener_reported_by_ss. apply discreet_try; [destruct udp|]; solve_discreet. Qed.
Lemma discreet_expiry {E : Type} p : discreet (cert_expiry_days (E := E) p).
Proof. unfold cert_expiry_days. solve_discreet. Qed.
Hint Resolve discreet_output discreet_label discreet_listener discreet_expiry : discreet.

#[local] Arguments redact_secrets : simpl never.
#[local] Arguments from_utf8_lossy : simpl never.
(** Of the journal only the redacted text shows. *)
Lemma discreet_log : discreet log_lines.
Proof.
  intros w v Hwv. unfold log_lines, output_of, io_bind, io_try, run_command. rewrite (ind_log _ _ Hwv).
  pose proof (ind_run _ _ Hwv (length (w_log v)) journal_argv) as Hr. unfold ran_alike in Hr.
  rewrite decide_True in Hr by done. revert Hr.
  destruct (w_run w _ _ _) as [o|e], (w_run v _ _ _) as [o'|e']; try done.
  - intros [Hs Ht]. cbn. rewrite Hs. destruct (success o'); cbn; [rewrite Ht; destruct (redact_secrets (from_utf8_lossy (stdout o')))|];
      (split; [reflexivity|]); by apply indistinct_logged.
  - intros _. split; [reflexivity|]. by apply indistinct_logged.
Qed.
Hint Resolve discreet_log : discreet.

Lemma discreet_report cfg : singbox_binary cfg <> "journalctl" -> discreet (report_lines cfg).
Proof.
  intros Hb. assert (discreet (output_of (E := anyhow) [singbox_binary cfg; "version"])) by by apply discreet_output.
  unfold report_lines, system_lines, singbox_version_lines, service_lines, listener_lines, transport_lines, firewall_lines.
  solve_discreet; by apply discreet_output.
Qed.
End ReportFacts.

(** ** Writing the bundle *)

(** In step, and with the same node at [p]. *)
Definition shows (p : path) (w v : world) : Prop := in_step w v /\ w_fs w !! p = w_fs v !! p.

Lemma syscall_in_step {A : Type} torn torn' (g g' : fs -> result io_error (A * fs)) w v :
  in_step w v ->
  (forall k, same_shape (torn k (w_fs w)) (torn' k (w_fs v))) ->
  match g (w_fs w), g' (w_fs v) with
  | Ok (a, f), Ok (b, f') => a = b /\ same_shape f f'
  | Err e, Err e' => e = e'
  | _, _ => False
  end ->
  (syscall torn g w).1 = (syscall torn' g' v).1 /\ in_step (syscall torn g w).2 (syscall torn' g' v).2.
Proof.
  intros [Hs Ho Hf Hp] Ht Hg. unfold syscall. rewrite <-Ho, <-Hf.
  destruct (w_fault w (w_ops w)) as [ft|]; [split; [done|]; split; cbn; [done|congruence|done|done]|].
  destruct (g (w_fs w)) as [[a f]|e], (g' (w_fs v)) as [[b f']|e']; try done; cbn.
  - destruct Hg as [-> Hsh]. split; [done|]. split; cbn; [done|congruence|done|done].
  - subst e'. split; [done|]. split; cbn; [done|congruence|done|done].
Qed.

Lemma same_shape_insert f g p n m : same_shape f g -> blank n = blank m -> same_shape (<[p := n]> f) (<[p := m]> g).
Proof.
  intros Hs Hn q. destruct (decide (p = q)) as [<-|]; [by rewrite !lookup_insert_eq; cbn; rewrite Hn|].
  by rewrite !lookup_insert_ne.
Qed.
Lemma shape_dir f g p : same_shape f g -> (exists m, f !! p = Some (Dir m) /\ g !! p = Some (Dir m)) \/
  ((forall m, f !! p <> Some (Dir m)) /\ (forall m, g !! p <> Some (Dir m))).
Proof.
  intros Hs. specialize (Hs p). destruct (f !! p) as [[]|], (g !! p) as [[]|]; try done.
  - right. split; by intros ? [=].
  - left. injection Hs as ->. eauto.
  - right. by split.
Qed.
Lemma has_parent_shape f g p : same_shape f g -> has_parent f p = has_parent g p.
Proof.
  intros Hs. unfold has_parent. destruct (parent p) as [[|c d]|]; [done| |done].
  destruct (shape_dir f g (c :: d) Hs) as [(m & -> & ->)|[Hf Hg]]; [done|].
  destruct (f !! (c :: d)) as [[]|], (g !! (c :: d)) as [[]|]; naive_solver.
Qed.
Lemma new_meta_shape pr f g p m : same_shape f g -> new_meta pr f p m = new_meta pr g p m.
Proof.
  intros Hs. unfold new_meta. f_equal. destruct (parent p) as [d|]; [|done]. cbn.
  destruct (shape_dir f g d Hs) as [(m' & -> & ->)|[Hf Hg]]; [done|].
  destruct (f !! d) as [[]|], (g !! d) as [[]|]; naive_solver.
Qed.

Lemma open_truncate_shows m p w v :
  in_step w v ->
  (open_truncate m p w).1 = (open_truncate m p v).1 /\ in_step (open_truncate m p w).2 (open_truncate m p v).2 /\
  (is_ok (open_truncate m p w).1 = true ->
    w_fs (open_truncate m p w).2 !! p = w_fs (open_truncate m p v).2 !! p).
Proof.
  intros Hwv. pose proof Hwv as [Hs Ho Hf Hp]. unfold open_truncate.
  set (g (x : world) (f : fs) := match f !! p with
    | Some (File mt _) => Ok (tt, <[p := File mt []]> f) | Some (Dir _) => Err eisdir
    | None => if has_parent f p then Ok (tt, <[p := File (new_meta (w_proc x) f p m) []]> f) else Err enoent end).
  fold (g w) (g v).
  assert (match g w (w_fs w), g v (w_fs v) with
    | Ok (a, f), Ok (b, f') => a = b /\ same_shape f f' /\ f !! p = f' !! p
    | Err e, Err e' => e = e' | _, _ => False end) as Hg.
  { subst g. cbn. pose proof (Hs p) as Hsp.
    destruct (w_fs w !! p) as [[]|], (w_fs v !! p) as [[]|]; try done.
    - injection Hsp as ->. split; [done|]. split; [by apply same_shape_insert|by rewrite !lookup_insert_eq].
    - rewrite (has_parent_shape _ _ p Hs), Hp, (new_meta_shape _ _ _ p m Hs). destruct (has_parent (w_fs v) p); [|done].
      split; [done|]. split; [by apply same_shape_insert|by rewrite !lookup_insert_eq]. }
  destruct (syscall_in_step no_tear no_tear (g w) (g v) w v Hwv) as [H1 H2]; [done| |].
  { destruct (g w (w_fs w)) as [[]|], (g v (w_fs v)) as [[]|]; naive_solver. }
  split; [done|]. split; [done|]. unfold syscall, no_tear. rewrite <-Ho, <-Hf. destruct (w_fault w (w_ops w)); [done|].
  destruct (g w (w_fs w)) as [[]|], (g v (w_fs v)) as [[]|]; naive_solver.
Qed.

Lemma syscall_shows {A : Type} p torn (g : fs -> result io_error (A * fs)) w v :
  shows p w v ->
  (forall k, same_shape (torn k (w_fs w)) (torn k (w_fs v)) /\ torn k (w_fs w) !! p = torn k (w_fs v) !! p) ->
  match g (w_fs w), g (w_fs v) with
  | Ok (a, f), Ok (b, f') => a = b /\ same_shape f f' /\ f !! p = f' !! p
  | Err e, Err e' => e = e'
  | _, _ => False
  end ->
  (syscall torn g w).1 = (syscall torn g v).1 /\ shows p (syscall torn g w).2 (syscall torn g v).2.
Proof.
  intros [Hwv Hn] Ht Hg. destruct (syscall_in_step torn torn g g w v Hwv) as [H1 H2]; [apply Ht| |].
  { destruct (g (w_fs w)) as [[]|], (g (w_fs v)) as [[]|]; naive_solver. }
  split; [done|]. split; [done|]. destruct Hwv as [Hs Ho Hf Hp]. unfold syscall. rewrite <-Ho, <-Hf.
  destruct (w_fault w (w_ops w)) as [ft|]; [apply Ht|].
  destruct (g (w_fs w)) as [[]|], (g (w_fs v)) as [[]|]; naive_solver.
Qed.

Lemma put_data_shows p d f g :
  same_shape f g -> f !! p = g !! p ->
  same_shape (put_data p d f) (put_data p d g) /\ put_data p d f !! p = put_data p d g !! p.
Proof.
  intros Hs Hn. unfold put_data. rewrite Hn. destruct (g !! p) as [[mt old|]|] eqn:E; [|split; [done|congruence]..].
  split; [by apply same_shape_insert|by rewrite !lookup_insert_eq].
Qed.
Lemma write_all_shows p d w v :
  shows p w v ->
  (file_write_all p d w).1 = (file_write_all p d v).1 /\ shows p (file_write_all p d w).2 (file_write_all p d v).2.
Proof.
  intros [Hwv Hn]. pose proof (is_shape _ _ Hwv) as Hs. apply syscall_shows; [by split| |].
  - intros k. by apply put_data_shows.
  - split; [done|]. by apply put_data_shows.
Qed.
Lemma set_mode_shows m p w v :
  shows p w v -> (fs_set_mode m p w).1 = (fs_set_mode m p v).1 /\ shows p (fs_set_mode m p w).2 (fs_set_mode m p v).2.
Proof.
  intros [Hwv Hn]. pose proof (is_shape _ _ Hwv) as Hs. apply syscall_shows; [by split|by intros k|].
  rewrite Hn. destruct (w_fs v !! p) as [n|]; [|done]. split; [done|].
  split; [by apply same_shape_insert|by rewrite !lookup_insert_eq].
Qed.

(** What an observer of [p] and of the outcome learns is the same. *)
Definition same_view (p : path) {E A : Type} (m : IO E A) (w v : world) : Prop :=
  (m w).1 = (m v).1 /\
  ((w_fs (m w).2 = w_fs w /\ w_fs (m v).2 = w_fs v) \/ w_fs (m w).2 !! p = w_fs (m v).2 !! p).

Section ReportTheorems.
Context {C : Clock} {D : DoctorEnv}.

Lemma save_report_view p out w v :
  in_step w v ->
  same_view p (context ("writing report to " +:+ path_debug p) (from_io (fs_write p (as_bytes out))) ;;
    context ("setting mode 0600 on " +:+ path_debug p) (from_io (fs_set_mode 384 p)) ;; io_ret out) w v.
Proof.
  intros Hwv. unfold same_view, context, from_io, fs_write, io_map_err, io_bind.
  assert (is_ok (open_truncate 438 p w).1 = false -> w_fs (open_truncate 438 p w).2 = w_fs w) as Hfail.
  { unfold open_truncate, syscall, no_tear. destruct (w_fault _ _); [done|]. destruct (w_fs w !! p) as [[]|]; try done.
    by destruct (has_parent _ _). }
  assert (is_ok (open_truncate 438 p v).1 = false -> w_fs (open_truncate 438 p v).2 = w_fs v) as Hfail'.
  { unfold open_truncate, syscall, no_tear. destruct (w_fault _ _); [done|]. destruct (w_fs v !! p) as [[]|]; try done.
    by destruct (has_parent _ _). }
  destruct (open_truncate_shows 438 p w v Hwv) as (H1 & H2 & H3).
  destruct (open_truncate 438 p w) as [r1 w1], (open_truncate 438 p v) as [r1' v1]. cbn in *. subst r1'.
  destruct r1 as [[]|e]; [|split; [done|]; left; split; [by apply Hfail|by apply Hfail']].
  destruct (write_all_shows p (as_bytes out) w1 v1) as (H4 & H5); [split; [done|by apply H3]|].
  destruct (file_write_all p (as_bytes out) w1) as [r2 w2], (file_write_all p (as_bytes out) v1) as [r2' v2].
  cbn in *. subst r2'. destruct r2 as [[]|e]; [|split; [done|]; right; apply H5].
  destruct (set_mode_shows 384 p w2 v2 H5) as (H6 & H7).
  destruct (fs_set_mode 384 p w2) as [r3 w3], (fs_set_mode 384 p v2) as [r3' v3]. cbn in *. subst r3'.
  destruct r3 as [[]|e]; (split; [done|]); right; apply H7.
Qed.

(** Collecting the bundle never fails, and leaves the disk alone; the log tail
    in it is redacted. *)
Lemma probes_output W `{!Steady W} {E : Type} argv : probes W (output_of (E := E) argv) (okay anyway).
Proof. eapply probes_try; [by apply probes_run_command|]. intros r _. by apply probes_ret. Qed.
Lemma probes_state_label W `{!Steady W} {E : Type} mgr : probes W (service_state_label (E := E) mgr) (okay anyway).
Proof.
  unfold service_state_label, is_available, is_unit_installed, Service.is_active.
  apply (probes_bind_ok W _ _ anyway); [by apply probes_probe|]. intros [] _; cbn [negb]; [|by apply probes_ret].
  apply (probes_bind_ok W _ _ anyway); [by apply probes_probe|]. intros [] _; cbn [negb]; [|by apply probes_ret].
  apply (probes_bind_ok W _ _ anyway); [by apply probes_probe|]. intros ? _. by apply probes_ret.
Qed.
Definition redacted_tail (lines : list string) : Prop :=
  lines = section "recent log tail (redacted)" ++ ["journalctl unavailable or not permitted"] \/
  exists tail, lines = section "recent log tail (redacted)" ++ [str_of_bytes tail] /\ clean tail.
Lemma probes_log W `{!Steady W} : probes W log_lines (okay redacted_tail).
Proof.
  intros w Hw. unfold log_lines, io_bind, output_of, io_try. destruct (probes_run_command W journal_argv w Hw) as [HW _].
  destruct (run_command journal_argv w) as [[o|e] w1]; cbn -[redact_secrets from_utf8_lossy]; [|by split; [|left]].
  destruct (success o); [|by split; [|left]].
  destruct (redact_total (from_utf8_lossy (stdout o)) (lossy_valid _)) as (tail & -> & Hc).
  split; [done|]. right. by exists tail.
Qed.
Definition full_report (lines : list string) : Prop :=
  exists before log, lines = before ++ log /\ redacted_tail log.
Lemma probes_report W `{!Steady W} cfg : probes W (report_lines cfg) (okay full_report).
Proof.
  unfold report_lines, system_lines, singbox_version_lines, service_lines, listener_lines, transport_lines, firewall_lines.
  eapply probes_bind_ok; [apply probes_now|]. intros now _.
  eapply probes_bind_ok; [eapply probes_bind_ok; [by apply probes_output|]; intros ? _; by apply (probes_ret W _ (okay anyway))|].
  intros system _.
  eapply probes_bind_ok; [eapply probes_bind_ok; [by apply probes_output|]; intros ? _; by apply (probes_ret W _ (okay anyway))|].
  intros version _.
  eapply probes_bind_ok; [do 2 (eapply probes_bind_ok; [by apply probes_state_label|]; intros ? _);
    by apply (probes_ret W _ (okay anyway))|]. intros services _.
  eapply probes_bind_ok; [do 2 (eapply probes_bind_ok; [by apply probes_listener|]; intros ? _);
    by apply (probes_ret W _ (okay anyway))|]. intros listeners _.
  eapply probes_bind_ok; [eapply probes_bind_ok; [by apply probes_exists|]; intros ? _;
    eapply probes_bind_ok; [by apply probes_cert_expiry|]; intros ? _; by apply (probes_ret W _ (okay anyway))|].
  intros transport _.
  eapply probes_bind_ok; [eapply probes_try; [by apply probes_run_command|]; intros ? _; by apply (probes_ret W _ (okay anyway))|].
  intros firewall _.
  eapply probes_bind_ok; [by apply probes_log|]. intros log Hlog. apply probes_ret. cbn [okay].
  exists (["vpn1 diagnostic report (sanitized)"; "generated: " +:+ pretty now;
           "vpn1 version: " +:+ CARGO_PKG_VERSION] ++
    system ++ version ++ services ++ listeners ++ hostname_lines cfg ++ transport ++ firewall ++
    configuration_lines cfg), log. split; [|done]. by rewrite <-!app_assoc.
Qed.

(** The bundle of one run: collected without failure, disk and position kept. *)
Lemma report_collected cfg w :
  exists lines w1, report_lines cfg w = (Ok lines, w1) /\ full_report lines /\ w_fs w1 = w_fs w.
Proof.
  destruct (probes_report (at_disk (w_fs w)) cfg w eq_refl) as [Hd Hq].
  destruct (report_lines cfg w) as [[lines|e] w1]; [|done]. by exists lines, w1.
Qed.
Lemma keeps_save q p out :
  p <> q ->
  keeps q (context ("writing report to " +:+ path_debug p) (from_io (fs_write p (as_bytes out))) ;;
    context ("setting mode 0600 on " +:+ path_debug p) (from_io (fs_set_mode 384 p)) ;; io_ret out).
Proof. intros. unfold context, from_io, fs_set_mode. solve_keeps. Qed.
Lemma save_report_Ok_inv p out w text w' :
  (context ("writing report to " +:+ path_debug p) (from_io (fs_write p (as_bytes out))) ;;
    context ("setting mode 0600 on " +:+ path_debug p) (from_io (fs_set_mode 384 p)) ;; io_ret out) w = (Ok text, w') ->
  text = out /\ exists m, w_fs w' !! p = Some (File m (as_bytes text)) /\ mode m = 384.
Proof.
  intros ([] & w1 & H1%io_map_err_Ok_inv%io_map_err_Ok_inv & H)%io_bind_Ok_inv.
  apply io_bind_Ok_inv in H as (u & w2 & H2%io_map_err_Ok_inv%io_map_err_Ok_inv & [= <- <-]).
  apply io_bind_Ok_inv in H1 as ([] & w3 & H3 & H4). apply open_truncate_Ok_inv in H3 as (mt & -> & _).
  eapply file_write_all_Ok_inv in H4; [|apply lookup_insert_eq]. subst w1.
  apply update_meta_Ok_inv in H2 as (n & Hn & ->). cbn in Hn. rewrite lookup_insert_eq in Hn. injection Hn as <-.
  split; [done|]. eexists. cbn. by rewrite lookup_insert_eq.
Qed.

(** C23: The diagnostic bundle shows no secret.  Take two hosts whose disks hold
    the same files with the same owners and modes, but any contents -- other
    private keys, passwords, tokens, users --, whose commands answer alike and
    whose journals are the same after redaction.  The run has the same outcome
    on both, down to the text that is printed and the file that is written; it
    is always collected in full, its log tail holds no piece that looks like a
    secret, no path but the one asked for changes, and the file ends up with
    mode 0600 and that text. *)
Theorem report_shows_no_secret cfg output w v :
  singbox_binary cfg <> "journalctl" -> indistinct w v ->
  let run := cmd_doctor_report cfg output in
  (run w).1 = (run v).1 /\
  match output with
  | None => exists lines, full_report lines /\ (run w).1 = Ok (text_of lines) /\ w_fs (run w).2 = w_fs w
  | Some p =>
    ((w_fs (run w).2 = w_fs w /\ w_fs (run v).2 = w_fs v) \/ w_fs (run w).2 !! p = w_fs (run v).2 !! p) /\
    (forall q, q <> p -> w_fs (run w).2 !! q = w_fs w !! q) /\
    (forall text, (run w).1 = Ok text -> exists lines m, full_report lines /\ text = text_of lines /\
      w_fs (run w).2 !! p = Some (File m (as_bytes text)) /\ mode m = 384)
  end.
Proof.
  intros Hb Hwv run. subst run. destruct (discreet_report cfg Hb w v Hwv) as [Hr Hi]. unfold cmd_doctor_report, io_bind.
  destruct (report_collected cfg w) as (lines & w1 & Ew & Hl & Hf), (report_collected cfg v) as (lines' & v1 & Ev & _ & Hg).
  rewrite Ew, Ev in *. cbn [fst snd] in *. injection Hr as <-. destruct output as [p|]; [|split; [done|]; by exists lines].
  destruct (save_report_view p (text_of lines) w1 v1 (ind_step _ _ Hi)) as [H1 H2].
  split; [exact H1|]. rewrite <-Hf, <-Hg. split; [exact H2|]. split.
  - intros q Hq. by apply (keeps_save q p (text_of lines) (not_eq_sym Hq) w1 _ _ (surjective_pairing _)).
  - intros text Ht. destruct (save_report_Ok_inv p (text_of lines) w1 text _ (run_of_fst _ _ _ Ht)) as (-> & m & Hm).
    by exists lines, m.
Qed.
End ReportTheorems.

Module ReportDemo.
Import StoreDemo RenderDemo ServerDemo ServiceDemo DeploymentDemo AdminDemo DoctorDemo.
(** The journal of a host that logged [secret]. *)
Definition journal (secret : string) (n : nat) (argv : list string) (f : fs) : result io_error output :=
  if decide (argv = journal_argv) then Ok (Output true (as_bytes ("sing-box: bad uuid " +:+ secret +:+ " from peer")) [])
  else tools n argv f.
Definition logging (f : fs) (secret : string) : world := World f [] 0 (fun _ => None) (Proc 42 18 0 0) (journal secret) [].
Definition one_host : world := logging disk "3f2b6c1e-9d4a-4f57-8a0e-5b1c7d9e2f60".
(** The same host with another key, and another client in the log. *)
Definition other_host : world :=
  logging (<[["s"; "reality"; "private.key"] := installed (as_bytes "another key")]> disk)
    "a81d07f4-2c6e-49b3-b5d1-60e4c3f8792a".
Lemma hosts_indistinct : indistinct one_host other_host.
Proof.
  split; [split; try done| |].
  - intros p. cbn [w_fs one_host other_host logging].
    destruct (decide (["s"; "reality"; "private.key"] = p)) as [<-|Hne]; [vm_compute; reflexivity|by rewrite lookup_insert_ne].
  - done.
  - intros n argv. unfold ran_alike. cbn [w_run w_fs one_host other_host logging]. unfold journal.
    destruct (decide (argv = journal_argv)); [|reflexivity].
    split; [reflexivity|]. vm_compute. reflexivity.
Qed.
End ReportDemo.

Section ReportWitnesses.
Import StoreDemo RenderDemo ServerDemo ServiceDemo DeploymentDemo AdminDemo DoctorDemo ReportDemo.
Lemma report_shows_no_secret_witness :
  w_fs one_host !! ["s"; "reality"; "private.key"] <> w_fs other_host !! ["s"; "reality"; "private.key"] /\
  (cmd_doctor_report AdminDemo.cfg None one_host).1 = (cmd_doctor_report AdminDemo.cfg None other_host).1.
Proof.
  split; [vm_compute; by intros [=]|].
  refine (proj1 (report_shows_no_secret AdminDemo.cfg None one_host other_host _ hosts_indistinct)).
  vm_compute. by intros [=].
Defined.
End ReportWitnesses.
