(* ===== verification/Cli.v ===== *)
(** * apps/admin: the [vpn-admin] command line

    Models [main] of main.rs: the commands, which of them take the state lock,
    the lock file ([lock.rs]), the dispatch to the commands of Admin, Rotate,
    Backup, Status and Doctor, and the two [config] commands.  The random bytes
    a command draws, the working directory and the temporary directory are
    arguments.  [doctor] runs the checks of Doctor, or writes the bundle of
    Report, or prints the figures of Perf. *)

From stdpp Require Import pretty.
From Stdlib Require Import Strings.Byte.
From S2P Require Import Prelude Bytes Io Serde Fs Model Store Render Server Deployment Service Anyhow Selftest Admin Rotate Backup.
From S2P Require Import Status Perf Doctor Report.

(** ** Commands *)
Inductive ConfigCommands := Validate | Migrate.
Inductive UserCommands :=
  | Create (name : string) (expires_at : option Z) (qr json : bool)
  | List
  | Qr (user_id : string)
  | Links (user_id : string) (qr : bool)
  | Enable (user_id : string)
  | Disable (user_id : string)
  | RotateToken (user_id : string) (qr : bool)
  | RotateVless (user_id : string)
  | RotateHysteria (user_id : string)
  | RotateCredentials (user_id : string)
  | Remove (user_id : string)
  | Subscription (user_id : string).
Inductive Commands :=
  | Init (rotate : bool)
  | RenderConfig (require_applied : bool)
  | Version
  | Status
  | Doctor (protocol require_protocol telegram report : bool) (report_output : option path) (client performance : bool)
  | Backup (output : option path)
  | Restore (archive : path)
  | HysteriaObfsRotate
  | User (c : UserCommands)
  | Config (c : ConfigCommands).

Definition command_mutates_state (cmd : Commands) : bool :=
  match cmd with
  | Version | Status | Doctor _ _ _ _ _ _ _ | User List | User (Subscription _) | Config Validate => false
  | _ => true
  end.

(** What one invocation draws and finds. *)
Record Draws := {
  d_create : Entropy;
  d_uuid16 : bytes;
  d_password24 : bytes;
  d_token20 : bytes;
  d_short_id4 : bytes;
  d_obfs24 : bytes;
  d_staging : path;  (** the temporary directory *)
  d_cwd : path
}.

Section Cli.
Context {C : Clock} {Env : AdminEnv} {D : DoctorEnv} {PF : ProcFs} {TA : Tar} {TO : DeploymentToml}.
Context {HexI : Hex} {Sha : Sha256} {B64 : Base64Url} {X : X25519}.
Context {JV : Json json} {JU : Json UsersFile} {JL : Json (list CompatUser)} {JE : Json (list CompatEndpoint)}.
Context (qr_fits : string -> bool).

(** ** [doctor]: the report and the figures replace the checks *)
Definition cmd_doctor (cfg : DeploymentConfig) (protocol require_protocol telegram report : bool)
    (report_output : option path) (client performance : bool) : IO anyhow unit :=
  if report then do _ <- cmd_doctor_report cfg report_output; io_ret tt else
  if performance then do _ <- cmd_doctor_performance; io_ret tt else
  do _ <- doctor_checks cfg protocol require_protocol telegram client; io_ret tt.

(** ** [config validate]: the exit status is the machine-readable answer *)
Definition deployment_state (cfg : DeploymentConfig) : bool := schema_version cfg =? 0.
Definition cmd_config_validate (cfg : DeploymentConfig) : IO anyhow Z :=
  let migration_required := deployment_state cfg in
  do st <- from_compat (detect_users_schema (users_file cfg));
  let '(invalid, migration_required) :=
    match st with
    | Missing | Current => (false, migration_required)
    | Legacy => (false, true)
    | Future _ | Corrupted _ => (true, migration_required)
    end in
  if (invalid : bool) then io_ret 3 else if (migration_required : bool) then io_ret 2 else io_ret 0.

(** ** [config migrate]: what became of the two files, and whether the server's
    configuration could be re-validated *)
Definition cmd_config_migrate (cfg : DeploymentConfig) (config_path : path)
    : IO anyhow (DeploymentMigrationOutcome * UsersMigrationOutcome * bool) :=
  do now <- io_now;
  do deployment <- context ("migrating " +:+ path_debug config_path)
    (from_compat (migrate_deployment_toml now config_path));
  do now <- io_now;
  do users <- context ("migrating " +:+ path_debug (users_file cfg)) (from_compat (migrate_users now (users_file cfg)));
  do reloaded <- context ("reloading " +:+ path_debug config_path +:+ " after migration") (from_compat (load config_path));
  io_try (regenerate_singbox_config reloaded false) (fun r => io_ret (deployment, users, is_ok r)).

(** ** The dispatch; the exit status of a command that succeeds *)
Definition exit_ok {A : Type} (m : IO anyhow A) : IO anyhow Z := do _ <- m; io_ret 0.

Definition run_user (cfg : DeploymentConfig) (d : Draws) (c : UserCommands) : IO anyhow Z :=
  match c with
  | Create name expires_at qr json => exit_ok (cmd_user_create qr_fits cfg name expires_at qr json (d_create d))
  | List => exit_ok (cmd_user_list cfg)
  | Qr user_id => exit_ok (cmd_user_qr qr_fits cfg user_id (d_token20 d))
  | Links user_id qr => exit_ok (cmd_user_links qr_fits cfg user_id qr)
  | Enable user_id => exit_ok (cmd_user_set_enabled cfg user_id true)
  | Disable user_id => exit_ok (cmd_user_set_enabled cfg user_id false)
  | RotateToken user_id qr => exit_ok (cmd_user_rotate_token qr_fits cfg user_id qr (d_token20 d))
  | RotateVless user_id => exit_ok (cmd_user_rotate_vless cfg user_id (d_uuid16 d))
  | RotateHysteria user_id => exit_ok (cmd_user_rotate_hysteria cfg user_id (d_password24 d))
  | RotateCredentials user_id => exit_ok (cmd_user_rotate_credentials cfg user_id (d_uuid16 d) (d_password24 d))
  | Remove user_id => exit_ok (cmd_user_remove cfg user_id)
  | Subscription user_id => exit_ok (cmd_user_subscription cfg user_id)
  end.
Definition run_command_of (cfg : DeploymentConfig) (config_path : path) (d : Draws) (c : Commands) : IO anyhow Z :=
  match c with
  | Init rotate => exit_ok (cmd_init cfg rotate (d_short_id4 d) (d_obfs24 d))
  | RenderConfig require_applied => exit_ok (cmd_render_config cfg require_applied)
  | Version => exit_ok (cmd_version cfg)
  | Status => exit_ok (cmd_status cfg)
  | Doctor protocol require_protocol telegram report report_output client performance =>
      exit_ok (cmd_doctor cfg protocol require_protocol telegram report report_output client performance)
  | Backup output =>
      do now <- io_now;
      let dest := default (d_cwd d ++ ["vpn1-backup-" +:+ pretty now +:+ ".tar"]) output in
      exit_ok (cmd_backup cfg config_path (d_staging d) dest)
  | Restore archive => exit_ok (cmd_restore cfg (d_staging d) archive)
  | HysteriaObfsRotate => exit_ok (cmd_hysteria_obfs_rotate cfg (d_obfs24 d))
  | Config Validate => cmd_config_validate cfg
  | Config Migrate => exit_ok (cmd_config_migrate cfg config_path)
  | User c => run_user cfg d c
  end.

(** ** lock.rs *)

(** [File::options().create(true).truncate(false).write(true).open(p)] *)
Definition open_lock_file (p : path) : IO io_error unit := fun w =>
  syscall no_tear (fun f =>
    match f !! p with
    | Some (File _ _) => Ok (tt, f)
    | Some (Dir _) => Err eisdir
    | None => if has_parent f p then Ok (tt, <[p := File (new_meta (w_proc w) f p 438) []]> f) else Err enoent
    end) w.
(** [flock(LOCK_EX)] once the lock is free; the call itself may fail. *)
Definition flock (p : path) : IO io_error unit := syscall no_tear (fun f => Ok (tt, f)).

(** [VPN1_LOCK_PATH] or the default. *)
Definition lock_path (env : option path) : path := default ["run"; "lock"; "vpn1.lock"] env.

Definition acquire_state_lock (env : option path) : IO anyhow unit :=
  let p := lock_path env in
  (match parent p with
   | Some d => context ("creating lock directory " +:+ path_debug d) (from_io (create_dir_all d))
   | None => io_ret tt
   end) ;;
  context ("opening lock file " +:+ path_debug p) (from_io (open_lock_file p)) ;;
  context ("acquiring exclusive lock on " +:+ path_debug p) (from_io (flock p)).

(** ** [main] *)
Definition load_config (config_path : path) : IO anyhow DeploymentConfig :=
  context ("loading deployment config from " +:+ path_debug config_path) (from_compat (load config_path)).
Definition main (env_lock : option path) (config_path : path) (d : Draws) (c : Commands) : IO anyhow Z :=
  do cfg <- load_config config_path;
  (if command_mutates_state c
   then context "acquiring vpn1 state lock (another vpn-admin/install/update operation is in progress)"
     (acquire_state_lock env_lock)
   else io_ret tt) ;;
  run_command_of cfg config_path d c.
End Cli.

(** ** Commands that do not take the lock *)

(** The file that a command writes although it takes no lock. *)
Definition report_file (c : Commands) : option path :=
  match c with Doctor _ _ _ true report_output _ _ => report_output | _ => None end.
(** Two disks that differ at most at [o]. *)
Definition agree_but (o : option path) (f g : fs) : Prop := forall q, o <> Some q -> g !! q = f !! q.
#[export] Instance agree_but_preorder o : PreOrder (agree_but o).
Proof. split; [by intros f q|]. intros f g h Hfg Hgh q Hq. by rewrite Hgh, Hfg. Qed.

(** The disk is [f] but for [o], and has been since its history was [h]. *)
Definition still (o : option path) (f : fs) (h : list fs) (w : world) : Prop :=
  agree_but o f (w_fs w) /\ exists new, w_hist w = new ++ h /\ Forall (agree_but o f) new.
(** A call at [p] does not leave these worlds. *)
Definition tolerates (W : world -> Prop) (p : path) : Prop :=
  forall w g, W w -> agree_but (Some p) (w_fs w) g -> W (push_fs g w).
Lemma still_push o f h w g : still o f h w -> agree_but o (w_fs w) g -> still o f h (push_fs g w).
Proof.
  intros (Hf & new & Hh & Hn) Hg. assert (agree_but o f g) by by etrans.
  split; [done|]. exists (g :: new). cbn. rewrite Hh. split; [done|]. by constructor.
Qed.
Lemma still_tolerates p f h : tolerates (still (Some p) f h) p.
Proof. intros w g. apply still_push. Qed.
#[export] Instance still_steady o f h : Steady (still o f h).
Proof. split; [intros w Hw; by apply still_push|]. intros w l (Hf & new & Hh & Hn). split; [done|]. by exists new. Qed.

Section Unlocked.
Context (W : world -> Prop) {St : Steady W}.
Context {C : Clock} {Env : AdminEnv} {D : DoctorEnv} {PF : ProcFs} {TA : Tar} {TO : DeploymentToml}.
Context {HexI : Hex} {Sha : Sha256} {B64 : Base64Url} {X : X25519}.
Context {JV : Json json} {JU : Json UsersFile} {JL : Json (list CompatUser)} {JE : Json (list CompatEndpoint)}.
Context (qr_fits : string -> bool).

Lemma probes_any {E A : Type} (m : IO E A) Q : probes W m Q -> probes W m anyway.
Proof. intros Hm. by eapply probes_weaken. Qed.

(** In a bind whose outcome does not matter each part is a probe of its own. *)
Lemma probes_seq {E A B : Type} (m : IO E A) (k : A -> IO E B) :
  probes W m anyway -> (forall a, probes W (k a) anyway) -> probes W (io_bind m k) anyway.
Proof. intros Hm Hk. by eapply probes_bind. Qed.

Lemma probes_load p : probes W (load p) anyway.
Proof.
  unfold load. apply probes_seq; [apply probes_map_err, probes_read_to_string; apply _|]. intros t.
  apply probes_seq; [by apply probes_lift|]. intros cfg. apply probes_seq; [by apply probes_lift|]. intros u. by apply probes_ret.
Qed.
Lemma probes_users_of {A : Type} cfg (k : list CompatUser -> IO anyhow A) :
  (forall users, probes W (k users) anyway) -> probes W (do users <- from_compat (load_users (users_file cfg)); k users) anyway.
Proof. intros Hk. apply probes_seq; [apply probes_map_err, probes_load_users; apply _|done]. Qed.
Lemma probes_detect p : probes W (detect_users_schema p) anyway.
Proof.
  unfold detect_users_schema. apply probes_seq; [eapply probes_any, probes_exists|]. intros []; cbn [negb]; [|by apply probes_ret].
  eapply probes_try; [apply probes_fs_read; apply _|]. intros [] _; by apply probes_ret.
Qed.
Lemma probes_label mgr : probes W (service_state_label (E := anyhow) mgr) anyway.
Proof.
  unfold service_state_label, is_available, is_unit_installed, Service.is_active.
  apply probes_seq; [eapply probes_any, probes_probe; apply _|]. intros []; cbn [negb]; [|by apply probes_ret].
  apply probes_seq; [eapply probes_any, probes_probe; apply _|]. intros []; cbn [negb]; [|by apply probes_ret].
  apply probes_seq; [eapply probes_any, probes_probe; apply _|]. intros. by apply probes_ret.
Qed.
Lemma probes_status cfg : probes W (cmd_status cfg) anyway.
Proof.
  apply probes_users_of. intros users. apply probes_seq; [eapply probes_any, probes_now|]. intros now.
  apply probes_seq; [apply probes_label|]. intros a. apply probes_seq; [apply probes_label|]. intros b.
  apply probes_seq; [eapply probes_any, probes_exists|]. intros e.
  apply probes_seq; [eapply probes_any, (probes_cert_expiry W)|]. intros. by apply probes_ret.
Qed.
Lemma probes_version cfg : probes W (cmd_version cfg) anyway.
Proof.
  unfold cmd_version. eapply probes_try; [apply probes_run_command; apply _|]. intros [o|] _; [|by apply probes_ret].
  destruct (success o); by apply probes_ret.
Qed.
(** Writing the report at a path the worlds tolerate. *)
Lemma probes_syscall_at {A : Type} p torn (g : fs -> result io_error (A * fs)) w :
  tolerates W p -> W w -> (forall k f, agree_but (Some p) f (torn k f)) ->
  (forall f a f', g f = Ok (a, f') -> agree_but (Some p) f f') -> W (syscall torn g w).2.
Proof.
  intros Hp Hw Ht Hg. unfold syscall. destruct (w_fault w (w_ops w)); [by apply Hp|].
  destruct (g (w_fs w)) as [[a f']|e] eqn:E; [|by apply steady_push]. apply Hp; [done|by eapply Hg].
Qed.
Lemma agree_insert p n (f : fs) : agree_but (Some p) f (<[p := n]> f).
Proof. intros q Hq. rewrite lookup_insert_ne; [done|]. by intros ->. Qed.
Lemma agree_put p d f : agree_but (Some p) f (put_data p d f).
Proof. unfold put_data. destruct (f !! p) as [[]|]; try done. apply agree_insert. Qed.
Lemma probes_write p d : tolerates W p -> probes W (fs_write p d) anyway.
Proof.
  intros Hp. apply probes_seq; [|intros u]; intros w Hw; (split; [|done]).
  - apply (probes_syscall_at p); try done. intros f a f'. destruct (f !! p) as [[]|]; [|done|destruct (has_parent f p); [|done]];
      intros [= _ <-]; apply agree_insert.
  - apply (probes_syscall_at p); try done; [intros; apply agree_put|]. intros f a f' [= _ <-]. apply agree_put.
Qed.
Lemma probes_set_mode m p : tolerates W p -> probes W (fs_set_mode m p) anyway.
Proof.
  intros Hp w Hw. split; [|done]. apply (probes_syscall_at p); try done.
  intros f a f'. destruct (f !! p); [|done]. intros [= _ <-]. apply agree_insert.
Qed.
Lemma probes_save cfg o : (forall p, o = Some p -> tolerates W p) -> probes W (cmd_doctor_report cfg o) anyway.
Proof.
  intros Ho. unfold cmd_doctor_report. apply probes_seq; [eapply probes_any; by apply probes_report|]. intros lines.
  destruct o as [p|]; [|by apply probes_ret]. unfold context, from_io.
  apply probes_seq; [by apply probes_map_err, probes_map_err, probes_write, Ho|]. intros u.
  apply probes_seq; [by apply probes_map_err, probes_map_err, probes_set_mode, Ho|]. intros v. by apply probes_ret.
Qed.
Lemma probes_perf_run argv : probes W (perf_run (E := anyhow) argv) anyway.
Proof. eapply probes_try; [by apply probes_run_command|]. intros r _. by apply probes_ret. Qed.
Lemma probes_performance : probes W (cmd_doctor_performance (E := anyhow)) anyway.
Proof.
  unfold cmd_doctor_performance, interface_lines, singbox_lines. apply probes_seq.
  - destruct perf_primary_interface; [|by apply probes_ret].
    do 2 (apply probes_seq; [apply probes_perf_run|]; intros ?). by apply probes_ret.
  - intros ?. apply probes_seq; [|intros; by apply probes_ret]. destruct perf_singbox_pid; [|by apply probes_ret].
    apply probes_seq; [apply probes_perf_run|]. intros. by apply probes_ret.
Qed.
Lemma probes_doctor cfg p q t r o c f :
  (r = true -> forall p, o = Some p -> tolerates W p) -> probes W (cmd_doctor cfg p q t r o c f) anyway.
Proof.
  intros Ho. unfold cmd_doctor. destruct r; [|destruct f]; (apply probes_seq; [|intros; by apply probes_ret]).
  - by apply probes_save, Ho.
  - apply probes_performance.
  - unfold doctor_checks. apply probes_seq.
    + eapply probes_any. by apply (doctor_run_spec W cfg (fun _ => True) no_lines).
    + intros run. by destruct (0 <? _).
Qed.

Lemma probes_exit {A : Type} (m : IO anyhow A) : probes W m anyway -> probes W (exit_ok m) anyway.
Proof. intros Hm. apply probes_seq; [exact Hm|]. intros. by apply probes_ret. Qed.

Lemma probes_unlocked cfg config_path d c :
  command_mutates_state c = false -> (forall p, report_file c = Some p -> tolerates W p) ->
  probes W (run_command_of qr_fits cfg config_path d c) anyway.
Proof.
  intros Hc Ho. destruct c as [| | | |p q t r o cl pf| | | |[]|[]]; try done; cbn [run_command_of run_user].
  - apply probes_exit, probes_version.
  - apply probes_exit, probes_status.
  - apply probes_exit, probes_doctor. by intros ->.
  - apply probes_exit, probes_users_of. intros. by apply probes_ret.
  - apply probes_exit, probes_users_of. intros. by apply probes_lift.
  - unfold cmd_config_validate. apply probes_seq; [apply probes_map_err, probes_detect|].
    intros []; destruct (deployment_state cfg); by apply probes_ret.
Qed.

Lemma probes_main env config_path d c :
  command_mutates_state c = false -> (forall p, report_file c = Some p -> tolerates W p) ->
  probes W (main qr_fits env config_path d c) anyway.
Proof.
  intros Hc Ho. unfold main. rewrite Hc. apply probes_seq.
  - apply probes_map_err, probes_map_err, probes_load.
  - intros cfg. apply probes_seq; [by apply probes_ret|]. intros u. by apply probes_unlocked.
Qed.
End Unlocked.

(** C24: A command that does not take the lock changes no state.  Whatever calls
    and commands fail, [version], [status], [doctor], [user list], [user
    subscription] and [config validate] leave every path as it is, in every
    state the disk goes through, but for the file that [doctor --report
    --report-output] is told to write: there is nothing else they could race
    on.  (The file through which the self-tests of [doctor --protocol] hand a
    client its configuration is under the temporary directory, outside the
    disk that is modelled.) *)
Theorem unlocked_commands_read_only `{Clock, AdminEnv, DoctorEnv, ProcFs, Tar, DeploymentToml, Hex, Sha256, Base64Url,
    X25519, Json json, Json UsersFile, Json (list CompatUser), Json (list CompatEndpoint)}
    qr_fits env config_path d c w r w' :
  command_mutates_state c = false ->
  main qr_fits env config_path d c w = (r, w') ->
  agree_but (report_file c) (w_fs w) (w_fs w') /\
  exists new, w_hist w' = new ++ w_hist w /\ Forall (agree_but (report_file c) (w_fs w)) new.
Proof.
  intros Hc Hm. destruct (probes_main (still (report_file c) (w_fs w) (w_hist w)) qr_fits env config_path d c Hc) with w as [Hs _].
  - intros p ->. apply still_tolerates.
  - split; [done|]. by exists [].
  - by rewrite Hm in Hs.
Qed.

(** Neither inside the state directory nor above it. *)
Definition aside (cfg : DeploymentConfig) (q : path) : Prop :=
  ~ pathbuf (state_dir cfg) `prefix_of` q /\ ~ q `prefix_of` pathbuf (state_dir cfg).

Lemma aside_ne cfg q x : aside cfg q -> pathbuf (state_dir cfg) ++ x <> q.
Proof. intros [H _] <-. apply H. by eexists. Qed.
Lemma aside_below cfg q x : aside cfg q -> ~ q `prefix_of` pathbuf (state_dir cfg) ++ x.
Proof.
  intros [H1 H2] Hq. destruct (prefix_weak_total q (pathbuf (state_dir cfg)) (pathbuf (state_dir cfg) ++ x)); try done.
  by eexists.
Qed.
Lemma aside_outside cfg q : aside cfg q -> outside cfg q.
Proof.
  intros Ha. split; [|by apply aside_below]. intros [k Hk]. unfold singbox_dir in Hk. rewrite <-app_assoc in Hk.
  symmetry in Hk. by apply (aside_ne cfg q _ Ha) in Hk.
Qed.

(** ** [config migrate] leaves nothing to migrate *)

(** Two files of different directories. *)
Definition elsewhere (q p : path) : Prop := removelast q <> removelast p /\ ~ q `prefix_of` removelast p.

Lemma elsewhere_ne q p : elsewhere q p -> q <> p.
Proof. by intros [H _] ->. Qed.
Lemma elsewhere_sibling q p d s : elsewhere q p -> q <> sibling p d s.
Proof.
  intros [H _] ->. apply H. unfold sibling, with_file_name. by rewrite removelast_last.
Qed.
Lemma aside_elsewhere cfg q x y :
  aside cfg q -> elsewhere q (pathbuf (state_dir cfg) ++ [x; y]) /\ elsewhere (pathbuf (state_dir cfg) ++ [x; y]) q.
Proof.
  intros Ha. assert (removelast (pathbuf (state_dir cfg) ++ [x; y]) = pathbuf (state_dir cfg) ++ [x]) as E
    by (by rewrite removelast_app).
  assert (removelast q <> pathbuf (state_dir cfg) ++ [x]) as Hne.
  { intros Eq. destruct q as [|c q] using rev_ind; [by destruct (pathbuf (state_dir cfg))|].
    rewrite removelast_last in Eq. subst q. rewrite <-app_assoc in Ha. by apply (aside_ne cfg _ ([x] ++ [c]) Ha). }
  unfold elsewhere. rewrite E. split; (split; [done || by apply not_eq_sym|]).
  - by apply aside_below.
  - intros [k Hk]. destruct q as [|c q] using rev_ind; [by destruct (pathbuf (state_dir cfg))|].
    rewrite removelast_last in Hk. subst q. rewrite <-!app_assoc in Ha. by apply (aside_ne cfg _ ([x; y] ++ k ++ [c]) Ha).
Qed.

Section Migration.
Context {TO : DeploymentToml} {JU : Json UsersFile} {JL : Json (list CompatUser)} {JUL : JsonLaws UsersFile}.

Lemma atomic_write_elsewhere q p data m w r w' :
  elsewhere q p -> atomic_write p data m w = (r, w') -> w_fs w' !! q = w_fs w !! q.
Proof.
  intros He. apply keeps_atomic_write_other; [by destruct He|by apply elsewhere_ne|by apply elsewhere_sibling].
Qed.

(** The part of both migrations that writes. *)
Lemma commit_elsewhere {A : Type} q ts p data m (out : path -> A) w r w' :
  elsewhere q p ->
  (do backup_path <- backup_before_mutate ts p; atomic_write p data m ;; io_ret (out backup_path)) w = (r, w') ->
  w_fs w' !! q = w_fs w !! q.
Proof.
  intros He Hm. assert (q <> backup_of ts p) as Hb by (by apply elsewhere_sibling).
  apply io_bind_inv in Hm as [(b & w1 & H1 & Hm)|(e & H1 & _)];
    destruct (keeps_final _ _ _ _ _ (keeps_backup q ts p Hb) H1) as [E1 _]; [|done]. rewrite <-E1.
  apply io_bind_inv in Hm as [(u & w2 & H2 & [= <- <-])|(e & H2 & _)]; by apply (atomic_write_elsewhere q) in H2.
Qed.

Lemma migrate_deployment_elsewhere q ts p w r w' :
  elsewhere q p -> migrate_deployment_toml ts p w = (r, w') -> w_fs w' !! q = w_fs w !! q.
Proof.
  intros He Hm. apply io_bind_inv in Hm as [(ex & w0 & [= <- <-] & Hm)|(e & [=] & _)].
  destruct (exists_at (w_fs w) p); [|by injection Hm as <- <-]. cbn [negb] in Hm.
  assert (keeps q (compat_io (fs_read_to_string p))) as Hk by solve_keeps.
  apply io_bind_inv in Hm as [(s & w1 & Hr & Hm)|(e & Hr & _)];
    destruct (keeps_final _ _ _ _ _ Hk Hr) as [E1 _]; [|done]. rewrite <-E1.
  apply io_bind_inv in Hm as [(o & w2 & [= Hc <-] & Hm)|(e & [= Hc <-] & _)]; [|done].
  destruct o; [by eapply commit_elsewhere|by injection Hm as <- <-].
Qed.

Lemma migrate_users_elsewhere q ts p w r w' :
  elsewhere q p -> migrate_users ts p w = (r, w') -> w_fs w' !! q = w_fs w !! q.
Proof.
  intros He Hm. unfold migrate_users in Hm.
  apply io_bind_inv in Hm as [(st & w1 & Hd & Hm)|(e & Hd & _)];
    destruct (keeps_final _ _ _ _ _ (keeps_detect q p) Hd) as [E1 _]; [|done]. rewrite <-E1.
  destruct st; try (by injection Hm as <- <-).
  assert (keeps q (compat_io (fs_read p))) as Hk by solve_keeps.
  apply io_bind_inv in Hm as [(d & w2 & Hr & Hm)|(e & Hr & _)];
    destruct (keeps_final _ _ _ _ _ Hk Hr) as [E2 _]; [|done]. rewrite <-E2.
  do 3 (apply io_bind_inv in Hm as [(? & ? & [= ? <-] & Hm)|(? & [= ? <-] & _)]; [|done]).
  destruct (_ || _); [by injection Hm as <- <-|by eapply commit_elsewhere].
Qed.

(** Nothing to migrate at [p]: no file, or one of the current schema. *)
Definition users_settled (f : fs) (p : path) : Prop :=
  f !! p = None \/ exists mt data, f !! p = Some (File mt data) /\ schema_of data Current.

Lemma migrate_users_settles ts p w o w' :
  p <> [] -> migrate_users ts p w = (Ok o, w') -> users_settled (w_fs w') p.
Proof.
  intros Hp Hm. pose proof Hm as Hm0. unfold migrate_users in Hm.
  apply io_bind_Ok_inv in Hm as (st & w1 & Hd & Hm).
  destruct (keeps_final _ _ _ _ _ (keeps_detect p p) Hd) as [E1 _].
  destruct st; try done.
  - injection Hm as <- <-. left. rewrite E1. revert Hd. unfold detect_users_schema, io_bind, io_try.
    rewrite path_exists_run. destruct (exists_at (w_fs w) p) eqn:Ex; cbn.
    + destruct (fs_read p w) as [[data|e] w3]; [|done]. intros [= Hst _]. by repeat case_match.
    + intros _. unfold exists_at in Ex. apply bool_decide_eq_false in Ex. by apply eq_None_not_Some.
  - destruct (detect_Legacy_inv _ _ _ Hd) as (mt & data & Hf & Hs). rewrite <-E1 in Hf.
    destruct (migrate_legacy_spec ts p w1 mt data (Ok o) w' Hp Hf Hs Hm) as (_ & us & json & mt' & mb & _ & [Hj _] & Hf' & _).
    right. exists mt', json. split; [done|]. exists (envelope us). split; [by apply from_to_vec_pretty|done].
  - injection Hm as <- <-. right. revert Hd. unfold detect_users_schema, io_bind, io_try. rewrite path_exists_run.
    destruct (exists_at (w_fs w) p); [|done]. cbn [negb].
    destruct (fs_read p w) as [[data|e] w3] eqn:Hr; [|done]. apply fs_read_Ok_inv in Hr as ((mt & Hf) & _).
    rewrite <-E1 in Hf. intros [= Hst _]. exists mt, data. split; [done|].
    destruct (from_slice (A := UsersFile) data) as [v|e] eqn:Ev; [|by destruct (from_slice (A := list CompatUser) data)].
    exists v. split; [done|]. destruct (Z.ltb_spec USERS_SCHEMA_VERSION (uf_schema_version v)); [done|lia].
Qed.
End Migration.

Section Settling.
Context {C : Clock} {Env : AdminEnv} {D : DoctorEnv} {PF : ProcFs} {TA : Tar} {TO : DeploymentToml}.
Context {HexI : Hex} {Sha : Sha256} {B64 : Base64Url} {X : X25519}.
Context {JV : Json json} {JU : Json UsersFile} {JL : Json (list CompatUser)} {JE : Json (list CompatEndpoint)}.
Context {JUL : JsonLaws UsersFile}.
Context (qr_fits : string -> bool) (env : option path) (config_path : path).

(** The settings file reads as the settings [c]. *)
Definition settings_file (f : fs) (c : DeploymentConfig) : Prop :=
  exists mt s, f !! config_path = Some (File mt (as_bytes s)) /\ is_str s /\ toml_from_str s = Ok c /\ validate c = Ok tt.

Lemma load_Ok_inv w c w' :
  load config_path w = (Ok c, w') -> settings_file (w_fs w) c /\ w_fs w' = w_fs w.
Proof.
  intros (s & w1 & H1%io_map_err_Ok_inv & H)%io_bind_Ok_inv.
  apply fs_read_to_string_Ok_inv in H1 as ((mt & Hf) & Hs & ->).
  apply io_bind_Ok_inv in H as (c0 & w2 & [= H2 <-] & H). apply io_bind_Ok_inv in H as ([] & w3 & [= H3 <-] & [= <- <-]).
  split; [|done]. exists mt, s. split_and!; try done. destruct (toml_from_str s); [|done]. by injection H2 as ->.
Qed.
Lemma load_calm f w c :
  calm_at f w -> settings_file f c -> exists w', load config_path w = (Ok c, w') /\ calm_at f w'.
Proof.
  intros [Hf Hn] (mt & s & Hp & Hs & Ht & Hv). unfold load, io_bind, compat_io, io_map_err, fs_read_to_string.
  unfold io_bind. rewrite <-Hf in Hp. rewrite (fs_read_ok _ _ _ _ (Hn _) Hp). cbn.
  unfold from_utf8. rewrite Hs. cbn. rewrite str_of_as_bytes, Ht. cbn. rewrite Hv. eexists. split; [reflexivity|]. by split.
Qed.

Lemma keeps_open_lock q p : p <> q -> keeps q (open_lock_file p).
Proof.
  intros. apply (keeps_syscall q no_tear (fun pr f =>
    match f !! p with
    | Some (File _ _) => Ok (tt, f)
    | Some (Dir _) => Err eisdir
    | None => if has_parent f p then Ok (tt, <[p := File (new_meta pr f p 438) []]> f) else Err enoent
    end)); keeps_call.
Qed.
Lemma keeps_acquire q :
  q <> lock_path env -> ~ q `prefix_of` removelast (lock_path env) -> keeps q (acquire_state_lock env).
Proof.
  intros Hq Hd. unfold acquire_state_lock, context, from_io. apply keeps_bind.
  { destruct (lock_path env) as [|x l] eqn:E; cbn [parent]; [apply keeps_ret|].
    apply keeps_map_err, keeps_map_err. by apply keeps_create_dir_all. }
  intros _. apply keeps_bind; [|intros _]; apply keeps_map_err, keeps_map_err; [by apply keeps_open_lock|].
  apply (keeps_syscall q no_tear (fun _ => _)); keeps_call.
Qed.

Lemma settings_file_same f g c c' :
  f !! config_path = g !! config_path -> settings_file f c -> settings_file g c' -> c = c'.
Proof.
  intros E (m & s & Hf & _ & Ht & _) (m' & s' & Hf' & _ & Ht' & _). rewrite E, Hf' in Hf. injection Hf as _ Hs.
  apply (f_equal str_of_bytes) in Hs. rewrite !str_of_as_bytes in Hs. subst s'. congruence.
Qed.

(** A migration that reports nothing to do found a marker. *)
Lemma already_current_marked ts w w' s mt :
  w_fs w !! config_path = Some (File mt (as_bytes s)) ->
  migrate_deployment_toml ts config_path w = (Ok DAlreadyCurrent, w') -> migrate_deployment_toml_text s = None.
Proof.
  intros Hf Hm. apply io_bind_Ok_inv in Hm as (ex & w0 & [= <- <-] & Hm). rewrite (exists_at_Some _ _ _ Hf) in Hm.
  apply io_bind_Ok_inv in Hm as (x & w1 & Hr%io_map_err_Ok_inv & Hm).
  apply fs_read_to_string_Ok_inv in Hr as ((mx & Hx) & _ & _). rewrite Hf in Hx. injection Hx as _ Hx.
  apply (f_equal str_of_bytes) in Hx. rewrite !str_of_as_bytes in Hx. subst x.
  apply io_bind_Ok_inv in Hm as (o & w2 & [= Hc <-] & Hm). destruct o as [y|].
  { apply io_bind_Ok_inv in Hm as (b & w3 & _ & Hm). by apply io_bind_Ok_inv in Hm as (u & w4 & _ & [=]). }
  revert Hc. unfold check_migration. destruct (toml_from_str s) as [c|]; cbn; [|done]. destruct (validate c); cbn; [|done].
  destruct (migrate_deployment_toml_text s) as [y|]; [|done]. destruct (toml_from_str y) as [c'|]; cbn; [|done].
  destruct (validate c'); cbn; [|done]. by repeat (destruct (negb _); [done|]).
Qed.

Lemma migrate_deployment_settings ts w o w' cfg :
  config_path <> [] -> settings_file (w_fs w) cfg -> outside cfg config_path ->
  (forall mt s, w_fs w !! config_path = Some (File mt (as_bytes s)) -> migrate_deployment_toml_text s = None ->
     schema_version cfg <> 0) ->
  migrate_deployment_toml ts config_path w = (Ok o, w') ->
  exists c, settings_file (w_fs w') c /\ schema_version c <> 0 /\ users_file c = users_file cfg /\ outside c config_path.
Proof.
  intros Hne Hcfg Ho Hzero Hm. pose proof (migrate_deployment_spec _ _ _ _ _ Hne Hm) as Hspec.
  pose proof Hcfg as (mt & s & Hf & Hs & Ht & Hv). destruct o as [| |b].
  - apply io_bind_Ok_inv in Hm as (ex & w0 & [= <- <-] & Hm). rewrite (exists_at_Some _ _ _ Hf) in Hm.
    apply io_bind_Ok_inv in Hm as (x & w1 & _ & Hm). apply io_bind_Ok_inv in Hm as ([y|] & w2 & _ & Hm); [|done].
    apply io_bind_Ok_inv in Hm as (b & w3 & _ & Hm). by apply io_bind_Ok_inv in Hm as (u & w4 & _ & [=]).
  - exists cfg. split_and!; [|by eapply Hzero, already_current_marked|done|done]. exists mt, s. by rewrite Hspec.
  - destruct Hspec as (m0 & m1 & mb & s0 & c0 & Hf0 & Hf1 & _ & Hu & Ht0 & Ht1 & Hv1).
    rewrite Hf in Hf0. injection Hf0 as _ Hs0. apply (f_equal str_of_bytes) in Hs0. rewrite !str_of_as_bytes in Hs0. subst s0.
    assert (c0 = cfg) as -> by congruence. exists (with_schema DEPLOYMENT_SCHEMA_VERSION cfg).
    split_and!; [|done|done|done]. by exists m1, (version_line +:+ s).
Qed.

Lemma detect_settled f p w :
  calm_at f w -> users_settled f p ->
  exists st, (detect_users_schema p w).1 = Ok st /\ (st = Missing \/ st = Current).
Proof.
  intros [<- Hn] [H|(mt & data & H & u & Hu & Hv)].
  - exists Missing. split; [|by left]. unfold detect_users_schema, io_bind. rewrite path_exists_run.
    by rewrite (exists_at_None _ _ H).
  - exists Current. split; [|by right]. unfold detect_users_schema, io_bind, io_try. rewrite path_exists_run.
    rewrite (exists_at_Some _ _ _ H). cbn. rewrite (fs_read_ok _ _ _ _ (Hn _) H). cbn. rewrite Hu.
    by rewrite (proj2 (Z.ltb_ge _ _) Hv).
Qed.

(** What a successful migration leaves: settings of the current schema with the
    same state directory, and users of the current schema. *)
Lemma migrate_leaves cfg w out w' :
  config_path <> [] -> aside cfg config_path ->
  settings_file (w_fs w) cfg ->
  (forall mt s, w_fs w !! config_path = Some (File mt (as_bytes s)) -> migrate_deployment_toml_text s = None ->
     schema_version cfg <> 0) ->
  cmd_config_migrate cfg config_path w = (Ok out, w') ->
  exists cfg', settings_file (w_fs w') cfg' /\ schema_version cfg' <> 0 /\ users_file cfg' = users_file cfg /\
    users_settled (w_fs w') (users_file cfg).
Proof.
  intros Hne Ha Hcfg Hzero Hm. unfold cmd_config_migrate, context, from_compat in Hm.
  destruct (aside_elsewhere cfg config_path "users" "users.json" Ha) as [He1 He2].
  change (pathbuf (state_dir cfg) ++ ["users"; "users.json"]) with (users_file cfg) in He1, He2.
  apply io_bind_Ok_inv in Hm as (n1 & w1 & [= <- <-] & Hm).
  apply io_bind_Ok_inv in Hm as (dep & w2 & H2%io_map_err_Ok_inv%io_map_err_Ok_inv & Hm).
  apply io_bind_Ok_inv in Hm as (n2 & w3 & [= <- <-] & Hm).
  apply io_bind_Ok_inv in Hm as (us & w4 & H4%io_map_err_Ok_inv%io_map_err_Ok_inv & Hm).
  apply io_bind_Ok_inv in Hm as (cfg' & w5 & H5%io_map_err_Ok_inv%io_map_err_Ok_inv & Hm).
  apply io_try_inv in Hm as (r & w6 & H6 & [= _ <-]).
  destruct (load_Ok_inv _ _ _ H5) as [Hc' E5].
  assert (w_fs w4 !! config_path = w_fs w2 !! config_path) as E4 by (by eapply migrate_users_elsewhere).
  assert (users_settled (w_fs w4) (users_file cfg)) as Hu4.
  { eapply migrate_users_settles; [|exact H4]. unfold users_file. by destruct (pathbuf (state_dir cfg)). }
  assert (exists c, settings_file (w_fs w2) c /\ schema_version c <> 0 /\ users_file c = users_file cfg /\
    outside c config_path) as (c & Hc & Hsv & Hsd & Ho).
  { eapply migrate_deployment_settings; [done|done|by apply aside_outside|done|exact H2]. }
  assert (cfg' = c) as ->. { eapply settings_file_same; [|exact Hc'|exact Hc]. done. }
  assert (forall q, outside c q -> w_fs w6 !! q = w_fs w5 !! q) as Hk.
  { intros q Hq. eapply keeps_final; [|exact H6]. unfold regenerate_singbox_config, from_compat.
    apply keeps_bind; [solve_keeps|]. intros. by apply keeps_render_and_apply. }
  exists c. split_and!; [|done|done|].
  - destruct Hc' as (mt' & s' & Hf' & Hrest). exists mt', s'. split; [|done]. by rewrite Hk, E5.
  - assert (w_fs w6 !! users_file cfg = w_fs w4 !! users_file cfg) as Eu.
    { rewrite <-Hsd, Hk, E5 by apply users_file_outside. done. }
    unfold users_settled. by rewrite Eu.
Qed.

(** After [config migrate] there is nothing to migrate.  If the command
    succeeds on a deployment whose settings file lies outside the state
    directory, then whoever runs [config validate] next, with no failing calls,
    gets exit status 0: both files read, in the current schema.  The one
    exception is a settings file that already mentions a version line and still
    reads as version 0, which the migration does not rewrite. *)
Theorem migration_settles d d' cfg w code w' w2 :
  config_path <> [] -> aside cfg config_path ->
  (forall q, q ∈ [config_path; users_file cfg] ->
     q <> lock_path env /\ ~ q `prefix_of` removelast (lock_path env)) ->
  settings_file (w_fs w) cfg ->
  (forall mt s, w_fs w !! config_path = Some (File mt (as_bytes s)) -> migrate_deployment_toml_text s = None ->
     schema_version cfg <> 0) ->
  main qr_fits env config_path d (Config Migrate) w = (Ok code, w') ->
  w_fs w2 = w_fs w' -> (forall n, w_fault w2 n = None) ->
  (main qr_fits env config_path d' (Config Validate) w2).1 = Ok 0.
Proof.
  intros Hne Ha Hlock Hcfg Hzero Hm Hfs Hcalm. unfold main, load_config, context, from_compat in Hm.
  apply io_bind_Ok_inv in Hm as (cfg1 & w1 & H1%io_map_err_Ok_inv%io_map_err_Ok_inv & Hm).
  destruct (load_Ok_inv _ _ _ H1) as [Hcfg1 E1].
  assert (cfg1 = cfg) as -> by (by eapply settings_file_same).
  apply io_bind_Ok_inv in Hm as ([] & w3 & H3%io_map_err_Ok_inv & Hm).
  destruct (Hlock config_path ltac:(by apply list_elem_of_here)) as [L1 L2].
  destruct (keeps_final _ _ _ _ _ (keeps_acquire _ L1 L2) H3) as [E3 _]. rewrite E1 in E3.
  apply io_bind_Ok_inv in Hm as (out & w4 & Hm & [= _ <-]).
  destruct (migrate_leaves cfg w3 out w4 Hne Ha) as (c & Hc & Hsv & Hu & Hsettled); [|by rewrite E3|exact Hm|].
  { destruct Hcfg as (mt & s & Hf & Hrest). exists mt, s. by rewrite E3. }
  destruct (load_calm (w_fs w4) w2 c (conj Hfs Hcalm) Hc) as (w5 & Hload & H5).
  unfold main, load_config, context, from_compat, io_map_err, io_bind. rewrite Hload. cbn [map_err fst].
  cbn [command_mutates_state io_ret run_command_of]. rewrite <-Hu in Hsettled.
  destruct (detect_settled _ _ _ H5 Hsettled) as (st & Hst & Hok).
  unfold cmd_config_validate, deployment_state, from_compat, io_bind, io_map_err.
  destruct (detect_users_schema (users_file c) w5) as [rr w6]. cbn in Hst. subst rr. cbn [map_err].
  rewrite (proj2 (Z.eqb_neq _ _) Hsv). by destruct Hok as [->| ->].
Qed.
End Settling.

(** ** A concrete invocation *)
Module CliDemo.
Import StoreDemo RenderDemo ServerDemo ServiceDemo DeploymentDemo AdminDemo BackupDemo PerfDemo DoctorDemo.
#[export] Instance cli_toml : DeploymentToml := {| toml_from_str _ := Ok AdminDemo.cfg |}.
Definition settings_path : path := ["d.toml"].
Definition draws : Draws := {|
  d_create := {| id_draws := []; token_entropy := []; uuid_entropy := []; password_entropy := [] |};
  d_uuid16 := []; d_password24 := []; d_token20 := []; d_short_id4 := []; d_obfs24 := [];
  d_staging := ["tmp"; "x"]; d_cwd := [] |}.
Definition on_host : world :=
  World (<[settings_path := file "settings"]> DoctorDemo.disk) [] 0 (fun _ => None) (Proc 42 18 0 0) tools [].
Definition accepted := main (fun _ => true) None settings_path draws (Doctor true true false false None false false) on_host.
End CliDemo.

Section CliWitnesses.
Import StoreDemo RenderDemo ServerDemo ServiceDemo DeploymentDemo AdminDemo BackupDemo PerfDemo DoctorDemo CliDemo.

Lemma unlocked_commands_read_only_witness :
  fst accepted = Ok 0 /\ agree_but None (w_fs on_host) (w_fs (snd accepted)).
Proof.
  split; [vm_compute; reflexivity|].
  refine (proj1 (unlocked_commands_read_only (fun _ => true) None settings_path draws
    (Doctor true true false false None false false) on_host (fst accepted) (snd accepted) eq_refl _)).
  exact (surjective_pairing accepted).
Defined.
End CliWitnesses.

(** A deployment from before the schemas had versions. *)
Module MigrationDemo.
Import StoreDemo RenderDemo ServerDemo ServiceDemo DeploymentDemo AdminDemo BackupDemo PerfDemo DoctorDemo.
Definition legacy_world : world := calm_world (
  <[["etc"; "vpn"; "compat"] := Dir dir_meta]> (<[["etc"; "vpn"; "compat"; "users"] := Dir dir_meta]>
  (<[DeploymentDemo.toml_path := file text]>
  (<[["etc"; "vpn"; "compat"; "users"; "users.json"] := installed legacy_bytes]> StoreDemo.disk)))).
Definition invoke (c : Commands) : IO anyhow Z :=
  main (TO := DeploymentDemo.toml) (fun _ => true) None DeploymentDemo.toml_path CliDemo.draws c.
Definition migrated_world : world := (invoke (Config Migrate) legacy_world).2.
Lemma migrate_run : invoke (Config Migrate) legacy_world = (Ok 0, migrated_world).
Proof. refine (run_of_fst (invoke (Config Migrate)) legacy_world (Ok 0) _). vm_compute. reflexivity. Qed.
Definition settled_world : world := calm_world (w_fs migrated_world).
Lemma calm_world_fs f : w_fs (calm_world f) = f.
Proof. reflexivity. Qed.
Lemma settled_disk : w_fs settled_world = w_fs migrated_world.
Proof. exact (calm_world_fs (w_fs migrated_world)). Qed.
Lemma legacy_file : w_fs legacy_world !! DeploymentDemo.toml_path = Some (File (Meta 416 0 0) (as_bytes text)).
Proof. vm_compute. reflexivity. Qed.
Lemma legacy_text s : as_bytes s = as_bytes text -> migrate_deployment_toml_text s = None -> False.
Proof.
  intros Es. apply (f_equal str_of_bytes) in Es. rewrite !str_of_as_bytes in Es. subst s. vm_compute. discriminate.
Qed.
End MigrationDemo.

Section MigrationWitness.
Import StoreDemo RenderDemo ServerDemo ServiceDemo DeploymentDemo AdminDemo BackupDemo PerfDemo DoctorDemo MigrationDemo.

Lemma migration_settles_witness :
  (invoke (Config Validate) legacy_world).1 = Ok 2 /\ (invoke (Config Validate) settled_world).1 = Ok 0.
Proof.
  split; [vm_compute; reflexivity|].
  apply (migration_settles (TO := DeploymentDemo.toml) (fun _ => true) None DeploymentDemo.toml_path CliDemo.draws
    CliDemo.draws settings legacy_world 0 MigrationDemo.migrated_world settled_world).
  - discriminate.
  - split; intros [k Hk]; vm_compute in Hk; discriminate.
  - intros q Hq. rewrite !elem_of_cons in Hq.
    destruct Hq as [->|[->|Hq]]; [..|by apply not_elem_of_nil in Hq];
      (split; [vm_compute; discriminate|intros [k Hk]; vm_compute in Hk; discriminate]).
  - exists (Meta 416 0 0), text. split; [exact legacy_file|]. split; [vm_compute; reflexivity|].
    split; vm_compute; reflexivity.
  - intros mt s Hf Hnone. rewrite legacy_file in Hf. exfalso. apply (legacy_text s); congruence.
  - exact MigrationDemo.migrate_run.
  - exact settled_disk.
  - intros n. reflexivity.
Defined.
End MigrationWitness.
