(* ===== verification/Blind.v ===== *)
(** * The ghost history of a run

    [w_hist] records the states of the disk for the theorems about crashes.
    This file shows that it is a ghost: no command of [vpn-admin] looks at it,
    so two worlds that differ in it alone give the same result, the same disk
    and the same log.  Concurrent processes (Lock) are compared with their
    sequential runs through it, since each process has seen other disks. *)

From S2P Require Import Prelude Bytes Io Serde Fs Model Store Render Server Deployment Service Anyhow Selftest Admin Rotate Backup.
From S2P Require Import Status Perf Doctor Report Cli.

Definition forget (w : world) : world :=
  World (w_fs w) [] (w_ops w) (w_fault w) (w_proc w) (w_run w) (w_log w).
(** The same but for the history. *)
Definition alike (w v : world) : Prop := forget w = forget v.
#[export] Instance alike_equiv : Equivalence alike.
Proof. unfold alike. split; [by intros ?|by intros ? ?|intros ? ? ?; congruence]. Qed.

Definition blind {E A : Type} (m : IO E A) : Prop :=
  forall w v, alike w v -> (m w).1 = (m v).1 /\ alike (m w).2 (m v).2.

Create HintDb blind discriminated.

(** Two such worlds have every field but one in common. *)
Ltac alike_cases :=
  let w := fresh "w" in let v := fresh "v" in let H := fresh "H" in
  intros w v H; destruct w, v; unfold alike, forget in H; cbn in H; injection H as -> -> -> -> -> ->.

Lemma blind_ret {E A : Type} (a : A) : blind (io_ret (E := E) a).
Proof. done. Qed.
Lemma blind_err {E A : Type} (e : E) : blind (io_err (A := A) e).
Proof. done. Qed.
Lemma blind_lift {E A : Type} (r : result E A) : blind (io_lift r).
Proof. done. Qed.
Lemma blind_gets {E A : Type} (g : fs -> A) : blind (io_gets (E := E) g).
Proof. by alike_cases. Qed.
Lemma blind_proc {E : Type} : blind (@io_proc E).
Proof. by alike_cases. Qed.
Lemma blind_now {C : Clock} {E : Type} : blind (@io_now _ E).
Proof. by alike_cases. Qed.
Lemma blind_bench {S : SelfTestEnv} {E : Type} : blind (@io_bench _ E).
Proof. by alike_cases. Qed.
Lemma blind_run_command argv : blind (run_command argv).
Proof. by alike_cases. Qed.
(** A call may depend on the process that makes it. *)
Lemma blind_syscall_of {A : Type} torn (g : proc -> fs -> result io_error (A * fs)) :
  blind (fun w => syscall torn (g (w_proc w)) w).
Proof.
  alike_cases. unfold syscall. cbn. destruct (w_fault0 w_ops0); [done|].
  by destruct (g w_proc0 w_fs0) as [[a f']|e].
Qed.
Lemma blind_syscall {A : Type} torn (g : fs -> result io_error (A * fs)) : blind (syscall torn g).
Proof. exact (blind_syscall_of torn (fun _ => g)). Qed.

Lemma blind_bind {E A B : Type} (m : IO E A) (k : A -> IO E B) :
  blind m -> (forall a, blind (k a)) -> blind (io_bind m k).
Proof.
  intros Hm Hk w v Hwv. destruct (Hm w v Hwv) as [H1 H2]. unfold io_bind.
  destruct (m w) as [r w1], (m v) as [r' v1]. cbn in H1, H2. subst r'. destruct r; [by apply Hk|done].
Qed.
Lemma blind_try {E F A B : Type} (m : IO E A) (k : result E A -> IO F B) :
  blind m -> (forall r, blind (k r)) -> blind (io_try m k).
Proof.
  intros Hm Hk w v Hwv. destruct (Hm w v Hwv) as [H1 H2]. unfold io_try.
  destruct (m w) as [r w1], (m v) as [r' v1]. cbn in H1, H2. subst r'. by apply Hk.
Qed.
Lemma blind_map_err {E F A : Type} (g : E -> F) (m : IO E A) : blind m -> blind (io_map_err g m).
Proof.
  intros Hm w v Hwv. destruct (Hm w v Hwv) as [H1 H2]. unfold io_map_err.
  destruct (m w) as [r w1], (m v) as [r' v1]. cbn in *. by subst.
Qed.
#[export] Hint Resolve blind_ret blind_err blind_lift blind_gets blind_proc blind_now blind_bench blind_run_command blind_syscall : blind.

Lemma blind_open_truncate m p : blind (open_truncate m p).
Proof. exact (blind_syscall_of no_tear (fun pr f => match f !! p with
  | Some (File mt _) => Ok (tt, <[p := File mt []]> f)
  | Some (Dir _) => Err eisdir
  | None => if has_parent f p then Ok (tt, <[p := File (new_meta pr f p m) []]> f) else Err enoent end)). Qed.
Lemma blind_open_create_new m p : blind (open_create_new m p).
Proof. exact (blind_syscall_of no_tear (fun pr f => match f !! p with
  | Some _ => Err eexist
  | None => if has_parent f p then Ok (tt, <[p := File (new_meta pr f p m) []]> f) else Err enoent end)). Qed.
Lemma blind_open_lock_file p : blind (open_lock_file p).
Proof. exact (blind_syscall_of no_tear (fun pr f => match f !! p with
  | Some (File _ _) => Ok (tt, f)
  | Some (Dir _) => Err eisdir
  | None => if has_parent f p then Ok (tt, <[p := File (new_meta pr f p 438) []]> f) else Err enoent end)). Qed.
Lemma blind_create_dir_all p : blind (create_dir_all p).
Proof. exact (blind_syscall_of no_tear (fun pr f => f' ← missing_dirs f pr [] p; Ok (tt, f'))). Qed.
Lemma blind_copy a b : blind (fs_copy a b).
Proof.
  alike_cases. unfold fs_copy, syscall. cbn. destruct (w_fault0 w_ops0); [done|].
  destruct (w_fs0 !! a) as [[ma d|?]|], (w_fs0 !! b) as [[mb d'|?]|]; try done. by destruct (has_parent _ _).
Qed.
#[export] Hint Resolve blind_open_truncate blind_open_create_new blind_open_lock_file blind_create_dir_all blind_copy : blind.

Ltac head_of t := match t with ?f _ => head_of f | _ => t end.
(** A computation that is built from those is blind too. *)
Ltac solve_blind :=
  repeat match goal with
  | |- blind (io_bind _ _) => apply blind_bind; [|intros]
  | |- blind (io_try _ _) => apply blind_try; [|intros]
  | |- blind (io_map_err _ _) => apply blind_map_err
  | |- blind (match ?x with _ => _ end) => destruct x
  | |- blind _ => solve [eauto with blind]
  | |- blind ?m => let h := head_of m in progress unfold h; cbv beta zeta
  end.

Section Blind.
Context {C : Clock} {Env : AdminEnv} {D : DoctorEnv} {PF : ProcFs} {TA : Tar} {TO : DeploymentToml}.
Context {HexI : Hex} {Sha : Sha256} {B64 : Base64Url} {X : X25519}.
Context {JV : Json json} {JU : Json UsersFile} {JL : Json (list CompatUser)} {JE : Json (list CompatEndpoint)}.
Context (qr_fits : string -> bool).

(** ** The loops *)
Lemma blind_verify_loop mgr fuel clock deadline i n : blind (verify_loop mgr fuel clock deadline i n).
Proof. revert i n. induction fuel as [|fuel IH]; intros i n; cbn [verify_loop]; solve_blind. Qed.
Lemma blind_reload_and_verify mgr : blind (reload_and_verify mgr).
Proof.
  unfold reload_and_verify. apply blind_bind; [solve_blind|]. intros _ w v Hwv.
  assert (w_log w = w_log v) as -> by (unfold alike, forget in Hwv; congruence). by apply blind_verify_loop.
Qed.
Hint Resolve blind_reload_and_verify : blind.
Lemma blind_links user eps qr : blind (links_of qr_fits user eps qr).
Proof. induction eps; cbn [links_of]; solve_blind. Qed.
Lemma blind_remove_all paths : blind (remove_all paths).
Proof. induction paths; cbn [remove_all]; solve_blind. Qed.
Hint Resolve blind_links blind_remove_all : blind.
Lemma blind_prepare refusal paths prepared existed : blind (prepare_backups refusal paths prepared existed).
Proof. revert prepared existed. induction paths; intros; cbn [prepare_backups]; solve_blind. Qed.
Lemma blind_restore_files files : blind (restore_files files).
Proof. induction files as [|[p b] files IH]; cbn [restore_files]; solve_blind. Qed.
Hint Resolve blind_prepare blind_restore_files : blind.
Lemma blind_copy_manifest cfg dir l : blind (copy_manifest cfg dir l).
Proof. induction l as [|[rel acc] l IH]; cbn [copy_manifest]; solve_blind. Qed.
Lemma blind_restore_reporting files : blind (restore_reporting files).
Proof. induction files as [|[p b] files IH]; cbn [restore_reporting]; solve_blind. Qed.
Lemma blind_install_staged staging targets : blind (install_staged staging targets).
Proof. induction targets as [|[rel dest] targets IH]; cbn [install_staged]; solve_blind. Qed.
Lemma blind_remove_backups files : blind (remove_backups files).
Proof. induction files as [|[p b] files IH]; cbn [remove_backups]; solve_blind. Qed.
Hint Resolve blind_copy_manifest blind_restore_reporting blind_install_staged blind_remove_backups : blind.

Lemma blind_render cfg users live : blind (render_and_apply_singbox_config cfg users live).
Proof. solve_blind. Qed.
Lemma blind_save p users : blind (save_users_atomic p users).
Proof. solve_blind. Qed.
Lemma blind_load_users p : blind (load_users p).
Proof. solve_blind. Qed.
Hint Resolve blind_render blind_save blind_load_users : blind.
Lemma blind_load_config p : blind (load_config p).
Proof. solve_blind. Qed.
Lemma blind_run_user cfg d c : blind (run_user qr_fits cfg d c).
Proof. solve_blind. Qed.

Section Restore.
(** What the [tar] crate does to the disk does not depend on the ghost. *)
Context (Htar : forall e dir, blind (tar_unpack_in e dir)).
Lemma blind_extract es dir seen total count : blind (extract_entries es dir seen total count).
Proof. revert seen total count. induction es; intros; cbn [extract_entries]; solve_blind. Qed.
Hint Resolve blind_extract : blind.
Lemma blind_command cfg config_path d c :
  command_mutates_state c = true -> blind (run_command_of qr_fits cfg config_path d c).
Proof. intros Hc. destruct c; try discriminate Hc; solve_blind. Qed.
End Restore.
End Blind.
#[export] Hint Resolve blind_reload_and_verify blind_links blind_render blind_save blind_load_users : blind.
