(* ===== verification/Lock.v ===== *)
(** * apps/admin: concurrent invocations and the state lock

    Several [vpn-admin] processes run at once.  The program of a process is
    [main] of main.rs cut into atomic actions ([main_prog], see
    [main_prog_implements]): it loads the deployment's settings; if
    [command_mutates_state] says so, it creates the lock directory, opens the
    lock file and calls [flock] ([acquire_state_lock] of lock.rs), where every
    one of these can fail and end it; then it runs its command, the [user]
    commands cut where the store is read, the configuration published and the
    store written.  Processes interleave in any order over one disk.  What is
    given of the lock is the kernel's part: a table of who holds which lock
    file, a call that waits until nobody does, and the release at exit.  That
    processes exclude each other is then a theorem about the program. *)

From S2P Require Import Prelude Bytes Io Serde Fs Model Store Render Server Deployment Service Anyhow Selftest Admin Rotate Backup.
From S2P Require Import Status Perf Doctor Report Cli Blind.

(** ** Programs: atomic actions, what comes next depends on their outcome *)
Inductive prog (A : Type) : Type :=
  | Done (r : result anyhow A)
  | Act (E B : Type) (m : IO E B) (k : result E B -> prog A)
  | Flock (p : path) (k : result io_error unit -> prog A).
Arguments Done {A} r.
Arguments Act {A E B} m k.
Arguments Flock {A} p k.

(** A process by itself: nobody else holds a lock. *)
Fixpoint run_prog {A : Type} (p : prog A) (w : world) : result anyhow A * world :=
  match p with
  | Done r => (r, w)
  | Act m k => run_prog (k (m w).1) (m w).2
  | Flock p k => run_prog (k (flock p w).1) (flock p w).2
  end.

Fixpoint pbind {A B : Type} (p : prog A) (f : A -> prog B) : prog B :=
  match p with
  | Done (Ok a) => f a
  | Done (Err e) => Done (Err e)
  | Act m k => Act m (fun r => pbind (k r) f)
  | Flock p k => Flock p (fun r => pbind (k r) f)
  end.
Fixpoint pcontext {A : Type} (c : string) (p : prog A) : prog A :=
  match p with
  | Done r => Done (map_err (with_context c) r)
  | Act m k => Act m (fun r => pcontext c (k r))
  | Flock p k => Flock p (fun r => pcontext c (k r))
  end.
Definition act {A : Type} (m : IO anyhow A) : prog A := Act m Done.

Declare Scope prog_scope.
Delimit Scope prog_scope with prog.
Bind Scope prog_scope with prog.
Notation "'pdo' x <- p ; k" := (pbind p (fun x => k))
  (at level 100, x name, p at next level, right associativity) : prog_scope.
Open Scope prog_scope.

(** Run without interruption, the program is the code. *)
Definition implements {A : Type} (p : prog A) (m : IO anyhow A) : Prop := forall w, run_prog p w = m w.

Lemma implements_act {A : Type} (m : IO anyhow A) : implements (act m) m.
Proof. intros w. cbn. by destruct (m w). Qed.
Lemma implements_bind {A B : Type} (p : prog A) m (f : A -> prog B) k :
  implements p m -> (forall a, implements (f a) (k a)) -> implements (pbind p f) (io_bind m k).
Proof.
  intros Hp Hf w. unfold io_bind. rewrite <-(Hp w). clear Hp. revert w.
  induction p as [[a|e]|E' B' m' k' IH|q k' IH]; intros w; cbn; [apply Hf|done|apply IH|apply IH].
Qed.
Lemma implements_context {A : Type} c (p : prog A) m : implements p m -> implements (pcontext c p) (context c m).
Proof.
  intros Hp w. unfold context, io_map_err. rewrite <-(Hp w). clear Hp. revert w.
  induction p as [r|E' B' m' k' IH|q k' IH]; intros w; cbn; [done|apply IH|apply IH].
Qed.
Lemma implements_done {A : Type} (r : result anyhow A) : implements (Done r) (io_lift r).
Proof. done. Qed.
Lemma implements_try {E A B : Type} (m : IO E B) (k : result E B -> prog A) n :
  (forall r, implements (k r) (n r)) -> implements (Act m k) (io_try m n).
Proof. intros Hk w. cbn. unfold io_try. destruct (m w) as [r w']. apply Hk. Qed.

(** ** The programs of the commands *)
Section Programs.
Context {C : Clock} {Env : AdminEnv} {D : DoctorEnv} {PF : ProcFs} {TA : Tar} {TO : DeploymentToml}.
Context {HexI : Hex} {Sha : Sha256} {B64 : Base64Url} {X : X25519}.
Context {JV : Json json} {JU : Json UsersFile} {JL : Json (list CompatUser)} {JE : Json (list CompatEndpoint)}.
Context (qr_fits : string -> bool).

Definition load_prog (cfg : DeploymentConfig) : prog (list CompatUser) := act (from_compat (load_users (users_file cfg))).
Definition apply_prog (cfg : DeploymentConfig) (previous_users users : list CompatUser) : prog bool :=
  pdo went_live <- act (render_and_apply_singbox_config cfg users true);
  Act (save_users_atomic (users_file cfg) users) (fun r =>
    match r with
    | Err save_error => Act (render_and_apply_singbox_config cfg previous_users true) (fun rollback =>
        Done (Err (error (CommitFailed save_error (is_ok rollback)))))
    | Ok _ => Done (Ok went_live)
    end).
Definition mutation_prog (cfg : DeploymentConfig) (id : string) (mutate : CompatUser -> CompatUser) : prog bool :=
  pdo users <- load_prog cfg;
  pdo changed <- Done (find_user_mut id mutate users);
  apply_prog cfg users changed.
Definition create_prog (cfg : DeploymentConfig) (name : string) (expires_at : option Z) (qr json_output : bool)
    (e : Entropy) : prog (option Created) :=
  pdo users <- load_prog cfg;
  match fresh_user_id users (id_draws e) with
  | None => Done (Ok None)
  | Some id =>
    let token := generate_subscription_token (token_entropy e) in
    pdo now <- act io_now;
    pdo _ <- apply_prog cfg users (users ++ [new_user id name e now expires_at]);
    let url := subscription_url cfg token in
    let report := {| created_id := id; created_url := url;
                     created_url_singbox := subscription_url_singbox cfg token |} in
    if json_output then Done (Ok (Some report)) else
    pdo _ <- (if qr then act (print_qr qr_fits url) else Done (Ok tt));
    Done (Ok (Some report))
  end.
Definition token_prog (cfg : DeploymentConfig) (id : string) (qr : bool) (entropy20 : bytes) : prog string :=
  pdo users <- load_prog cfg;
  let token := generate_subscription_token entropy20 in
  pdo changed <- Done (find_user_mut id (set_token_hash (hash_token token)) users);
  pdo _ <- act (from_compat (save_users_atomic (users_file cfg) changed));
  let url := subscription_url cfg token in
  pdo _ <- (if qr then act (print_qr qr_fits url) else Done (Ok tt));
  Done (Ok url).
Definition remove_prog (cfg : DeploymentConfig) (id : string) : prog bool :=
  pdo users <- load_prog cfg;
  let kept := List.filter (fun u => negb (String.eqb (u_id u) id)) users in
  if (length kept =? length users)%nat then Done (Err (bail ("no such user: " +:+ id)))
  else apply_prog cfg users kept.

Definition exit_prog {A : Type} (p : prog A) : prog Z := pdo _ <- p; Done (Ok 0).
Definition user_prog (cfg : DeploymentConfig) (d : Draws) (c : UserCommands) : prog Z :=
  match c with
  | Create name expires_at qr json => exit_prog (create_prog cfg name expires_at qr json (d_create d))
  | List => exit_prog (act (cmd_user_list cfg))
  | Qr id => exit_prog (token_prog cfg id true (d_token20 d))
  | Links id qr => exit_prog (act (cmd_user_links qr_fits cfg id qr))
  | Enable id => exit_prog (mutation_prog cfg id (set_enabled true))
  | Disable id => exit_prog (mutation_prog cfg id (set_enabled false))
  | RotateToken id qr => exit_prog (token_prog cfg id qr (d_token20 d))
  | RotateVless id => exit_prog (mutation_prog cfg id (set_uuid (generate_uuid_v4 (d_uuid16 d))))
  | RotateHysteria id =>
      exit_prog (mutation_prog cfg id (set_password (MkSecret (generate_hysteria2_password (d_password24 d)))))
  | RotateCredentials id =>
      exit_prog (mutation_prog cfg id (fun u => set_password (MkSecret (generate_hysteria2_password (d_password24 d)))
        (set_uuid (generate_uuid_v4 (d_uuid16 d)) u)))
  | Remove id => exit_prog (remove_prog cfg id)
  | Subscription id => exit_prog (act (cmd_user_subscription cfg id))
  end.
(** The other commands are one action each. *)
Definition command_prog (cfg : DeploymentConfig) (config_path : path) (d : Draws) (c : Commands) : prog Z :=
  match c with
  | User c => user_prog cfg d c
  | _ => act (run_command_of qr_fits cfg config_path d c)
  end.

Definition acquire_prog (env : option path) : prog unit :=
  let p := lock_path env in
  pdo _ <- (match parent p with
            | Some d => act (context ("creating lock directory " +:+ path_debug d) (from_io (create_dir_all d)))
            | None => Done (Ok tt)
            end);
  pdo _ <- act (context ("opening lock file " +:+ path_debug p) (from_io (open_lock_file p)));
  pcontext ("acquiring exclusive lock on " +:+ path_debug p)
    (Flock p (fun r => Done (map_err (fun e => error (FromIo e)) r))).

Definition main_prog (env_lock : option path) (config_path : path) (d : Draws) (c : Commands) : prog Z :=
  pdo cfg <- act (load_config config_path);
  pdo _ <- (if command_mutates_state c
            then pcontext "acquiring vpn1 state lock (another vpn-admin/install/update operation is in progress)"
              (acquire_prog env_lock)
            else Done (Ok tt));
  command_prog cfg config_path d c.

(** *** They are the commands *)
Lemma apply_implements cfg previous users : implements (apply_prog cfg previous users) (apply_users_and_save cfg previous users).
Proof.
  apply implements_bind; [apply implements_act|]. intros live. apply implements_try. intros [[]|e]; [done|].
  apply implements_try. intros r w. done.
Qed.
Lemma load_implements cfg {A : Type} (k : list CompatUser -> prog A) n :
  (forall users, implements (k users) (n users)) ->
  implements (pbind (load_prog cfg) k) (io_bind (from_compat (load_users (users_file cfg))) n).
Proof. intros Hk. by apply implements_bind; [apply implements_act|]. Qed.
Lemma mutation_implements cfg id mutate : implements (mutation_prog cfg id mutate) (mutate_and_apply cfg id mutate).
Proof.
  apply load_implements. intros users. apply implements_bind; [apply implements_done|]. intros changed. apply apply_implements.
Qed.
Lemma print_implements (qr : bool) url :
  implements (if qr then act (print_qr qr_fits url) else Done (Ok tt)) (if qr then print_qr qr_fits url else io_ret tt).
Proof. destruct qr; [apply implements_act|done]. Qed.
Lemma create_implements cfg name expires qr json e :
  implements (create_prog cfg name expires qr json e) (cmd_user_create qr_fits cfg name expires qr json e).
Proof.
  apply load_implements. intros users. destruct (fresh_user_id users (id_draws e)) as [id|]; [|done].
  apply implements_bind; [apply implements_act|]. intros now. apply implements_bind; [apply apply_implements|]. intros live.
  destruct json; [done|]. by apply implements_bind; [apply print_implements|].
Qed.
Lemma token_implements cfg id qr entropy : implements (token_prog cfg id qr entropy) (cmd_user_rotate_token qr_fits cfg id qr entropy).
Proof.
  apply load_implements. intros users. apply implements_bind; [apply implements_done|]. intros changed.
  apply implements_bind; [apply implements_act|]. intros _. by apply implements_bind; [apply print_implements|].
Qed.
Lemma remove_implements cfg id : implements (remove_prog cfg id) (cmd_user_remove cfg id).
Proof. apply load_implements. intros users. cbv zeta. case_match; [done|apply apply_implements]. Qed.
Lemma exit_implements {A : Type} (p : prog A) m : implements p m -> implements (exit_prog p) (exit_ok m).
Proof. intros Hp. by apply implements_bind. Qed.
Lemma user_implements cfg d c : implements (user_prog cfg d c) (run_user qr_fits cfg d c).
Proof.
  destruct c; apply exit_implements;
    auto using create_implements, implements_act, token_implements, mutation_implements, remove_implements.
Qed.
Lemma command_implements cfg config_path d c : implements (command_prog cfg config_path d c) (run_command_of qr_fits cfg config_path d c).
Proof. destruct c; try apply implements_act. apply user_implements. Qed.
Lemma acquire_implements env : implements (acquire_prog env) (acquire_state_lock env).
Proof.
  apply implements_bind; [destruct (parent _); [apply implements_act|done]|]. intros _.
  apply implements_bind; [apply implements_act|]. intros _. apply implements_context.
  intros w. cbn. unfold from_io, io_map_err. by destruct (flock _ w).
Qed.
Lemma main_prog_implements env config_path d c : implements (main_prog env config_path d c) (main qr_fits env config_path d c).
Proof.
  apply implements_bind; [apply implements_act|]. intros cfg. apply implements_bind; [|intros _; apply command_implements].
  destruct (command_mutates_state c); [|done]. apply implements_context, acquire_implements.
Qed.
End Programs.

(** ** The system *)
Definition with_fs (f : fs) (w : world) : world :=
  World f (w_hist w) (w_ops w) (w_fault w) (w_proc w) (w_run w) (w_log w).

Inductive state :=
  | Running (q : prog Z)
  | Exited (r : result anyhow Z).
(** [p_view]: what the process knows of its own run; its disk is the shared one
    at every action. *)
Record process := { p_view : world; p_state : state }.
Definition running (v : world) (q : prog Z) : process := {| p_view := v; p_state := Running q |}.

(** [held]: the kernel's table of [flock], who holds which file; [order]: the
    processes that got a lock so far, in that order. *)
Record system := { shared : fs; held : gmap path nat; procs : list process; order : list nat }.

(** One step of one process.  [flock(LOCK_EX)] returns with the lock when nobody
    holds it, and with an error when the call fails, at once or while it waits;
    a process that exits loses its locks. *)
Inductive step : system -> system -> Prop :=
  | step_act s i v E B (m : IO E B) k :
      procs s !! i = Some (running v (Act m k)) ->
      let out := m (with_fs (shared s) v) in
      step s {| shared := w_fs out.2; held := held s; order := order s;
                procs := <[i := running out.2 (k out.1)]> (procs s) |}
  | step_flock_granted s i v p k :
      procs s !! i = Some (running v (Flock p k)) -> held s !! p = None ->
      let out := flock p (with_fs (shared s) v) in
      out.1 = Ok tt ->
      step s {| shared := w_fs out.2; held := <[p := i]> (held s); order := order s ++ [i];
                procs := <[i := running out.2 (k out.1)]> (procs s) |}
  | step_flock_failed s i v p k e :
      procs s !! i = Some (running v (Flock p k)) ->
      let out := flock p (with_fs (shared s) v) in
      out.1 = Err e ->
      step s {| shared := w_fs out.2; held := held s; order := order s;
                procs := <[i := running out.2 (k out.1)]> (procs s) |}
  | step_exit s i v r :
      procs s !! i = Some (running v (Done r)) ->
      step s {| shared := shared s; held := filter (fun x => x.2 <> i) (held s); order := order s;
                procs := <[i := {| p_view := v; p_state := Exited r |}]> (procs s) |}.

Notation steps := (rtc step).

(** The step of the i-th process, if it can go on; and a run by a schedule. *)
Definition next (i : nat) (s : system) : option system :=
  p ← procs s !! i;
  match p_state p with
  | Exited _ => None
  | Running (Act m k) =>
      let out := m (with_fs (shared s) (p_view p)) in
      Some {| shared := w_fs out.2; held := held s; order := order s;
              procs := <[i := running out.2 (k out.1)]> (procs s) |}
  | Running (Flock q k) =>
      let out := flock q (with_fs (shared s) (p_view p)) in
      match out.1, held s !! q with
      | Err _, _ => Some {| shared := w_fs out.2; held := held s; order := order s;
                            procs := <[i := running out.2 (k out.1)]> (procs s) |}
      | Ok _, None => Some {| shared := w_fs out.2; held := <[q := i]> (held s); order := order s ++ [i];
                              procs := <[i := running out.2 (k out.1)]> (procs s) |}
      | Ok _, Some _ => None
      end
  | Running (Done r) =>
      Some {| shared := shared s; held := filter (fun x => x.2 <> i) (held s); order := order s;
              procs := <[i := {| p_view := p_view p; p_state := Exited r |}]> (procs s) |}
  end.
Fixpoint follow (schedule : list nat) (s : system) : system :=
  match schedule with
  | [] => s
  | i :: rest => follow rest (default s (next i s))
  end.
Lemma next_step i s s' : next i s = Some s' -> step s s'.
Proof.
  unfold next. destruct (procs s !! i) as [[v [q|r]]|] eqn:Ep; [|done|done]. cbn. destruct q as [r|E B m k|q k].
  - intros [= <-]. exact (step_exit s i v r Ep).
  - intros [= <-]. exact (step_act s i v E B m k Ep).
  - destruct (flock q (with_fs (shared s) v)).1 as [[]|e] eqn:Ef; [destruct (held s !! q) as [o|] eqn:Eh; [done|]|];
      intros [= <-]; rewrite <-Ef; [exact (step_flock_granted s i v q k Ep Eh Ef)|exact (step_flock_failed s i v q k e Ep Ef)].
Qed.
Lemma follow_steps schedule s : steps s (follow schedule s).
Proof.
  revert s. induction schedule as [|i rest IH]; intros s; cbn; [done|]. destruct (next i s) as [s'|] eqn:En; cbn; [|apply IH].
  eapply rtc_l; [by eapply next_step|apply IH].
Qed.

(** ** Worlds that differ in their disk *)
Definition peers (w v : world) : Prop := forget (with_fs ∅ w) = forget (with_fs ∅ v).
Lemma alike_peers w v : alike w v <-> peers w v /\ w_fs w = w_fs v.
Proof.
  unfold alike, peers, forget. destruct w, v. cbn. split; [intros [= -> -> -> -> -> ->]; done|].
  intros [[= -> -> -> -> ->] ->]. done.
Qed.
Lemma peers_with f w : peers (with_fs f w) w.
Proof. done. Qed.
#[export] Instance peers_equiv : Equivalence peers.
Proof. unfold peers. split; [by intros ?|by intros ? ?|intros ? ? ?; congruence]. Qed.
Lemma with_fs_self w : with_fs (w_fs w) w = w.
Proof. by destruct w. Qed.
Lemma alike_with f w v : peers w v -> alike (with_fs f w) (with_fs f v).
Proof. intros H. apply alike_peers. split; [exact H|done]. Qed.
Lemma alike_of w v : peers w v -> alike (with_fs (w_fs v) w) v.
Proof. intros H. apply alike_peers. split; [exact H|done]. Qed.

Lemma flock_on p w v : peers w v ->
  (flock p w).1 = (flock p v).1 /\ w_fs (flock p w).2 = w_fs w /\ peers (flock p w).2 (flock p v).2.
Proof.
  intros H. unfold peers, forget in H. destruct w, v. cbn in H. injection H as -> -> -> -> ->.
  unfold flock, syscall. cbn. by destruct (w_fault0 w_ops0).
Qed.

(** ** What is asked of the parts of a program *)
Section Discipline.
(** The paths that everybody relies on, the disk at the start, the lock. *)
Context (W : path -> Prop) (f0 : fs) (L : path).

Definition undisturbed (f : fs) : Prop := forall q, W q -> f !! q = f0 !! q.

(** It takes no lock and changes nothing. *)
Fixpoint reads {A : Type} (q : prog A) : Prop :=
  match q with
  | Done _ => True
  | Act m k => (forall w, w_fs (m w).2 = w_fs w) /\ forall r, reads (k r)
  | Flock _ _ => False
  end.
(** Neither these paths change, nor does the history matter. *)
Fixpoint spares {A : Type} (q : prog A) : Prop :=
  match q with
  | Done _ => True
  | Act m k => (forall p, W p -> keeps p m) /\ forall r, spares (k r)
  | Flock _ _ => False
  end.
Fixpoint blind_prog {A : Type} (q : prog A) : Prop :=
  match q with
  | Done _ => True
  | Act m k => blind m /\ forall r, blind_prog (k r)
  | Flock _ _ => False
  end.
(** Before the lock: the disk is not changed, and what is seen of it does not
    depend on when it is looked at; the only exits are errors. *)
Definition quiet_act {E A : Type} (m : IO E A) : Prop := forall w v,
  peers w v -> undisturbed (w_fs w) -> undisturbed (w_fs v) ->
  (m w).1 = (m v).1 /\ w_fs (m w).2 = w_fs w /\ peers (m w).2 (m v).2.
Fixpoint quiet {A : Type} (q : prog A) : Prop :=
  match q with
  | Done r => exists e, r = Err e
  | Act m k => quiet_act m /\ forall w, undisturbed (w_fs w) -> quiet (k (m w).1)
  | Flock p k => p = L /\ (forall e, quiet (k (Err e))) /\ spares (k (Ok tt)) /\ blind_prog (k (Ok tt))
  end.

Lemma undisturbed_keeps {E A : Type} (m : IO E A) w :
  (forall p, W p -> keeps p m) -> undisturbed (w_fs w) -> undisturbed (w_fs (m w).2).
Proof. intros Hm Hw q Hq. destruct (m w) as [r w'] eqn:Er. apply (Hm q Hq) in Er as [Er _]. cbn. rewrite Er. by apply Hw. Qed.

(** *** The disciplines of composed programs *)
Lemma spares_bind {A B : Type} (p : prog A) (k : A -> prog B) : spares p -> (forall a, spares (k a)) -> spares (pbind p k).
Proof.
  intros Hp Hk. induction p as [[a|e]|E' B' m k' IH|q k' IH]; cbn in *; [apply Hk|done| |done].
  destruct Hp as [Hm Hk']. split; [done|]. intros r. by apply IH.
Qed.
Lemma blind_prog_bind {A B : Type} (p : prog A) (k : A -> prog B) :
  blind_prog p -> (forall a, blind_prog (k a)) -> blind_prog (pbind p k).
Proof.
  intros Hp Hk. induction p as [[a|e]|E' B' m k' IH|q k' IH]; cbn in *; [apply Hk|done| |done].
  destruct Hp as [Hm Hk']. split; [done|]. intros r. by apply IH.
Qed.
Lemma spares_act {A : Type} (m : IO anyhow A) : (forall p, W p -> keeps p m) -> spares (act m).
Proof. done. Qed.
Lemma blind_prog_act {A : Type} (m : IO anyhow A) : blind m -> blind_prog (act m).
Proof. done. Qed.
Lemma reads_act {A : Type} (m : IO anyhow A) : (forall w, w_fs (m w).2 = w_fs w) -> reads (act m).
Proof. done. Qed.
Lemma reads_bind {A B : Type} (p : prog A) (k : A -> prog B) : reads p -> (forall a, reads (k a)) -> reads (pbind p k).
Proof.
  intros Hp Hk. induction p as [[a|e]|E' B' m k' IH|q k' IH]; cbn in *; [apply Hk|done| |done].
  destruct Hp as [Hm Hk']. split; [done|]. intros r. by apply IH.
Qed.

(** Run to its end, such a program leaves those paths alone. *)
Lemma spares_run {A : Type} (q : prog A) w : spares q -> undisturbed (w_fs w) -> undisturbed (w_fs (run_prog q w).2).
Proof.
  revert w. induction q as [r|E B m k IH|p k IH]; intros w Hq Hw; cbn in *; [done| |done].
  destruct Hq as [Hm Hk]. apply IH; [done|by apply undisturbed_keeps].
Qed.
Lemma quiet_run {A : Type} (q : prog A) w : quiet q -> undisturbed (w_fs w) -> undisturbed (w_fs (run_prog q w).2).
Proof.
  revert w. induction q as [r|E B m k IH|p k IH]; intros w Hq Hw; cbn in *; [done|..].
  - destruct Hq as [Hm Hk]. apply IH; [by apply Hk|]. by destruct (Hm w w) as (_ & -> & _).
  - destruct Hq as (-> & He & Hs & _). destruct (flock_on L w w) as (_ & Hf & _); [done|].
    destruct (flock L w) as [[[]|e] w'] eqn:Ef; cbn in *; [apply spares_run; [done|by rewrite Hf]|apply IH; [done|by rewrite Hf]].
Qed.

(** *** What is quiet *)
Lemma quiet_act_lift {E A : Type} (r : result E A) : quiet_act (io_lift r).
Proof. done. Qed.
Lemma quiet_act_map_err {E F A : Type} (g : E -> F) (m : IO E A) : quiet_act m -> quiet_act (io_map_err g m).
Proof.
  intros Hm w v Hwv Hw Hv. destruct (Hm w v Hwv Hw Hv) as (H1 & H2 & H3). unfold io_map_err.
  destruct (m w), (m v). cbn in *. by subst.
Qed.
Lemma quiet_act_bind {E A B : Type} (m : IO E A) (k : A -> IO E B) :
  quiet_act m -> (forall a, quiet_act (k a)) -> quiet_act (io_bind m k).
Proof.
  intros Hm Hk w v Hwv Hw Hv. destruct (Hm w v Hwv Hw Hv) as (H1 & H2 & H3).
  destruct (Hm v w) as (_ & H2' & _); [by symmetry|done|done|]. unfold io_bind.
  destruct (m w) as [r w1], (m v) as [r' v1]. cbn in *. subst r'. destruct r as [a|e]; [|done].
  destruct (Hk a w1 v1 H3) as (E1 & E2 & E3); [by rewrite H2|by rewrite H2'|]. by rewrite E2.
Qed.
(** A call whose answer is the same on all these disks, and which leaves them. *)
Lemma quiet_act_syscall {A : Type} (g : proc -> fs -> result io_error (A * fs)) :
  (forall pr, exists r, forall f, undisturbed f -> g pr f = (a ← r; Ok (a, f))) ->
  quiet_act (fun w => syscall no_tear (g (w_proc w)) w).
Proof.
  intros Hg w v Hwv Hw Hv. unfold peers, forget in Hwv. destruct w as [fw hw n flt pr rn lg], v as [fv hv n' flt' pr' rn' lg']. cbn in Hwv, Hw, Hv.
  injection Hwv as <- <- <- <- <-. destruct (Hg pr) as [r Hr]. unfold syscall. cbn.
  destruct (flt n); [done|]. rewrite (Hr _ Hw), (Hr _ Hv). by destruct r.
Qed.

Lemma quiet_act_read p : W p -> quiet_act (fs_read p).
Proof.
  intros Hp. refine (quiet_act_syscall (fun _ f => match f !! p with
    | Some (File _ d) => Ok (d, f) | Some (Dir _) => Err eisdir | None => Err enoent end) _).
  intros _. exists (match f0 !! p with Some (File _ d) => Ok d | Some (Dir _) => Err eisdir | None => Err enoent end).
  intros f Hf. rewrite (Hf p Hp). by destruct (f0 !! p) as [[]|].
Qed.
Lemma quiet_act_load_config `{DeploymentToml} p : W p -> quiet_act (load_config p).
Proof.
  intros Hp. unfold load_config, context, from_compat. apply quiet_act_map_err, quiet_act_map_err. unfold load.
  apply quiet_act_bind; [apply quiet_act_map_err|intros t].
  - unfold fs_read_to_string. apply quiet_act_bind; [by apply quiet_act_read|]. intros d. apply quiet_act_lift.
  - apply quiet_act_bind; [apply quiet_act_lift|]. intros cfg. apply quiet_act_bind; [apply quiet_act_lift|]. intros. apply quiet_act_lift.
Qed.

(** The lock file exists, in a directory that does. *)
Definition lock_ready (f : fs) : Prop :=
  (exists m d, f !! L = Some (File m d)) /\
  forall d, d <> [] -> d `prefix_of` removelast L -> exists m, f !! d = Some (Dir m).
Context (Hready : lock_ready f0) (HL : forall q, q <> [] -> q `prefix_of` L -> W q).

Lemma missing_none f pr pre rest :
  (forall d, d <> [] -> d `prefix_of` pre ++ rest -> exists m, f !! d = Some (Dir m)) -> missing_dirs f pr pre rest = Ok f.
Proof.
  revert pre. induction rest as [|c rest IH]; intros pre Hd; [done|]. cbn.
  destruct (Hd (pre ++ [c])) as [m ->]; [by destruct pre|exists rest; by rewrite <-app_assoc|].
  apply IH. intros d Hne Hpre. apply Hd; [done|]. by rewrite <-app_assoc in Hpre.
Qed.
Lemma removelast_prefix (p : path) : removelast p `prefix_of` p.
Proof. destruct (decide (p = [])) as [->|Hne]; [done|]. exists [List.last p ""]. by apply app_removelast_last. Qed.
Lemma quiet_act_lock_dir : quiet_act (create_dir_all (removelast L)).
Proof.
  refine (quiet_act_syscall (fun pr f => f' ← missing_dirs f pr [] (removelast L); Ok (tt, f')) _).
  intros pr. exists (Ok tt). intros f Hf. rewrite missing_none; [done|]. intros d Hne Hpre.
  rewrite Hf; [by apply Hready|]. apply HL; [done|]. etrans; [exact Hpre|]. apply removelast_prefix.
Qed.
Lemma quiet_act_lock_file : L <> [] -> quiet_act (open_lock_file L).
Proof.
  intros Hne. refine (quiet_act_syscall (fun pr f => match f !! L with
    | Some (File _ _) => Ok (tt, f) | Some (Dir _) => Err eisdir
    | None => if has_parent f L then Ok (tt, <[L := File (new_meta pr f L 438) []]> f) else Err enoent end) _).
  intros pr. exists (Ok tt). intros f Hf. destruct Hready as [(m & d & Hm) _].
  rewrite (Hf L), Hm; [done|]. by apply HL.
Qed.
Lemma quiet_act_acquire env : lock_path env = L -> L <> [] -> quiet_act (acquire_state_lock env).
Proof.
  intros E Hne. unfold acquire_state_lock. rewrite E. replace (parent L) with (Some (removelast L)) by (by destruct L).
  apply quiet_act_bind; [by apply quiet_act_map_err, quiet_act_map_err, quiet_act_lock_dir|]. intros _.
  apply quiet_act_bind; [by apply quiet_act_map_err, quiet_act_map_err, quiet_act_lock_file|]. intros _.
  apply quiet_act_map_err, quiet_act_map_err. intros w v Hwv _ _. by apply flock_on.
Qed.
End Discipline.

(** ** Invocations, and the reference: one after the other *)

(** One call of [vpn-admin]: VPN1_LOCK_PATH, the settings file, what it draws,
    the command, and the circumstances of the process (its faults, its identity,
    what the programs it starts do). *)
Record invocation := {
  j_lock : option path;
  j_config : path;
  j_draws : Draws;
  j_command : Commands;
  j_view : world
}.
Definition mutates (j : invocation) : bool := command_mutates_state (j_command j).

Section Invocations.
Context {C : Clock} {Env : AdminEnv} {D : DoctorEnv} {PF : ProcFs} {TA : Tar} {TO : DeploymentToml}.
Context {HexI : Hex} {Sha : Sha256} {B64 : Base64Url} {X : X25519}.
Context {JV : Json json} {JU : Json UsersFile} {JL : Json (list CompatUser)} {JE : Json (list CompatEndpoint)}.
Context (qr_fits : string -> bool).

Definition program_of (j : invocation) : prog Z := main_prog qr_fits (j_lock j) (j_config j) (j_draws j) (j_command j).
Definition boot (js : list invocation) (f : fs) : system :=
  {| shared := f; held := ∅; order := []; procs := (fun j => running (j_view j) (program_of j)) <$> js |}.

(** The whole of [main] on that disk, with nobody else there. *)
Definition alone (j : invocation) (f : fs) : result anyhow Z * fs :=
  let out := main qr_fits (j_lock j) (j_config j) (j_draws j) (j_command j) (with_fs f (j_view j)) in (out.1, w_fs out.2).
Fixpoint serially (js : list invocation) (idx : list nat) (f : fs) : fs :=
  match idx with
  | [] => f
  | i :: idx => match js !! i with Some j => serially js idx (alone j f).2 | None => serially js idx f end
  end.

Lemma serially_app js a b f : serially js (a ++ b) f = serially js b (serially js a f).
Proof. revert f. induction a as [|i a IH]; intros f; [done|]. cbn. destruct (js !! i); apply IH. Qed.
Lemma alone_run j f : alone j f = ((run_prog (program_of j) (with_fs f (j_view j))).1, w_fs (run_prog (program_of j) (with_fs f (j_view j))).2).
Proof. unfold alone, program_of. by rewrite main_prog_implements. Qed.

Section Serialize.
Context (js : list invocation) (f0 : fs) (W : path -> Prop) (L : path).
Context (Hreads : forall i j, js !! i = Some j -> mutates j = false -> reads (program_of j)).
Context (Hquiet : forall i j, js !! i = Some j -> mutates j = true -> quiet W f0 L (program_of j)).
Notation undisturbed := (undisturbed W f0).
Notation quiet := (quiet W f0 L).
Notation spares := (spares W).

(** What is left of the process is what is left of its run by itself: on any
    disk while it has not got the lock, on the shared one after. *)
Definition at_any_disk (j : invocation) (v : world) (q : prog Z) : Prop := forall g, undisturbed g ->
  exists w, alike w (with_fs g v) /\ run_prog (program_of j) (with_fs g (j_view j)) = run_prog q w.
Definition waits (s : system) (i : nat) (j : invocation) (v : world) (q : prog Z) : Prop :=
  i ∉ order s /\ quiet q /\ at_any_disk j v q.
Definition owns (s : system) (i : nat) (j : invocation) (v : world) (q : prog Z) : Prop :=
  held s !! L = Some i /\ spares q /\ blind_prog q /\
  exists before w, order s = before ++ [i] /\ alike w (with_fs (shared s) v) /\
    run_prog (program_of j) (with_fs (serially js before f0) (j_view j)) = run_prog q w.
Definition ended (s : system) (i : nat) (j : invocation) (r : result anyhow Z) : Prop :=
  (i ∉ order s /\ (exists e, r = Err e) /\ forall g, undisturbed g -> alone j g = (r, g)) \/
  (exists before after, order s = before ++ i :: after /\ (alone j (serially js before f0)).1 = r).
Definition process_ok (s : system) (i : nat) (j : invocation) (p : process) : Prop :=
  match p_state p with
  | Running q => if mutates j then waits s i j (p_view p) q \/ owns s i j (p_view p) q else i ∉ order s /\ reads q
  | Exited r => if mutates j then ended s i j r else i ∉ order s
  end.

Record system_ok (s : system) : Prop := {
  ok_procs : forall i p, procs s !! i = Some p -> exists j, js !! i = Some j /\ process_ok s i j p;
  ok_length : length (procs s) = length js;
  ok_disk : undisturbed (shared s);
  ok_order : NoDup (order s);
  ok_free : held s !! L = None -> shared s = serially js (order s) f0;
  ok_holder : forall i, held s !! L = Some i -> exists j v q, js !! i = Some j /\ procs s !! i = Some (running v q) /\ owns s i j v q
}.

Lemma initial_ok : system_ok (boot js f0).
Proof.
  split; cbn; try done.
  - intros i p Hp. apply list_lookup_fmap_Some in Hp as (j & -> & Hj). exists j. split; [done|]. unfold process_ok. cbn.
    destruct (mutates j) eqn:Em; [|split; [apply not_elem_of_nil|by eapply Hreads]]. left.
    split; [apply not_elem_of_nil|]. split; [by eapply Hquiet|]. intros g Hg. by exists (with_fs g (j_view j)).
  - by rewrite length_fmap.
  - constructor.
Qed.

(** The knowledge of another process survives a step of the i-th. *)
Lemma process_ok_other s s' i j p k :
  process_ok s i j p -> i <> k -> (order s' = order s \/ order s' = order s ++ [k]) ->
  (held s !! L = Some i -> held s' !! L = Some i /\ order s' = order s /\ shared s' = shared s) ->
  process_ok s' i j p.
Proof.
  intros Hp Hne Ho Hh. assert (i ∉ order s -> i ∉ order s') as Hn.
  { intros Hi. destruct Ho as [->| ->]; [done|]. rewrite elem_of_app, list_elem_of_singleton. naive_solver. }
  unfold process_ok in *. destruct (p_state p) as [q|r], (mutates j).
  - destruct Hp as [(H1 & H2 & H3)|(H1 & H2 & H3 & b & w & H4 & H5 & H6)]; [left; split; [auto|done]|].
    right. destruct (Hh H1) as (Hh' & Ho' & Hs'). split; [done|]. split; [done|]. split; [done|]. exists b, w. by rewrite Ho', Hs'.
  - naive_solver.
  - destruct Hp as [(H1 & H2)|(b & a & E & Hr)]; [left; split; [auto|done]|]. right.
    destruct Ho as [->| ->]; [by eauto|]. exists b, (a ++ [k]). by rewrite E, <-app_assoc.
  - auto.
Qed.

Lemma update_ok s s' i p' :
  system_ok s -> is_Some (procs s !! i) -> procs s' = <[i := p']> (procs s) ->
  (forall j, js !! i = Some j -> process_ok s' i j p') ->
  (order s' = order s \/ order s' = order s ++ [i]) ->
  (forall k, k <> i -> held s !! L = Some k -> held s' !! L = Some k /\ order s' = order s /\ shared s' = shared s) ->
  (forall k, k <> i -> held s' !! L = Some k -> held s !! L = Some k) ->
  (held s' !! L = Some i -> exists j v q, js !! i = Some j /\ p' = running v q /\ owns s' i j v q) ->
  undisturbed (shared s') -> NoDup (order s') ->
  (held s' !! L = None -> shared s' = serially js (order s') f0) ->
  system_ok s'.
Proof.
  intros Hok [p Hi] Hprocs Hp' Ho Hkeep Hback Hown Hdisk Hnd Hfree. pose proof (lookup_lt_Some _ _ _ Hi) as Hlt.
  split; [| |done|done|done|].
  - intros k q. rewrite Hprocs. destruct (decide (k = i)) as [->|Hne].
    + rewrite list_lookup_insert_eq by done. intros [= <-]. destruct (ok_procs s Hok _ _ Hi) as (j & Hj & _). eauto.
    + rewrite list_lookup_insert_ne by done. intros Hq. destruct (ok_procs s Hok _ _ Hq) as (j & Hj & Hpk).
      exists j. split; [done|]. eapply process_ok_other; [exact Hpk|exact Hne|done|]. by apply Hkeep.
  - rewrite Hprocs, length_insert. apply (ok_length s Hok).
  - intros k Hk. rewrite Hprocs. destruct (decide (k = i)) as [->|Hne].
    + destruct (Hown Hk) as (j & v & q & Hj & -> & Ho'). exists j, v, q. by rewrite list_lookup_insert_eq.
    + pose proof (Hback k Hne Hk) as Hk0. destruct (ok_holder s Hok _ Hk0) as (j & v & q & Hj & Hq & H1 & H2 & H3 & b & w & H4 & H5 & H6).
      destruct (Hkeep k Hne Hk0) as (Hh' & Ho' & Hs'). exists j, v, q. rewrite list_lookup_insert_ne by done.
      split; [done|]. split; [done|]. split; [done|]. split; [done|]. split; [done|]. exists b, w. by rewrite Ho', Hs'.
Qed.

(** A step of a process without the lock that leaves the disk and the locks. *)
Lemma quiet_step_ok s s' i p' :
  system_ok s -> is_Some (procs s !! i) -> procs s' = <[i := p']> (procs s) -> held s !! L <> Some i ->
  shared s' = shared s -> order s' = order s -> held s' !! L = held s !! L ->
  (forall j, js !! i = Some j -> process_ok s' i j p') -> system_ok s'.
Proof.
  intros Hok Hi Hprocs Hne Hs Ho Hh Hp'. eapply update_ok; try done.
  - by left.
  - intros k _ Hk. by rewrite Hh, Ho, Hs.
  - intros k _. by rewrite Hh.
  - by rewrite Hh.
  - rewrite Hs. apply (ok_disk s Hok).
  - rewrite Ho. apply (ok_order s Hok).
  - rewrite Hh, Hs, Ho. apply (ok_free s Hok).
Qed.
(** Who has never got the lock does not hold it. *)
Lemma not_held s i : system_ok s -> i ∉ order s -> held s !! L <> Some i.
Proof.
  intros Hok Hn Hh. destruct (ok_holder s Hok i Hh) as (j & v & q & _ & _ & _ & _ & _ & b & w & Ho & _).
  apply Hn. rewrite Ho. apply elem_of_app. right. by apply list_elem_of_singleton.
Qed.
(** The state of a running process. *)
Lemma running_ok s i v q : system_ok s -> procs s !! i = Some (running v q) -> exists j, js !! i = Some j /\
  ((mutates j = false /\ i ∉ order s /\ reads q) \/ (mutates j = true /\ (waits s i j v q \/ owns s i j v q))).
Proof.
  intros Hok Hi. destruct (ok_procs s Hok _ _ Hi) as (j & Hj & Hp). exists j. split; [done|]. unfold process_ok in Hp. cbn in Hp.
  destruct (mutates j); auto.
Qed.

(** An action before the lock. *)
Lemma waits_act s s' i j v E B (m : IO E B) k :
  system_ok s -> waits s i j v (Act m k) -> order s' = order s ->
  let out := m (with_fs (shared s) v) in w_fs out.2 = shared s /\ waits s' i j out.2 (k out.1).
Proof.
  intros Hok (Hn & [Hm Hk] & Hany) Ho out. pose proof (ok_disk s Hok) as Hd.
  destruct (Hm (with_fs (shared s) v) (with_fs (shared s) v)) as (_ & Hf & _); [done|done|done|].
  split; [exact Hf|]. split; [by rewrite Ho|]. split; [by apply Hk|]. intros g Hg.
  destruct (Hany g Hg) as (w & [Hw Hwf]%alike_peers & Hrun). cbn in Hwf. exists (m w).2.
  destruct (Hm w (with_fs (shared s) v)) as (E1 & E2 & E3); [exact Hw|by rewrite Hwf|done|].
  split; [|by rewrite Hrun; cbn; rewrite E1]. apply alike_peers. split; [exact E3|]. by rewrite E2.
Qed.
(** An action under the lock. *)
Lemma owns_act s i j v E B (m : IO E B) k procs' :
  owns s i j v (Act m k) ->
  let out := m (with_fs (shared s) v) in
  owns {| shared := w_fs out.2; held := held s; order := order s; procs := procs' |} i j out.2 (k out.1).
Proof.
  intros (Hh & [_ Hs] & [Hm Hb] & before & w & Ho & Hw & Hrun) out. destruct (Hm _ _ Hw) as [E1 E2].
  split; [done|]. split; [by apply Hs|]. split; [by apply Hb|]. exists before, (m w).2. split; [done|].
  cbn [shared]. unfold out. rewrite with_fs_self, Hrun. cbn. by rewrite E1.
Qed.
(** Getting the lock. *)
Lemma waits_flock s i j v p k : system_ok s -> waits s i j v (Flock p k) -> held s !! p = None ->
  let out := flock p (with_fs (shared s) v) in out.1 = Ok tt ->
  p = L /\ w_fs out.2 = shared s /\
  forall procs', owns {| shared := w_fs out.2; held := <[p := i]> (held s); order := order s ++ [i]; procs := procs' |} i j out.2 (k out.1).
Proof.
  intros Hok (Hn & (-> & _ & Hs & Hb) & Hany) Hfree out Hout.
  destruct (Hany (shared s) (ok_disk s Hok)) as (w & [Hw Hwf]%alike_peers & Hrun). cbn in Hwf.
  destruct (flock_on L w (with_fs (shared s) v)) as (E1 & E2 & E3); [exact Hw|].
  destruct (flock_on L (with_fs (shared s) v) w) as (_ & E4 & _); [by symmetry|].
  split; [done|]. split; [exact E4|]. intros procs'. split; [by apply lookup_insert_eq|]. rewrite Hout.
  split; [done|]. split; [done|]. exists (order s), (flock L w).2. split; [done|]. split.
  - apply alike_peers. split; [exact E3|]. cbn. unfold out. by rewrite E2, E4, Hwf.
  - rewrite <-(ok_free s Hok Hfree), Hrun. cbn. fold out in E1. by rewrite E1, Hout.
Qed.
Lemma waits_flock_failed s s' i j v p k e : system_ok s -> waits s i j v (Flock p k) -> order s' = order s ->
  let out := flock p (with_fs (shared s) v) in out.1 = Err e -> w_fs out.2 = shared s /\ waits s' i j out.2 (k out.1).
Proof.
  intros Hok (Hn & (-> & He & _) & Hany) Ho out Hout.
  destruct (flock_on L (with_fs (shared s) v) (with_fs (shared s) v)) as (_ & E4 & _); [done|].
  split; [exact E4|]. split; [by rewrite Ho|]. split; [rewrite Hout; apply He|]. intros g Hg.
  destruct (Hany g Hg) as (w & [Hw Hwf]%alike_peers & Hrun). cbn in Hwf. exists (flock L w).2.
  destruct (flock_on L w (with_fs (shared s) v)) as (E1 & E2 & E3); [exact Hw|].
  split; [|by rewrite Hrun; cbn; rewrite E1]. apply alike_peers. split; [exact E3|]. by rewrite E2.
Qed.
(** The two ways to exit. *)
Lemma waits_done s s' i j v r : waits s i j v (Done r) -> order s' = order s -> ended s' i j r.
Proof.
  intros (Hn & Hr & Hany) Ho. left. split; [by rewrite Ho|]. split; [done|]. intros g Hg.
  destruct (Hany g Hg) as (w & [_ Hwf]%alike_peers & Hrun). rewrite alone_run, Hrun. cbn in *. by rewrite Hwf.
Qed.
Lemma owns_done s i j v r : js !! i = Some j -> owns s i j v (Done r) ->
  shared s = serially js (order s) f0 /\ forall s', order s' = order s -> ended s' i j r.
Proof.
  intros Hj (_ & _ & _ & before & w & Ho & [_ Hwf]%alike_peers & Hrun). cbn in Hwf.
  split.
  - rewrite Ho, serially_app. cbn [serially]. rewrite Hj, alone_run, Hrun. cbn. by rewrite Hwf.
  - intros s' Ho'. right. exists before, []. rewrite Ho', alone_run, Hrun. done.
Qed.

Lemma release_other (h : gmap path nat) (i : nat) : h !! L <> Some i -> filter (fun x => x.2 <> i) h !! L = h !! L.
Proof.
  intros Hh. rewrite map_lookup_filter. destruct (h !! L) as [k|]; [|done]. cbn. rewrite option_guard_True; [done|]. congruence.
Qed.
Lemma release_own (h : gmap path nat) (i : nat) : h !! L = Some i -> filter (fun x => x.2 <> i) h !! L = None.
Proof. intros Hh. rewrite map_lookup_filter, Hh. cbn. by rewrite option_guard_False by tauto. Qed.

Lemma step_ok s s' : step s s' -> system_ok s -> system_ok s'.
Proof.
  intros Hstep Hok. destruct Hstep as [s i v E B m k Hi out|s i v p k Hi Hfree out Hout|s i v p k e Hi out Hout|s i v r Hi];
    assert (is_Some (procs s !! i)) as Hsi by (by eexists); destruct (running_ok s i v _ Hok Hi) as (j & Hj & [(Em & Hn & Hr)|(Em & [Hw|Hw])]).
  - destruct Hr as [Hm Hk]. eapply (quiet_step_ok s _ i); try done; [by apply not_held|apply Hm|]. intros j' Hj'.
    unfold process_ok. cbn. assert (j' = j) as -> by congruence. by rewrite Em.
  - set (s' := {| shared := _ |}). destruct (waits_act s s' i j v E B m k Hok Hw eq_refl) as [Hs Hw'].
    eapply (quiet_step_ok s s' i); try done; [apply not_held; [done|by destruct Hw]|]. intros j' Hj'.
    unfold process_ok. cbn. assert (j' = j) as -> by congruence. rewrite Em. by left.
  - pose proof (owns_act s i j v E B m k (<[i := running out.2 (k out.1)]> (procs s)) Hw) as Hw'. fold out in Hw'.
    set (s' := {| shared := _ |}) in Hw' |- *. pose proof Hw as (Hh & [Hs _] & _).
    eapply (update_ok s s' i); try done; [|by left| | | |..].
    + intros j' Hj'. unfold process_ok. cbn. assert (j' = j) as -> by congruence. rewrite Em. by right.
    + intros k' Hne Hk'. congruence.
    + intros _. by exists j, out.2, (k out.1).
    + apply undisturbed_keeps; [done|]. apply (ok_disk s Hok).
    + apply (ok_order s Hok).
    + cbn. congruence.
  - done.
  - destruct (waits_flock s i j v p k Hok Hw Hfree Hout) as (-> & Hs & Hw').
    specialize (Hw' (<[i := running out.2 (k out.1)]> (procs s))). fold out in Hs, Hw'. set (s' := {| shared := _ |}) in Hw' |- *.
    eapply (update_ok s s' i); try done; [|by right| | | |..].
    + intros j' Hj'. unfold process_ok. cbn. assert (j' = j) as -> by congruence. rewrite Em. by right.
    + intros k' Hne Hk'. congruence.
    + intros k' Hne. cbn. rewrite lookup_insert_eq. intros [= <-]. done.
    + intros _. by exists j, out.2, (k out.1).
    + cbn. rewrite Hs. apply (ok_disk s Hok).
    + destruct Hw as (Hn & _). apply NoDup_app. split; [apply (ok_order s Hok)|]. split; [|apply NoDup_singleton].
      by intros x Hx ->%list_elem_of_singleton.
    + cbn. by rewrite lookup_insert_eq.
  - by destruct Hw as (_ & ? & _).
  - done.
  - set (s' := {| shared := _ |}). destruct (waits_flock_failed s s' i j v p k e Hok Hw eq_refl Hout) as [Hs Hw'].
    eapply (quiet_step_ok s s' i); try done; [apply not_held; [done|by destruct Hw]|]. intros j' Hj'.
    unfold process_ok. cbn. assert (j' = j) as -> by congruence. rewrite Em. by left.
  - by destruct Hw as (_ & ? & _).
  - eapply (quiet_step_ok s _ i); try done; [by apply not_held|by apply release_other, not_held|]. intros j' Hj'.
    unfold process_ok. cbn. assert (j' = j) as -> by congruence. by rewrite Em.
  - assert (held s !! L <> Some i) as Hh by (apply not_held; [done|by destruct Hw]).
    set (s' := {| shared := _ |}). pose proof (waits_done s s' i j v r Hw eq_refl) as He.
    eapply (quiet_step_ok s s' i); try done; [by apply release_other|]. intros j' Hj'.
    unfold process_ok. cbn. assert (j' = j) as -> by congruence. by rewrite Em.
  - destruct (owns_done s i j v r Hj Hw) as [Hs He]. set (s' := {| shared := _ |}). pose proof Hw as (Hh & _).
    assert (held s' !! L = None) as Hnone by by apply release_own.
    eapply (update_ok s s' i); try done; [|by left|..].
    + intros j' Hj'. unfold process_ok. cbn. assert (j' = j) as -> by congruence. rewrite Em. by apply He.
    + intros k' Hne Hk'. congruence.
    + intros k' _. congruence.
    + congruence.
    + apply (ok_disk s Hok).
    + apply (ok_order s Hok).
Qed.

Lemma steps_ok s : steps (boot js f0) s -> system_ok s.
Proof.
  intros Hs. remember (boot js f0) as s0 eqn:E. assert (system_ok s0) as H0 by (rewrite E; apply initial_ok). clear E.
  induction Hs as [|? ? ? Hst _ IH]; [done|]. apply IH. by eapply step_ok.
Qed.

(** Whoever changes the disk holds the lock. *)
Lemma change_needs_lock s s' : system_ok s -> step s s' -> shared s' <> shared s ->
  exists i, held s !! L = Some i /\ forall k, k <> i -> procs s' !! k = procs s !! k.
Proof.
  intros Hok Hstep Hne. destruct Hstep as [s i v E B m k Hi out|s i v p k Hi Hfree out Hout|s i v p k e Hi out Hout|s i v r Hi];
    destruct (running_ok s i v _ Hok Hi) as (j & Hj & [(Em & Hn & Hr)|(Em & [Hw|Hw])]); cbn in Hne.
  - by destruct Hne; apply Hr.
  - destruct Hne. by destruct (waits_act s s i j v E B m k Hok Hw eq_refl).
  - destruct Hw as (Hh & _). exists i. split; [done|]. intros k' Hk'. cbn. by rewrite list_lookup_insert_ne.
  - done.
  - destruct Hne. by destruct (waits_flock s i j v p k Hok Hw Hfree Hout) as (_ & ? & _).
  - by destruct Hw as (_ & ? & _).
  - done.
  - destruct Hne. by destruct (waits_flock_failed s s i j v p k e Hok Hw eq_refl Hout).
  - by destruct Hw as (_ & ? & _).
  - done.
  - done.
  - done.
Qed.

(** The lock cannot wedge the system. *)
Lemma running_steps s i v q : procs s !! i = Some (running v q) ->
  (exists p k, q = Flock p k /\ is_Some (held s !! p)) \/ exists s', step s s'.
Proof.
  intros Hi. destruct q as [r|E B m k|p k].
  - right. eexists. by eapply step_exit.
  - right. eexists. by apply (step_act s i v E B m k).
  - destruct (held s !! p) as [o|] eqn:Eh; [left; eauto|]. right.
    destruct (flock p (with_fs (shared s) v)).1 as [[]|e] eqn:Ef; eexists;
      [by apply (step_flock_granted s i v p k)|by apply (step_flock_failed s i v p k e)].
Qed.
Lemma never_stuck s i v q : system_ok s -> procs s !! i = Some (running v q) -> exists s', step s s'.
Proof.
  intros Hok Hi. destruct (running_steps s i v q Hi) as [(p & k & -> & Hh)|?]; [|done].
  assert (p = L) as ->.
  { destruct (running_ok s i v _ Hok Hi) as (j & _ & [(_ & _ & [])|(_ & [(_ & [-> _] & _)|(_ & [] & _)])]). done. }
  destruct Hh as [o Ho]. destruct (ok_holder s Hok o Ho) as (j & v' & q' & _ & Hp & _ & Hs & _).
  destruct (running_steps s o v' q' Hp) as [(p & k' & -> & _)|?]; [by destruct Hs|done].
Qed.
End Serialize.

(** ** The programs of the command line keep the discipline *)
Lemma exit_ok_world {A : Type} (m : IO anyhow A) w : (exit_ok m w).2 = (m w).2.
Proof. unfold exit_ok, io_bind. by destruct (m w) as [[] ?]. Qed.
Lemma unlocked_reads cfg config_path d c :
  command_mutates_state c = false -> report_file c = None -> reads (command_prog qr_fits cfg config_path d c).
Proof.
  intros Hc Hr. assert (forall w, w_fs (run_command_of qr_fits cfg config_path d c w).2 = w_fs w) as Hw.
  { intros w. destruct (probes_unlocked (at_disk (w_fs w)) qr_fits cfg config_path d c Hc) with w as [Hw _]; [by rewrite Hr|done|done]. }
  destruct c as [| | | | | | | |c|c]; try discriminate Hc; [by apply reads_act..| |by apply reads_act].
  destruct c; try discriminate Hc; (apply reads_bind; [apply reads_act|done]); intros w; specialize (Hw w);
    cbn [run_command_of run_user] in Hw; by rewrite exit_ok_world in Hw.
Qed.
Lemma program_reads j : mutates j = false -> report_file (j_command j) = None -> reads (program_of j).
Proof.
  intros Hm Hr. unfold program_of, main_prog. apply reads_bind.
  - apply reads_act. intros w. destruct (probes_load (at_disk (w_fs w)) (j_config j)) with w as [Hw _]; [done|].
    unfold load_config, context, from_compat, io_map_err. by destruct (load _ w).
  - intros cfg. unfold mutates in Hm. rewrite Hm. by apply unlocked_reads.
Qed.

(** The settings in the file at that path. *)
Definition settings_at (config_path : path) (f : fs) (cfg : DeploymentConfig) : Prop :=
  (load_config config_path (calm_world f)).1 = Ok cfg.
Lemma settings_loaded config_path w f cfg :
  w_fs w !! config_path = f !! config_path -> (load_config config_path w).1 = Ok cfg -> settings_at config_path f cfg.
Proof.
  intros E. unfold settings_at, load_config, context, from_compat, load, compat_io, fs_read_to_string, fs_read, syscall,
    io_map_err, io_bind. cbn. destruct (w_fault w (w_ops w)); [done|]. rewrite E.
  destruct (f !! config_path) as [[m dat|m]|]; cbn; [|done|done].
  destruct (from_utf8 dat); cbn; [|done]. destruct (toml_from_str _); cbn; [|done]. by destruct (validate _).
Qed.

Lemma program_quiet (W : path -> Prop) f0 L j :
  mutates j = true -> lock_path (j_lock j) = L -> L <> [] -> lock_ready L f0 ->
  W (j_config j) -> (forall q, q <> [] -> q `prefix_of` L -> W q) ->
  (forall cfg, settings_at (j_config j) f0 cfg ->
     spares W (command_prog qr_fits cfg (j_config j) (j_draws j) (j_command j)) /\
     blind_prog (command_prog qr_fits cfg (j_config j) (j_draws j) (j_command j))) ->
  quiet W f0 L (program_of j).
Proof.
  intros Hm <- Hne Hready Hcp HL Hcmd. unfold program_of, main_prog, mutates in *. rewrite Hm. set (L := lock_path (j_lock j)) in *.
  split; [by apply quiet_act_load_config|]. intros w Hw.
  destruct (load_config (j_config j) w).1 as [cfg|e] eqn:Eload; [|by exists e].
  destruct (Hcmd cfg) as [Hs Hb]; [eapply settings_loaded; [apply (Hw _ Hcp)|exact Eload]|].
  unfold acquire_prog. fold L. replace (parent L) with (Some (removelast L)) by (by destruct L). cbn [pbind pcontext act].
  split; [by apply quiet_act_map_err, quiet_act_map_err, quiet_act_lock_dir|]. intros w1 Hw1.
  destruct (context _ _ w1).1 as [[]|e]; [|by eexists]. cbn [pbind pcontext act].
  split; [by apply quiet_act_map_err, quiet_act_map_err, quiet_act_lock_file|]. intros w2 Hw2.
  destruct (context _ _ w2).1 as [[]|e]; [|by eexists]. cbn [pbind pcontext act].
  split; [done|]. split; [by eexists|]. done.
Qed.

(** ** What the commands leave alone, and that they are blind *)
Ltac walk_prog :=
  repeat match goal with
  | |- spares _ (pbind _ _) => apply spares_bind; [|intros]
  | |- blind_prog (pbind _ _) => apply blind_prog_bind; [|intros]
  | |- spares _ (Act _ _) => split; [intros ?q ?Hq|intros]
  | |- blind_prog (Act _ _) => split; [|intros]
  | |- spares _ (match ?x with _ => _ end) => destruct x
  | |- blind_prog (match ?x with _ => _ end) => destruct x
  | |- spares _ (Done _) => exact I
  | |- blind_prog (Done _) => exact I
  end.

Lemma keeps_save_at q cfg users : aside cfg q -> keeps q (save_users_atomic (users_file cfg) users).
Proof.
  intros Ha. apply keeps_save_users; unfold users_file; [by apply aside_ne| | |].
  - rewrite removelast_app by done. by apply aside_ne.
  - rewrite removelast_app by done. by apply aside_below.
  - intros n. unfold tmp_sibling_path. change ["users"; "users.json"] with (["users"] ++ ["users.json"]).
    rewrite app_assoc, sibling_snoc, <-app_assoc. by apply aside_ne.
Qed.
Lemma keeps_publish q cfg users : aside cfg q -> keeps q (render_and_apply_singbox_config cfg users true).
Proof. intros Ha. by apply keeps_render_and_apply, aside_outside. Qed.
Lemma keeps_links q user eps qr : keeps q (links_of qr_fits user eps qr).
Proof.
  induction eps as [|ep eps IH]; cbn [links_of]; [apply keeps_ret|]. unfold from_compat, print_qr. solve_keeps.
Qed.
Hint Resolve keeps_links keeps_load_reality keeps_load_hysteria : fs.

Lemma user_spares (W : path -> Prop) cfg d c : (forall q, W q -> aside cfg q) -> spares W (user_prog qr_fits cfg d c).
Proof.
  intros HW. destruct c; unfold user_prog, exit_prog, create_prog, mutation_prog, token_prog, remove_prog, load_prog,
    apply_prog, act; cbv zeta; walk_prog;
    match goal with Hq : W ?q |- _ => apply HW in Hq end;
    first [ by apply keeps_publish | by apply keeps_save_at | by apply keeps_map_err, keeps_save_at | apply keeps_now
          | unfold cmd_user_list, cmd_user_links, cmd_user_subscription, from_compat, load_users, print_qr; solve_keeps ].
Qed.
Lemma user_blind cfg d c : blind_prog (user_prog qr_fits cfg d c).
Proof.
  destruct c; unfold user_prog, exit_prog, create_prog, mutation_prog, token_prog, remove_prog, load_prog,
    apply_prog, act; cbv zeta; walk_prog; solve_blind.
Qed.
Lemma command_blind cfg config_path d c :
  (forall e dir, blind (tar_unpack_in e dir)) -> command_mutates_state c = true ->
  blind_prog (command_prog qr_fits cfg config_path d c).
Proof. intros Ht Hc. destruct c; try apply user_blind; by apply blind_prog_act, blind_command. Qed.

(** ** The deployment *)

(** What every invocation relies on: the settings files, the lock file and the
    directories above it. *)
Definition watched (js : list invocation) (L : path) (q : path) : Prop :=
  (exists j, j ∈ js /\ j_config j = q) \/ (q <> [] /\ q `prefix_of` L).

(** The lock file [L] is there and every command that changes state uses it; no
    unlocked command was told to write a report; and the commands leave the
    watched paths alone ([user_spares]). *)
Record deployment_ok (js : list invocation) (L : path) (f : fs) : Prop := {
  dep_lock : L <> [] /\ lock_ready L f;
  dep_env : forall j, j ∈ js -> mutates j = true -> lock_path (j_lock j) = L;
  dep_report : forall j, j ∈ js -> mutates j = false -> report_file (j_command j) = None;
  dep_spares : forall j cfg, j ∈ js -> mutates j = true -> settings_at (j_config j) f cfg ->
    spares (watched js L) (command_prog qr_fits cfg (j_config j) (j_draws j) (j_command j))
}.

Section Deployed.
Context (js : list invocation) (L : path) (f : fs) (Hdep : deployment_ok js L f).
Context (Hblind : forall j cfg, j ∈ js -> mutates j = true ->
  blind_prog (command_prog qr_fits cfg (j_config j) (j_draws j) (j_command j))).

Lemma deployed_reads i j : js !! i = Some j -> mutates j = false -> reads (program_of j).
Proof. intros Hj%list_elem_of_lookup_2 Hm. apply program_reads; [done|]. by apply (dep_report _ _ _ Hdep). Qed.
Lemma deployed_quiet i j : js !! i = Some j -> mutates j = true -> quiet (watched js L) f L (program_of j).
Proof.
  intros Hj%list_elem_of_lookup_2 Hm. destruct Hdep as [[Hne Hr] He _ Hs].
  apply program_quiet; [done|by apply He|done|done|left; by eauto|by right|]. intros cfg Hcfg. auto.
Qed.
Lemma deployed_ok s : steps (boot js f) s -> system_ok js f (watched js L) L s.
Proof. apply steps_ok; [exact deployed_reads|exact deployed_quiet]. Qed.
End Deployed.

(** C12: Concurrent commands have the effect of running one after the other.  In
    every state that any number of invocations can reach, interleaved in any
    way: no process gets the lock twice; when nobody holds it, the disk is the
    one left by the whole [main] of the processes that got it, run one after the
    other in that order; a step that changes the disk is one of the lock's
    holder; a command that changes state and exited did so with the result of
    its [main] at its place in that order, or, if it never got the lock, with
    the error that its [main] ends in on every such disk, changing nothing; and
    some process can go on while one is running.  Hypotheses: the lock file
    exists at the start and all commands that change state use it, no unlocked
    command was asked for a report file, the commands leave the settings files
    and the lock file alone (proved for the user commands, [user_spares]; it
    excludes `config migrate` of a settings file that is out of date), and
    unpacking an archive does not look at the ghost history. *)
Theorem concurrent_commands_serialize js L f s :
  (forall e dir, blind (tar_unpack_in e dir)) -> deployment_ok js L f -> steps (boot js f) s ->
  NoDup (order s) /\
  (held s !! L = None -> shared s = serially js (order s) f) /\
  (forall s', step s s' -> shared s' <> shared s ->
     exists i, held s !! L = Some i /\ forall k, k <> i -> procs s' !! k = procs s !! k) /\
  (forall i j p r, js !! i = Some j -> procs s !! i = Some p -> mutates j = true -> p_state p = Exited r ->
     (exists before after, order s = before ++ i :: after /\ r = (alone j (serially js before f)).1) \/
     (i ∉ order s /\ (exists e, r = Err e) /\ forall g, undisturbed (watched js L) f g -> alone j g = (r, g))) /\
  (forall i v q, procs s !! i = Some (running v q) -> exists s', step s s').
Proof.
  intros Htar Hdep Hs. assert (system_ok js f (watched js L) L s) as Hok.
  { apply deployed_ok; [done| |done]. intros j cfg _ Hm. by apply command_blind. }
  split; [by eapply ok_order|]. split; [by eapply ok_free|]. split; [intros s'; by eapply change_needs_lock|].
  split; [|intros i v q; by eapply never_stuck].
  intros i j p r Hj Hp Hm Hx. destruct (ok_procs _ _ _ _ _ Hok _ _ Hp) as (j' & Hj' & Hpk). assert (j' = j) as -> by congruence.
  unfold process_ok in Hpk. rewrite Hx, Hm in Hpk. destruct Hpk as [Hpk|(b & a & Ho & <-)]; [by right|left; by eauto].
Qed.
End Invocations.

(** ** Four operators at once: one disables Alice while another one enables Bob,
    the third lists the users, and the fourth is interrupted waiting for the lock *)
Module LockDemo.
Import StoreDemo RenderDemo ServerDemo ServiceDemo DeploymentDemo AdminDemo BackupDemo PerfDemo DoctorDemo CliDemo.
Definition lock_file : path := ["run"; "lock"; "vpn1.lock"].
Definition disk : fs :=
  <[["run"] := Dir dir_meta]> (<[["run"; "lock"] := Dir dir_meta]> (<[lock_file := file EmptyString]>
  (<[settings_path := file "settings"]> AdminDemo.state))).
Definition eintr : io_error := IoError OtherKind (Some 4) "Interrupted system call".
Definition interrupted : world := machine (fun n => if (n =? 3)%nat then Some (Fault eintr 0) else None).
Definition operator (v : world) (c : UserCommands) : invocation :=
  {| j_lock := None; j_config := settings_path; j_draws := draws; j_command := User c; j_view := v |}.
Definition operators : list invocation :=
  [operator wadm (Disable "a1"); operator wadm (Enable "b2"); operator wadm List; operator interrupted (Remove "b2")].
(** The second is at the lock when the first has it; the third reads in between. *)
Definition schedule : list nat := ([0; 1; 1; 1; 0; 0; 0; 1; 3; 3; 3; 2; 0; 0; 1; 2; 0; 3; 2; 0; 0; 1; 3; 1; 1; 1; 1; 1; 1])%nat.
Definition final : system := follow schedule (boot (fun _ => true) operators disk).

Lemma final_state :
  order final = [0; 1]%nat /\ held final !! lock_file = None /\
  (is_ok <$> omap (fun p => match p_state p with Exited r => Some r | Running _ => None end) (procs final)) = [true; true; true; false].
Proof. vm_compute. done. Qed.

Lemma prefixes (q : path) : q <> [] -> q `prefix_of` lock_file -> q ∈ [["run"]; ["run"; "lock"]; lock_file].
Proof.
  unfold lock_file. intros Hne Hq. destruct q as [|a [|b [|c q]]]; [done|..];
    repeat match goal with H : _ :: _ `prefix_of` _ :: _ |- _ =>
      pose proof (prefix_cons_inv_1 _ _ _ _ H); apply prefix_cons_inv_2 in H; subst end.
  all: try (apply prefix_nil_inv in Hq; subst). all: set_solver.
Qed.
Lemma watched_aside q : watched operators lock_file q -> aside AdminDemo.cfg q.
Proof.
  intros [(j & Hj & <-)|[Hne Hq]].
  - assert (j_config j = settings_path) as ->.
    { unfold operators in Hj. rewrite !elem_of_cons in Hj. destruct Hj as [->|[->|[->|[->|Hj]]]]; try done. by apply not_elem_of_nil in Hj. }
    split; intros [k Hk]; vm_compute in Hk; discriminate.
  - pose proof (prefixes q Hne Hq) as Hin. rewrite !elem_of_cons in Hin.
    destruct Hin as [->|[->|[->|Hin]]]; [..|by apply not_elem_of_nil in Hin]; split; intros [k Hk]; vm_compute in Hk; discriminate.
Qed.
Lemma settings_here : settings_at settings_path disk AdminDemo.cfg.
Proof. vm_compute. reflexivity. Qed.
Lemma lock_there : lock_ready lock_file disk.
Proof.
  split; [eexists _, _; vm_compute; reflexivity|]. intros d Hne Hd.
  assert (d `prefix_of` lock_file) as Hp by (etrans; [exact Hd|apply removelast_prefix]).
  pose proof (prefixes d Hne Hp) as Hin. rewrite !elem_of_cons in Hin.
  destruct Hin as [->|[->|[->|Hin]]]; [eexists; vm_compute; reflexivity|eexists; vm_compute; reflexivity| |by apply not_elem_of_nil in Hin].
  apply prefix_length in Hd. vm_compute in Hd. lia.
Qed.
Lemma an_operator j : j ∈ operators ->
  exists u, j_command j = User u /\ j_config j = settings_path /\ j_lock j = None /\ (mutates j = false -> u = List).
Proof.
  unfold operators. rewrite !elem_of_cons.
  intros [->|[->|[->|[->|Hj]]]]; [..|by apply not_elem_of_nil in Hj]; eexists; (split; [reflexivity|]); by vm_compute.
Qed.
Lemma deployed : deployment_ok (fun _ => true) operators lock_file disk.
Proof.
  split.
  - split; [discriminate|exact lock_there].
  - intros j Hj _. by destruct (an_operator j Hj) as (u & _ & _ & -> & _).
  - intros j Hj Hm. by destruct (an_operator j Hj) as (u & -> & _ & _ & Hu).
  - intros j cfg Hj _ Hcfg. destruct (an_operator j Hj) as (u & -> & Hp & _). rewrite Hp in Hcfg.
    assert (cfg = AdminDemo.cfg) as -> by (pose proof settings_here as Hs; unfold settings_at in *; congruence).
    apply user_spares. exact watched_aside.
Qed.
Lemma unpack_blind e dir : blind (tar_unpack_in e dir).
Proof. cbn. destruct (entry_path e) as [raw|]; [|done]. destruct (normalize raw); [apply blind_syscall|done]. Qed.
End LockDemo.

Section LockWitnesses.
Import StoreDemo RenderDemo ServerDemo ServiceDemo DeploymentDemo AdminDemo BackupDemo PerfDemo DoctorDemo CliDemo LockDemo.

Lemma concurrent_commands_serialize_witness :
  order final = [0; 1]%nat /\
  shared final = serially (fun _ => true) operators [0; 1]%nat LockDemo.disk /\
  (load_users (users_file AdminDemo.cfg) (calm_world (serially (fun _ => true) operators [0; 1]%nat LockDemo.disk))).1 =
    Ok [set_enabled false alice; set_enabled true bob].
Proof.
  destruct final_state as (Ho & Hh & _). split; [exact Ho|]. split; [|vm_compute; reflexivity]. rewrite <-Ho.
  exact (proj1 (proj2 (concurrent_commands_serialize (fun _ => true) operators lock_file LockDemo.disk final
    unpack_blind deployed (follow_steps schedule _))) Hh).
Defined.
End LockWitnesses.
