(* ===== verification/Startup.v ===== *)
(** * services/subscription: starting the service

    Models main of services/subscription/src/main.rs: the settings and the public
    key material are read once, checked, and cached for the life of the process.
    The socket and the HTTP server around the handlers are libraries. *)

From stdpp Require Import pretty.
From Stdlib Require Import Strings.Byte.
From S2P Require Import Prelude Bytes Io Serde Fs Model Store Render Http Fl RateLimiter Server Subscription.
From S2P Require Import Deployment Service Anyhow Selftest Admin Rotate Backup Status Doctor Cli.

Section Start.
Context {HexI : Hex} {B64 : Base64Url} {X : X25519} {TO : DeploymentToml}.

(** The state of the service and the loopback port it listens on. *)
Definition start_subscription (config_path : path) : IO anyhow (AppState * Z) :=
  do cfg <- context ("loading deployment config from " +:+ path_debug config_path) (from_compat (load config_path));
  do public_key <- context "reality public key missing — run `vpn-admin init` on the server first"
    (from_io (read_trimmed (reality_public_key_file cfg)));
  context "reality public key is present but invalid — refusing to start and serve broken subscriptions; run `vpn-admin doctor` to diagnose"
    (io_lift (map_err bail (validate_reality_public_key_shape public_key))) ;;
  do short_id <- context "reality short_id missing — run `vpn-admin init` on the server first"
    (from_io (read_trimmed (reality_dir cfg ++ ["short_id.txt"])));
  context "reality short_id is present but invalid — refusing to start and serve broken subscriptions; run `vpn-admin doctor` to diagnose"
    (io_lift (map_err bail (validate_reality_short_id short_id))) ;;
  io_try (fs_read_to_string (hysteria_obfs_password_file cfg)) (fun r =>
    let hysteria_obfs_password :=
      match r with
      | Ok s => let s := trim s in if String.eqb s EmptyString then None else Some s
      | Err _ => None
      end in
    let eps := standard_endpoints (public_host cfg) (reality_listen_port (reality cfg))
      (hysteria2_listen_port (hysteria2 cfg)) public_key short_id (handshake_server (reality cfg))
      hysteria_obfs_password in
    io_ret ({| Subscription.users_file := users_file cfg; endpoints := eps;
               rate_limiter := limiter_new (200 * fone f64) (50 * fone f64) |},
            subscription_listen_port (subscription cfg))).
End Start.

Section StartFacts.
Context {C : Clock} {Env : AdminEnv}.
Context {HexI : Hex} {Sha : Sha256} {B64 : Base64Url} {X : X25519} {TO : DeploymentToml}.
Context {JV : Json json} {JU : Json UsersFile} {JL : Json (list CompatUser)}.

Lemma read_trimmed_Ok_inv p w s w' :
  read_trimmed p w = (Ok s, w') ->
  w' = push_fs (w_fs w) w /\ forall w0, calm_at (w_fs w) w0 -> (read_trimmed p w0).1 = Ok s.
Proof.
  intros (t & w1 & Hr & [= <- <-])%io_bind_Ok_inv. apply fs_read_to_string_Ok_inv in Hr as ((mt & Hf) & Hs & ->).
  split; [done|]. intros w0 [Hw Hn]. unfold read_trimmed, io_bind, fs_read_to_string. unfold io_bind.
  rewrite <-Hw in Hf. rewrite (fs_read_ok _ _ _ _ (Hn _) Hf). cbn. unfold from_utf8. rewrite Hs. cbn.
  by rewrite str_of_as_bytes.
Qed.

(** What the server's side reads in a calm world, in terms of the same files. *)
Lemma load_reality_reads cfg w params w' :
  load_reality_params cfg w = (Ok params, w') ->
  (forall w0, calm_at (w_fs w) w0 -> (read_trimmed (reality_public_key_file cfg) w0).1 = Ok (r_public_key_hex params)) /\
  (exists sid, r_short_ids params = [sid] /\
     forall w0, calm_at (w_fs w) w0 -> (read_trimmed (reality_dir cfg ++ ["short_id.txt"]) w0).1 = Ok sid) /\
  r_handshake_server params = handshake_server (reality cfg).
Proof.
  intros H. apply io_bind_Ok_inv in H as (priv & w1 & H1%io_map_err_Ok_inv%io_map_err_Ok_inv & H).
  apply read_trimmed_Ok_inv in H1 as [-> _].
  apply io_bind_Ok_inv in H as (pub & w2 & H2%io_map_err_Ok_inv & H). apply read_trimmed_Ok_inv in H2 as [-> H2].
  apply io_bind_Ok_inv in H as (u & w3 & H3%io_map_err_Ok_inv & H). injection H3 as _ <-.
  apply io_bind_Ok_inv in H as (sid & w4 & H4%io_map_err_Ok_inv & H). apply read_trimmed_Ok_inv in H4 as [-> H4].
  injection H as <- _. cbn. split; [exact H2|]. split; [|done]. exists sid. split; [done|exact H4].
Qed.

Lemma load_hysteria_calm cfg f w :
  calm_at f w ->
  expose <$> h_obfs_password (default (Build_Hysteria2ServerParams "" "" None None None None) (ok (load_hysteria_params cfg w).1)) =
  match (fs_read_to_string (hysteria_obfs_password_file cfg) w).1 with
  | Ok s => let s := trim s in if String.eqb s EmptyString then None else Some s
  | Err _ => None
  end.
Proof.
  intros Hw. unfold load_hysteria_params, io_try. destruct (fs_read_to_string _ w) as [[s|e] w1]; cbn; [|done].
  by destruct (String.eqb (trim s) "").
Qed.

(** A successful start, step by step, in a world in which no call fails. *)
Lemma start_inv config_path f w s port w' :
  calm_at f w -> start_subscription config_path w = (Ok (s, port), w') ->
  exists cfg public_key short_id obfs w1 w2 w3,
    (load config_path w).1 = Ok cfg /\ calm_at f w1 /\ calm_at f w2 /\ calm_at f w3 /\ w_fs w' = f /\
    (read_trimmed (reality_public_key_file cfg) w1).1 = Ok public_key /\
    (read_trimmed (reality_dir cfg ++ ["short_id.txt"]) w2).1 = Ok short_id /\
    obfs = match (fs_read_to_string (hysteria_obfs_password_file cfg) w3).1 with
           | Ok s => let s := trim s in if String.eqb s EmptyString then None else Some s
           | Err _ => None
           end /\
    endpoints s = standard_endpoints (public_host cfg) (reality_listen_port (reality cfg))
      (hysteria2_listen_port (hysteria2 cfg)) public_key short_id (handshake_server (reality cfg)) obfs /\
    Subscription.users_file s = users_file cfg /\ port = subscription_listen_port (subscription cfg).
Proof.
  intros Hw H. apply io_bind_Ok_inv in H as (cfg & w1 & H1%io_map_err_Ok_inv%io_map_err_Ok_inv & H).
  assert (calm_at f w1) as Hw1.
  { destruct (probes_load (calm_at f) config_path w Hw) as [Hc _]. by rewrite H1 in Hc. }
  apply io_bind_Ok_inv in H as (pk & w2 & H2%io_map_err_Ok_inv%io_map_err_Ok_inv & H).
  assert (calm_at f w2) as Hw2.
  { destruct (probes_read_trimmed (calm_at f) (reality_public_key_file cfg) w1 Hw1) as [Hc _]. by rewrite H2 in Hc. }
  apply io_bind_Ok_inv in H as (u & w3 & H3%io_map_err_Ok_inv & H). injection H3 as _ <-.
  apply io_bind_Ok_inv in H as (sid & w4 & H4%io_map_err_Ok_inv%io_map_err_Ok_inv & H).
  assert (calm_at f w4) as Hw4.
  { destruct (probes_read_trimmed (calm_at f) (reality_dir cfg ++ ["short_id.txt"]) w2 Hw2) as [Hc _]. by rewrite H4 in Hc. }
  apply io_bind_Ok_inv in H as (v & w5 & H5%io_map_err_Ok_inv & H). injection H5 as _ <-.
  apply io_try_inv in H as (r & w6 & H6 & H). injection H as <- <- <-.
  destruct (probes_read_to_string (calm_at f) (hysteria_obfs_password_file cfg) w4 Hw4) as [[Hc _] _]. rewrite H6 in Hc.
  eexists cfg, pk, sid, _, w1, w2, w4. rewrite H1, H2, H4, H6. by split_and!.
Qed.

(** C32: A service and a server started from the same files agree.  If the
    subscription service starts on a disk from which the server's parameters
    can be loaded, no call failing, then it caches exactly the endpoints of
    those parameters: every subscription it will serve to a user that the
    configuration rendered from this disk counts as active is admitted by that
    configuration over both transports. *)
Theorem fresh_service_agrees config_path w s port w' cfg params hysteria_params :
  (forall n, w_fault w n = None) ->
  start_subscription config_path w = (Ok (s, port), w') ->
  (load config_path w).1 = Ok cfg ->
  (load_reality_params cfg w).1 = Ok params -> (load_hysteria_params cfg w).1 = Ok hysteria_params ->
  endpoints s = current_endpoints cfg params hysteria_params /\ Subscription.users_file s = users_file cfg /\
  port = subscription_listen_port (subscription cfg) /\ w_fs w' = w_fs w /\
  forall users now u ep, u ∈ users -> Model.is_active u now = true -> ep ∈ endpoints s ->
    match ep_transport ep with
    | VlessReality => vless_admits (server_config params hysteria_params (cfg_ports cfg) users now) (client_outbound u ep)
    | Hysteria2 => hysteria_admits (server_config params hysteria_params (cfg_ports cfg) users now) (client_outbound u ep)
    end.
Proof.
  intros Hn Hstart Hload Hp Hh. assert (calm_at (w_fs w) w) as Hw by done.
  destruct (start_inv _ _ _ _ _ _ Hw Hstart) as
    (cfg0 & pk & sid & obfs & w1 & w2 & w3 & Hcfg & Hw1 & Hw2 & Hw3 & Hfs & Hpk & Hsid & Hobfs & Heps & Huf & Hport).
  assert (cfg0 = cfg) as -> by congruence.
  destruct (load_reality_params cfg w) as [r wr] eqn:Er. cbn in Hp. subst r.
  destruct (load_reality_reads _ _ _ _ Er) as (Rp & (sid' & Hsids & Rs) & Hserver).
  rewrite (Rp _ Hw1) in Hpk. rewrite (Rs _ Hw2) in Hsid. injection Hpk as <-. injection Hsid as <-.
  assert (obfs = expose <$> h_obfs_password hysteria_params) as ->.
  { rewrite Hobfs, (determined_read_to_string (w_fs w) _ w3 w Hw3 Hw), <-(load_hysteria_calm cfg (w_fs w) w Hw), Hh. done. }
  assert (endpoints s = deployed_endpoints (public_host cfg) (r_public_key_hex params) sid' params hysteria_params
    (cfg_ports cfg)) as Edep by (rewrite Heps; unfold deployed_endpoints; by rewrite Hserver).
  assert (sid' ∈ r_short_ids params) as Hin by (rewrite Hsids; apply list_elem_of_here).
  split_and!; try done.
  - rewrite Edep. unfold current_endpoints. by rewrite Hsids.
  - intros users now u ep Hu Ha Hep. rewrite Edep in Hep. destruct (ep_transport ep) eqn:Et.
    + apply (vless_admits_iff (public_host cfg) (r_public_key_hex params) sid'); [done|done|done|]. split; [by eauto|].
      by eapply loaded_key_shared.
    + apply (hysteria_admits_iff (public_host cfg) (r_public_key_hex params) sid'); eauto.
Qed.
End StartFacts.

(** ** A concrete start *)
Section StartWitness.
Import StoreDemo RenderDemo ServerDemo ServiceDemo DeploymentDemo AdminDemo BackupDemo DoctorDemo CliDemo.
Let started := start_subscription settings_path on_host.

Lemma fresh_service_agrees_witness :
  exists s, fst started = Ok (s, 8090) /\ endpoints s = endpoints service.
Proof.
  assert (exists s, started = (Ok (s, 8090), snd started)) as (s & Hs).
  { eexists. refine (run_of_fst (start_subscription settings_path) on_host _ _). vm_compute. reflexivity. }
  exists s. split; [rewrite Hs; reflexivity|].
  refine (proj1 (fresh_service_agrees settings_path on_host s 8090 (snd started) AdminDemo.cfg params hysteria_params
    _ Hs _ _ _)); [done|vm_compute; reflexivity..].
Defined.
End StartWitness.
