(* ===== verification/Lifecycle.v ===== *)
(** * The life of an account: apps/admin, the users store and services/subscription

    What the [user] commands of [vpn-admin] promise together, and what the
    subscription service makes of it.  The abstract state is a table of accounts
    by identifier; every command is one step on that table ([account_step]), and
    the commands of Admin, which read, publish and replace [users.json] under
    every fault, refine it.  A subscription service that reads the same file
    answers for the table, so that a token stops working with the command that
    revokes it. *)

From Stdlib Require Import Strings.Byte.
From S2P Require Import Prelude Bytes Io Serde Fs Model Store Render Http RateLimiter Server Subscription.
From S2P Require Import Deployment Service Anyhow Selftest Admin Rotate Backup Status Perf Doctor Report Cli Blind Lock.

(** ** The table *)
Notation Accounts := (gmap string CompatUser).
Definition accounts_of (users : list CompatUser) : Accounts := list_to_map ((fun u => (u_id u, u)) <$> users).

Lemma accounts_keys users : ((fun u => (u_id u, u)) <$> users).*1 = u_id <$> users.
Proof. rewrite <-list_fmap_compose. by apply list_fmap_ext. Qed.
Lemma accounts_lookup users id u :
  NoDup (u_id <$> users) -> accounts_of users !! id = Some u <-> u ∈ users /\ u_id u = id.
Proof.
  intros Hn. unfold accounts_of. rewrite <-elem_of_list_to_map by (by rewrite accounts_keys).
  rewrite list_elem_of_fmap. naive_solver.
Qed.
Lemma accounts_free users id : id ∉ u_id <$> users -> accounts_of users !! id = None.
Proof. intros Hi. apply not_elem_of_list_to_map_1. by rewrite accounts_keys. Qed.
Lemma accounts_cons u users : accounts_of (u :: users) = <[u_id u := u]> (accounts_of users).
Proof. done. Qed.
Lemma accounts_extend users u :
  u_id u ∉ u_id <$> users -> accounts_of (users ++ [u]) = <[u_id u := u]> (accounts_of users).
Proof.
  intros Hi. unfold accounts_of. rewrite fmap_app, list_to_map_app. cbn.
  rewrite <-insert_union_r by (by apply accounts_free). by rewrite map_union_empty.
Qed.

(** One command, on the table.  [d] is what the invocation draws. *)
Section Steps.
Context {HexI : Hex} {Sha : Sha256} {B64 : Base64Url}.

Definition change (id : string) (f : CompatUser -> CompatUser) (a a' : Accounts) : Prop :=
  exists u, a !! id = Some u /\ a' = <[id := f u]> a.
Definition account_step (d : Draws) (c : UserCommands) (a a' : Accounts) : Prop :=
  match c with
  | Create name expires_at _ _ =>
      (exists id now, a !! id = None /\ a' = <[id := new_user id name (d_create d) now expires_at]> a) \/
      ((forall draw, draw ∈ id_draws (d_create d) -> is_Some (a !! generate_user_id draw)) /\ a' = a)
  | List | Links _ _ | Subscription _ => a' = a
  | Enable id => change id (set_enabled true) a a'
  | Disable id => change id (set_enabled false) a a'
  | RotateVless id => change id (set_uuid (generate_uuid_v4 (d_uuid16 d))) a a'
  | RotateHysteria id => change id (set_password (MkSecret (generate_hysteria2_password (d_password24 d)))) a a'
  | RotateCredentials id => change id (fun u => set_password (MkSecret (generate_hysteria2_password (d_password24 d)))
      (set_uuid (generate_uuid_v4 (d_uuid16 d)) u)) a a'
  | Qr id | RotateToken id _ => change id (set_token_hash (hash_token (generate_subscription_token (d_token20 d)))) a a'
  | Remove id => is_Some (a !! id) /\ a' = delete id a
  end.
End Steps.

Lemma update_user_accounts id f users changed :
  (forall u, u_id (f u) = u_id u) -> NoDup (u_id <$> users) -> update_user id f users = Some changed ->
  u_id <$> changed = u_id <$> users /\ change id f (accounts_of users) (accounts_of changed).
Proof.
  intros Hf. revert changed. induction users as [|u users IH]; intros changed Hn Hu; [done|]. cbn in Hu.
  apply NoDup_cons in Hn as [Hu' Hn]. destruct (String.eqb_spec (u_id u) id) as [<-|Hne].
  - injection Hu as <-. split; [cbn; by rewrite Hf|]. exists u. rewrite !accounts_cons, Hf.
    split; [apply lookup_insert_eq|]. by rewrite insert_insert_eq.
  - apply fmap_Some in Hu as (rest & Hrest & ->). destruct (IH rest Hn Hrest) as (Hk & v & Hv & Hc).
    split; [cbn; by rewrite Hk|]. exists v. rewrite !accounts_cons.
    split; [by rewrite lookup_insert_ne|]. by rewrite Hc, insert_insert_ne.
Qed.
Lemma remove_user_accounts id users :
  NoDup (u_id <$> users) ->
  let kept := List.filter (fun u => negb (String.eqb (u_id u) id)) users in
  NoDup (u_id <$> kept) /\ accounts_of kept = delete id (accounts_of users) /\
  (length kept <> length users -> is_Some (accounts_of users !! id)).
Proof.
  intros Hn kept. assert (sublist (u_id <$> kept) (u_id <$> users)) as Hsub.
  { unfold kept. clear. induction users as [|u users IH]; cbn; [constructor|].
    destruct (negb _); cbn; by constructor. }
  assert (NoDup (u_id <$> kept)) as Hk by (by eapply sublist_NoDup).
  assert (forall u, u ∈ kept <-> u ∈ users /\ u_id u <> id) as Hin.
  { intros u. unfold kept. rewrite !list_elem_of_In, filter_In, negb_true_iff, String.eqb_neq. done. }
  split; [done|]. split.
  - apply map_eq. intros i. apply option_eq. intros u. rewrite lookup_delete_Some, !accounts_lookup, Hin by done. naive_solver.
  - intros Hl. destruct (accounts_of users !! id) as [u|] eqn:E; [by eexists|]. exfalso. apply Hl. unfold kept. f_equal.
    apply forallb_filter_id, forallb_forall. intros u Hu%list_elem_of_In. apply negb_true_iff, String.eqb_neq. intros Hid.
    assert (accounts_of users !! id = Some u) as E' by (by apply accounts_lookup). by rewrite E in E'.
Qed.
Lemma fresh_user_id_spec users draws :
  match fresh_user_id users draws with
  | Some id => id ∉ u_id <$> users
  | None => forall draw, draw ∈ draws -> generate_user_id draw ∈ u_id <$> users
  end.
Proof.
  induction draws as [|e draws IH]; cbn; [by intros ? ?%not_elem_of_nil|].
  destruct (existsb _ users) eqn:Ex.
  - apply existsb_exists in Ex as (u & Hu%list_elem_of_In & Hid%String.eqb_eq).
    destruct (fresh_user_id users draws); [done|]. intros draw [->|Hd]%elem_of_cons; [|by apply IH].
    apply list_elem_of_fmap. by exists u.
  - intros (u & Hid & Hu)%list_elem_of_fmap. apply not_true_iff_false in Ex. apply Ex, existsb_exists.
    exists u. split; [by apply list_elem_of_In|by apply String.eqb_eq].
Qed.

(** ** The file holds the table *)
Section Refinement.
Context {C : Clock} {Env : AdminEnv} {HexI : Hex} {Sha : Sha256} {B64 : Base64Url} {X : X25519}.
Context {JV : Json json} {JU : Json UsersFile} {JL : Json (list CompatUser)} {JUL : JsonLaws UsersFile}.
Context (qr_fits : string -> bool) (cfg : DeploymentConfig).

Definition holds (f : fs) (a : Accounts) : Prop :=
  exists users, NoDup (u_id <$> users) /\ accounts_of users = a /\
  match f !! users_file cfg with
  | None => users = []
  | Some (File _ json) => parse_users_bytes json = Ok users
  | Some (Dir _) => False
  end.
Lemma holds_ext f g a : g !! users_file cfg = f !! users_file cfg -> holds f a -> holds g a.
Proof. intros E. unfold holds. by rewrite E. Qed.
Lemma holds_stored f mt json users :
  NoDup (u_id <$> users) -> f !! users_file cfg = Some (File mt json) -> stored users json -> holds f (accounts_of users).
Proof. intros Hn Hf [_ Hp]. exists users. by rewrite Hf. Qed.

(** The code that prints did not fit; by then the change is done. *)
Definition qr_error : anyhow := with_context "encoding QR code" (bail "data too long").

(** The outcome of a command that is to take the table to one of [op]: it did;
    or it failed and the file is untouched, or the change was saved and only its
    QR code could not be printed. *)
Definition outcome {A : Type} (op : Accounts -> Prop) (w : world) (r : result anyhow A) (w' : world) : Prop :=
  let saved := exists a', holds (w_fs w') a' /\ op a' in
  match r with
  | Ok _ => saved
  | Err e => w_fs w' !! users_file cfg = w_fs w !! users_file cfg \/ (e = qr_error /\ saved)
  end.
Definition refines {A : Type} (op : Accounts -> Accounts -> Prop) (m : IO anyhow A) : Prop :=
  forall w r w' a, holds (w_fs w) a -> m w = (r, w') -> outcome (op a) w r w'.

Lemma refines_exit {A : Type} op (m : IO anyhow A) : refines op m -> refines op (exit_ok m).
Proof.
  intros Hm w r w' a Ha Hr. apply io_bind_inv in Hr as [(x & w1 & Hx & [= <- <-])|(e & Hx & ->)];
    exact (Hm _ _ _ _ Ha Hx).
Qed.

Lemma load_users_inv p w r w' :
  load_users p w = (r, w') -> w_fs w' = w_fs w /\ forall users, r = Ok users ->
  match w_fs w !! p with
  | None => users = []
  | Some (File _ json) => parse_users_bytes json = Ok users
  | Some (Dir _) => False
  end.
Proof.
  unfold load_users, io_bind at 1. rewrite path_exists_run. unfold exists_at. case_bool_decide as Hex; cbn [negb].
  - intros [(d & w1 & Hd & Hr)|(e & Hd & ->)]%io_bind_inv;
      apply io_map_err_inv in Hd as (r0 & [-> Hd]%fs_read_inv & Er).
    + symmetry in Er. apply map_err_Ok_inv in Er as ->. destruct Hd as [mt Hd]. injection Hr as <- <-.
      split; [done|]. intros users Hp. by rewrite Hd.
    + by split.
  - intros [= <- <-]. split; [done|]. intros users [= <-]. apply eq_None_not_Some in Hex. by rewrite Hex.
Qed.

(** A command reads the users first. *)
Lemma refines_load {A : Type} op (k : list CompatUser -> IO anyhow A) :
  (forall users w r w', NoDup (u_id <$> users) -> holds (w_fs w) (accounts_of users) -> k users w = (r, w') ->
     outcome (op (accounts_of users)) w r w') ->
  refines op (do users <- from_compat (load_users (users_file cfg)); k users).
Proof.
  intros Hk w r w' a (users0 & Hn & Ha & Hf) Hr.
  apply io_bind_inv in Hr as [(users & w1 & Hl%io_map_err_Ok_inv & Hr)|(e & Hl & ->)].
  - apply load_users_inv in Hl as [E Hu]. specialize (Hu users eq_refl).
    assert (users0 = users) as ->. { destruct (w_fs w !! users_file cfg) as [[]|]; [congruence|done|congruence]. }
    subst a. assert (holds (w_fs w1) (accounts_of users)) as Hh. { exists users. by rewrite E. }
    pose proof (Hk users w1 r w' Hn Hh Hr) as Ho. unfold outcome in *. by rewrite E in Ho.
  - apply io_map_err_inv in Hl as (r0 & [E _]%load_users_inv & _). left. by rewrite E.
Qed.

(** Publishing new users, and saving them. *)
Lemma refines_publish op previous users w r w' :
  NoDup (u_id <$> users) -> op (accounts_of users) ->
  apply_users_and_save cfg previous users w = (r, w') -> outcome op w r w'.
Proof.
  intros Hn Ho Hr%apply_users_spec. destruct r as [live|e]; [|by left].
  destruct Hr as (_ & _ & _ & _ & mt & json & Hf & Hst). exists (accounts_of users). split; [by eapply holds_stored|done].
Qed.
Lemma print_qr_inv data w r w' : print_qr qr_fits data w = (r, w') -> w' = w /\ (r = Ok tt \/ r = Err qr_error).
Proof. unfold print_qr. destruct (qr_fits data); intros [= <- <-]; auto. Qed.
(** ... and then printing the code, if asked to. *)
Lemma refines_print {A : Type} (qr : bool) data (x : A) op w w1 r w' :
  (exists a', holds (w_fs w1) a' /\ op a') ->
  ((if qr then print_qr qr_fits data else io_ret tt) ;; io_ret x) w1 = (r, w') -> outcome op w r w'.
Proof.
  intros Hs [([] & w2 & Hp & [= <- <-])|(e & Hp & ->)]%io_bind_inv; destruct qr; try done.
  - by apply print_qr_inv in Hp as [-> _].
  - by injection Hp as <-.
  - apply print_qr_inv in Hp as [-> [E|E]]; [done|]. injection E as ->. by right.
Qed.

Lemma refines_mutate id f :
  (forall u, u_id (f u) = u_id u) -> refines (change id f) (mutate_and_apply cfg id f).
Proof.
  intros Hf. apply refines_load. intros users w r w' Hn _ Hr.
  apply io_bind_inv in Hr as [(changed & w2 & [= Hu <-] & Hr)|(e & [= Hu <-] & ->)]; [|by left].
  apply ok_or_Ok_inv in Hu. destruct (update_user_accounts _ _ _ _ Hf Hn Hu) as [Hk Hc].
  eapply refines_publish; [|exact Hc|exact Hr]. by rewrite Hk.
Qed.
Lemma refines_rotate_token id qr entropy :
  refines (change id (set_token_hash (hash_token (generate_subscription_token entropy))))
    (cmd_user_rotate_token qr_fits cfg id qr entropy).
Proof.
  apply refines_load. intros users w r w' Hn _ Hr.
  apply io_bind_inv in Hr as [(changed & w2 & [= Hu <-] & Hr)|(e & [= Hu <-] & ->)]; [|by left].
  apply ok_or_Ok_inv in Hu. destruct (fun H => update_user_accounts _ _ _ _ H Hn Hu) as [Hk Hc]; [done|].
  apply io_bind_inv in Hr as [([] & w3 & Hs%io_map_err_Ok_inv & Hr)|(e & Hs & ->)].
  - apply save_users_spec in Hs as (new & _ & mt & json & Hf & Hst & _).
    eapply refines_print; [|exact Hr]. exists (accounts_of changed). split; [|done].
    eapply holds_stored; [by rewrite Hk|done..].
  - apply io_map_err_inv in Hs as (r0 & (new & _ & Hs)%save_users_spec & Er). destruct r0; [done|]. left. apply Hs.
Qed.
Lemma refines_create d name expires qr json_output :
  refines (account_step d (Create name expires qr json_output))
    (cmd_user_create qr_fits cfg name expires qr json_output (d_create d)).
Proof.
  apply refines_load. intros users w r w' Hn Hh. pose proof (fresh_user_id_spec users (id_draws (d_create d))) as Hfresh.
  destruct (fresh_user_id _ _) as [id|].
  - intros [(now & w1 & [= <- <-] & Hr)|(e & [=] & _)]%io_bind_inv.
    set (u := new_user id name (d_create d) _ expires) in *.
    assert (NoDup (u_id <$> users ++ [u])) as Hn'.
    { rewrite fmap_app. apply NoDup_app. split_and!; [done| |apply NoDup_singleton]. by intros x Hx ->%list_elem_of_singleton. }
    assert (account_step d (Create name expires qr json_output) (accounts_of users) (accounts_of (users ++ [u]))) as Hstep.
    { left. exists id, (u_created_at u). split; [by apply accounts_free|]. by rewrite accounts_extend. }
    apply io_bind_inv in Hr as [(live & w2 & Ha & Hr)|(e & Ha & ->)];
      pose proof (refines_publish _ _ _ _ _ _ Hn' Hstep Ha) as Ho; [|exact Ho].
    cbv zeta in Hr. destruct json_output; [injection Hr as <- <-; exact Ho|]. by eapply refines_print.
  - intros [= <- <-]. exists (accounts_of users). split; [done|]. right. split; [|done]. intros draw Hd.
    apply Hfresh, list_elem_of_fmap in Hd as (u & Hid & Hu). exists u. by apply accounts_lookup.
Qed.
Lemma refines_remove id : refines (fun a a' => is_Some (a !! id) /\ a' = delete id a) (cmd_user_remove cfg id).
Proof.
  apply refines_load. intros users w r w' Hn _. destruct (remove_user_accounts id users Hn) as (Hk & Ha & Hs).
  cbv zeta. destruct (Nat.eqb_spec (length (List.filter (fun u => negb (String.eqb (u_id u) id)) users)) (length users)) as [|Hl].
  - intros [= <- <-]. by left.
  - intros Hr. eapply refines_publish; [exact Hk| |exact Hr]. split; [by apply Hs|done].
Qed.
(** A command that only reads. *)
Lemma refines_keeps {A : Type} (m : IO anyhow A) : keeps (users_file cfg) m -> refines (fun a a' => a' = a) m.
Proof.
  intros Hk w r w' a Ha Hr. destruct (keeps_final _ _ _ _ _ Hk Hr) as [E _].
  destruct r; [exists a; split; [by eapply holds_ext|done]|by left].
Qed.
Lemma keeps_from_store {A : Type} q p (k : list CompatUser -> IO anyhow A) :
  (forall users, keeps q (k users)) -> keeps q (do users <- from_compat (load_users p); k users).
Proof. intros Hk. apply keeps_bind; [|done]. unfold from_compat, load_users. solve_keeps. Qed.
Hint Resolve keeps_links keeps_load_reality keeps_load_hysteria : fs.

Lemma refines_user d c : refines (account_step d c) (run_user qr_fits cfg d c).
Proof.
  destruct c; cbn [run_user]; apply refines_exit; cbn [account_step].
  - apply refines_create.
  - apply refines_keeps, keeps_from_store. intros. apply keeps_ret.
  - apply refines_rotate_token.
  - apply refines_keeps, keeps_from_store. intros users. solve_keeps.
  - by apply refines_mutate.
  - by apply refines_mutate.
  - apply refines_rotate_token.
  - by apply refines_mutate.
  - by apply refines_mutate.
  - by apply refines_mutate.
  - apply refines_remove.
  - apply refines_keeps, keeps_from_store. intros. apply keeps_lift.
Qed.

(** ** Between the first and the last state *)

(** In every state on the way, [p] is what it was or what it ends up as. *)
Definition switches {E A : Type} (p : path) (m : IO E A) : Prop :=
  forall w r w', m w = (r, w') -> exists new, extends w w' new /\
    Forall (fun f => f !! p = w_fs w !! p \/ f !! p = w_fs w' !! p) new.

Lemma switches_keeps {E A : Type} p (m : IO E A) : keeps p m -> switches p m.
Proof.
  intros Hm w r w' Hr. destruct (Hm _ _ _ Hr) as (_ & new & Hx & Hn). exists new. split; [done|].
  eapply Forall_impl; [exact Hn|]. by left.
Qed.
Lemma switches_save p users : switches p (save_users_atomic p users).
Proof.
  intros w r w' (new & Hx & Hs)%save_users_spec. exists new. split; [done|]. destruct r.
  - destruct Hs as (mt & json & Hf & _ & _ & _ & Hn). by rewrite Hf.
  - destruct Hs as [_ Hn]. eapply Forall_impl; [exact Hn|]. by left.
Qed.
(** A switch after steps that leave [p] alone, and before such steps. *)
Lemma switches_after {E F A B : Type} p (m : IO E A) (k : result E A -> IO F B) :
  keeps p m -> (forall r, switches p (k r)) -> switches p (io_try m k).
Proof.
  intros Hm Hk w r w' (r1 & w1 & H1 & H2)%io_try_inv. destruct (Hm _ _ _ H1) as (E1 & new1 & X1 & F1).
  destruct (Hk _ _ _ _ H2) as (new2 & X2 & F2). exists (new2 ++ new1). split; [by eapply extends_trans|].
  rewrite E1 in F2. apply Forall_app_2; [done|]. eapply Forall_impl; [exact F1|]. by left.
Qed.
Lemma switches_before {E F A B : Type} p (m : IO E A) (k : result E A -> IO F B) :
  switches p m -> (forall r, keeps p (k r)) -> switches p (io_try m k).
Proof.
  intros Hm Hk w r w' (r1 & w1 & H1 & H2)%io_try_inv. destruct (Hm _ _ _ H1) as (new1 & X1 & F1).
  destruct (Hk _ _ _ _ H2) as (E2 & new2 & X2 & F2). exists (new2 ++ new1). split; [by eapply extends_trans|].
  rewrite E2. apply Forall_app_2; [|done]. eapply Forall_impl; [exact F2|]. by right.
Qed.
Lemma bind_as_try {E A B : Type} (m : IO E A) (k : A -> IO E B) p :
  switches p (io_try m (fun r => match r with Ok a => k a | Err e => io_err e end)) -> switches p (io_bind m k).
Proof. intros Ht w r w' Hr. apply (Ht w r w'). unfold io_try, io_bind in *. by destruct (m w) as [[] ?]. Qed.
Lemma switches_then {E A B : Type} p (m : IO E A) (k : A -> IO E B) :
  keeps p m -> (forall a, switches p (k a)) -> switches p (io_bind m k).
Proof. intros Hm Hk. apply bind_as_try, switches_after; [done|]. intros []; [done|apply switches_keeps, keeps_err]. Qed.
Lemma switches_first {E A B : Type} p (m : IO E A) (k : A -> IO E B) :
  switches p m -> (forall a, keeps p (k a)) -> switches p (io_bind m k).
Proof. intros Hm Hk. apply bind_as_try, switches_before; [done|]. intros []; [done|apply keeps_err]. Qed.

Lemma switches_map_err {E F A : Type} p (g : E -> F) (m : IO E A) : switches p m -> switches p (io_map_err g m).
Proof. intros Hm w r w' (r0 & Hr & _)%io_map_err_inv. by eapply Hm. Qed.
Lemma keeps_store {E : Type} q p (g : CompatError -> E) : keeps q (io_map_err g (load_users p)).
Proof. unfold load_users. solve_keeps. Qed.
Lemma keeps_print q (qr : bool) data {A : Type} (x : A) :
  keeps q ((if qr then print_qr qr_fits data else io_ret tt) ;; io_ret x).
Proof. unfold print_qr. solve_keeps. Qed.

Lemma switches_apply old new : switches (users_file cfg) (apply_users_and_save cfg old new).
Proof.
  pose proof (users_file_outside cfg) as Ho. apply switches_then; [by apply keeps_render_and_apply|]. intros live.
  apply switches_before; [apply switches_save|]. intros []; [apply keeps_ret|].
  apply keeps_try; [by apply keeps_render_and_apply|]. intros. apply keeps_err.
Qed.
Lemma switches_mutate id f : switches (users_file cfg) (mutate_and_apply cfg id f).
Proof.
  apply switches_then; [apply keeps_store|]. intros users.
  apply switches_then; [apply keeps_lift|]. intros. apply switches_apply.
Qed.
Lemma switches_rotate_token id qr entropy : switches (users_file cfg) (cmd_user_rotate_token qr_fits cfg id qr entropy).
Proof.
  apply switches_then; [apply keeps_store|]. intros users. apply switches_then; [apply keeps_lift|]. intros changed.
  apply switches_first; [apply switches_map_err, switches_save|]. intros. apply keeps_print.
Qed.
Lemma switches_user d c : switches (users_file cfg) (run_user qr_fits cfg d c).
Proof.
  destruct c; cbn [run_user]; (apply switches_first; [|intros; apply keeps_ret]); try apply switches_mutate;
    try apply switches_rotate_token.
  - apply switches_then; [apply keeps_store|]. intros users. destruct (fresh_user_id _ _); [|apply switches_keeps, keeps_ret].
    apply switches_then; [solve_keeps|]. intros now. apply switches_first; [apply switches_apply|]. intros live.
    cbv zeta. destruct json; [apply keeps_ret|apply keeps_print].
  - apply switches_keeps, keeps_from_store. intros. apply keeps_ret.
  - apply switches_keeps, keeps_from_store. intros. solve_keeps.
  - apply switches_then; [apply keeps_store|]. intros users. cbv zeta. destruct (_ =? _)%nat; [apply switches_keeps, keeps_err|].
    apply switches_apply.
  - apply switches_keeps, keeps_from_store. intros. apply keeps_lift.
Qed.

(** ** Histories of commands *)
Fixpoint run_all (cmds : list (Draws * UserCommands)) (w : world) : list (result anyhow Z) * world :=
  match cmds with
  | [] => ([], w)
  | (d, c) :: cmds =>
    let '(r, w) := run_user qr_fits cfg d c w in
    let '(rs, w) := run_all cmds w in (r :: rs, w)
  end.
(** The commands with their results, on the table. *)
Inductive account_trace : list (Draws * UserCommands) -> list (result anyhow Z) -> Accounts -> Accounts -> Prop :=
  | trace_end a : account_trace [] [] a a
  | trace_done d c z a a1 cmds rs a2 :
      account_step d c a a1 -> account_trace cmds rs a1 a2 -> account_trace ((d, c) :: cmds) (Ok z :: rs) a a2
  | trace_failed d c e a cmds rs a2 :
      account_trace cmds rs a a2 -> account_trace ((d, c) :: cmds) (Err e :: rs) a a2
  | trace_unprinted d c a a1 cmds rs a2 :
      account_step d c a a1 -> account_trace cmds rs a1 a2 -> account_trace ((d, c) :: cmds) (Err qr_error :: rs) a a2.

Lemma run_all_trace cmds w a :
  holds (w_fs w) a -> exists a', holds (w_fs (run_all cmds w).2) a' /\ account_trace cmds (run_all cmds w).1 a a'.
Proof.
  revert w a. induction cmds as [|[d c] cmds IH]; intros w a Ha; cbn [run_all]; [exists a; split; [done|constructor]|].
  destruct (run_user qr_fits cfg d c w) as [r w1] eqn:E. pose proof (refines_user d c w r w1 a Ha E) as Ho.
  destruct r as [z|e].
  - destruct Ho as (a1 & H1 & Hs). destruct (IH w1 a1 H1) as (a2 & H2 & Ht). destruct (run_all cmds w1) as [rs w2].
    exists a2. split; [done|]. by eapply trace_done.
  - destruct Ho as [Hu|(-> & a1 & H1 & Hs)].
    + destruct (IH w1 a (holds_ext _ _ _ Hu Ha)) as (a2 & H2 & Ht). destruct (run_all cmds w1) as [rs w2].
      exists a2. split; [done|by apply trace_failed].
    + destruct (IH w1 a1 H1) as (a2 & H2 & Ht). destruct (run_all cmds w1) as [rs w2].
      exists a2. split; [done|by eapply trace_unprinted].
Qed.


(** ** Tokens that nobody has *)
Definition absent (h : string) (a : Accounts) : Prop :=
  forall id u, a !! id = Some u -> u_subscription_token_hash_hex u <> h.
(** The invocation draws no token with this hash. *)
Definition draws_other (h : string) (d : Draws) : Prop :=
  hash_token (generate_subscription_token (d_token20 d)) <> h /\
  hash_token (generate_subscription_token (token_entropy (d_create d))) <> h.

Lemma absent_insert h a id u : absent h a -> u_subscription_token_hash_hex u <> h -> absent h (<[id := u]> a).
Proof. intros Ha Hu i v. rewrite lookup_insert_Some. intros [[_ <-]|[_ Hv]]; [done|by eapply Ha]. Qed.
Lemma absent_change h a a' id f :
  (forall u, u_subscription_token_hash_hex (f u) = u_subscription_token_hash_hex u) ->
  absent h a -> change id f a a' -> absent h a'.
Proof. intros Hf Ha (u & Hu & ->). apply absent_insert; [done|]. rewrite Hf. by eapply Ha. Qed.
Lemma absent_step h d c a a' : draws_other h d -> absent h a -> account_step d c a a' -> absent h a'.
Proof.
  intros [Ht Hc] Ha. destruct c; cbn [account_step]; try (by apply absent_change); try (by intros ->).
  - intros [(id & now & _ & ->)|[_ ->]]; [|done]. by apply absent_insert.
  - intros (u & Hu & ->). by apply absent_insert.
  - intros (u & Hu & ->). by apply absent_insert.
  - intros [_ ->] i v [_ Hv]%lookup_delete_Some. by eapply Ha.
Qed.
Lemma absent_trace h cmds rs a a' :
  Forall (fun x => draws_other h x.1) cmds -> absent h a -> account_trace cmds rs a a' -> absent h a'.
Proof.
  intros Hd Ha Ht. revert Hd Ha. induction Ht; [done|..]; intros [Hx Hd]%Forall_cons Ha; apply IHHt; try done;
    by eapply absent_step.
Qed.

(** The commands after which an account's old token is gone for good. *)
Definition retires (id : string) (c : UserCommands) : Prop :=
  match c with RotateToken i _ | Qr i | Remove i => i = id | _ => False end.
Lemma retires_step h d c a a' id u :
  draws_other h d -> retires id c -> a !! id = Some u ->
  (forall i v, a !! i = Some v -> u_subscription_token_hash_hex v = h -> i = id) ->
  account_step d c a a' -> absent h a'.
Proof.
  intros [Ht _] Hr Hu Huniq. destruct c; try done; cbn in Hr |- *; subst user_id.
  - intros (v & Hv & ->) i x [[_ <-]|[Hne Hx]]%lookup_insert_Some; [done|]. intros E. by apply Hne, eq_sym, (Huniq i x).
  - intros (v & Hv & ->) i x [[_ <-]|[Hne Hx]]%lookup_insert_Some; [done|]. intros E. by apply Hne, eq_sym, (Huniq i x).
  - intros [_ ->] i x [Hne Hx]%lookup_delete_Some. intros E. by apply Hne, eq_sym, (Huniq i x).
Qed.
End Refinement.

(** ** What the subscription service makes of the table *)
Section Serving.
Context {C : Clock} {Env : AdminEnv} {HexI : Hex} {Sha : Sha256} {B64 : Base64Url} {X : X25519}.
Context {JV : Json json} {JU : Json UsersFile} {JL : Json (list CompatUser)} {JUL : JsonLaws UsersFile}.
Context (qr_fits : string -> bool) (cfg : DeploymentConfig) (walk : Buckets -> list (IpAddr * (Z * Z))).

(** A request that gets past the limiter, to a service on this deployment's users
    whose read of them meets no fault. *)
Record request (s : AppState) (token : string) (ip : IpAddr) (instant : Z) (w : world) : Prop := {
  rq_users : Subscription.users_file s = users_file cfg;
  rq_allowed : fst (allow_subscription walk (rate_limiter s) ip instant) = true;
  rq_token : token_length_ok token;
  rq_reads : w_fault w (w_ops w) = None
}.

Lemma load_holds w a :
  holds cfg (w_fs w) a -> w_fault w (w_ops w) = None ->
  exists users w1, load_users (users_file cfg) w = (Ok users, w1) /\ NoDup (u_id <$> users) /\ accounts_of users = a.
Proof.
  intros (users & Hn & Ha & Hf) Hw. exists users, (snd (load_users (users_file cfg) w)). split; [|done].
  apply run_of_fst. destruct (w_fs w !! users_file cfg) as [[mt json|]|] eqn:E; [by eapply load_users_file|done|].
  subst users. unfold load_users, io_bind at 1. rewrite path_exists_run. unfold exists_at. by rewrite E.
Qed.
Lemma service_refuses s token query ip instant now w a :
  request s token ip instant w -> holds cfg (w_fs w) a ->
  (forall id u, a !! id = Some u -> Model.is_active u now = true -> u_subscription_token_hash_hex u <> hash_token token) ->
  (get_subscription walk s token query ip instant now w).1.1 = Some (text_response 404 "not found").
Proof.
  intros [Hp Hal Ht Hw] Ha Hno. destruct (load_holds w a Ha Hw) as (users & w1 & Hl & Hn & <-). rewrite <-Hp in Hl.
  rewrite (get_subscription_run walk _ _ _ _ _ _ _ _ _ Hal Ht Hl).
  destruct (find_user_by_token users token now) as [u|] eqn:Ef; [|done].
  destruct (find_user_Some _ _ _ _ Ef) as (Hu & Eh & Hact). exfalso.
  apply (Hno (u_id u) u); [by apply accounts_lookup|done|done].
Qed.
Lemma service_answers s token query ip instant now w a id u :
  request s token ip instant w -> holds cfg (w_fs w) a ->
  a !! id = Some u -> Model.is_active u now = true -> u_subscription_token_hash_hex u = hash_token token ->
  (forall i v, a !! i = Some v -> u_subscription_token_hash_hex v = hash_token token -> i = id) ->
  (get_subscription walk s token query ip instant now w).1.1 = render_reply s u query.
Proof.
  intros [Hp Hal Ht Hw] Ha Hu Hact Hh Huniq. destruct (load_holds w a Ha Hw) as (users & w1 & Hl & Hn & <-).
  rewrite <-Hp in Hl. rewrite (get_subscription_run walk _ _ _ _ _ _ _ _ _ Hal Ht Hl).
  apply accounts_lookup in Hu as Hin; [|done]. destruct Hin as [Hin Hid].
  destruct (find_user_by_token users token now) as [v|] eqn:Ef; [|by destruct (find_user_None _ _ _ Ef u Hin Hact)].
  destruct (find_user_Some _ _ _ _ Ef) as (Hv & Eh & _).
  assert (accounts_of users !! u_id v = Some v) as Hv' by (by apply accounts_lookup).
  rewrite (Huniq _ _ Hv' Eh) in Hv'. by simplify_eq.
Qed.

(** A subscription does not show the token it is asked for with. *)
Lemma render_lines_token h u eps : render_lines (set_token_hash h u) eps = render_lines u eps.
Proof. induction eps as [|ep eps IH]; [done|]. cbn [render_lines]. by rewrite IH. Qed.
Lemma render_reply_token h s u query : render_reply s (set_token_hash h u) query = render_reply s u query.
Proof. unfold render_reply, render_uri_list. by rewrite render_lines_token. Qed.

(** C4: A retired token is refused, and stays refused.  Once a [user rotate-token],
    [user qr] or [user remove] of an account has succeeded, a subscription
    service that reads the deployment's users answers every request with the
    account's old token with the 404 that an unknown token gets -- right away
    and after any further commands, whether they succeed or fail, as long as
    none draws a token of the same hash. *)
Theorem retired_token_refused d c later id u a token w z rs w' s query ip instant now w2 :
  holds cfg (w_fs w) a -> a !! id = Some u -> u_subscription_token_hash_hex u = hash_token token ->
  (forall i v, a !! i = Some v -> u_subscription_token_hash_hex v = hash_token token -> i = id) ->
  retires id c -> Forall (fun x => draws_other (hash_token token) x.1) ((d, c) :: later) ->
  run_all qr_fits cfg ((d, c) :: later) w = (Ok z :: rs, w') ->
  w_fs w2 !! users_file cfg = w_fs w' !! users_file cfg -> request s token ip instant w2 ->
  (get_subscription walk s token query ip instant now w2).1.1 = Some (text_response 404 "not found").
Proof.
  intros Ha Hu Hh Huniq Hr Hd Hrun Hw2 Hreq.
  destruct (run_all_trace qr_fits cfg ((d, c) :: later) w a Ha) as (a' & Ha' & Ht). rewrite Hrun in Ha', Ht.
  eapply service_refuses; [exact Hreq|by eapply holds_ext|]. intros i v Hv _. revert i v Hv. fold (absent (hash_token token) a').
  apply Forall_cons in Hd as [Hd Hlater]. inversion Ht; subst. eapply absent_trace; [exact Hlater| |done].
  by eapply retires_step.
Qed.

(** What a request is answered depends on the users file alone. *)
Lemma reply_file s token query ip instant now v f g :
  f !! Subscription.users_file s = g !! Subscription.users_file s ->
  (get_subscription walk s token query ip instant now (with_fs f v)).1.1 =
  (get_subscription walk s token query ip instant now (with_fs g v)).1.1.
Proof.
  intros E. unfold get_subscription. destruct (allow_subscription _ _ _ _) as [al l]. destruct al; [|done]. cbn [negb].
  destruct (_ || _); [done|]. cbn [Subscription.users_file set_limiter].
  assert ((load_users (Subscription.users_file s) (with_fs f v)).1 = (load_users (Subscription.users_file s) (with_fs g v)).1) as El.
  { unfold load_users, io_bind at 1 3. rewrite !path_exists_run. unfold exists_at. cbn [w_fs with_fs]. rewrite E.
    case_bool_decide; [|done]. cbn [negb]. unfold compat_io, io_bind, io_map_err, fs_read, syscall.
    cbn [w_fs with_fs w_fault w_ops]. rewrite E. destruct (w_fault v (w_ops v)); [done|].
    by destruct (g !! Subscription.users_file s) as [[]|]. }
  destruct (load_users _ (with_fs f v)) as [r1 w1], (load_users _ (with_fs g v)) as [r2 w2]. cbn in El. subst r2.
  destruct r1 as [users|]; [|done]. by destruct (find_user_by_token users token now).
Qed.

(** C6: Readers need no lock.  The subscription service reads users.json while
    [vpn-admin] works on it.  In every state that the disk goes through during a
    [user] command, whatever fails, every request is answered as it would have
    been before the command or as it is after it: never with an error that
    comes from a half-written file, and never from a mixture of both. *)
Theorem request_sees_before_or_after d c w r w' s token query ip instant now v :
  run_user qr_fits cfg d c w = (r, w') -> Subscription.users_file s = users_file cfg ->
  let reply f := (get_subscription walk s token query ip instant now (with_fs f v)).1.1 in
  exists new, w_hist w' = new ++ w_hist w /\
    Forall (fun f => reply f = reply (w_fs w) \/ reply f = reply (w_fs w')) new.
Proof.
  intros Hr Hs reply. destruct (switches_user qr_fits cfg d c _ _ _ Hr) as (new & (Hh & _) & Hn). exists new. split; [done|].
  eapply Forall_impl; [exact Hn|]. intros f. rewrite <-Hs. intros [E|E]; [left|right]; by apply reply_file.
Qed.

(** A rotated token takes over at once.  When [user rotate-token] has printed
    its link, the token in that link is answered with the subscription of the
    same account, with the credentials it had, while the account is active and
    no other one has a token of that hash. *)
Theorem rotated_token_served d id qr u a w z w' s query ip instant now w2 :
  let token := generate_subscription_token (d_token20 d) in
  holds cfg (w_fs w) a -> a !! id = Some u ->
  (forall i v, a !! i = Some v -> u_subscription_token_hash_hex v = hash_token token -> i = id) ->
  run_user qr_fits cfg d (RotateToken id qr) w = (Ok z, w') ->
  w_fs w2 !! users_file cfg = w_fs w' !! users_file cfg -> request s token ip instant w2 ->
  Model.is_active u now = true ->
  (get_subscription walk s token query ip instant now w2).1.1 =
    render_reply s (set_token_hash (hash_token token) u) query /\
  render_reply s (set_token_hash (hash_token token) u) query = render_reply s u query.
Proof.
  intros token Ha Hu Huniq Hrun Hw2 Hreq Hact. split; [|apply render_reply_token].
  destruct (refines_user qr_fits cfg d _ w _ w' a Ha Hrun) as (a' & Ha' & v & Hv & ->). simplify_eq.
  eapply service_answers; [exact Hreq|by eapply holds_ext|apply lookup_insert_eq|done|done|].
  intros i v [[<- _]|[_ Hv]]%lookup_insert_Some; [done|by eapply Huniq].
Qed.
End Serving.

(** ** Many operators at once *)
Section Operators.
Context {C : Clock} {Env : AdminEnv} {D : DoctorEnv} {PF : ProcFs} {TA : Tar} {TO : DeploymentToml}.
Context {HexI : Hex} {Sha : Sha256} {B64 : Base64Url} {X : X25519}.
Context {JV : Json json} {JU : Json UsersFile} {JL : Json (list CompatUser)} {JE : Json (list CompatEndpoint)}.
Context {JUL : JsonLaws UsersFile}.
Context (qr_fits : string -> bool) (cfg : DeploymentConfig).

(** What an invocation asks of the users' table. *)
Definition asked_of (j : invocation) : option (Draws * UserCommands) :=
  match j_command j with User c => Some (j_draws j, c) | _ => None end.

(** Invocations of [vpn-admin user] on one deployment: their settings file holds
    these settings, the lock file is there and they all use it, and neither of
    the two lies in the state directory (or above it). *)
Record operators_ok (js : list invocation) (L : path) (f : fs) : Prop := {
  op_user : forall j, j ∈ js -> is_Some (asked_of j);
  op_settings : forall j, j ∈ js -> settings_at (j_config j) f cfg;
  op_lock : L <> [] /\ lock_ready L f;
  op_env : forall j, j ∈ js -> lock_path (j_lock j) = L;
  op_aside : forall q, watched js L q -> aside cfg q
}.

Section Operating.
Context (js : list invocation) (L : path) (f : fs) (Hops : operators_ok js L f).
Notation undisturbed := (undisturbed (watched js L) f).

Lemma asked_command j d c : asked_of j = Some (d, c) -> j_command j = User c /\ j_draws j = d.
Proof. unfold asked_of. destruct (j_command j); naive_solver. Qed.
Lemma operators_deployed : deployment_ok qr_fits js L f.
Proof.
  destruct Hops as [Hu Hset Hl He Ha]. split; [done|by auto|..].
  - intros j Hj _. destruct (Hu j Hj) as [[d c] [-> _]%asked_command]. done.
  - intros j cfg' Hj _ Hcfg. destruct (Hu j Hj) as [[d c] [-> _]%asked_command].
    assert (cfg' = cfg) as -> by (specialize (Hset j Hj); unfold settings_at in *; congruence). by apply user_spares.
Qed.
Lemma operators_blind j cfg' : j ∈ js -> mutates j = true ->
  blind_prog (command_prog qr_fits cfg' (j_config j) (j_draws j) (j_command j)).
Proof. intros Hj _. destruct (op_user _ _ _ Hops j Hj) as [[d c] [-> _]%asked_command]. apply user_blind. Qed.
Lemma operators_system s : steps (boot qr_fits js f) s -> system_ok qr_fits js f (watched js L) L s.
Proof. apply deployed_ok; [exact operators_deployed|exact operators_blind]. Qed.

Definition serial_results (idx : list nat) : list (result anyhow Z) :=
  imap (fun k i => match js !! i with Some j => (alone qr_fits j (serially qr_fits js (take k idx) f)).1 | None => Ok 0 end) idx.
Lemma serial_results_snoc idx i j : js !! i = Some j ->
  serial_results (idx ++ [i]) = serial_results idx ++ [(alone qr_fits j (serially qr_fits js idx f)).1].
Proof.
  intros Hj. unfold serial_results. rewrite imap_app. cbn. rewrite Hj, Nat.add_0_r, take_app_length. f_equal.
  apply imap_ext. intros k i' Hi'. apply lookup_lt_Some in Hi'. by rewrite take_app_le by lia.
Qed.

Definition step_outcome (d : Draws) (c : UserCommands) (r : result anyhow Z) (a a' : Accounts) : Prop :=
  match r with
  | Ok _ => account_step d c a a'
  | Err e => a' = a \/ (e = qr_error /\ account_step d c a a')
  end.
Lemma trace_snoc cmds rs a a1 d c r a2 :
  account_trace cmds rs a a1 -> step_outcome d c r a1 a2 -> account_trace (cmds ++ [(d, c)]) (rs ++ [r]) a a2.
Proof.
  intros Ht Hr. unfold step_outcome in Hr.
  induction Ht; cbn [app]; [|by eapply trace_done; eauto|by apply trace_failed, IHHt|by eapply trace_unprinted; eauto].
  destruct r as [z|e]; [by eapply trace_done; [exact Hr|constructor]|].
  destruct Hr as [->|[-> Hr]]; [by apply trace_failed; constructor|]. by eapply trace_unprinted; [exact Hr|constructor].
Qed.

(** The whole of [main] by itself: refused before the command, or the command. *)
Lemma main_user j d c g : j ∈ js -> asked_of j = Some (d, c) -> mutates j = true -> undisturbed g ->
  (exists e, alone qr_fits j g = (Err e, g)) \/
  exists w, w_fs w = g /\ alone qr_fits j g = ((run_user qr_fits cfg d c w).1, w_fs (run_user qr_fits cfg d c w).2).
Proof.
  intros Hj [Hc Hd]%asked_command Hm Hg. destruct Hops as [_ Hset [Hne Hready] He _].
  assert (watched js L (j_config j)) as Hcp by (left; eauto). unfold alone, main, mutates in *. rewrite Hm, Hc, Hd.
  set (w := with_fs g (j_view j)). unfold io_bind.
  destruct (quiet_act_load_config (watched js L) f (j_config j) Hcp w w) as (_ & E1 & _); [done|done|done|].
  destruct (load_config (j_config j) w) as [[cfg'|e] w1] eqn:El; cbn in E1; [|left; exists e; cbn; by rewrite E1].
  assert (cfg' = cfg) as ->.
  { assert (settings_at (j_config j) f cfg') as Hs by (eapply (settings_loaded _ w); [by apply Hg|by rewrite El]).
    specialize (Hset j Hj). unfold settings_at in *. congruence. }
  assert (undisturbed (w_fs w1)) as Hw1 by (by rewrite E1).
  destruct (quiet_act_map_err (watched js L) f (with_context "acquiring vpn1 state lock (another vpn-admin/install/update operation is in progress)")
    _ (quiet_act_acquire (watched js L) f L Hready ltac:(by right) (j_lock j) (He j Hj) Hne) w1 w1) as (_ & E2 & _); [done|done|done|].
  unfold context. destruct (io_map_err _ _ w1) as [[[]|e] w2]; cbn in E2; [|left; exists e; cbn; by rewrite E2, E1].
  right. exists w2. by rewrite E2, E1.
Qed.
Lemma alone_step j d c g a : j ∈ js -> asked_of j = Some (d, c) -> mutates j = true -> undisturbed g -> holds cfg g a ->
  exists a', holds cfg (alone qr_fits j g).2 a' /\ step_outcome d c (alone qr_fits j g).1 a a'.
Proof.
  intros Hj Hr Hm Hg Ha. destruct (main_user j d c g Hj Hr Hm Hg) as [[e ->]|(w & <- & ->)]; [exists a; by split; [|left]|].
  destruct (run_user qr_fits cfg d c w) as [r w'] eqn:E. pose proof (refines_user qr_fits cfg d c w r w' a Ha E) as Ho.
  destruct r as [z|e]; [exact Ho|]. destruct Ho as [Hu|(-> & a' & H1 & H2)];
    [exists a; split; [by eapply holds_ext|by left]|]. exists a'. split; [done|by right].
Qed.
Lemma alone_undisturbed i j g : js !! i = Some j -> mutates j = true -> undisturbed g -> undisturbed (alone qr_fits j g).2.
Proof.
  intros Hj Hm Hg. rewrite alone_run. eapply quiet_run; [|exact Hg].
  by apply (deployed_quiet qr_fits js L f operators_deployed operators_blind i).
Qed.

Definition requests (idx : list nat) : list (Draws * UserCommands) := omap (fun i => js !! i ≫= asked_of) idx.
Lemma serial_trace idx a :
  (forall i, i ∈ idx -> exists j, js !! i = Some j /\ mutates j = true) -> holds cfg f a ->
  undisturbed (serially qr_fits js idx f) /\ exists a', holds cfg (serially qr_fits js idx f) a' /\
    account_trace (requests idx) (serial_results idx) a a'.
Proof.
  intros Hidx Ha. induction idx as [|i idx IH] using rev_ind.
  - split; [done|]. exists a. split; [done|constructor].
  - destruct IH as (Hset & a1 & H1 & Ht); [intros k Hk; apply Hidx; set_solver|].
    destruct (Hidx i) as (j & Hj & Hm); [set_solver|]. rewrite serially_app, (serial_results_snoc idx i j Hj).
    unfold requests. rewrite omap_app. cbn [serially omap list_omap]. rewrite Hj. cbn.
    pose proof (list_elem_of_lookup_2 _ _ _ Hj) as Hin. destruct (op_user _ _ _ Hops j Hin) as [[d c] Hr]. rewrite Hr.
    destruct (alone_step j d c _ a1 Hin Hr Hm Hset H1) as (a2 & H2 & Ho).
    split; [by eapply alone_undisturbed|]. exists a2. split; [done|]. by eapply trace_snoc.
Qed.

(** Only commands that change state get the lock. *)
Lemma ordered_mutate s : steps (boot qr_fits js f) s -> forall i, i ∈ order s -> exists j, js !! i = Some j /\ mutates j = true.
Proof.
  apply (rtc_ind_r (fun s => forall i, i ∈ order s -> exists j, js !! i = Some j /\ mutates j = true));
    [intros i Hi; by apply not_elem_of_nil in Hi|].
  intros s1 s2 Hs Hstep IH. destruct Hstep as [|s1 i v p k Hi Hh out Hout|s1 i v p k e Hi out Hout|]; try exact IH. cbn.
  intros i' [Hi'| ->%list_elem_of_singleton]%elem_of_app; [by apply IH|].
  destruct (running_ok _ _ _ _ _ _ _ _ _ (operators_system s1 Hs) Hi) as (j & Hj & [(_ & _ & [])|(Hm & _)]). by exists j.
Qed.
End Operating.

(** C13: Operators at once see one table.  However any number of [vpn-admin user]
    processes interleave, whenever nobody holds the lock users.json reads as the
    table that results from the accounts at the start by the commands of the
    processes that got the lock, in the order in which they got it: each with
    the abstract step of its own command if it succeeded, without any change if
    it failed (or with the change, if only its QR code could not be printed);
    and a command that changes state exits with its result there, or, if it
    never got the lock, with an error. *)
Theorem operators_share_table js L f a s :
  operators_ok js L f -> holds cfg f a -> steps (boot qr_fits js f) s -> held s !! L = None ->
  exists a' rs, holds cfg (shared s) a' /\ account_trace (requests js (order s)) rs a a' /\
    forall i j p r, js !! i = Some j -> procs s !! i = Some p -> mutates j = true -> p_state p = Exited r ->
      (exists k, order s !! k = Some i /\ rs !! k = Some r) \/ (i ∉ order s /\ exists e, r = Err e).
Proof.
  intros Hops Ha Hs Hfree.
  pose proof (operators_system js L f Hops s Hs) as Hok. pose proof (ordered_mutate js L f Hops s Hs) as Hord.
  destruct (serial_trace js L f Hops (order s) a Hord Ha) as (_ & a' & Ha' & Ht).
  exists a', (serial_results js f (order s)). rewrite (ok_free _ _ _ _ _ _ Hok Hfree). split; [done|]. split; [done|].
  intros i j p r Hj Hp Hm Hx. destruct (ok_procs _ _ _ _ _ _ Hok _ _ Hp) as (j' & Hj' & Hpk). assert (j' = j) as -> by congruence.
  unfold process_ok in Hpk. rewrite Hx, Hm in Hpk. destruct Hpk as [(Hn & He & _)|(b & l & Ho & Hr)]; [by right|]. left.
  exists (length b). unfold serial_results. rewrite list_lookup_imap, Ho, list_lookup_middle by done. cbn [fmap option_fmap option_map].
  by rewrite Hj, take_app_length, Hr.
Qed.
End Operators.

(** ** A concrete history *)
Module LifecycleDemo.
Import StoreDemo RenderDemo ServerDemo ServiceDemo DeploymentDemo AdminDemo.
Definition carol : CompatUser :=
  Build_CompatUser "c3" "carol" true "uuid-c" (MkSecret "pw-c") (hash_token "tok") 100 (Some 200).
Definition accounts : Accounts := accounts_of [bob; carol].
Definition office : world :=
  World (<[["s"; "users"; "users.json"] := File (Meta 416 0 7) (default [] (ok (to_vec_pretty (envelope [bob; carol]))))]>
    AdminDemo.state) [] 0 (fun _ => None) (Proc 42 18 0 0) (fun _ _ _ => Ok (Output true (as_bytes "loaded") [])) [].
Definition draws : Draws := {|
  d_create := {| id_draws := []; token_entropy := repeat x2b 20; uuid_entropy := []; password_entropy := [] |};
  d_uuid16 := []; d_password24 := []; d_token20 := repeat x2a 20; d_short_id4 := []; d_obfs24 := [];
  d_staging := ["tmp"; "x"]; d_cwd := [] |}.
(** Carol's token is rotated, Bob is enabled, and someone unknown removed. *)
Definition history : list (Draws * UserCommands) :=
  [(draws, RotateToken "c3" false); (draws, Enable "b2"); (draws, Remove "z9")].
Definition ended := run_all (fun _ => true) AdminDemo.cfg history office.
Definition rotated := run_user (fun _ => true) AdminDemo.cfg draws (RotateToken "c3" false) office.
Definition service : AppState := {|
  Subscription.users_file := users_file AdminDemo.cfg;
  endpoints := deployed_endpoints "vpn.example.com" ServerDemo.client_key "01ab" ServerDemo.reality ServerDemo.hysteria ServerDemo.ports;
  rate_limiter := limiter_new (200 * Fl.fone Fl.f64) (50 * Fl.fone Fl.f64) |}.

Lemma office_holds : holds AdminDemo.cfg (w_fs office) accounts.
Proof.
  exists [bob; carol]. split; [|split; [done|]].
  - apply NoDup_ListNoDup. vm_compute. repeat constructor; cbn; intuition discriminate.
  - vm_compute. reflexivity.
Qed.
Lemma carol_only i v :
  accounts !! i = Some v -> u_subscription_token_hash_hex v = hash_token "tok" -> i = "c3".
Proof.
  unfold accounts. rewrite !accounts_cons. intros [[<- <-]|[_ [[<- <-]|[_ Hv]]%lookup_insert_Some]]%lookup_insert_Some;
    [|done|done]. intros E. vm_compute in E. discriminate E.
Qed.
Lemma calm_lookup (f : fs) p : w_fs (calm_world f) !! p = f !! p.
Proof. done. Qed.
Lemma ended_head : fst ended = Ok 0 :: tl (fst ended).
Proof. vm_compute. reflexivity. Qed.
End LifecycleDemo.

Section LifecycleWitnesses.
Import StoreDemo RenderDemo ServerDemo ServiceDemo DeploymentDemo AdminDemo LifecycleDemo.


Lemma retired_token_refused_witness :
  (get_subscription map_to_list service "tok" (Build_SubQuery None None) (V4 1) 0 150
     (calm_world (w_fs (snd ended)))).1.1 = Some (text_response 404 "not found").
Proof.
  refine (retired_token_refused (fun _ => true) AdminDemo.cfg map_to_list draws (RotateToken "c3" false)
    [(draws, Enable "b2"); (draws, Remove "z9")] "c3" carol accounts "tok" office 0 (tl (fst ended)) (snd ended)
    service (Build_SubQuery None None) (V4 1) 0 150 (calm_world (w_fs (snd ended))) office_holds _ eq_refl carol_only eq_refl _ _ _ _).
  - vm_compute. reflexivity.
  - assert (draws_other (hash_token "tok") draws) as Hd by (split; vm_compute; discriminate).
    repeat (apply Forall_cons; split; [exact Hd|]). apply Forall_nil_2.
  - exact (eq_trans (surjective_pairing ended) (f_equal (fun rs => (rs, snd ended)) ended_head)).
  - exact (calm_lookup (w_fs (snd ended)) _).
  - split; [reflexivity|vm_compute; reflexivity|vm_compute; lia|reflexivity].
Defined.

Lemma request_sees_before_or_after_witness :
  (length (w_hist (snd rotated)) =? 0)%nat = false /\
  let reply f := (get_subscription map_to_list service "tok" (Build_SubQuery None None) (V4 1) 0 150
    (with_fs f office)).1.1 in
  exists new, w_hist (snd rotated) = new ++ w_hist office /\
    Forall (fun f => reply f = reply (w_fs office) \/ reply f = reply (w_fs (snd rotated))) new.
Proof.
  split; [vm_compute; reflexivity|].
  apply (request_sees_before_or_after (fun _ => true) AdminDemo.cfg map_to_list draws (RotateToken "c3" false) office
    (fst rotated) (snd rotated) service "tok" (Build_SubQuery None None) (V4 1) 0 150 office); [|reflexivity].
  exact (surjective_pairing rotated).
Defined.

Lemma rotated_token_served_witness :
  let token := generate_subscription_token (repeat x2a 20) in
  (get_subscription map_to_list service token (Build_SubQuery None None) (V4 1) 0 150
     (calm_world (w_fs (snd rotated)))).1.1 = render_reply service (set_token_hash (hash_token token) carol) (Build_SubQuery None None).
Proof.
  refine (proj1 (rotated_token_served (fun _ => true) AdminDemo.cfg map_to_list draws "c3" false carol accounts office 0
    (snd rotated) service (Build_SubQuery None None) (V4 1) 0 150 (calm_world (w_fs (snd rotated))) office_holds _ _ _ (calm_lookup _ _) _ eq_refl)).
  - vm_compute. reflexivity.
  - unfold accounts. rewrite !accounts_cons. intros i v [[<- <-]|[_ [[<- <-]|[_ Hv]]%lookup_insert_Some]]%lookup_insert_Some E;
      [vm_compute in E; discriminate E|done|done].
  - refine (run_of_fst (run_user (fun _ => true) AdminDemo.cfg draws (RotateToken "c3" false)) office (Ok 0) _).
    vm_compute. reflexivity.
  - split; [reflexivity|vm_compute; reflexivity|vm_compute; lia|reflexivity].
Defined.
End LifecycleWitnesses.

Section OperatorsWitness.
Import StoreDemo RenderDemo ServerDemo ServiceDemo DeploymentDemo AdminDemo BackupDemo PerfDemo DoctorDemo CliDemo.

Lemma demo_operators : operators_ok AdminDemo.cfg LockDemo.operators LockDemo.lock_file LockDemo.disk.
Proof.
  split.
  - intros j Hj. destruct (LockDemo.an_operator j Hj) as (u & Hu & _). unfold asked_of. rewrite Hu. by eexists.
  - intros j Hj. destruct (LockDemo.an_operator j Hj) as (u & _ & -> & _). exact LockDemo.settings_here.
  - split; [discriminate|exact LockDemo.lock_there].
  - intros j Hj. by destruct (LockDemo.an_operator j Hj) as (u & _ & _ & -> & _).
  - exact LockDemo.watched_aside.
Qed.
Lemma operators_share_table_witness :
  exists a' rs, holds AdminDemo.cfg (shared LockDemo.final) a' /\
    account_trace [(CliDemo.draws, Disable "a1"); (CliDemo.draws, Enable "b2")] rs (accounts_of [alice; bob]) a'.
Proof.
  destruct LockDemo.final_state as (Ho & Hh & _).
  destruct (operators_share_table (fun _ => true) AdminDemo.cfg LockDemo.operators LockDemo.lock_file LockDemo.disk
    (accounts_of [alice; bob]) LockDemo.final demo_operators) as (a' & rs & Ha & Ht & _);
    [|exact (follow_steps LockDemo.schedule _)|exact Hh|].
  - exists [alice; bob]. split; [|split; [reflexivity|vm_compute; reflexivity]].
    apply NoDup_ListNoDup. vm_compute. repeat constructor; cbn; intuition discriminate.
  - exists a', rs. split; [exact Ha|]. rewrite Ho in Ht. exact Ht.
Defined.
End OperatorsWitness.
